(* ===== verification/_CoqProject ===== *)
-Q . S2P
Prelude.v
Bytes.v
Crc32c.v
Effects.v
Region.v
Channel.v
V4.v
V4Facts.v
Names.v
NamesFacts.v
Segment.v
Helper.v
Prefault.v
Writer.v
MapAhead.v
Reader.v
Api.v
Wake.v
Chain.v
RegionFacts.v
PrefaultFacts.v
PopulateFacts.v
SegmentFacts.v
WriterInv.v
CommitFacts.v
ReserveFacts.v
PrepareFacts.v
RollFacts.v
Handshake.v
RecoverFacts.v
ReaderFacts.v
Route.v
RouteFacts.v
OpenFacts.v
LocateFacts.v
SeekFacts.v
Carry.v
Carried.v
Joining.v
BuildFacts.v
WriterFacts.v
Demo.v
WriterTheorems.v
ReaderTheorems.v
OpenTheorems.v
Broadcast.v
BroadcastTheorems.v
HelperTheorems.v
WakeFacts.v
GroupFacts.v
WakeTheorems.v
AheadFacts.v
AheadReads.v
AheadRuns.v
AheadTheorems.v
BatchFacts.v
BatchTheorems.v
Assisted.v
AssistedRolls.v
AssistedTurns.v
AssistedSends.v
AssistedTheorems.v
Findings.v
