(* ===== verification/Prelude.v ===== *)
(** * xchannel: a verification library

    xchannel is a single-writer, many-reader message channel on memory-mapped files.  A channel is a
    sequence of segment files; a segment is a header page and a chain of records, each a 16-byte
    header and a payload, in regions of a fixed size; the header's advisory pair ([write_position],
    [message_count]) lags the chain by at most one record.  A writer commits a record by setting one
    byte of its header, leaves a region with a [Skip] and a file with a [Roll] that names the next
    file, and rolls by preparing the successor under a private name, installing it, publishing it
    and only then committing the [Roll].  Readers map the same files and follow the chain.

    This library translates the program into executable Rocq definitions and proves what the writer
    guarantees to its readers, to the writer that reopens the channel after a crash, and to its
    caller.

    ** The files

    - [Prelude]: machine integers as [Z] with their wrap-around written out, shared tactics.
    - [Bytes]: the bytes of a file as a finite map, little-endian fields, overwriting.
    - [Crc32c]: both implementations of the checksum in src/v4.rs, their equality, and the errors
      the checksum detects.
    - [Effects]: [io::Error], the file-system world (directory, inodes, clock, oracle), the effect
      monad [M] and its weakest preconditions.  An operation is a function of [self] and of the
      world; its outcome carries the trace of the worlds it went through, which is what a crash can
      leave and what a concurrent reader can see.  The oracle says which calls fail, what the random
      source gives, what others do between our steps, and how the clock moves.
    - [Region] (src/region.rs, std::fs): mappings, bounds, [SIGBUS], loads, stores and atomic
      updates, file calls.
    - [Channel] (src/channel.rs), [V4] (src/v4.rs): record and channel headers, the header extension,
      [Roll] bodies; [V4Facts]: their round trips and what they detect.
    - [Names] (src/lib.rs): segment and attempt names, directory scans, the sweep, preallocation;
      [NamesFacts]: names parse back and private names never look final.
    - [Segment] (src/lib.rs): validation, publication tests, the walk over the records, preparation
      of a new segment, choice of the segment a writer resumes.
    - [Helper], [Prefault], [MapAhead] (src/helper.rs, prefault.rs, map_ahead.rs): the helper
      threads' shared state and the two handles on it.
    - [Writer] (src/lib.rs: WriterBuilder, Writer), [Reader] (ReaderBuilder, Reader, MessageBatch),
      [Wake] (src/wake.rs, wait_for_message, wait_any); [Api] (src/lib.rs): the builders' setters, the
      accessors and the errors' texts.
    - [Chain]: the specification: what the bytes of a segment mean, as an inductive chain of
      committed records and the messages on it.
    - [RegionFacts], [SegmentFacts]: rules for the primitives on a calm world (nobody else acts and
      no call fails), and the walk's correctness against [Chain].
    - The writer.  [WriterInv]: its invariant [writer_ok], and the states an interrupted append can
      leave; [CommitFacts], [ReserveFacts], [PrepareFacts], [RollFacts], [RecoverFacts],
      [WriterFacts]: one file per group of operations.  [RollFacts] states what each step of a roll
      leaves ([made_public], [public_ok]).
    - The reader.  [ReaderFacts]: where a reader stands in one segment; [Route], [RouteFacts]: what
      lies ahead of it across files; [OpenFacts], [LocateFacts], [SeekFacts]: opening in each mode,
      the search for a record, seeking and the index queries.
    - Both together.  [Carry], [Carried]: readers while the writer appends and rolls; [Joining]:
      readers that join meanwhile; [BuildFacts]: a channel being created; [Broadcast]: the
      specification of the whole, a log, and the step relation of a writer and its readers.
    - The helpers.  [PrefaultFacts]: the accounts of the queues and the pages populated;
      [Handshake]: claiming, installing and unlinking segments as a step relation of two threads.
    - A writer's helper.  [Assisted]: what the shared state promises about the file the writer is in,
      and that a writer that holds the promise does there what one without a helper does;
      [AssistedRolls]: the promise about the next file, and a roll into it; [AssistedTurns]: a turn of
      the thread keeps both; [AssistedSends]: sends with turns between the writer's calls.
    - A reader's helper.  [AheadFacts]: what the shared state promises, and simulation of a reader by
      one with a helper; [AheadReads]: each way of reading and waiting is simulated; [AheadRuns]: the
      helper's turn keeps the promise, and runs of calls, turns and changes by others.
    - Batches.  [BatchFacts]: the scan of [try_read_batch], whose cursor is on the reader's route
      while the reader stays where it is, and what the batch shows.
    - Waiting.  [WakeFacts]: turns of a wait against the clock, and what others' stores do to a sleep;
      [GroupFacts]: the same for a wait over several readers.
    - [Demo]: a concrete channel built by the model, for the witnesses.
    - [WriterTheorems], [ReaderTheorems], [OpenTheorems], [BroadcastTheorems], [HelperTheorems],
      [WakeTheorems], [AheadTheorems], [AssistedTheorems], [BatchTheorems]: the properties, with their witnesses; those of
      the format and of names are in [V4Facts] and [NamesFacts].
    - [Findings]: concrete runs in which the code does not do what it means to.

    ** What the theorems show

    - The channel is a log ([BroadcastTheorems]): every run of a writer and any number of readers
      that join, seek, poll and read is a run of the abstract log, so each reader receives what was
      sent after its position, in order, once, unchanged; a reader that asks often enough catches
      up; a new channel is the empty log, appears whole under its name or not at all, and the sweep
      that precedes it removes abandoned attempts only.
    - Appending ([WriterTheorems]): a reservation within the limits succeeds in at most four turns of
      its loop; a commit appends exactly the message and keeps all before it; at every point of it a
      reader finds the old records or those and the new one; a crash at any point, and a crash of
      the recovery from it, is recovered by reopening the file.  A region move changes no message; a
      roll keeps the numbering, and a committed [Roll] always leads to a published successor that it
      names.  What is refused changes nothing.
    - Reading ([ReaderTheorems], [BatchTheorems]): single, owned and batched reads deliver the next
      messages in order; a peek consumes nothing; commits, region moves and rolls reach a reader whole.
    - Opening and seeking ([OpenTheorems]): the record asked for is found by the search and the walk,
      a refused seek leaves the reader where it was, and the index queries tell what can be sought.
    - The writer's helper ([HelperTheorems]): under every interleaving and failure of the two threads a
      segment that retention removed does not come back; [prepare_segment] runs the steps of that
      protocol; the queues stay accounted and within their bounds; the thread populates only pages
      of the regions it was given.
    - A writer with its helper ([AssistedTheorems]): wherever the helper's turns fall between its calls,
      every send succeeds and the messages of its segments are the ones sent, each segment left by
      the [Roll] that names the next; at every point of a roll, into a segment the helper installed or
      one the writer prepares, the channel leads on; a turn of the helper changes no byte of a file
      there is, and what it holds ready is what the writer takes.
    - The reader's helper ([AheadTheorems]): what it offers is what the reader would have mapped, a
      file replaced under the name of the one it opened included, so a reader with a helper answers
      any sequence of calls as one without does, wherever the helper's turns fall between them.
    - Waiting ([WakeTheorems]): a blocking read returns the next message at once if there is one, and
      otherwise returns after its time and not before, in a bounded number of turns, and so does a wait
      over several readers, which names the first that has one; a commit ends every wait of one
      reader, asleep or not.
    - Format ([V4Facts], [NamesFacts]): encodings read back, decoders are canonical, damage is
      detected, both checksums agree, names are apart, preallocation is in bounds.

    ** Conventions and bounds

    Rust's [usize] and [u64] are [Z] with [u64] written where the code's arithmetic can wrap; a panic
    is [Die (Panicked _)], an access past the end of a file [Die SigBus].  [f64] is the Standard
    Library's binary64.  Loops that are not structural carry fuel: [RESERVE_FUEL] is the longest way
    to a reservation and is proved enough; [walk_fuel] is one turn per 16 bytes of the file and is
    proved enough; the helpers' loops run until they are told to stop, and take the number of turns
    as an argument; a loop that is out of fuel ends in [Die OutOfFuel], never in a result.  Error
    messages are shortened to their fixed part.

    The theorems on crashes and on readers are about a writer and readers that map, fault and unmap
    for themselves ([w_prefault] and [r_map_ahead] are [None]); what the helpers add is the subject of
    [HelperTheorems], [AssistedTheorems] and [AheadTheorems].  In the last two a call of the writer or
    the reader and a turn of its helper are single steps; in [AheadTheorems] others act between them,
    and a call that fails without the helper may succeed with it, because the helper still holds a
    file that was removed since.  [room_for] counts the regions, files, indices and instance IDs that
    a number of messages may use; IDs are what the random source will give, none the attempt of which
    is in the directory already ([id_free]).  Calm worlds are those in which no call fails and nobody
    outside the model touches the channel's files; [removed_segments_stay_removed],
    [helper_queues_stay_accounted], [helper_populates_inside_the_region] and the theorems on errors
    do not need them.

    ** What is not modelled

    Page-table hints ([drop_page_tables]) and the bytes' way through the page cache, memory ordering
    weaker than interleaving, [crash_point], debug assertions and the test-only fault injection, the
    examples, benchmarks and tests.  There are no theorems on borrowed batches with a helper, which
    can make them longer, and on a call of a writer or a reader that overlaps a turn of its helper,
    but for the handshake over the next segment ([Handshake]). *)

From Stdlib Require Export ZArith Lia List Bool.
From stdpp Require Export base option list gmap strings pretty.

#[global] Open Scope Z_scope.
#[global] Set Default Goal Selector "!".

Declare Scope xch_scope.
Delimit Scope xch_scope with xch.
#[global] Open Scope xch_scope.

(** ** Machine integers: unsigned values as [Z], wrap-around written out *)

Definition wrap (w x : Z) : Z := x mod 2 ^ w.
Abbreviation u8 := (wrap 8).
Abbreviation u16 := (wrap 16).
Abbreviation u32 := (wrap 32).
Abbreviation u64 := (wrap 64).
Definition U16_MAX : Z := 2 ^ 16 - 1.
Definition U32_MAX : Z := 2 ^ 32 - 1.
Definition U64_MAX : Z := 2 ^ 64 - 1.
Definition I64_MAX : Z := 2 ^ 63 - 1.

(** [u64] and [usize] operations of the standard library the code uses. *)
Definition checked_add (x y : Z) : option Z :=
  if x + y <=? U64_MAX then Some (x + y) else None.
Definition saturating_sub (x y : Z) : Z := Z.max 0 (x - y).
Definition saturating_add (x y : Z) : Z := Z.min U64_MAX (x + y).
Definition saturating_mul (x y : Z) : Z := Z.min U64_MAX (x * y).
Definition is_multiple_of (x y : Z) : bool :=
  if y =? 0 then x =? 0 else x mod y =? 0.

(** ** Automation *)

(** Turn boolean comparisons in the context into [Z] propositions. *)
Ltac bools :=
  repeat match goal with
  | H : (_ && _) = true |- _ => apply andb_prop in H; destruct H
  | H : (_ || _) = false |- _ => apply orb_false_elim in H; destruct H
  | H : negb _ = true |- _ => apply negb_true_iff in H
  | H : negb _ = false |- _ => apply negb_false_iff in H
  | H : (_ =? _) = true |- _ => apply Z.eqb_eq in H
  | H : (_ =? _) = false |- _ => apply Z.eqb_neq in H
  | H : (_ <=? _) = true |- _ => apply Z.leb_le in H
  | H : (_ <=? _) = false |- _ => apply Z.leb_gt in H
  | H : (_ <? _) = true |- _ => apply Z.ltb_lt in H
  | H : (_ <? _) = false |- _ => apply Z.ltb_ge in H
  | H : (_ >? _) = true |- _ => apply Z.gtb_lt in H
  | H : (_ >? _) = false |- _ => rewrite Z.gtb_ltb in H; apply Z.ltb_ge in H
  | H : (_ >=? _) = true |- _ => apply Z.geb_le in H
  | H : (_ >=? _) = false |- _ => rewrite Z.geb_leb in H; apply Z.leb_gt in H
  end.

(** Linear arithmetic with division and remainder. *)
Ltac zlia := Z.div_mod_to_equations; lia.

(** Decide the boolean test of the goal's next [if] by linear arithmetic. *)
Ltac decide_if :=
  match goal with
  | |- context [if ?b then _ else _] =>
      first
        [ replace b with true by (symmetry; rewrite ?Z.eqb_eq, ?Z.leb_le, ?Z.ltb_lt; lia)
        | replace b with false
            by (symmetry; rewrite ?Z.eqb_neq, ?Z.leb_gt, ?Z.ltb_ge; lia) ]
  end.

Lemma wrap_small w x : 0 <= x < 2 ^ w -> wrap w x = x.
Proof. intros. unfold wrap. by apply Z.mod_small. Qed.

Lemma wrap_range w x : 0 <= w -> 0 <= wrap w x < 2 ^ w.
Proof. intros. unfold wrap. apply Z.mod_pos_bound. lia. Qed.

Lemma wrap_idem w x : wrap w (wrap w x) = wrap w x.
Proof. unfold wrap. destruct (decide (2 ^ w = 0)) as [->|]; [by rewrite !Z.mod_0_r|]. by rewrite Z.mod_mod. Qed.

Lemma checked_add_Some x y z : checked_add x y = Some z <-> z = x + y /\ x + y <= U64_MAX.
Proof.
  unfold checked_add. destruct (Z.leb_spec (x + y) U64_MAX); split.
  - intros [= <-]. lia.
  - by intros [-> _].
  - done.
  - intros [_ ?]. lia.
Qed.
