(* ===== verification/Bytes.v ===== *)
(** * Sparse byte memories and little-endian integers

    The contents of a file are a finite map from offsets to byte cells; an offset that was never
    written reads as zero, as the holes of a sparse file do.  A cell is read as a byte, whatever
    [Z] it holds, so every read is in [0, 256) with no side condition. *)

From S2P Require Import Prelude.

Abbreviation bytes := (gmap Z Z).

(** ** Definitions *)

Definition rd (d : bytes) (a : Z) : Z := default 0 (d !! a) mod 256.

Fixpoint wr (d : bytes) (a : Z) (bs : list Z) : bytes :=
  match bs with
  | [] => d
  | b :: bs => wr (<[a := b]> d) (a + 1) bs
  end.

Fixpoint peek (d : bytes) (a : Z) (n : nat) : list Z :=
  match n with
  | O => []
  | S n => rd d a :: peek d (a + 1) n
  end.

Fixpoint le_bytes (n : nat) (v : Z) : list Z :=
  match n with
  | O => []
  | S n => v mod 256 :: le_bytes n (v / 256)
  end.

Fixpoint le_val (l : list Z) : Z :=
  match l with
  | [] => 0
  | b :: l => b + 256 * le_val l
  end.

Definition get (n : nat) (d : bytes) (a : Z) : Z := le_val (peek d a n).
Definition put (n : nat) (d : bytes) (a v : Z) : bytes := wr d a (le_bytes n v).

Definition zeros (n : nat) : list Z := replicate n 0.
Definition is_byte (b : Z) : Prop := 0 <= b < 256.

(** Two memories hold the same bytes in [lo, hi). *)
Definition same (lo hi : Z) (d d' : bytes) : Prop := forall a, lo <= a < hi -> rd d a = rd d' a.

(** ** Lists of bytes *)

Lemma length_le_bytes n v : length (le_bytes n v) = n.
Proof. revert v. induction n as [|n IH]; intros; simpl; [done|]. by rewrite IH. Qed.

Lemma length_peek d a n : length (peek d a n) = n.
Proof. revert a. induction n as [|n IH]; intros; simpl; [done|]. by rewrite IH. Qed.

Lemma rd_byte d a : is_byte (rd d a).
Proof. unfold is_byte, rd. apply Z.mod_pos_bound. lia. Qed.

Lemma le_bytes_byte n v : Forall is_byte (le_bytes n v).
Proof.
  revert v. induction n as [|n IH]; intros v; simpl; constructor; [|apply IH].
  apply Z.mod_pos_bound. lia.
Qed.

Lemma peek_byte d a n : Forall is_byte (peek d a n).
Proof. revert a. induction n as [|n IH]; intros a; simpl; constructor; auto using rd_byte. Qed.

Lemma length_zeros n : length (zeros n) = n.
Proof. apply length_replicate. Qed.

Lemma zeros_byte n : Forall is_byte (zeros n).
Proof. apply Forall_replicate. unfold is_byte. lia. Qed.

Lemma le_val_range l : Forall is_byte l -> 0 <= le_val l < 256 ^ Z.of_nat (length l).
Proof.
  induction 1 as [|b l Hb _ IH]; [simpl; lia|].
  cbn [le_val length]. rewrite Nat2Z.inj_succ, Z.pow_succ_r by lia. unfold is_byte in Hb. lia.
Qed.

Lemma le_val_le_bytes n v : le_val (le_bytes n v) = v mod 256 ^ Z.of_nat n.
Proof.
  revert v. induction n as [|n IH]; intros v; [simpl; by rewrite Z.mod_1_r|].
  cbn [le_val le_bytes]. rewrite IH, Nat2Z.inj_succ, Z.pow_succ_r by lia.
  rewrite Z.rem_mul_r by lia. lia.
Qed.

Lemma le_val_u32 v : 0 <= v < 2 ^ 32 -> le_val (le_bytes 4 v) = v.
Proof. intros. rewrite le_val_le_bytes. by apply Z.mod_small. Qed.

Lemma le_val_u64 v : 0 <= v < 2 ^ 64 -> le_val (le_bytes 8 v) = v.
Proof. intros. rewrite le_val_le_bytes. by apply Z.mod_small. Qed.

Lemma le_bytes_le_val l : Forall is_byte l -> le_bytes (length l) (le_val l) = l.
Proof.
  induction 1 as [|b l Hb _ IH]; [done|]. cbn [le_val length le_bytes]. unfold is_byte in Hb.
  replace (b + 256 * le_val l) with (le_val l * 256 + b) by lia.
  rewrite Z.div_add_l, (Z.div_small b), Z.add_0_r, IH by lia.
  f_equal. rewrite Z.add_comm, Z.mod_add, Z.mod_small by lia. done.
Qed.

Lemma le_val_inj l1 l2 :
  Forall is_byte l1 -> Forall is_byte l2 -> length l1 = length l2 -> le_val l1 = le_val l2 -> l1 = l2.
Proof.
  intros H1 H2 Hl Hv. rewrite <- (le_bytes_le_val l1), <- (le_bytes_le_val l2) by done. congruence.
Qed.

Lemma get_range n d a : 0 <= get n d a < 256 ^ Z.of_nat n.
Proof. unfold get. rewrite <- (length_peek d a n) at 3. apply le_val_range, peek_byte. Qed.

(** ** Reads over writes *)

Lemma wr_app d a bs1 bs2 : wr d a (bs1 ++ bs2) = wr (wr d a bs1) (a + Z.of_nat (length bs1)) bs2.
Proof.
  revert d a. induction bs1 as [|b bs1 IH]; intros d a; cbn [wr app length].
  - by rewrite Z.add_0_r.
  - rewrite IH. f_equal. lia.
Qed.

Lemma peek_app d a n m : peek d a (n + m) = peek d a n ++ peek d (a + Z.of_nat n) m.
Proof.
  revert a. induction n as [|n IH]; intros a; cbn [peek Nat.add app].
  - by rewrite Z.add_0_r.
  - rewrite IH. do 3 f_equal. lia.
Qed.

Lemma rd_insert_ne (d : bytes) a a' b : a <> a' -> rd (<[a' := b]> d) a = rd d a.
Proof. intros. unfold rd. by rewrite lookup_insert_ne. Qed.

Lemma rd_insert_eq (d : bytes) a b : rd (<[a := b]> d) a = b mod 256.
Proof. unfold rd. by rewrite lookup_insert_eq. Qed.

Lemma rd_wr_out d a bs x : x < a \/ a + Z.of_nat (length bs) <= x -> rd (wr d a bs) x = rd d x.
Proof.
  revert d a. induction bs as [|b bs IH]; intros d a H; cbn [wr length] in *; [done|].
  rewrite IH, rd_insert_ne by lia. done.
Qed.

Lemma same_refl lo hi d : same lo hi d d.
Proof. done. Qed.

Lemma same_sym lo hi d d' : same lo hi d d' -> same lo hi d' d.
Proof. intros H a Ha. symmetry. by apply H. Qed.

Lemma same_trans lo hi d1 d2 d3 : same lo hi d1 d2 -> same lo hi d2 d3 -> same lo hi d1 d3.
Proof. intros H1 H2 a Ha. rewrite H1 by done. by apply H2. Qed.

Lemma same_sub lo hi lo' hi' d d' : same lo hi d d' -> lo <= lo' -> hi' <= hi -> same lo' hi' d d'.
Proof. intros H ? ? a Ha. apply H. lia. Qed.

Lemma same_wr lo hi d a bs :
  hi <= a \/ a + Z.of_nat (length bs) <= lo -> same lo hi d (wr d a bs).
Proof. intros H x Hx. rewrite rd_wr_out; [done|lia]. Qed.

Lemma peek_same d d' a n : same a (a + Z.of_nat n) d d' -> peek d a n = peek d' a n.
Proof.
  revert a. induction n as [|n IH]; intros a H; cbn [peek]; [done|].
  f_equal; [apply H; lia|]. apply IH. intros x Hx. apply H. lia.
Qed.

Lemma get_same n d d' a : same a (a + Z.of_nat n) d d' -> get n d a = get n d' a.
Proof. intros. unfold get. by rewrite (peek_same d d'). Qed.

Lemma peek_wr_out d a bs x n :
  x + Z.of_nat n <= a \/ a + Z.of_nat (length bs) <= x -> peek (wr d a bs) x n = peek d x n.
Proof. intros. apply peek_same, same_sym, same_wr. lia. Qed.

Lemma peek_wr_eq d a bs : Forall is_byte bs -> peek (wr d a bs) a (length bs) = bs.
Proof.
  intros H. revert d a. induction H as [|b bs Hb _ IH]; intros d a; cbn [wr peek length]; [done|].
  rewrite IH. f_equal. rewrite rd_wr_out by lia. rewrite rd_insert_eq. by apply Z.mod_small.
Qed.

Lemma get_put_eq n d a v : get n (put n d a v) a = v mod 256 ^ Z.of_nat n.
Proof.
  unfold get, put. rewrite <- (length_le_bytes n v) at 2.
  rewrite peek_wr_eq by apply le_bytes_byte. apply le_val_le_bytes.
Qed.

Lemma get_put_ne n m d a b v :
  a + Z.of_nat n <= b \/ b + Z.of_nat m <= a -> get n (put m d b v) a = get n d a.
Proof. intros. unfold get, put. rewrite peek_wr_out; [done|]. rewrite length_le_bytes. lia. Qed.

Lemma get_wr_out n d a b bs :
  a + Z.of_nat n <= b \/ b + Z.of_nat (length bs) <= a -> get n (wr d b bs) a = get n d a.
Proof. intros. unfold get. by rewrite peek_wr_out. Qed.

(** [put] writes at most the bytes it names. *)
Lemma same_put lo hi n d a v : hi <= a \/ a + Z.of_nat n <= lo -> same lo hi d (put n d a v).
Proof. intros. apply same_wr. rewrite length_le_bytes. lia. Qed.

#[export] Hint Rewrite length_le_bytes length_peek : bytes.

Create HintDb bytes discriminated.
#[export] Hint Resolve same_refl le_bytes_byte peek_byte zeros_byte rd_byte : bytes.

#[global] Arguments zeros : simpl never.
#[global] Arguments wr : simpl never.
#[global] Arguments peek : simpl never.
#[global] Arguments le_bytes : simpl never.
#[global] Arguments le_val : simpl never.

(** Side conditions about lengths and ranges. *)
Ltac len :=
  cbn in *;
  rewrite ?length_app, ?length_le_bytes, ?length_peek, ?length_zeros, ?length_replicate in *;
  cbn in *; lia.
