(* ===== verification/Crc32c.v ===== *)
(** * CRC32C (src/v4.rs)

    The table-driven checksum, the checksum built on the [crc32] instruction, their equality, and
    what the checksum detects: every change confined to four consecutive bytes. *)

From S2P Require Import Prelude Bytes.

(** ** Definitions *)

Definition POLY : Z := 0x82F63B78.

(** One turn of the inner loop of [CRC32C_TABLE]'s initialiser. *)
Definition crc_bit (c : Z) : Z :=
  if negb (Z.land c 1 =? 0) then Z.lxor (Z.shiftr c 1) POLY else Z.shiftr c 1.

Definition crc32c_table_entry (i : nat) : Z := Nat.iter 8 crc_bit (Z.of_nat i).

Definition CRC32C_TABLE : list Z := map crc32c_table_entry (seq 0 256).

Definition crc32c_table_step (c b : Z) : Z :=
  Z.lxor (nth (Z.to_nat (Z.land (Z.lxor c b) 0xFF)) CRC32C_TABLE 0) (Z.shiftr c 8).

Definition crc32c_table (bs : list Z) : Z :=
  Z.lxor (fold_left crc32c_table_step bs U32_MAX) U32_MAX.

(** The [crc32] instruction: it feeds the bits of its operand, low bit first, to the reflected
    polynomial; the 64-bit form takes the eight bytes of its operand in little-endian order. *)
Definition mm_crc32_u8 (c b : Z) : Z := Nat.iter 8 crc_bit (Z.lxor c b).
Definition mm_crc32_u64 (c v : Z) : Z := fold_left mm_crc32_u8 (le_bytes 8 v) (u32 c).

(** [chunks_exact(8)] and its [remainder()]; the length of the list is fuel enough. *)
Fixpoint chunks_exact8 (fuel : nat) (bs : list Z) : list (list Z) * list Z :=
  match fuel with
  | O => ([], bs)
  | S fuel =>
      if (length bs <? 8)%nat then ([], bs)
      else let '(words, rest) := chunks_exact8 fuel (skipn 8 bs) in (firstn 8 bs :: words, rest)
  end.

Definition crc32c_sse42 (bs : list Z) : Z :=
  let '(words, remainder) := chunks_exact8 (length bs) bs in
  let c := fold_left (fun c w => mm_crc32_u64 c (le_val w)) words U64_MAX in
  Z.lxor (fold_left mm_crc32_u8 remainder (u32 c)) U32_MAX.

(** [has_sse42] is what [is_x86_feature_detected!] reports. *)
Definition crc32c (has_sse42 : bool) (bs : list Z) : Z :=
  if has_sse42 then crc32c_sse42 bs else crc32c_table bs.

(** ** One bit: linearity, range, inverse *)

Definition crc_unbit (y : Z) : Z :=
  if Z.testbit y 31 then 2 * Z.lxor y POLY + 1 else 2 * y.

Definition u32_range (c : Z) : Prop := 0 <= c < 2 ^ 32.

Lemma crc_bit_odd c : crc_bit c = if Z.odd c then Z.lxor (Z.shiftr c 1) POLY else Z.shiftr c 1.
Proof.
  unfold crc_bit. replace (Z.land c 1) with (c mod 2) by (symmetry; apply (Z.land_ones c 1); lia).
  rewrite Zmod_odd. by destruct (Z.odd c).
Qed.

Lemma lxor_cancel_mid a b p : Z.lxor (Z.lxor a p) (Z.lxor b p) = Z.lxor a b.
Proof.
  apply Z.bits_inj'. intros n _. rewrite !Z.lxor_spec.
  by destruct (Z.testbit a n), (Z.testbit b n), (Z.testbit p n).
Qed.

Lemma odd_lxor a b : Z.odd (Z.lxor a b) = xorb (Z.odd a) (Z.odd b).
Proof. rewrite <- !Z.bit0_odd. apply Z.lxor_spec. Qed.

Lemma crc_bit_lxor a b : crc_bit (Z.lxor a b) = Z.lxor (crc_bit a) (crc_bit b).
Proof.
  rewrite !crc_bit_odd, odd_lxor, Z.shiftr_lxor.
  destruct (Z.odd a), (Z.odd b); cbn [xorb].
  - symmetry. apply lxor_cancel_mid.
  - by rewrite !Z.lxor_assoc, (Z.lxor_comm POLY).
  - by rewrite Z.lxor_assoc.
  - done.
Qed.

Lemma iter_lxor n a b :
  Nat.iter n crc_bit (Z.lxor a b) = Z.lxor (Nat.iter n crc_bit a) (Nat.iter n crc_bit b).
Proof. induction n as [|n IH]; [done|]. rewrite !Nat.iter_succ, IH. apply crc_bit_lxor. Qed.

Lemma iter_shiftl n h : Nat.iter n crc_bit (Z.shiftl h (Z.of_nat n)) = h.
Proof.
  revert h. induction n as [|n IH]; intros h; [apply Z.shiftl_0_r|].
  rewrite Nat.iter_succ_r, crc_bit_odd.
  rewrite <- Z.bit0_odd, Z.shiftl_spec_low by lia.
  rewrite Z.shiftr_shiftl_l by lia.
  replace (Z.of_nat (S n) - 1) with (Z.of_nat n) by lia. apply IH.
Qed.

Lemma lxor_range a b : u32_range a -> u32_range b -> u32_range (Z.lxor a b).
Proof.
  unfold u32_range. intros Ha Hb. split; [apply Z.lxor_nonneg; lia|].
  destruct (decide (Z.lxor a b = 0)) as [->|Hne]; [lia|].
  assert (0 <= Z.lxor a b) by (apply Z.lxor_nonneg; lia).
  apply Z.log2_lt_pow2; [lia|]. eapply Z.le_lt_trans; [apply Z.log2_lxor; lia|].
  apply Z.max_lub_lt.
  - destruct (decide (a = 0)) as [->|]; [done|]. apply Z.log2_lt_pow2; lia.
  - destruct (decide (b = 0)) as [->|]; [done|]. apply Z.log2_lt_pow2; lia.
Qed.

Lemma byte_u32 b : is_byte b -> u32_range b.
Proof. unfold is_byte, u32_range. lia. Qed.

Lemma shiftr_range c n : 0 <= n -> u32_range c -> u32_range (Z.shiftr c n).
Proof.
  unfold u32_range. intros Hn Hc. rewrite Z.shiftr_div_pow2 by done.
  pose proof (Z.pow_pos_nonneg 2 n). split; [apply Z.div_pos; lia|].
  apply Z.le_lt_trans with c; [|lia]. apply Z.div_le_upper_bound; [lia|].
  assert (1 <= 2 ^ n) by lia. nia.
Qed.

Lemma crc_bit_range c : u32_range c -> u32_range (crc_bit c).
Proof.
  intros Hc. rewrite crc_bit_odd. case_match; [apply lxor_range|]; auto using shiftr_range with lia.
  unfold u32_range, POLY. lia.
Qed.

Lemma iter_range n c : u32_range c -> u32_range (Nat.iter n crc_bit c).
Proof. intros. induction n as [|n IH]; rewrite ?Nat.iter_succ; auto using crc_bit_range. Qed.

Lemma crc_unbit_bit c : u32_range c -> crc_unbit (crc_bit c) = c.
Proof.
  intros Hc. unfold u32_range in Hc. rewrite crc_bit_odd. unfold crc_unbit.
  assert (Hhi : Z.testbit (Z.shiftr c 1) 31 = false).
  { rewrite Z.shiftr_spec by lia. destruct (decide (c = 0)) as [->|]; [done|].
    apply Z.bits_above_log2; [lia|]. apply Z.log2_lt_pow2; lia. }
  pose proof (Z.div_mod c 2 ltac:(lia)) as Hdm.
  rewrite Zmod_odd in Hdm. rewrite (Z.shiftr_div_pow2 c 1) in * by lia. change (2 ^ 1) with 2 in *.
  destruct (Z.odd c).
  - rewrite Z.lxor_spec, Hhi. change (Z.testbit POLY 31) with true. cbn [xorb].
    rewrite Z.lxor_assoc, Z.lxor_nilpotent, Z.lxor_0_r. lia.
  - rewrite Hhi. lia.
Qed.

Lemma crc_bit_inj a b : u32_range a -> u32_range b -> crc_bit a = crc_bit b -> a = b.
Proof. intros Ha Hb H. rewrite <- (crc_unbit_bit a), <- (crc_unbit_bit b) by done. by rewrite H. Qed.

Lemma iter_inj n a b :
  u32_range a -> u32_range b -> Nat.iter n crc_bit a = Nat.iter n crc_bit b -> a = b.
Proof.
  intros Ha Hb. induction n as [|n IH]; [done|]; rewrite !Nat.iter_succ.
  intros H. apply IH, crc_bit_inj; auto using iter_range.
Qed.

(** ** One byte: the table step is eight bit steps *)

Lemma split_low_byte x : x = Z.lxor (Z.land x 0xFF) (Z.shiftl (Z.shiftr x 8) 8).
Proof.
  apply Z.bits_inj'. intros n Hn. rewrite Z.lxor_spec, Z.land_spec, Z.shiftl_spec by done.
  change 0xFF with (Z.ones 8). rewrite Z.testbit_ones_nonneg by lia.
  destruct (Z.ltb_spec n 8).
  - rewrite (Z.testbit_neg_r _ (n - 8)) by lia. by rewrite andb_true_r, xorb_false_r.
  - rewrite Z.shiftr_spec by lia. rewrite andb_false_r, xorb_false_l. f_equal. lia.
Qed.

Lemma iter8_split x :
  Nat.iter 8 crc_bit x = Z.lxor (Nat.iter 8 crc_bit (Z.land x 0xFF)) (Z.shiftr x 8).
Proof.
  rewrite (split_low_byte x) at 1. rewrite iter_lxor. f_equal.
  apply (iter_shiftl 8 (Z.shiftr x 8)).
Qed.

Lemma shiftr8_byte b : is_byte b -> Z.shiftr b 8 = 0.
Proof. intros H. unfold is_byte in H. rewrite Z.shiftr_div_pow2 by lia. apply Z.div_small. lia. Qed.

Lemma table_lookup x : nth (Z.to_nat (Z.land x 0xFF)) CRC32C_TABLE 0 = Nat.iter 8 crc_bit (Z.land x 0xFF).
Proof.
  assert (Hx : 0 <= Z.land x 0xFF < 256).
  { change 0xFF with (Z.ones 8). rewrite Z.land_ones by lia. apply Z.mod_pos_bound. lia. }
  unfold CRC32C_TABLE.
  rewrite (nth_indep _ 0 (crc32c_table_entry 0)) by (rewrite length_map, length_seq; lia).
  rewrite map_nth, seq_nth by lia. unfold crc32c_table_entry.
  f_equal. lia.
Qed.

Lemma table_step_bits c b : is_byte b -> crc32c_table_step c b = mm_crc32_u8 c b.
Proof.
  intros Hb. unfold crc32c_table_step, mm_crc32_u8.
  rewrite table_lookup, (iter8_split (Z.lxor c b)).
  by rewrite Z.shiftr_lxor, (shiftr8_byte b), Z.lxor_0_r.
Qed.

Lemma fold_table_bits bs c :
  Forall is_byte bs -> fold_left crc32c_table_step bs c = fold_left mm_crc32_u8 bs c.
Proof.
  intros H. revert c. induction H as [|b bs Hb _ IH]; intros c; cbn [fold_left]; [done|].
  by rewrite table_step_bits, IH.
Qed.

Lemma fold_bits_range bs c :
  Forall is_byte bs -> u32_range c -> u32_range (fold_left mm_crc32_u8 bs c).
Proof.
  intros H. revert c. induction H as [|b bs Hb _ IH]; intros c Hc; cbn [fold_left]; [done|].
  apply IH. unfold mm_crc32_u8. auto using iter_range, lxor_range, byte_u32.
Qed.

Lemma crc_init_range : u32_range U32_MAX.
Proof. unfold u32_range, U32_MAX. lia. Qed.

(** ** The word loop of the instruction-based checksum *)

Lemma chunks_exact8_spec fuel bs :
  (length bs <= fuel)%nat ->
  let '(words, rest) := chunks_exact8 fuel bs in
  bs = concat words ++ rest /\ Forall (fun w => length w = 8%nat) words.
Proof.
  revert bs. induction fuel as [|n IH]; intros bs Hlen; cbn [chunks_exact8]; [done|].
  destruct (Nat.ltb_spec (length bs) 8); [done|].
  specialize (IH (skipn 8 bs)). destruct (chunks_exact8 n (skipn 8 bs)) as [words rest].
  destruct IH as [Hcat Hall]; [rewrite length_skipn; lia|]. split.
  - cbn [concat]. rewrite <- app_assoc, <- Hcat. symmetry. apply firstn_skipn.
  - constructor; [|done]. rewrite length_firstn. lia.
Qed.

Lemma crc32_u64_bits w c :
  Forall is_byte w -> length w = 8%nat -> mm_crc32_u64 c (le_val w) = fold_left mm_crc32_u8 w (u32 c).
Proof.
  intros Hw Hl. unfold mm_crc32_u64.
  assert (Hle : le_bytes 8 (le_val w) = w) by (rewrite <- Hl; by apply le_bytes_le_val).
  by rewrite Hle.
Qed.

Lemma u32_u32_range c : u32_range (u32 c).
Proof. apply wrap_range. lia. Qed.

Lemma crc32_u64_u32 w c :
  Forall is_byte w -> length w = 8%nat ->
  u32 (mm_crc32_u64 c (le_val w)) = fold_left mm_crc32_u8 w (u32 c).
Proof.
  intros Hw Hl. rewrite crc32_u64_bits by done. apply wrap_small, fold_bits_range; [done|].
  apply u32_u32_range.
Qed.

Lemma fold_left_concat {A B} (g : A -> list B -> A) (f : A -> B -> A) (h : A -> A)
    (P : list B -> Prop) (Hstep : forall c w, P w -> h (g c w) = fold_left f w (h c)) words c :
  Forall P words -> h (fold_left g words c) = fold_left f (concat words) (h c).
Proof.
  intros Hw. revert c. induction Hw as [|w words Hp _ IH]; intros c; cbn [fold_left concat]; [done|].
  by rewrite fold_left_app, IH, Hstep.
Qed.

Lemma fold_words_bits words c :
  Forall is_byte (concat words) -> Forall (fun w => length w = 8%nat) words ->
  u32 (fold_left (fun c w => mm_crc32_u64 c (le_val w)) words c)
  = fold_left mm_crc32_u8 (concat words) (u32 c).
Proof.
  intros Hb Hl.
  apply (fold_left_concat (fun c w => mm_crc32_u64 c (le_val w)) mm_crc32_u8 u32
           (fun w => Forall is_byte w /\ length w = 8%nat)).
  - intros c' w [Hw Hlw]. by apply crc32_u64_u32.
  - induction Hl as [|w words Hw _ IH]; constructor; cbn [concat] in Hb; apply Forall_app in Hb as [? ?]; auto.
Qed.

Lemma u32_max : u32 U64_MAX = U32_MAX.
Proof. reflexivity. Qed.

Lemma crc32c_bits (sse : bool) bs :
  Forall is_byte bs -> crc32c sse bs = Z.lxor (fold_left mm_crc32_u8 bs U32_MAX) U32_MAX.
Proof.
  intros H. unfold crc32c. destruct sse.
  - unfold crc32c_sse42. pose proof (chunks_exact8_spec (length bs) bs (le_n _)) as Hc.
    destruct (chunks_exact8 _ bs) as [words rest]. destruct Hc as [-> Hw].
    apply Forall_app in H as [Hcat Hrest].
    rewrite fold_words_bits, fold_left_app, u32_max; done.
  - unfold crc32c_table. by rewrite fold_table_bits.
Qed.

Lemma crc32c_range (sse : bool) bs : Forall is_byte bs -> 0 <= crc32c sse bs < 2 ^ 32.
Proof.
  intros H. rewrite crc32c_bits by done.
  apply lxor_range; auto using fold_bits_range, crc_init_range.
Qed.

(** ** Error detection *)

Lemma shiftl8_val b l : is_byte b -> Forall is_byte l ->
  le_val (b :: l) = Z.lxor b (Z.shiftl (le_val l) 8).
Proof.
  intros Hb Hl. change (le_val (b :: l)) with (b + 256 * le_val l). rewrite (split_low_byte (b + 256 * le_val l)). f_equal.
  - change 0xFF with (Z.ones 8). rewrite Z.land_ones by lia. unfold is_byte in Hb.
    replace (b + 256 * le_val l) with (b + le_val l * 2 ^ 8) by lia.
    rewrite Z.mod_add, Z.mod_small by lia. done.
  - f_equal. rewrite Z.shiftr_div_pow2 by lia. unfold is_byte in Hb.
    replace (b + 256 * le_val l) with (le_val l * 2 ^ 8 + b) by lia.
    rewrite Z.div_add_l, Z.div_small by lia. lia.
Qed.

(** A run of bytes is fed to the register as one little-endian number. *)
Lemma fold_bits_val bs c :
  Forall is_byte bs ->
  fold_left mm_crc32_u8 bs c = Nat.iter (8 * length bs) crc_bit (Z.lxor c (le_val bs)).
Proof.
  intros H. revert c. induction H as [|b bs Hb Hbs IH]; intros c.
  { cbn. by rewrite Z.lxor_0_r. }
  cbn [fold_left]. rewrite IH, shiftl8_val by done. cbn [length].
  replace (8 * S (length bs))%nat with (8 * length bs + 8)%nat by lia.
  rewrite Nat.iter_add. f_equal.
  rewrite <- Z.lxor_assoc, iter_lxor, (iter_shiftl 8). done.
Qed.

Lemma fold_bits_inj_val m1 m2 c :
  Forall is_byte m1 -> Forall is_byte m2 -> length m1 = length m2 -> (length m1 <= 4)%nat ->
  u32_range c -> fold_left mm_crc32_u8 m1 c = fold_left mm_crc32_u8 m2 c -> m1 = m2.
Proof.
  intros H1 H2 Hl H4 Hc. rewrite !fold_bits_val, Hl by done. intros Heq.
  assert (Hr : forall m, Forall is_byte m -> length m = length m1 -> u32_range (le_val m)).
  { intros m Hm Hlm. pose proof (le_val_range m Hm) as Hv. unfold u32_range. split; [lia|].
    eapply Z.lt_le_trans; [apply Hv|]. change (2 ^ 32) with (256 ^ 4).
    apply Z.pow_le_mono_r; lia. }
  apply iter_inj in Heq; [|apply lxor_range; auto..].
  apply le_val_inj; [done..|].
  apply (f_equal (Z.lxor c)) in Heq.
  by rewrite <- !Z.lxor_assoc, Z.lxor_nilpotent, !Z.lxor_0_l in Heq.
Qed.

Lemma fold_bits_inj_reg ys c1 c2 :
  Forall is_byte ys -> u32_range c1 -> u32_range c2 ->
  fold_left mm_crc32_u8 ys c1 = fold_left mm_crc32_u8 ys c2 -> c1 = c2.
Proof.
  intros H. revert c1 c2. induction H as [|b ys Hb Hys IH]; intros c1 c2 H1 H2; [done|].
  cbn [fold_left]. intros Heq. apply IH in Heq; cycle 1.
  { unfold mm_crc32_u8. auto using iter_range, lxor_range, byte_u32. }
  { unfold mm_crc32_u8. auto using iter_range, lxor_range, byte_u32. }
  unfold mm_crc32_u8 in Heq. apply iter_inj in Heq; [|apply lxor_range; auto using byte_u32..].
  apply (f_equal (fun x => Z.lxor x b)) in Heq.
  by rewrite !Z.lxor_assoc, Z.lxor_nilpotent, !Z.lxor_0_r in Heq.
Qed.

Lemma lxor_max_inj a b : Z.lxor a U32_MAX = Z.lxor b U32_MAX -> a = b.
Proof.
  intros H. apply (f_equal (fun x => Z.lxor x U32_MAX)) in H.
  by rewrite !Z.lxor_assoc, Z.lxor_nilpotent, !Z.lxor_0_r in H.
Qed.

Lemma crc32c_burst_inj (sse : bool) xs m1 m2 ys :
  Forall is_byte xs -> Forall is_byte m1 -> Forall is_byte m2 -> Forall is_byte ys ->
  length m1 = length m2 -> (length m1 <= 4)%nat ->
  crc32c sse (xs ++ m1 ++ ys) = crc32c sse (xs ++ m2 ++ ys) -> m1 = m2.
Proof.
  intros Hx H1 H2 Hy Hl H4. rewrite !crc32c_bits by (repeat apply Forall_app_2; done).
  intros Heq%lxor_max_inj. rewrite !fold_left_app in Heq.
  assert (u32_range (fold_left mm_crc32_u8 xs U32_MAX)) by auto using fold_bits_range, crc_init_range.
  apply fold_bits_inj_reg in Heq; auto using fold_bits_range.
  by apply fold_bits_inj_val in Heq.
Qed.

#[export] Hint Resolve crc32c_range : bytes.

#[global] Arguments crc32c : simpl never.
