(* ===== verification/Effects.v ===== *)
(** * Errors, the file-system world and the effect monad

    The code's results are [io::Result]s; its methods mutate [self] and the files they map.  Every
    operation is a value of [M S A]: a function of the caller's [self : S] and of the world, whose
    outcome also carries the trace of the worlds every primitive update went through.  A crash can
    leave any world of that trace behind, and a concurrent reader can look at any of them. *)

From S2P Require Import Prelude Bytes.

(** ** Errors *)

Inductive ErrorKind :=
  | NotFound | AlreadyExists | InvalidInput | InvalidData | IsADirectory | Interrupted
  | OtherKind.

#[export] Instance ErrorKind_eq_dec : EqDecision ErrorKind.
Proof. solve_decision. Defined.

(** What an [io::Error] carries: a message, an OS error code, or one of the code's error types
    ([GenerationMismatch], [IndexPruned], [StaleSegment]). *)
Inductive payload :=
  | Msg (s : string)
  | Os (errno : Z)
  | MismatchOf (expected found : Z)
  | PrunedOf (index earliest : Z)
  | StaleOf.

#[export] Instance payload_eq_dec : EqDecision payload.
Proof. solve_decision. Defined.

Record io_error := IoError { kind : ErrorKind; get_ref : payload }.

#[export] Instance io_error_eq_dec : EqDecision io_error.
Proof. solve_decision. Defined.

(** Ways an operation can end other than by returning: a [panic!], an access no mapping backs
    ([SIGBUS] past the end of a file), or a loop that used up the fuel of its definition. *)
Inductive abort := Panicked (s : string) | SigBus | OutOfFuel.

Inductive res (A : Type) := Ok (a : A) | Err (e : io_error) | Die (why : abort).
Arguments Ok {A} a.
Arguments Err {A} e.
Arguments Die {A} why.

Definition is_ok {A} (r : res A) : bool := match r with Ok _ => true | _ => false end.

#[export] Instance res_ret : MRet res := fun A a => Ok a.
#[export] Instance res_bind : MBind res := fun A B k r =>
  match r with Ok a => k a | Err e => Err e | Die y => Die y end.

Definition err_other (s : string) : io_error := IoError OtherKind (Msg s).
Definition err_invalid_data (s : string) : io_error := IoError InvalidData (Msg s).
Definition err_invalid_input (s : string) : io_error := IoError InvalidInput (Msg s).

(** [ok_or_else]. *)
Definition ok_or {A} (o : option A) (e : io_error) : res A :=
  match o with Some a => Ok a | None => Err e end.

(** ** The world *)

Record inode := Inode { i_len : Z; i_data : bytes }.

(** A directory entry: a regular file, by inode number, or a directory. *)
Inductive dirent := DFile (ino : Z) | DDir.

(** A mapping: a window on an inode. *)
Record RegionMapping := Mapping { rm_ino : Z; region_offset : Z; region_size : Z }.

#[export] Instance RegionMapping_eq_dec : EqDecision RegionMapping.
Proof. solve_decision. Defined.

(** Requests to the kernel that change neither a file nor the directory: [FUTEX_WAKE] on the word at
    [off] of a file, and [MADV_POPULATE_WRITE] of a range of a mapping. *)
Inductive kcall :=
  | KWake (ino off : Z)
  | KPopulate (m : RegionMapping) (off len : Z).

#[export] Instance kcall_eq_dec : EqDecision kcall.
Proof. solve_decision. Defined.

(** An update made by someone else: another process, or another thread of this one. *)
Inductive event :=
  | EvStore (ino off : Z) (bs : list Z)
  | EvLen (ino len : Z)
  | EvLink (name : string) (ino : Z)
  | EvUnlink (name : string)
  | EvWake (ino off : Z).

(** What the environment will do: the outcome of each call the OS may fail (empty: no failure),
    the bytes each request to the random source will give, what others will do before each of our next steps
    (empty: nothing), and how far the clock moves before each reading (1 ns once it runs out). *)
Record oracle := Oracle {
  o_io : list (option io_error);
  o_random : list (list Z);
  o_events : list (list event);
  o_ticks : list Z
}.

(** [w_calls] is the history of the requests to the kernel, the latest first. *)
Record world := World {
  w_dir : gmap string dirent;
  w_inodes : gmap Z inode;
  w_next : Z;
  w_clock : Z;
  w_oracle : oracle;
  w_calls : list kcall
}.

Definition set_dir (d : gmap string dirent) (w : world) : world :=
  World d (w_inodes w) (w_next w) (w_clock w) (w_oracle w) (w_calls w).
Definition set_inodes (i : gmap Z inode) (w : world) : world :=
  World (w_dir w) i (w_next w) (w_clock w) (w_oracle w) (w_calls w).
Definition set_next (n : Z) (w : world) : world :=
  World (w_dir w) (w_inodes w) n (w_clock w) (w_oracle w) (w_calls w).
Definition set_clock (n : Z) (w : world) : world :=
  World (w_dir w) (w_inodes w) (w_next w) n (w_oracle w) (w_calls w).
Definition set_oracle (o : oracle) (w : world) : world :=
  World (w_dir w) (w_inodes w) (w_next w) (w_clock w) o (w_calls w).
Definition add_call (c : kcall) (w : world) : world :=
  World (w_dir w) (w_inodes w) (w_next w) (w_clock w) (w_oracle w) (c :: w_calls w).

Definition set_io (l : list (option io_error)) (o : oracle) : oracle :=
  Oracle l (o_random o) (o_events o) (o_ticks o).
Definition set_random (l : list (list Z)) (o : oracle) : oracle :=
  Oracle (o_io o) l (o_events o) (o_ticks o).
Definition set_events (l : list (list event)) (o : oracle) : oracle :=
  Oracle (o_io o) (o_random o) l (o_ticks o).
Definition set_ticks (l : list Z) (o : oracle) : oracle :=
  Oracle (o_io o) (o_random o) (o_events o) l.

Definition empty_inode : inode := Inode 0 ∅.
Definition inode_of (w : world) (ino : Z) : inode := default empty_inode (w_inodes w !! ino).
Definition data_of (w : world) (ino : Z) : bytes := i_data (inode_of w ino).
Definition len_of (w : world) (ino : Z) : Z := i_len (inode_of w ino).

Definition write_inode (ino off : Z) (bs : list Z) (w : world) : world :=
  set_inodes (<[ino := Inode (len_of w ino) (wr (data_of w ino) off bs)]> (w_inodes w)) w.

(** [ftruncate]: growing leaves a hole that reads as zero, shrinking forgets the tail. *)
Definition resize_inode (ino len : Z) (w : world) : world :=
  let d := data_of w ino in
  let d := if len <? len_of w ino then filter (fun c => c.1 < len) d else d in
  set_inodes (<[ino := Inode len d]> (w_inodes w)) w.

Definition apply_event (w : world) (ev : event) : world :=
  match ev with
  | EvStore ino off bs => write_inode ino off bs w
  | EvLen ino len => resize_inode ino len w
  | EvLink name ino => set_dir (<[name := DFile ino]> (w_dir w)) w
  | EvUnlink name => set_dir (delete name (w_dir w)) w
  | EvWake ino off => add_call (KWake ino off) w
  end.

(** Nobody else does anything. *)
Definition quiet (w : world) : Prop := o_events (w_oracle w) = [].
(** No call fails. *)
Definition healthy (w : world) : Prop := o_io (w_oracle w) = [].

(** ** The monad *)

Record outcome (S A : Type) := Outcome {
  o_res : res A;
  o_self : S;
  o_world : world;
  o_trace : list world
}.
Arguments Outcome {S A} _ _ _ _.
Arguments o_res {S A} _.
Arguments o_self {S A} _.
Arguments o_world {S A} _.
Arguments o_trace {S A} _.

Definition M (S A : Type) : Type := S -> world -> outcome S A.

Definition ret {S A} (a : A) : M S A := fun s w => Outcome (Ok a) s w [].

Definition bind {S A B} (m : M S A) (k : A -> M S B) : M S B := fun s w =>
  let o := m s w in
  match o_res o with
  | Ok a =>
      let o' := k a (o_self o) (o_world o) in
      Outcome (o_res o') (o_self o') (o_world o') (o_trace o ++ o_trace o')
  | Err e => Outcome (Err e) (o_self o) (o_world o) (o_trace o)
  | Die y => Outcome (Die y) (o_self o) (o_world o) (o_trace o)
  end.

Notation "x <- m ;; k" := (bind m (fun x => k))
  (at level 100, m at next level, k at level 200, right associativity) : xch_scope.
Notation "'let*' p := m 'in' k" := (bind m (fun x => match x with p => k end))
  (at level 200, p pattern, m at level 200, k at level 200) : xch_scope.
Notation "m ;; k" := (bind m (fun _ => k))
  (at level 100, k at level 200, right associativity) : xch_scope.

Section effects.
Context {S : Type}.

Definition lift {A} (r : res A) : M S A := fun s w => Outcome r s w [].
Definition throw {A} (e : io_error) : M S A := lift (Err e).
Definition die {A} (y : abort) : M S A := lift (Die y).
Definition ask {A} (f : world -> A) : M S A := fun s w => Outcome (Ok (f w)) s w [].
Definition self : M S S := fun s w => Outcome (Ok s) s w [].
Definition set_self (s : S) : M S unit := fun _ w => Outcome (Ok tt) s w [].
Definition modify (f : S -> S) : M S unit := fun s w => Outcome (Ok tt) (f s) w [].

(** Change the world and record it in the trace: an update others can see. *)
Definition emit (f : world -> world) : M S unit := fun s w => Outcome (Ok tt) s (f w) [f w].
(** Consume from the oracle: nothing others can see. *)
Definition consume {A} (f : world -> A * world) : M S A :=
  fun s w => let '(a, w) := f w in Outcome (Ok a) s w [].

(** [match m { Ok(a) => .., Err(e) => .. }]. *)
Definition attempt {A} (m : M S A) : M S (A + io_error) := fun s w =>
  let o := m s w in
  match o_res o with
  | Ok a => Outcome (Ok (inl a)) (o_self o) (o_world o) (o_trace o)
  | Err e => Outcome (Ok (inr e)) (o_self o) (o_world o) (o_trace o)
  | Die y => Outcome (Die y) (o_self o) (o_world o) (o_trace o)
  end.

(** [let _ = m]. *)
Definition ignore {A} (m : M S A) : M S unit := attempt m ;; ret tt.
(** [m.ok()]. *)
Definition ok {A} (m : M S A) : M S (option A) :=
  r <- attempt m ;; ret (match r with inl a => Some a | inr _ => None end).
Definition when (b : bool) (m : M S unit) : M S unit := if b then m else ret tt.

(** Others run until our next step. *)
Definition interfere : M S unit := fun s w =>
  match o_events (w_oracle w) with
  | [] => Outcome (Ok tt) s w []
  | evs :: rest =>
      let w := set_oracle (set_events rest (w_oracle w)) w in
      let w' := foldl apply_event w evs in
      Outcome (Ok tt) s w' [w']
  end.

(** The OS's answer to a call that may fail. *)
Definition may_fail : M S unit := fun s w =>
  match o_io (w_oracle w) with
  | [] => Outcome (Ok tt) s w []
  | r :: rest =>
      let w := set_oracle (set_io rest (w_oracle w)) w in
      match r with
      | None => Outcome (Ok tt) s w []
      | Some e => Outcome (Err e) s w []
      end
  end.

Definition syscall : M S unit := interfere ;; may_fail.

(** [Instant::now()], in nanoseconds. *)
Definition now : M S Z := consume (fun w =>
  let '(d, rest) := match o_ticks (w_oracle w) with [] => (1, []) | d :: r => (d, r) end in
  let t := w_clock w + d in
  (t, set_clock t (set_oracle (set_ticks rest (w_oracle w)) w))).

(** A loop that runs [body] until it yields a result. *)
Fixpoint loop {A} (fuel : nat) (body : M S (option A)) : M S A :=
  match fuel with
  | O => die OutOfFuel
  | Datatypes.S fuel => r <- body ;; match r with Some a => ret a | None => loop fuel body end
  end.

(** The same, with loop-carried variables: [inl] continues, [inr] leaves. *)
Fixpoint loop_with {V A} (fuel : nat) (body : V -> M S (V + A)) (v : V) : M S A :=
  match fuel with
  | O => die OutOfFuel
  | Datatypes.S fuel =>
      r <- body v ;; match r with inl v => loop_with fuel body v | inr a => ret a end
  end.

(** [getrandom]: the bytes of one request, no more than were asked for; an exhausted oracle is a
    failing source. *)
Definition getrandom (n : nat) : M S (list Z) :=
  syscall ;;
  r <- consume (fun w =>
    match o_random (w_oracle w) with
    | [] => (None, w)
    | b :: rest => (Some (take n b), set_oracle (set_random rest (w_oracle w)) w)
    end) ;;
  lift (ok_or r (err_other "getrandom")).

(** The next request for what is missing of [n] bytes; an interrupted one is made again. *)
Definition fill_step (n : nat) (filled : list Z) : M S (list Z + list Z) :=
  if Nat.ltb (length filled) n then
    r <- attempt (getrandom (n - length filled)) ;;
    match r with
    | inr e => if bool_decide (kind e = Interrupted) then ret (inl filled) else throw e
    | inl bs => ret (inl (filled ++ bs))
    end
  else ret (inr filled).

(** [fill_random]: every turn uses up an answer of the OS or bytes of the source, so a turn for each
    of them, one to meet the source's end and one to return are enough. *)
Definition fill_random (n : nat) : M S (list Z) :=
  fuel <- ask (fun w => Datatypes.S (Datatypes.S (length (o_io (w_oracle w)) + length (o_random (w_oracle w))))) ;;
  loop_with fuel (fill_step n) [].

End effects.

(** Run an operation of another component on a part of [self]. *)
Definition zoom {S T A} (get : S -> T) (set : T -> S -> S) (m : M T A) : M S A := fun s w =>
  let o := m (get s) w in Outcome (o_res o) (set (o_self o) s) (o_world o) (o_trace o).

(** ** Weakest preconditions

    [wp m s w Q C]: run from [self = s] in world [w], [m] ends with a result, a [self] and a world
    that satisfy [Q], and every world it went through on the way satisfies [C]. *)

Definition wp {S A} (m : M S A) (s : S) (w : world)
    (Q : res A -> S -> world -> Prop) (C : world -> Prop) : Prop :=
  Q (o_res (m s w)) (o_self (m s w)) (o_world (m s w)) /\ Forall C (o_trace (m s w)).

Section wp.
Context {S : Type}.
Implicit Types (s : S) (w : world) (C : world -> Prop).

Lemma wp_ret {A} (a : A) s w Q C : Q (Ok a) s w -> wp (ret a) s w Q C.
Proof. intros. split; [done|constructor]. Qed.

Lemma wp_lift {A} (r : res A) s w Q C : Q r s w -> wp (lift r) s w Q C.
Proof. intros. split; [done|constructor]. Qed.

Lemma wp_bind {A B} (m : M S A) (k : A -> M S B) s w Q C :
  wp m s w (fun r s' w' =>
    match r with
    | Ok a => wp (k a) s' w' Q C
    | Err e => Q (Err e) s' w'
    | Die y => Q (Die y) s' w'
    end) C ->
  wp (bind m k) s w Q C.
Proof.
  unfold wp, bind. intros [HQ HC]. destruct (o_res (m s w)); cbn; [|done..].
  destruct HQ as [HQ HC']. split; [done|]. by apply Forall_app.
Qed.

Lemma wp_mono {A} (m : M S A) s w (Q Q' : res A -> S -> world -> Prop) (C C' : world -> Prop) :
  wp m s w Q C -> (forall r s' w', Q r s' w' -> Q' r s' w') -> (forall w', C w' -> C' w') ->
  wp m s w Q' C'.
Proof. intros [HQ HC] HQQ HCC. split; [by apply HQQ|]. by eapply Forall_impl. Qed.

Lemma wp_ask {A} (f : world -> A) s w Q C : Q (Ok (f w)) s w -> wp (ask f) s w Q C.
Proof. intros. split; [done|constructor]. Qed.

Lemma wp_self s w Q C : Q (Ok s) s w -> wp self s w Q C.
Proof. intros. split; [done|constructor]. Qed.

Lemma wp_set_self s s' w Q C : Q (Ok tt) s' w -> wp (set_self s') s w Q C.
Proof. intros. split; [done|constructor]. Qed.

Lemma wp_modify f s w Q C : Q (Ok tt) (f s) w -> wp (modify f) s w Q C.
Proof. intros. split; [done|constructor]. Qed.

Lemma wp_emit f s w (Q : res unit -> S -> world -> Prop) C :
  C (f w) -> Q (Ok tt) s (f w) -> wp (emit f) s w Q C.
Proof. intros. split; [done|]. by repeat constructor. Qed.

Lemma wp_attempt {A} (m : M S A) s w Q C :
  wp m s w (fun r s' w' =>
    match r with
    | Ok a => Q (Ok (inl a)) s' w'
    | Err e => Q (Ok (inr e)) s' w'
    | Die y => Q (Die y) s' w'
    end) C ->
  wp (attempt m) s w Q C.
Proof. unfold wp, attempt. intros [HQ HC]. destruct (o_res (m s w)); done. Qed.

Lemma wp_interfere_quiet s w (Q : res unit -> S -> world -> Prop) C :
  quiet w -> Q (Ok tt) s w -> wp interfere s w Q C.
Proof. unfold quiet, wp, interfere. intros Hq HQ. rewrite Hq. split; [done|constructor]. Qed.

Lemma wp_may_fail_healthy s w (Q : res unit -> S -> world -> Prop) C :
  healthy w -> Q (Ok tt) s w -> wp may_fail s w Q C.
Proof. unfold healthy, wp, may_fail. intros Hq HQ. rewrite Hq. split; [done|constructor]. Qed.

Lemma wp_syscall_healthy s w (Q : res unit -> S -> world -> Prop) C :
  quiet w -> healthy w -> Q (Ok tt) s w -> wp syscall s w Q C.
Proof.
  intros. apply wp_bind, wp_interfere_quiet; [done|]. by apply wp_may_fail_healthy.
Qed.

End wp.

(** ** Worlds: reads over updates *)

Lemma inode_of_write_eq w ino off bs :
  inode_of (write_inode ino off bs w) ino = Inode (len_of w ino) (wr (data_of w ino) off bs).
Proof. unfold inode_of, write_inode. cbn. by rewrite lookup_insert_eq. Qed.

Lemma inode_of_write_ne w ino ino' off bs :
  ino <> ino' -> inode_of (write_inode ino off bs w) ino' = inode_of w ino'.
Proof. intros. unfold inode_of, write_inode. cbn. by rewrite lookup_insert_ne. Qed.

Lemma data_of_write_eq w ino off bs :
  data_of (write_inode ino off bs w) ino = wr (data_of w ino) off bs.
Proof. unfold data_of at 1. by rewrite inode_of_write_eq. Qed.

Lemma data_of_write_ne w ino ino' off bs :
  ino <> ino' -> data_of (write_inode ino off bs w) ino' = data_of w ino'.
Proof. intros. unfold data_of. by rewrite inode_of_write_ne. Qed.

Lemma len_of_write w ino ino' off bs : len_of (write_inode ino off bs w) ino' = len_of w ino'.
Proof.
  unfold len_of. destruct (decide (ino = ino')) as [->|].
  - by rewrite inode_of_write_eq.
  - by rewrite inode_of_write_ne.
Qed.

Lemma len_of_resize_eq w ino len : len_of (resize_inode ino len w) ino = len.
Proof. unfold len_of, inode_of, resize_inode. cbn. by rewrite lookup_insert_eq. Qed.

Lemma inode_of_resize_ne w ino ino' len :
  ino <> ino' -> inode_of (resize_inode ino len w) ino' = inode_of w ino'.
Proof. intros. unfold inode_of, resize_inode. cbn. by rewrite lookup_insert_ne. Qed.

Lemma data_of_grow w ino ino' len :
  len_of w ino <= len -> data_of (resize_inode ino len w) ino' = data_of w ino'.
Proof.
  intros H. unfold data_of at 1. destruct (decide (ino = ino')) as [->|].
  - unfold inode_of, resize_inode. cbn. rewrite lookup_insert_eq. cbn. by decide_if.
  - by rewrite inode_of_resize_ne.
Qed.

Lemma quiet_write w ino off bs : quiet (write_inode ino off bs w) <-> quiet w.
Proof. done. Qed.
Lemma healthy_write w ino off bs : healthy (write_inode ino off bs w) <-> healthy w.
Proof. done. Qed.
