(* ===== verification/Region.v ===== *)
(** * Region mappings and file-system calls (src/region.rs, std::fs)

    A mapping is a window on an inode: it stays valid after the file's name is gone, and every
    load and store through it goes to the inode's bytes.  The standard library's file calls are
    modelled on the world's directory and inodes; each asks the oracle whether it fails. *)

From S2P Require Import Prelude Bytes Effects.

(** ** The machine *)

(** [sysconf_pagesize] is what [sysconf(_SC_PAGESIZE)] returns; [has_sse42] what
    [is_x86_feature_detected!] reports; [SUPPORTED] is [cfg!(target_os = "linux")]. *)
Class Env := {
  sysconf_pagesize : Z;
  has_sse42 : bool;
  SUPPORTED : bool
}.

Definition page_size `{Env} : Z := if sysconf_pagesize >? 0 then sysconf_pagesize else 4096.

(** Pages are whole multiples of 4 KiB (src/region.rs falls back to 4 KiB; README.md names 4 and
    16 KiB systems). *)
Class EnvOk `{Env} : Prop := { page_size_ok : exists k, 0 < k /\ page_size = 4096 * k }.

(** ** Region mappings *)

(** A borrowed range of a mapping. *)
Record slice := Slice { sl_map : RegionMapping; sl_off : Z; sl_len : Z }.

Section region.
Context `{Env} {S : Type}.

Definition check_alignment (base_offset region_size : Z) : res unit :=
  let ps := page_size in
  if region_size =? 0 then Err (err_invalid_input "region_size must be > 0")
  else if negb (is_multiple_of region_size ps) then
    Err (err_invalid_input "region_size must be a multiple of OS page size")
  else if negb (is_multiple_of base_offset ps) then
    Err (err_invalid_input "base_offset must be page-aligned")
  else Ok tt.

(** ** std::fs on open files *)

Definition metadata_len (file : Z) : M S Z := syscall ;; ask (fun w => len_of w file).

Definition set_len (file len : Z) : M S unit :=
  syscall ;;
  if len >? I64_MAX then throw (IoError InvalidInput (Os 22))
  else emit (resize_inode file len).

(** [MmapOptions::map] and [map_mut]: the OS may refuse; otherwise the window exists, whatever the
    file's length. *)
Definition mmap (file base_offset region_size : Z) : M S RegionMapping :=
  syscall ;; ret (Mapping file base_offset region_size).

Definition create_writable (file base_offset region_size : Z) : M S RegionMapping :=
  lift (check_alignment base_offset region_size) ;;
  let required_len := u64 (base_offset + region_size) in
  len <- metadata_len file ;;
  when (len <? required_len) (set_len file required_len) ;;
  mmap file base_offset region_size.

Definition create_read_only (file base_offset region_size : Z) : M S RegionMapping :=
  lift (check_alignment base_offset region_size) ;;
  mmap file base_offset region_size.

Definition get_bytes_mut (m : RegionMapping) (offset len : Z) : option slice :=
  match checked_add offset len with
  | None => None
  | Some e => if e >? region_size m then None else Some (Slice m offset len)
  end.

(** ** Loads and stores through a mapping *)

(** Bytes of the last page past the end of the file exist; a page wholly past it does not. *)
Definition eof_limit (len : Z) : Z := (len + page_size - 1) / page_size * page_size.

Definition accessible (m : RegionMapping) (off n : Z) (w : world) : bool :=
  region_offset m + off + n <=? eof_limit (len_of w (rm_ino m)).

Definition in_mapping (m : RegionMapping) (off n : Z) : bool :=
  (0 <=? off) && (off + n <=? region_size m).

(** Read [n] bytes at [off] and decode them with [f] (given the file's bytes and the address). *)
Definition view {A} (m : RegionMapping) (off n : Z) (f : bytes -> Z -> A) : M S A :=
  interfere ;;
  b <- ask (accessible m off n) ;;
  if negb (in_mapping m off n) then die (Panicked "access outside the mapping")
  else if b then ask (fun w => f (data_of w (rm_ino m)) (region_offset m + off))
  else die SigBus.

Definition load (m : RegionMapping) (off n : Z) : M S (list Z) :=
  view m off n (fun d a => peek d a (Z.to_nat n)).
Definition load_u8 (m : RegionMapping) (off : Z) : M S Z := view m off 1 (get 1).
Definition load_u16 (m : RegionMapping) (off : Z) : M S Z := view m off 2 (get 2).
Definition load_u32 (m : RegionMapping) (off : Z) : M S Z := view m off 4 (get 4).
Definition load_u64 (m : RegionMapping) (off : Z) : M S Z := view m off 8 (get 8).

(** One store, of the bytes [f] computes from those there (a plain store ignores them; an atomic
    read-modify-write does not); returns the old bytes' value. *)
Definition update (m : RegionMapping) (off : Z) (n : nat) (f : Z -> list Z) : M S Z :=
  interfere ;;
  b <- ask (accessible m off (Z.of_nat n)) ;;
  if negb (in_mapping m off (Z.of_nat n)) then die (Panicked "access outside the mapping")
  else if b then
    old <- ask (fun w => get n (data_of w (rm_ino m)) (region_offset m + off)) ;;
    emit (write_inode (rm_ino m) (region_offset m + off) (f old)) ;;
    ret old
  else die SigBus.

Definition store (m : RegionMapping) (off : Z) (bs : list Z) : M S unit :=
  update m off (length bs) (fun _ => bs) ;; ret tt.
Definition store_u8 (m : RegionMapping) (off v : Z) : M S unit := store m off (le_bytes 1 v).
Definition store_u16 (m : RegionMapping) (off v : Z) : M S unit := store m off (le_bytes 2 v).
Definition store_u32 (m : RegionMapping) (off v : Z) : M S unit := store m off (le_bytes 4 v).
Definition store_u64 (m : RegionMapping) (off v : Z) : M S unit := store m off (le_bytes 8 v).

(** [fetch_add], wrapping. *)
Definition fetch_add_u64 (m : RegionMapping) (off v : Z) : M S Z :=
  update m off 8 (fun old => le_bytes 8 (old + v)).
Definition fetch_add_u32 (m : RegionMapping) (off v : Z) : M S Z :=
  update m off 4 (fun old => le_bytes 4 (old + v)).
Definition fetch_or_u8 (m : RegionMapping) (off v : Z) : M S Z :=
  update m off 1 (fun old => le_bytes 1 (Z.lor old v)).
Definition fetch_and_u8 (m : RegionMapping) (off v : Z) : M S Z :=
  update m off 1 (fun old => le_bytes 1 (Z.land old v)).
Definition compare_exchange_u64 (m : RegionMapping) (off expected v : Z) : M S Z :=
  update m off 8 (fun old => le_bytes 8 (if old =? expected then v else old)).

(** ** std::fs on names *)

Definition e_not_found : io_error := IoError NotFound (Os 2).
Definition e_exists : io_error := IoError AlreadyExists (Os 17).
Definition e_is_dir : io_error := IoError IsADirectory (Os 21).

Definition entry (name : string) : M S (option dirent) := ask (fun w => w_dir w !! name).

Definition open (name : string) : M S Z :=
  syscall ;;
  e <- entry name ;;
  match e with
  | Some (DFile ino) => ret ino
  | Some DDir => throw e_is_dir
  | None => throw e_not_found
  end.

Definition create_new (name : string) : M S Z :=
  syscall ;;
  e <- entry name ;;
  match e with
  | Some _ => throw e_exists
  | None =>
      ino <- ask w_next ;;
      emit (fun w =>
        set_next (ino + 1)
          (set_inodes (<[ino := empty_inode]> (w_inodes w))
             (set_dir (<[name := DFile ino]> (w_dir w)) w))) ;;
      ret ino
  end.

Definition remove_file (name : string) : M S unit :=
  syscall ;;
  e <- entry name ;;
  match e with
  | Some (DFile _) => emit (fun w => set_dir (delete name (w_dir w)) w)
  | Some DDir => throw e_is_dir
  | None => throw e_not_found
  end.

(** [renameat2] with [RENAME_NOREPLACE]. *)
Definition renameat2_noreplace (from to : string) : M S unit :=
  syscall ;;
  e <- entry from ;;
  t <- entry to ;;
  match e, t with
  | None, _ => throw e_not_found
  | Some _, Some _ => throw e_exists
  | Some x, None => emit (fun w => set_dir (<[to := x]> (delete from (w_dir w))) w)
  end.

Definition hard_link (from to : string) : M S unit :=
  syscall ;;
  e <- entry from ;;
  t <- entry to ;;
  match e, t with
  | None, _ => throw e_not_found
  | Some _, Some _ => throw e_exists
  | Some x, None => emit (fun w => set_dir (<[to := x]> (w_dir w)) w)
  end.

Definition try_exists (name : string) : M S bool :=
  syscall ;; e <- entry name ;; ret (if e then true else false).

Definition is_dir (name : string) : M S bool :=
  e <- entry name ;; ret (match e with Some DDir => true | _ => false end).

(** The names in the directory, in no particular order. *)
Definition read_dir : M S (list string) := syscall ;; ask (fun w => map fst (map_to_list (w_dir w))).

End region.

(** ** What the primitives do *)

Section facts.
Context `{EnvOk} {S : Type}.
Implicit Types (m : RegionMapping) (s : S) (w : world) (C : world -> Prop).

Lemma page_size_pos : 4096 <= page_size.
Proof. destruct page_size_ok as (k & ? & ->). lia. Qed.

(** A range inside the mapping and inside the file. *)
Definition backed m (off n : Z) w : Prop :=
  0 <= off /\ off + n <= region_size m /\ region_offset m + off + n <= len_of w (rm_ino m).

Lemma eof_limit_ge len : len <= eof_limit len.
Proof. unfold eof_limit. pose proof page_size_pos. zlia. Qed.

Lemma backed_in_mapping m off n w : backed m off n w -> in_mapping m off n = true.
Proof. intros (? & ? & _). unfold in_mapping. apply andb_true_intro. split; apply Z.leb_le; lia. Qed.

Lemma backed_accessible m off n w : backed m off n w -> accessible m off n w = true.
Proof.
  intros (_ & _ & ?). unfold accessible. apply Z.leb_le.
  pose proof (eof_limit_ge (len_of w (rm_ino m))). lia.
Qed.

Lemma wp_view {A} m off n (f : bytes -> Z -> A) s w Q C :
  quiet w -> backed m off n w ->
  Q (Ok (f (data_of w (rm_ino m)) (region_offset m + off))) s w ->
  wp (view m off n f) s w Q C.
Proof.
  intros Hq Hb HQ. unfold view. apply wp_bind, wp_interfere_quiet; [done|].
  apply wp_bind, wp_ask. rewrite (backed_in_mapping _ _ _ w), backed_accessible by done.
  by apply wp_ask.
Qed.

Lemma wp_update m off n f s w (Q : res Z -> S -> world -> Prop) C :
  quiet w -> backed m off (Z.of_nat n) w ->
  let a := region_offset m + off in
  let old := get n (data_of w (rm_ino m)) a in
  let w' := write_inode (rm_ino m) a (f old) w in
  C w' -> Q (Ok old) s w' -> wp (update m off n f) s w Q C.
Proof.
  intros Hq Hb a old w' HC HQ. unfold update. apply wp_bind, wp_interfere_quiet; [done|].
  apply wp_bind, wp_ask. rewrite (backed_in_mapping _ _ _ w), backed_accessible by done.
  apply wp_bind, wp_ask, wp_bind, wp_emit; [done|]. by apply wp_ret.
Qed.

Lemma wp_store m off bs s w (Q : res unit -> S -> world -> Prop) C :
  quiet w -> backed m off (Z.of_nat (length bs)) w ->
  let w' := write_inode (rm_ino m) (region_offset m + off) bs w in
  C w' -> Q (Ok tt) s w' -> wp (store m off bs) s w Q C.
Proof. intros Hq Hb w' HC HQ. apply wp_bind, wp_update; [done..|]. by apply wp_ret. Qed.

Lemma backed_write m off n w ino a bs :
  backed m off n w -> backed m off n (write_inode ino a bs w).
Proof. intros (? & ? & ?). unfold backed. rewrite len_of_write. done. Qed.

End facts.

#[export] Hint Resolve backed_write : xch.
