(* ===== verification/Channel.v ===== *)
(** * Record and channel headers (src/channel.rs)

    The 16-byte [MessageHeader] in front of every record and the 128-byte [ChannelHeader] at
    offset 16 of region 0.  Each field has its wire offset; fields the protocol loads on their own
    have a loader, and the two structures have a reader that decodes all of their bytes. *)

From S2P Require Import Prelude Bytes Effects Region.

(** ** MessageHeader *)

Record MessageHeader := Header {
  committed : Z;
  header_type : Z;
  message_type : Z;
  mh_length : Z;
  user_meta_u64 : Z
}.

#[export] Instance MessageHeader_eq_dec : EqDecision MessageHeader.
Proof. solve_decision. Defined.

Definition MESSAGE_HEADER_SIZE : Z := 16.
Definition NOT_COMMITTED : Z := 0.
Definition COMMITTED : Z := 1.

(** The structure at address [a]: [committed] at 0, [header_type] at 1, [message_type] at 2,
    [length] at 4, [user_meta_u64] at 8. *)
Definition message_header (d : bytes) (a : Z) : MessageHeader :=
  Header (get 1 d a) (get 1 d (a + 1)) (get 2 d (a + 2)) (get 4 d (a + 4)) (get 8 d (a + 8)).

Definition message_header_bytes (h : MessageHeader) : list Z :=
  le_bytes 1 (committed h) ++ le_bytes 1 (header_type h) ++ le_bytes 2 (message_type h) ++
  le_bytes 4 (mh_length h) ++ le_bytes 8 (user_meta_u64 h).

Inductive HeaderType := Channel | User | Skip | Roll.

#[export] Instance HeaderType_eq_dec : EqDecision HeaderType.
Proof. solve_decision. Defined.

Definition HeaderType_u8 (t : HeaderType) : Z :=
  match t with Channel => 0 | User => 1 | Skip => 2 | Roll => 3 end.

Definition from_raw (raw : Z) : res HeaderType :=
  match raw with
  | 0 => Ok Channel
  | 1 => Ok User
  | 2 => Ok Skip
  | 3 => Ok Roll
  | _ => Err (err_invalid_data "invalid header_type")
  end.

(** What [is_committed] makes of the byte it loaded. *)
Definition committed_flag (b : Z) : res bool :=
  if b =? NOT_COMMITTED then Ok false
  else if b =? COMMITTED then Ok true
  else Err (err_invalid_data "invalid committed flag").

(** A pre-installed header: [try_reserve] lays it one slot ahead of itself. *)
Definition preinstalled : MessageHeader :=
  Header 0 (HeaderType_u8 User) 0 0 0.

Section message_header_ops.
Context `{Env} {S : Type}.

Definition is_committed (m : RegionMapping) (off : Z) : M S bool :=
  b <- load_u8 m off ;; lift (committed_flag b).

Definition parsed_header_type (m : RegionMapping) (off : Z) : M S HeaderType :=
  b <- load_u8 m (off + 1) ;; lift (from_raw b).

Definition commit (m : RegionMapping) (off : Z) : M S unit := store_u8 m off COMMITTED.

Definition load_header (m : RegionMapping) (off : Z) : M S MessageHeader :=
  view m off MESSAGE_HEADER_SIZE message_header.

Definition load_length (m : RegionMapping) (off : Z) : M S Z := load_u32 m (off + 4).

(** [*ptr = MessageHeader { .. }]. *)
Definition store_header (m : RegionMapping) (off : Z) (h : MessageHeader) : M S unit :=
  store m off (message_header_bytes h).

End message_header_ops.

(** ** ChannelHeader *)

Definition FORMAT_VERSION_V4 : Z := 4.
Definition FORMAT_VERSION : Z := FORMAT_VERSION_V4.
Definition ENDIANNESS_LE : Z := 1.
Definition USER_HEADER_KIND_DEFAULT : Z := 0.
Definition SYSTEM_HEADER_SIZE : Z := 8.
Definition USER_HEADER_SIZE : Z := 8.
Definition WAKE_FLAG_WAKES : Z := 1.
Definition CHANNEL_NAME_MAX : nat := 48.

Record ChannelHeader := CHeader {
  ch_write_position : Z;
  ch_message_count : Z;
  ch_base_record_index : Z;
  ch_channel_sequence : Z;
  ch_region_size : Z;
  ch_mtu : Z;
  ch_format_version : Z;
  ch_endianness : Z;
  ch_system_header_size : Z;
  ch_user_header_kind : Z;
  ch_user_header_size : Z;
  ch_channel_name : list Z;
  ch_wake_flags : Z;
  ch_wake_word : Z;
  ch_generation : Z
}.

(** File offsets of the fields: the structure starts at [MESSAGE_HEADER_SIZE]. *)
Definition OFF_write_position : Z := MESSAGE_HEADER_SIZE + 0.
Definition OFF_message_count : Z := MESSAGE_HEADER_SIZE + 8.
Definition OFF_base_record_index : Z := MESSAGE_HEADER_SIZE + 16.
Definition OFF_channel_sequence : Z := MESSAGE_HEADER_SIZE + 24.
Definition OFF_region_size : Z := MESSAGE_HEADER_SIZE + 32.
Definition OFF_mtu : Z := MESSAGE_HEADER_SIZE + 36.
Definition OFF_format_version : Z := MESSAGE_HEADER_SIZE + 40.
Definition OFF_endianness : Z := MESSAGE_HEADER_SIZE + 42.
Definition OFF_system_header_size : Z := MESSAGE_HEADER_SIZE + 43.
Definition OFF_user_header_kind : Z := MESSAGE_HEADER_SIZE + 44.
Definition OFF_user_header_size : Z := MESSAGE_HEADER_SIZE + 48.
Definition OFF_channel_name : Z := MESSAGE_HEADER_SIZE + 49.
Definition OFF_wake_flags : Z := MESSAGE_HEADER_SIZE + 97.
Definition OFF_reserved_pad : Z := MESSAGE_HEADER_SIZE + 98.
Definition OFF_wake_word : Z := MESSAGE_HEADER_SIZE + 100.
Definition OFF_reserved2 : Z := MESSAGE_HEADER_SIZE + 104.
Definition OFF_generation : Z := MESSAGE_HEADER_SIZE + 120.
Definition CHANNEL_HEADER_SIZE : Z := 128.

(** The structure of the file whose bytes start at address [a]. *)
Definition channel_header_at (d : bytes) (a : Z) : ChannelHeader :=
  CHeader (get 8 d (a + OFF_write_position)) (get 8 d (a + OFF_message_count))
    (get 8 d (a + OFF_base_record_index)) (get 8 d (a + OFF_channel_sequence))
    (get 4 d (a + OFF_region_size)) (get 4 d (a + OFF_mtu)) (get 2 d (a + OFF_format_version))
    (get 1 d (a + OFF_endianness)) (get 1 d (a + OFF_system_header_size))
    (get 4 d (a + OFF_user_header_kind)) (get 1 d (a + OFF_user_header_size))
    (peek d (a + OFF_channel_name) CHANNEL_NAME_MAX) (get 1 d (a + OFF_wake_flags))
    (get 4 d (a + OFF_wake_word)) (get 8 d (a + OFF_generation)).

Section channel_header_ops.
Context `{Env} {S : Type}.

(** All of the structure; for the fields that never change once a file has its final name. *)
Definition load_channel_header (region0 : RegionMapping) : M S ChannelHeader :=
  view region0 0 (MESSAGE_HEADER_SIZE + CHANNEL_HEADER_SIZE) channel_header_at.

Definition load_write_position (region0 : RegionMapping) : M S Z := load_u64 region0 OFF_write_position.
Definition load_message_count (region0 : RegionMapping) : M S Z := load_u64 region0 OFF_message_count.
Definition load_base_record_index (region0 : RegionMapping) : M S Z :=
  load_u64 region0 OFF_base_record_index.
Definition load_generation (region0 : RegionMapping) : M S Z := load_u64 region0 OFF_generation.
Definition load_wake_flags (region0 : RegionMapping) : M S Z := load_u8 region0 OFF_wake_flags.
Definition load_wake_word (region0 : RegionMapping) : M S Z := load_u32 region0 OFF_wake_word.

End channel_header_ops.

(** ** Facts *)

Lemma length_message_header_bytes h : length (message_header_bytes h) = 16%nat.
Proof. unfold message_header_bytes. by rewrite !length_app, !length_le_bytes. Qed.

Lemma from_raw_u8 t : from_raw (HeaderType_u8 t) = Ok t.
Proof. by destruct t. Qed.

Lemma from_raw_Ok b t : from_raw b = Ok t -> b = HeaderType_u8 t.
Proof.
  unfold from_raw. destruct b as [|p|p]; [by intros [= <-]| |done].
  destruct p as [[p|p|]|[p|p|]|]; by intros [= <-].
Qed.

Lemma committed_flag_Ok b x : committed_flag b = Ok x -> b = Z.b2z x.
Proof.
  unfold committed_flag, NOT_COMMITTED, COMMITTED.
  destruct (Z.eqb_spec b 0) as [->|]; [by intros [= <-]|].
  destruct (Z.eqb_spec b 1) as [->|]; by intros [= <-].
Qed.

(** A header whose fields fit their widths. *)
Definition header_ok (h : MessageHeader) : Prop :=
  0 <= committed h < 256 /\ 0 <= header_type h < 256 /\ 0 <= message_type h < 2 ^ 16 /\
  0 <= mh_length h < 2 ^ 32 /\ 0 <= user_meta_u64 h < 2 ^ 64.

(** A field of a structure that was written in one go. *)
Lemma get_wr_field n d a x v l1 l2 bs :
  bs = l1 ++ le_bytes n v ++ l2 -> x = a + Z.of_nat (length l1) -> 0 <= v < 256 ^ Z.of_nat n ->
  get n (wr d a bs) x = v.
Proof.
  intros -> -> Hv. rewrite !wr_app, get_wr_out by (rewrite length_le_bytes; lia).
  fold (put n (wr d a l1) (a + Z.of_nat (length l1)) v). rewrite get_put_eq. by apply Z.mod_small.
Qed.

Lemma message_header_wr d a h :
  header_ok h -> message_header (wr d a (message_header_bytes h)) a = h.
Proof.
  intros (Hc & Ht & Hm & Hl & Hu). destruct h as [c t mt l u]; cbn in *.
  unfold message_header.
  set (bs := message_header_bytes (Header c t mt l u)).
  assert (Hbs : bs = le_bytes 1 c ++ le_bytes 1 t ++ le_bytes 2 mt ++ le_bytes 4 l ++ le_bytes 8 u) by done.
  clearbody bs. f_equal.
  - apply (get_wr_field _ _ _ _ _ [] _ _ Hbs); len.
  - apply (get_wr_field _ _ _ _ _ (le_bytes 1 c) _ _ Hbs); len.
  - apply (get_wr_field _ _ _ _ _ (le_bytes 1 c ++ le_bytes 1 t) (le_bytes 4 l ++ le_bytes 8 u));
      [by rewrite Hbs, <- !app_assoc|len|len].
  - apply (get_wr_field _ _ _ _ _ (le_bytes 1 c ++ le_bytes 1 t ++ le_bytes 2 mt) (le_bytes 8 u));
      [by rewrite Hbs, <- !app_assoc|len|len].
  - apply (get_wr_field _ _ _ _ _ (le_bytes 1 c ++ le_bytes 1 t ++ le_bytes 2 mt ++ le_bytes 4 l) []);
      [by rewrite Hbs, <- !app_assoc, app_nil_r|len|len].
Qed.

Lemma message_header_same d d' a :
  same a (a + 16) d d' -> message_header d a = message_header d' a.
Proof.
  intros Hs. unfold message_header.
  f_equal; apply get_same; (eapply same_sub; [exact Hs|lia..]).
Qed.

Lemma message_header_ok d a : header_ok (message_header d a).
Proof.
  unfold header_ok, message_header; cbn.
  pose proof (get_range 1 d a). pose proof (get_range 1 d (a + 1)). pose proof (get_range 2 d (a + 2)).
  pose proof (get_range 4 d (a + 4)). pose proof (get_range 8 d (a + 8)). cbn in *. lia.
Qed.
