(* ===== verification/V4.v ===== *)
(** * Format v4 (src/v4.rs)

    Instance IDs, the identity of a file, the 64-byte header extension with its publication state,
    the [Roll] body, and the atomic installation of a prepared file. *)

From S2P Require Import Prelude Bytes Crc32c Effects Region Channel.

(** ** Layout *)

Definition EXT_FILE_OFFSET : Z := 144.
Definition CHANNEL_PAYLOAD_V4 : Z := 192.
Definition FIRST_RECORD_V4 : Z := 208.
Definition INITIAL_WRITE_POSITION_V4 : Z := 224.
Definition ROLL_PAYLOAD_V4 : Z := 40.
Definition ROLL_TOTAL_V4 : Z := 56.
Definition PREPARED : Z := 0.
Definition PUBLISHED : Z := 1.

Definition invalid (what : string) : io_error := err_invalid_data what.

(** [b[off..off + bs.len()].copy_from_slice(bs)]. *)
Definition copy_from_slice (b : list Z) (off : nat) (bs : list Z) : list Z :=
  take off b ++ bs ++ drop (off + length bs) b.

(** [b[from..to]]. *)
Definition range (b : list Z) (from to : nat) : list Z := take (to - from) (drop from b).

(** ** Instance IDs *)

(** [InstanceId([u8; 16])]. *)
Abbreviation InstanceId := (list Z).

Definition InstanceId_NONE : InstanceId := zeros 16.
Definition InstanceId_is_none (id : InstanceId) : bool := bool_decide (id = InstanceId_NONE).
Definition id_ok (id : InstanceId) : Prop := length id = 16%nat /\ Forall is_byte id.

(** [InstanceId::fresh]: draw until the bytes are not all zero.  Each turn consumes a draw, so one
    turn per draw the source still holds, and one to meet its end, are enough. *)
Definition InstanceId_fresh {S} : M S InstanceId :=
  fuel <- ask (fun w => Datatypes.S (length (o_random (w_oracle w)))) ;;
  loop fuel (
    bytes <- fill_random 16 ;;
    ret (if bool_decide (bytes <> zeros 16) then Some bytes else None)).

(** ** Identity *)

Record Identity := Id {
  instance : InstanceId;
  predecessor : InstanceId;
  predecessor_sequence : Z
}.

#[export] Instance Identity_eq_dec : EqDecision Identity.
Proof. solve_decision. Defined.

Definition Identity_initial (instance : InstanceId) : Identity := Id instance InstanceId_NONE U64_MAX.
Definition Identity_successor (instance predecessor : InstanceId) (predecessor_sequence : Z) : Identity :=
  Id instance predecessor predecessor_sequence.

Definition Identity_bytes (i : Identity) : list Z :=
  let b := zeros 40 in
  let b := copy_from_slice b 0 (instance i) in
  let b := copy_from_slice b 16 (predecessor i) in
  copy_from_slice b 32 (le_bytes 8 (predecessor_sequence i)).

Definition identity_ok (i : Identity) : Prop :=
  id_ok (instance i) /\ id_ok (predecessor i) /\ 0 <= predecessor_sequence i < 2 ^ 64.

(** A nonzero instance, and both initial-file sentinels or neither. *)
Definition identity_wf (i : Identity) : Prop :=
  identity_ok i /\ instance i <> InstanceId_NONE /\
  (predecessor i = InstanceId_NONE <-> predecessor_sequence i = U64_MAX).

(** ** The header extension *)

Record ChannelHeaderExt := Ext {
  file_instance_id : list Z;
  predecessor_instance_id : list Z;
  ext_predecessor_sequence : list Z;
  reserved0 : list Z;
  publication_state : Z;
  reserved1 : list Z;
  identity_crc32c : list Z;
  reserved2 : list Z
}.

Definition ext_at (d : bytes) (a : Z) : ChannelHeaderExt :=
  Ext (peek d a 16) (peek d (a + 16) 16) (peek d (a + 32) 8) (peek d (a + 40) 8)
    (get 1 d (a + 48)) (peek d (a + 49) 3) (peek d (a + 52) 4) (peek d (a + 56) 8).

Definition ext_bytes (e : ChannelHeaderExt) : list Z :=
  file_instance_id e ++ predecessor_instance_id e ++ ext_predecessor_sequence e ++ reserved0 e ++
  le_bytes 1 (publication_state e) ++ reserved1 e ++ identity_crc32c e ++ reserved2 e.

Inductive State := Prepared | Published.

#[export] Instance State_eq_dec : EqDecision State.
Proof. solve_decision. Defined.

Definition state_of (b : Z) : res State :=
  if b =? PREPARED then Ok Prepared
  else if b =? PUBLISHED then Ok Published
  else Err (invalid "v4 file has an unknown publication state").

Definition OFF_publication_state : Z := EXT_FILE_OFFSET + 48.

Section ext.
Context `{Env} {S : Type}.

(** [init_prepared]: every field of the extension, for a file nothing else has mapped yet. *)
Definition init_prepared (i : Identity) : ChannelHeaderExt :=
  Ext (instance i) (predecessor i) (le_bytes 8 (predecessor_sequence i)) (zeros 8) PREPARED (zeros 3)
    (le_bytes 4 (crc32c has_sse42 (Identity_bytes i))) (zeros 8).

(** [ChannelHeaderExt::identity]. *)
Definition ext_identity (e : ChannelHeaderExt) : res Identity :=
  let identity :=
    Id (file_instance_id e) (predecessor_instance_id e) (le_val (ext_predecessor_sequence e)) in
  if InstanceId_is_none (instance identity) then Err (invalid "v4 file has a zero instance ID")
  else if bool_decide (reserved0 e <> zeros 8) || bool_decide (reserved1 e <> zeros 3)
          || bool_decide (reserved2 e <> zeros 8) then
    Err (invalid "v4 header extension has nonzero reserved bytes")
  else if negb (le_val (identity_crc32c e) =? crc32c has_sse42 (Identity_bytes identity)) then
    Err (invalid "v4 header extension fails its CRC")
  else if negb (Bool.eqb (InstanceId_is_none (predecessor identity))
                         (predecessor_sequence identity =? U64_MAX)) then
    Err (invalid "v4 header extension names a predecessor by only one of ID and sequence")
  else Ok identity.

Definition load_ext (region0 : RegionMapping) : M S ChannelHeaderExt :=
  view region0 EXT_FILE_OFFSET 64 ext_at.

(** [ChannelHeaderExt::state]: one acquire load. *)
Definition load_state (region0 : RegionMapping) : M S State :=
  b <- load_u8 region0 OFF_publication_state ;; lift (state_of b).

(** [ChannelHeaderExt::publish]: one release store. *)
Definition publish (region0 : RegionMapping) : M S unit :=
  store_u8 region0 OFF_publication_state PUBLISHED.

(** ** Installation *)

Definition is_os (code : Z) (e : io_error) : bool :=
  match get_ref e with Os n => n =? code | _ => false end.

(** [install_no_replace] on Linux: [renameat2], or a hard link where the call is not there
    ([ENOSYS] 38, [EINVAL] 22). *)
Definition install_no_replace (from to : string) : M S unit :=
  r <- attempt (renameat2_noreplace from to) ;;
  match r with
  | inl _ => ret tt
  | inr e =>
      if is_os 38 e || is_os 22 e then hard_link from to ;; ignore (remove_file from)
      else throw e
  end.

End ext.

(** ** The Roll body *)

Record RollEdge := Edge {
  next_sequence : Z;
  next_instance : InstanceId;
  next_base_record_index : Z
}.

#[export] Instance RollEdge_eq_dec : EqDecision RollEdge.
Proof. solve_decision. Defined.

Definition edge_ok (e : RollEdge) : Prop :=
  0 <= next_sequence e < 2 ^ 64 /\ id_ok (next_instance e) /\
  0 <= next_base_record_index e < 2 ^ 64.

Definition exhausted (what : string) : io_error := err_invalid_input (what +:+ " exhausted").

Definition RollEdge_after (sequence base count : Z) (next : InstanceId) : res RollEdge :=
  match checked_add sequence 1 with
  | None => Err (exhausted "file sequence")
  | Some s =>
      match checked_add base count with
      | None => Err (exhausted "record index")
      | Some b => Ok (Edge s next b)
      end
  end.

Section edge.
Context `{Env}.

Definition RollEdge_encode (e : RollEdge) : list Z :=
  let b := zeros 40 in
  let b := copy_from_slice b 0 (le_bytes 8 (next_sequence e)) in
  let b := copy_from_slice b 8 (next_instance e) in
  let b := copy_from_slice b 24 (le_bytes 8 (next_base_record_index e)) in
  let crc := crc32c has_sse42 (range b 0 32) in
  copy_from_slice b 32 (le_bytes 4 crc).

Definition RollEdge_decode (payload : list Z) : res RollEdge :=
  if negb (length payload =? 40)%nat then Err (invalid "v4 Roll body is not 40 bytes")
  else
    let b := payload in
    let crc := le_val (range b 32 36) in
    if negb (crc =? crc32c has_sse42 (range b 0 32)) then Err (invalid "v4 Roll fails its CRC")
    else if bool_decide (range b 36 40 <> zeros 4) then
      Err (invalid "v4 Roll has nonzero reserved bytes")
    else
      let edge := Edge (le_val (range b 0 8)) (range b 8 24) (le_val (range b 24 32)) in
      if InstanceId_is_none (next_instance edge) then
        Err (invalid "v4 Roll names a zero successor ID")
      else Ok edge.

End edge.

(** [RollEdge::names]. *)
Definition RollEdge_names (e : RollEdge) (from_sequence : Z) (from : InstanceId) (next : Identity) : bool :=
  bool_decide (next_instance e = instance next)
  && bool_decide (predecessor next = from)
  && (predecessor_sequence next =? from_sequence)
  && bool_decide (Some (next_sequence e) = checked_add from_sequence 1).

#[global] Arguments copy_from_slice : simpl never.
#[global] Arguments range : simpl never.
#[global] Arguments Identity_bytes : simpl never.
#[global] Arguments RollEdge_encode : simpl never.
