(* ===== verification/V4Facts.v ===== *)
(** * Format v4: what its encodings promise

    Round trips of the header extension and of the [Roll] body, their canonicity (a body that
    decodes is the encoding of what it decodes to), detection of damage, and that a [Roll] names
    at most one file. *)

From S2P Require Import Prelude Bytes Crc32c Effects Region Channel V4.

(** ** Lists cut at fixed offsets *)

Lemma copy_from_slice_app l (n : nat) bs m :
  m = length l -> (length bs <= n)%nat ->
  copy_from_slice (l ++ zeros n) m bs = (l ++ bs) ++ zeros (n - length bs).
Proof.
  intros -> Hn. unfold copy_from_slice, zeros. rewrite take_app_length.
  rewrite drop_app, (drop_ge l), drop_replicate by lia. cbn [app].
  rewrite <- app_assoc. do 3 f_equal. lia.
Qed.

Lemma copy_from_slice_tail l bs n m :
  m = length l -> length bs = n -> copy_from_slice (l ++ zeros n) m bs = l ++ bs.
Proof.
  intros -> <-. rewrite copy_from_slice_app by lia. by rewrite Nat.sub_diag, app_nil_r.
Qed.

Lemma range_app l1 l2 l3 from to :
  from = length l1 -> to = (length l1 + length l2)%nat -> range (l1 ++ l2 ++ l3) from to = l2.
Proof.
  intros -> ->. unfold range. rewrite drop_app_length, Nat.add_comm, Nat.add_sub. apply take_app_length.
Qed.

Lemma range_prefix l1 l2 to : to = length l1 -> range (l1 ++ l2) 0 to = l1.
Proof. intros ->. by apply (range_app [] l1 l2). Qed.

Lemma range_suffix l1 l2 from to :
  from = length l1 -> to = (length l1 + length l2)%nat -> range (l1 ++ l2) from to = l2.
Proof. intros. rewrite <- (app_nil_r l2) at 1. by apply range_app. Qed.

Lemma length_range b from to : (to <= length b)%nat -> length (range b from to) = (to - from)%nat.
Proof. intros. unfold range. rewrite length_take, length_drop. lia. Qed.

Lemma range_byte b from to : Forall is_byte b -> Forall is_byte (range b from to).
Proof. intros. unfold range. by apply Forall_take, Forall_drop. Qed.

(** ** The identity's bytes *)

Lemma Identity_bytes_app i :
  identity_ok i ->
  Identity_bytes i = instance i ++ predecessor i ++ le_bytes 8 (predecessor_sequence i).
Proof.
  intros ([Hi _] & [Hp _] & _). unfold Identity_bytes.
  rewrite (copy_from_slice_app [] 40) by len. cbn [app].
  rewrite copy_from_slice_app by len.
  rewrite Hi, Hp. cbn [Nat.sub].
  rewrite copy_from_slice_tail by len. by rewrite <- app_assoc.
Qed.

Lemma Identity_bytes_byte i : identity_ok i -> Forall is_byte (Identity_bytes i).
Proof.
  intros Hok. rewrite Identity_bytes_app by done. destruct Hok as ([_ ?] & [_ ?] & _).
  repeat apply Forall_app_2; auto with bytes.
Qed.

Section ext_facts.
Context `{Env}.

Lemma init_prepared_crc i :
  identity_ok i ->
  le_val (identity_crc32c (init_prepared i)) = crc32c has_sse42 (Identity_bytes i).
Proof.
  intros Hok. unfold init_prepared, identity_crc32c.
  by apply le_val_u32, crc32c_range, Identity_bytes_byte.
Qed.

Lemma init_prepared_sequence i :
  identity_ok i -> le_val (ext_predecessor_sequence (init_prepared i)) = predecessor_sequence i.
Proof. intros (_ & _ & ?). by apply le_val_u64. Qed.

Lemma ext_identity_init i :
  identity_wf i -> ext_identity (init_prepared i) = Ok i.
Proof.
  intros (Hok & Hne & Hsent). unfold ext_identity.
  rewrite init_prepared_crc, init_prepared_sequence by done.
  cbn [init_prepared file_instance_id predecessor_instance_id reserved0 reserved1 reserved2
    instance predecessor predecessor_sequence].
  replace (Id (instance i) (predecessor i) (predecessor_sequence i)) with i by (by destruct i).
  unfold InstanceId_is_none. rewrite (bool_decide_eq_false_2 (instance i = _)) by done.
  rewrite !(bool_decide_eq_false_2 (zeros _ <> zeros _)) by (intros Hf; by apply Hf).
  rewrite Z.eqb_refl. cbn [orb negb].
  assert (Hs : Bool.eqb (bool_decide (predecessor i = InstanceId_NONE))
                 (predecessor_sequence i =? U64_MAX) = true).
  { apply eqb_true_iff, eq_true_iff_eq. by rewrite bool_decide_eq_true, Z.eqb_eq. }
  by rewrite Hs.
Qed.

(** Fields of an extension that was written to a file in one go. *)
Definition ext_ok (e : ChannelHeaderExt) : Prop :=
  (length (file_instance_id e) = 16 /\ length (predecessor_instance_id e) = 16 /\
   length (ext_predecessor_sequence e) = 8 /\ length (reserved0 e) = 8 /\ length (reserved1 e) = 3 /\
   length (identity_crc32c e) = 4 /\ length (reserved2 e) = 8)%nat /\
  0 <= publication_state e < 256 /\ Forall is_byte (ext_bytes e).

Lemma peek_wr_field n d a x v l1 l2 bs :
  bs = l1 ++ v ++ l2 -> x = a + Z.of_nat (length l1) -> n = length v -> Forall is_byte v ->
  peek (wr d a bs) x n = v.
Proof.
  intros -> -> -> Hv. rewrite !wr_app, peek_wr_out by lia. by apply peek_wr_eq.
Qed.

Lemma ext_at_wr d a e : ext_ok e -> ext_at (wr d a (ext_bytes e)) a = e.
Proof.
  intros ((H1 & H2 & H3 & H4 & H5 & H6 & H7) & Hs & Hb). destruct e as [i p s r0 st r1 c r2].
  unfold ext_bytes in *. cbn in *.
  rewrite !Forall_app in Hb. destruct Hb as (B1 & B2 & B3 & B4 & B5 & B6 & B7 & B8).
  unfold ext_at. set (bs := i ++ _).
  assert (Hbs : bs = i ++ p ++ s ++ r0 ++ le_bytes 1 st ++ r1 ++ c ++ r2) by done. clearbody bs.
  f_equal.
  - apply (peek_wr_field _ _ _ _ _ [] _ _ Hbs); len || done.
  - apply (peek_wr_field _ _ _ _ _ i (s ++ r0 ++ le_bytes 1 st ++ r1 ++ c ++ r2)); [done|len|done|done].
  - apply (peek_wr_field _ _ _ _ _ (i ++ p) (r0 ++ le_bytes 1 st ++ r1 ++ c ++ r2));
      [by rewrite Hbs, <- !app_assoc|len|done|done].
  - apply (peek_wr_field _ _ _ _ _ (i ++ p ++ s) (le_bytes 1 st ++ r1 ++ c ++ r2));
      [by rewrite Hbs, <- !app_assoc|len|done|done].
  - apply (get_wr_field _ _ _ _ _ (i ++ p ++ s ++ r0) (r1 ++ c ++ r2));
      [by rewrite Hbs, <- !app_assoc|len|len].
  - apply (peek_wr_field _ _ _ _ _ (i ++ p ++ s ++ r0 ++ le_bytes 1 st) (c ++ r2));
      [by rewrite Hbs, <- !app_assoc|len|done|done].
  - apply (peek_wr_field _ _ _ _ _ (i ++ p ++ s ++ r0 ++ le_bytes 1 st ++ r1) r2);
      [by rewrite Hbs, <- !app_assoc|len|done|done].
  - apply (peek_wr_field _ _ _ _ _ (i ++ p ++ s ++ r0 ++ le_bytes 1 st ++ r1 ++ c) []);
      [by rewrite Hbs, <- !app_assoc, app_nil_r|len|done|done].
Qed.

Lemma init_prepared_ok i : identity_ok i -> ext_ok (init_prepared i).
Proof.
  intros ([Hi Hib] & [Hp Hpb] & Hs). unfold ext_ok, init_prepared; cbn.
  repeat split; rewrite ?length_le_bytes; try done.
  unfold ext_bytes; cbn. repeat apply Forall_app_2; auto with bytes.
Qed.

End ext_facts.

(** ** The Roll body's bytes *)

Section edge_facts.
Context `{Env}.

Definition edge_body (e : RollEdge) : list Z :=
  le_bytes 8 (next_sequence e) ++ next_instance e ++ le_bytes 8 (next_base_record_index e).

Lemma edge_body_byte e : edge_ok e -> Forall is_byte (edge_body e).
Proof. intros (_ & [_ ?] & _). unfold edge_body. repeat apply Forall_app_2; auto with bytes. Qed.

Lemma length_edge_body e : edge_ok e -> length (edge_body e) = 32%nat.
Proof. intros (_ & [Hl _] & _). unfold edge_body. rewrite !length_app, !length_le_bytes, Hl. done. Qed.

Lemma RollEdge_encode_app e :
  edge_ok e ->
  RollEdge_encode e = edge_body e ++ le_bytes 4 (crc32c has_sse42 (edge_body e)) ++ zeros 4.
Proof.
  intros Hok. pose proof (length_edge_body e Hok) as Hlen. destruct Hok as (_ & [Hl _] & _).
  unfold RollEdge_encode.
  rewrite (copy_from_slice_app [] 40) by len. cbn [app].
  rewrite copy_from_slice_app by len.
  rewrite copy_from_slice_app by len.
  rewrite !length_le_bytes, Hl. cbn [Nat.sub].
  rewrite <- (app_assoc (le_bytes 8 _) (next_instance e)). fold (edge_body e).
  rewrite (range_prefix (edge_body e)) by done.
  rewrite copy_from_slice_app by len. by rewrite length_le_bytes, <- app_assoc.
Qed.

Lemma length_RollEdge_encode e : edge_ok e -> length (RollEdge_encode e) = 40%nat.
Proof.
  intros Hok. rewrite RollEdge_encode_app, !length_app, length_edge_body, length_le_bytes by done. done.
Qed.

Lemma RollEdge_encode_byte e : edge_ok e -> Forall is_byte (RollEdge_encode e).
Proof.
  intros Hok. rewrite RollEdge_encode_app by done.
  apply Forall_app_2; [by apply edge_body_byte|]. apply Forall_app_2; auto with bytes.
Qed.

(** A 40-byte list by its fields. *)
Lemma split40 b :
  length b = 40%nat ->
  b = range b 0 8 ++ range b 8 24 ++ range b 24 32 ++ range b 32 36 ++ range b 36 40 /\
  range b 0 32 = range b 0 8 ++ range b 8 24 ++ range b 24 32.
Proof.
  intros Hl. do 41 (destruct b as [|? b]; [try (cbn in Hl; lia)|try (cbn in Hl; lia)]).
  split; reflexivity.
Qed.

(** [decode] accepts exactly the encodings. *)
(** What [decode] accepts was encoded. *)
Lemma RollEdge_decode_sound b e :
  Forall is_byte b -> RollEdge_decode b = Ok e ->
  edge_ok e /\ next_instance e <> InstanceId_NONE /\ b = RollEdge_encode e.
Proof.
  intros Hb. unfold RollEdge_decode.
  destruct (Nat.eqb_spec (length b) 40) as [Hl|]; [cbn [negb]|done].
  destruct (Z.eqb_spec (le_val (range b 32 36)) (crc32c has_sse42 (range b 0 32))) as [Hcrc|];
    [cbn [negb]|done].
  case_bool_decide as Hz; [done|].
  cbn [next_instance]. unfold InstanceId_is_none. case_bool_decide as Hn; [done|].
  intros [= <-]. cbn [next_instance].
  assert (Hr : forall f t, (t <= 40)%nat -> length (range b f t) = (t - f)%nat)
    by (intros; apply length_range; lia).
  assert (Hv : forall f t, (t <= 40)%nat -> le_bytes (t - f) (le_val (range b f t)) = range b f t).
  { intros f t Ht. rewrite <- (Hr f t) by done. apply le_bytes_le_val, range_byte, Hb. }
  assert (Hok : edge_ok (Edge (le_val (range b 0 8)) (range b 8 24) (le_val (range b 24 32)))).
  { pose proof (le_val_range (range b 0 8) (range_byte _ _ _ Hb)) as R1.
    pose proof (le_val_range (range b 24 32) (range_byte _ _ _ Hb)) as R2.
    rewrite Hr in R1, R2 by lia. unfold edge_ok, id_ok; cbn [next_sequence next_instance next_base_record_index].
    cbn in R1, R2. repeat split; try lia; [apply Hr; lia|by apply range_byte]. }
  split_and!; [done|done|].
  rewrite RollEdge_encode_app by done. unfold edge_body; cbn [next_sequence next_instance next_base_record_index].
  pose proof (Hv 0%nat 8%nat ltac:(lia)) as V1. pose proof (Hv 24%nat 32%nat ltac:(lia)) as V2.
  pose proof (Hv 32%nat 36%nat ltac:(lia)) as V3. cbn [Nat.sub] in V1, V2, V3. rewrite V1, V2.
  destruct (split40 b Hl) as [Hsplit Hbody].
  rewrite <- Hbody, <- Hcrc, V3, <- Hz, Hbody.
  rewrite <- !app_assoc. exact Hsplit.
Qed.

(** The fields of an encoded edge. *)
Lemma RollEdge_encode_ranges e :
  edge_ok e ->
  let b := RollEdge_encode e in
  range b 0 8 = le_bytes 8 (next_sequence e) /\ range b 8 24 = next_instance e /\
  range b 24 32 = le_bytes 8 (next_base_record_index e) /\ range b 0 32 = edge_body e /\
  range b 32 36 = le_bytes 4 (crc32c has_sse42 (edge_body e)) /\ range b 36 40 = zeros 4.
Proof.
  intros Hok b. assert (Hbl := length_edge_body e Hok).
  pose proof (RollEdge_encode_app e Hok) as Happ. fold b in Happ. pose proof Happ as Happ'. unfold edge_body in Happ at 1.
  assert (Hi : length (next_instance e) = 16%nat) by apply Hok. split_and!.
  - rewrite Happ, <- !app_assoc. by apply range_prefix.
  - rewrite Happ, <- !app_assoc. apply range_app; len.
  - rewrite Happ, <- !app_assoc, (app_assoc (le_bytes 8 _) (next_instance e)). apply range_app; len.
  - rewrite Happ'. by apply (range_prefix (edge_body e)).
  - rewrite Happ'. apply (range_app (edge_body e)); rewrite ?Hbl; done.
  - rewrite Happ', (app_assoc (edge_body e)). apply range_suffix; rewrite !length_app, Hbl; done.
Qed.

Lemma RollEdge_decode_Ok b e :
  Forall is_byte b ->
  RollEdge_decode b = Ok e <->
  edge_ok e /\ next_instance e <> InstanceId_NONE /\ b = RollEdge_encode e.
Proof.
  intros Hb. split; [by apply RollEdge_decode_sound|]. intros (Hok & Hne & ->).
  destruct (RollEdge_encode_ranges e Hok) as (H0 & H1 & H2 & H3 & H4 & H5).
  pose proof (crc32c_range has_sse42 (edge_body e) (edge_body_byte e Hok)) as Hcr.
  unfold RollEdge_decode. rewrite H0, H1, H2, H3, H4, H5, (length_RollEdge_encode e Hok).
  destruct Hok as (Hs & ? & Hbase). rewrite (le_val_u32 _ Hcr), (le_val_u64 _ Hs), (le_val_u64 _ Hbase).
  rewrite Z.eqb_refl. cbn [negb Nat.eqb].
  rewrite (bool_decide_eq_false_2 (zeros 4 <> zeros 4)) by (intros Hf; by apply Hf).
  cbn [next_instance]. unfold InstanceId_is_none. rewrite bool_decide_eq_false_2 by done.
  by destruct e.
Qed.

End edge_facts.

(** ** Properties *)

Section damage.
Context `{Env}.

Lemma damaged_body_refused e b :
  edge_ok e -> Forall is_byte b -> b <> RollEdge_encode e -> length b = 40%nat ->
  (exists xs m1 m2 ys, range b 0 32 = xs ++ m1 ++ ys /\ edge_body e = xs ++ m2 ++ ys /\
     length m1 = length m2 /\ (length m1 <= 4)%nat /\ range b 32 40 = range (RollEdge_encode e) 32 40) \/
  range b 0 32 = edge_body e ->
  exists err, RollEdge_decode b = Err err.
Proof.
  intros Hok Hb Hne Hl Hdam. destruct (RollEdge_decode b) as [e'|err|y] eqn:Hd; [|by eexists|].
  2: { exfalso. revert Hd. unfold RollEdge_decode. repeat case_match; done. }
  exfalso. apply RollEdge_decode_Ok in Hd as (Hok' & Hn' & ->); [|done].
  apply Hne. clear Hne.
  rewrite (RollEdge_encode_app e'), (RollEdge_encode_app e) in * by done.
  pose proof (length_edge_body e Hok) as Hle. pose proof (length_edge_body e' Hok') as Hle'.
  pose proof (edge_body_byte e Hok) as Hbe. pose proof (edge_body_byte e' Hok') as Hbe'.
  rewrite (range_prefix (edge_body e')) in Hdam by done.
  destruct Hdam as [(xs & m1 & m2 & ys & H1 & H2 & Hm & Hm4 & Ht)| ->]; [|done].
  rewrite !range_suffix in Ht by (rewrite ?length_app, ?length_le_bytes, ?Hle, ?Hle'; done).
  apply app_inv_tail in Ht.
  apply (f_equal le_val) in Ht. rewrite !le_val_u32 in Ht by (by apply crc32c_range).
  rewrite H1, H2 in *. rewrite !Forall_app in Hbe, Hbe'.
  destruct Hbe as (? & ? & ?), Hbe' as (? & ? & ?).
  apply crc32c_burst_inj in Ht; auto. by subst.
Qed.

(** A prefix, cut at a window of four bytes. *)
Lemma take_window k n (b : list Z) :
  (k + 4 <= n)%nat -> take n b = take k b ++ take 4 (drop k b) ++ take (n - (k + 4)) (drop (k + 4) b).
Proof.
  intros Hk. rewrite <- (take_drop k (take n b)) at 1.
  rewrite take_take, Nat.min_l by lia. f_equal.
  rewrite <- (take_drop 4 (drop k (take n b))), drop_drop. f_equal.
  - by rewrite !take_drop_commute, take_take, Nat.min_l by lia.
  - replace n with ((k + 4) + (n - (k + 4)))%nat at 1 by lia. by rewrite take_drop_commute.
Qed.

End damage.

Section properties.
Context `{Env}.

(** A [Roll] body written by [encode] reads back as the edge it was made from, for every
    in-range sequence and base and every nonzero successor ID. *)
Theorem roll_body_roundtrip e :
  edge_ok e -> next_instance e <> InstanceId_NONE -> RollEdge_decode (RollEdge_encode e) = Ok e.
Proof. intros Hok Hne. apply RollEdge_decode_Ok; auto using RollEdge_encode_byte. Qed.

(** [decode] is canonical: a body it accepts is byte for byte the encoding of the edge it
    returns, whose fields are in range and whose successor ID is not zero. *)
Theorem roll_body_canonical b e :
  Forall is_byte b -> RollEdge_decode b = Ok e ->
  edge_ok e /\ next_instance e <> InstanceId_NONE /\ b = RollEdge_encode e.
Proof. intros Hb. by apply RollEdge_decode_Ok. Qed.

(** C38: damage to a [Roll] body is detected: a 40-byte body that differs from an encoded edge only
    within four consecutive bytes of the 32 the CRC covers, or only in the CRC and reserved bytes
    after them, no longer decodes. *)
Theorem roll_body_damage_detected e b :
  edge_ok e -> Forall is_byte b -> length b = 40%nat -> b <> RollEdge_encode e ->
  (exists k, (k + 4 <= 32)%nat /\ take k b = take k (RollEdge_encode e) /\
             drop (k + 4) b = drop (k + 4) (RollEdge_encode e)) \/
  take 32 b = take 32 (RollEdge_encode e) ->
  exists err, RollEdge_decode b = Err err.
Proof.
  intros Hok Hb Hl Hne Hdam. pose proof (length_edge_body e Hok) as Hle.
  assert (Hbody : take 32 (RollEdge_encode e) = edge_body e).
  { rewrite RollEdge_encode_app by done. rewrite <- Hle. apply take_app_length. }
  apply (damaged_body_refused e b); try done. unfold range. rewrite Nat.sub_0_r, !drop_0.
  destruct Hdam as [(k & Hk & Hpre & Hpost)| ->]; [left|by right].
  exists (take k b), (take 4 (drop k b)), (take 4 (drop k (RollEdge_encode e))),
    (take (32 - (k + 4)) (drop (k + 4) b)).
  pose proof (f_equal length Hbody) as Hlb. rewrite length_take, Hle in Hlb.
  split_and!.
  - by apply take_window.
  - rewrite <- Hbody, (take_window k 32), Hpre, Hpost by done. done.
  - rewrite !length_take, !length_drop. lia.
  - rewrite length_take. lia.
  - f_equal. assert (Hd : forall l : list Z, drop 32 l = drop (32 - (k + 4)) (drop (k + 4) l)).
    { intros l. rewrite drop_drop. f_equal. lia. }
    by rewrite !Hd, Hpost.
Qed.

(** The header extension written by [init_prepared] reads back, through the file's bytes, as the
    identity it was made from and [Prepared]; after [publish]'s store it is the same identity and
    [Published]. *)
Theorem identity_roundtrip d i :
  identity_wf i ->
  let d1 := wr d EXT_FILE_OFFSET (ext_bytes (init_prepared i)) in
  let d2 := put 1 d1 OFF_publication_state PUBLISHED in
  ext_identity (ext_at d1 EXT_FILE_OFFSET) = Ok i /\
  state_of (get 1 d1 OFF_publication_state) = Ok Prepared /\
  ext_identity (ext_at d2 EXT_FILE_OFFSET) = Ok i /\
  state_of (get 1 d2 OFF_publication_state) = Ok Published.
Proof.
  intros Hwf d1 d2. pose proof (init_prepared_ok i (proj1 Hwf)) as Hok.
  assert (He : ext_at d1 EXT_FILE_OFFSET = init_prepared i) by (by apply ext_at_wr).
  assert (Hst : get 1 d1 OFF_publication_state = PREPARED).
  { change PREPARED with (publication_state (init_prepared i)). by rewrite <- He. }
  assert (He2 : ext_at d2 EXT_FILE_OFFSET =
    let e := init_prepared i in Ext (file_instance_id e) (predecessor_instance_id e)
      (ext_predecessor_sequence e) (reserved0 e) PUBLISHED (reserved1 e) (identity_crc32c e) (reserved2 e)).
  { rewrite <- He. unfold ext_at, d2, put; cbn -[EXT_FILE_OFFSET OFF_publication_state PUBLISHED].
    f_equal; try (apply peek_wr_out; rewrite length_le_bytes; unfold OFF_publication_state; lia).
    change (EXT_FILE_OFFSET + 48) with OFF_publication_state. apply get_put_eq. }
  split_and!.
  - rewrite He. by apply ext_identity_init.
  - by rewrite Hst.
  - rewrite He2. by apply (ext_identity_init i).
  - unfold d2. rewrite get_put_eq. done.
Qed.

(** C39: the two implementations of [crc32c], the table and the [crc32] instruction, agree on every
    byte string. *)
Theorem crc32c_implementations_agree bs :
  Forall is_byte bs -> crc32c true bs = crc32c false bs.
Proof. intros. by rewrite !crc32c_bits. Qed.

(** A [Roll] names at most one file: two identities named by the same edge out of the same file
    are equal, the successor's sequence is the next one, and a file hung under another parent, or
    rebuilt with another instance, is not named. *)
Theorem roll_names_one_file e seq from n1 n2 :
  RollEdge_names e seq from n1 = true ->
  next_sequence e = seq + 1 /\ instance n1 = next_instance e /\ predecessor n1 = from /\
  (RollEdge_names e seq from n2 = true <-> n1 = n2).
Proof.
  unfold RollEdge_names. rewrite !andb_true_iff, !bool_decide_eq_true, !Z.eqb_eq.
  intros (((Hi & Hp) & Hs) & Hn). symmetry in Hn. apply checked_add_Some in Hn as [Hn Hle].
  split_and!; [lia|done|done|]. split.
  - intros (((Hi2 & Hp2) & Hs2) & _). destruct n1, n2; cbn in *. congruence.
  - intros <-. split_and!; try done. symmetry. by apply checked_add_Some.
Qed.

End properties.

(** ** Witnesses *)

Definition env0 : Env := {| sysconf_pagesize := 4096; has_sse42 := false; SUPPORTED := true |}.
Definition id_of (n : Z) : InstanceId := map (fun k => n + Z.of_nat k) (seq 0 16).
Definition edge0 : RollEdge := Edge 8 (id_of 0x21) 1000.

Lemma id_ok_dec id : length id = 16%nat -> forallb (fun b => (0 <=? b) && (b <? 256)) id = true -> id_ok id.
Proof.
  intros Hl Hf. split; [done|]. apply Forall_forall. intros b Hb.
  rewrite forallb_forall in Hf. apply list_elem_of_In in Hb. apply Hf in Hb. unfold is_byte. bools. lia.
Qed.

Lemma edge0_ok : edge_ok edge0.
Proof. split_and!; [done|done| |done|done]. by apply id_ok_dec. Qed.

#[local] Existing Instance env0.

Definition identity0 : Identity := Identity_successor (id_of 0x21) (id_of 1) 7.

Lemma id_of_21_ok : id_ok (id_of 0x21).
Proof. by apply id_ok_dec. Qed.

Lemma identity0_wf : identity_wf identity0.
Proof. split; [split_and!; [by apply id_ok_dec|by apply id_ok_dec|done|done]|]. split; [done|]. by vm_compute. Qed.

(** The encoded edge with its third byte replaced. *)
Definition damaged0 : list Z := <[2%nat := 255]> (RollEdge_encode edge0).

Lemma damaged0_byte : Forall is_byte damaged0.
Proof. apply Forall_insert; [apply RollEdge_encode_byte, edge0_ok|by vm_compute]. Qed.

Lemma roll_body_damage_detected_witness : exists err, RollEdge_decode damaged0 = Err err.
Proof.
  apply (roll_body_damage_detected edge0 damaged0); [exact edge0_ok|exact damaged0_byte|by vm_compute|by vm_compute|].
  left. exists 2%nat. split; [lia|]. by vm_compute.
Defined.

(** The standard check input, "123456789". *)
Definition check_input : list Z := [49; 50; 51; 52; 53; 54; 55; 56; 57].

Lemma check_input_byte : Forall is_byte check_input.
Proof. repeat (apply Forall_cons; split; [unfold is_byte; lia|]). done. Qed.

Lemma crc32c_implementations_agree_witness : crc32c true check_input = crc32c false check_input.
Proof. exact (crc32c_implementations_agree check_input check_input_byte). Defined.

