(* ===== verification/Names.v ===== *)
(** * Segment names and sizes (the utilities at the end of src/lib.rs)

    A channel lives in one directory: its base file and names derived from it.  Paths are modelled
    by their file names in that directory. *)

From Stdlib Require Import Ascii String.
From stdpp Require Import sorting.
From S2P Require Import Prelude Bytes Effects Region Channel V4.

#[local] Open Scope string_scope.
#[local] Open Scope Z_scope.

(** ** Strings of the standard library *)

Definition digit (d : Z) : ascii := ascii_of_N (Z.to_N (48 + d)).

Definition digit_value (c : ascii) : option Z :=
  let n := Z.of_N (N_of_ascii c) in
  if (48 <=? n) && (n <=? 57) then Some (n - 48) else None.

(** Decimal digits of [n], in front of [acc]. *)
Fixpoint dec_digits (fuel : nat) (n : Z) (acc : string) : string :=
  match fuel with
  | O => acc
  | S fuel =>
      let acc := String (digit (n mod 10)) acc in
      if n <? 10 then acc else dec_digits fuel (n / 10) acc
  end.

(** [format!("{}", n)] for a [u64]: twenty digits are enough. *)
Definition u64_to_string (n : Z) : string := dec_digits 20 n "".

Fixpoint parse_digits (acc : Z) (s : string) : option Z :=
  match s with
  | EmptyString => Some acc
  | String c s =>
      match digit_value c with
      | None => None
      | Some d =>
          if acc * 10 + d >? U64_MAX then None else parse_digits (acc * 10 + d) s
      end
  end.

(** [str::parse::<u64>]: decimal digits, with one leading [+] allowed; empty, a lone sign, another
    character, or overflow is an error. *)
Definition parse_u64 (s : string) : option Z :=
  match s with
  | EmptyString => None
  | String "+"%char EmptyString => None
  | String "+"%char s => parse_digits 0 s
  | s => parse_digits 0 s
  end.

Fixpoint strip_prefix (p s : string) : option string :=
  match p, s with
  | EmptyString, s => Some s
  | String a p, String b s => if Ascii.eqb a b then strip_prefix p s else None
  | String _ _, EmptyString => None
  end.

(** [str::strip_suffix]: the shortest prefix the suffix follows to the end. *)
Fixpoint strip_suffix (suf s : string) : option string :=
  if String.eqb s suf then Some EmptyString
  else match s with
       | EmptyString => None
       | String c s =>
           match strip_suffix suf s with Some m => Some (String c m) | None => None end
       end.

(** [str::split_once('.')]. *)
Fixpoint split_once_dot (s : string) : option (string * string) :=
  match s with
  | EmptyString => None
  | String "."%char s => Some (EmptyString, s)
  | String c s =>
      match split_once_dot s with Some (a, b) => Some (String c a, b) | None => None end
  end.

Definition is_ascii_hexdigit (c : ascii) : bool :=
  let n := Z.of_N (N_of_ascii c) in
  ((48 <=? n) && (n <=? 57)) || ((65 <=? n) && (n <=? 70)) || ((97 <=? n) && (n <=? 102)).

Fixpoint all_chars (f : ascii -> bool) (s : string) : bool :=
  match s with
  | EmptyString => true
  | String c s => f c && all_chars f s
  end.

Definition hex_digit (d : Z) : ascii := ascii_of_N (Z.to_N (if d <? 10 then 48 + d else 87 + d)).

(** [Debug for InstanceId]: two lower-case hex digits a byte. *)
Fixpoint InstanceId_fmt (id : InstanceId) : string :=
  match id with
  | [] => EmptyString
  | b :: id => String (hex_digit (b / 16)) (String (hex_digit (b mod 16)) (InstanceId_fmt id))
  end.

(** ** Names *)

Definition PARTIAL_SUFFIX : string := "partial".

Definition channel_file_name (base : string) (sequence : Z) : string :=
  if sequence =? 0 then base else base +:+ "." +:+ u64_to_string sequence.

Definition attempt_name (base : string) (sequence : Z) (attempt : InstanceId) : string :=
  channel_file_name base sequence +:+ "." +:+ InstanceId_fmt attempt +:+ "." +:+ PARTIAL_SUFFIX.

Definition is_partial_segment_name (name base_name : string) : bool :=
  if String.eqb name (base_name +:+ "." +:+ PARTIAL_SUFFIX) then true
  else
    match strip_prefix (base_name +:+ ".") name with
    | None => false
    | Some m =>
        match strip_suffix ("." +:+ PARTIAL_SUFFIX) m with
        | None => false
        | Some middle =>
            let is_sequence s := if parse_u64 s then true else false in
            let is_instance s := (String.length s =? 32)%nat && all_chars is_ascii_hexdigit s in
            match split_once_dot middle with
            | None => is_sequence middle || is_instance middle
            | Some (sequence, instance) => is_sequence sequence && is_instance instance
            end
        end
    end.

(** The sequence a directory entry's name stands for, if it is a segment of the channel. *)
Definition sequence_of (base_name file_name : string) : option Z :=
  if String.eqb file_name base_name then Some 0
  else match strip_prefix (base_name +:+ ".") file_name with
       | Some suffix => parse_u64 suffix
       | None => None
       end.

(** Whether [cleanup_channel_files] takes a directory entry for one of the channel's files. *)
Definition is_rolled (base_name name : string) : bool :=
  match strip_prefix (base_name +:+ ".") name with
  | Some rest => if parse_u64 rest then true else false
  | None => false
  end.

Section names.
Context `{Env} {S : Type}.

Definition make_channel_file_path (base : string) (sequence : Z) : M S string :=
  d <- is_dir base ;;
  if d then throw (IoError IsADirectory (Msg "Channel path cannot be a directory."))
  else ret (channel_file_name base sequence).

Definition make_attempt_path (base : string) (sequence : Z) (attempt : InstanceId) : M S string :=
  final_path <- make_channel_file_path base sequence ;;
  ret (final_path +:+ "." +:+ InstanceId_fmt attempt +:+ "." +:+ PARTIAL_SUFFIX).

(** ** Listings *)

Definition sort_sequences (l : list Z) : list Z := merge_sort Z.le l.

Definition find_all_sequences (base : string) : M S (list Z) :=
  names <- read_dir ;;
  ret (sort_sequences (omap (sequence_of base) names)).

Definition find_sequence (base : string) (latest : bool) : M S Z :=
  sequences <- find_all_sequences base ;;
  ret (match sequences with
       | [] => 0
       | s :: rest => if latest then fold_left Z.max rest s else fold_left Z.min rest s
       end).

Definition find_earliest_sequence (base : string) : M S Z := find_sequence base false.
Definition find_latest_sequence (base : string) : M S Z := find_sequence base true.

(** ** Deletions *)

Fixpoint for_each {A} (l : list A) (f : A -> M S unit) : M S unit :=
  match l with
  | [] => ret tt
  | a :: l => f a ;; for_each l f
  end.

Definition sweep_stale_partial_files (base : string) : M S unit :=
  entries <- attempt read_dir ;;
  match entries with
  | inr _ => ret tt
  | inl names =>
      for_each names (fun name =>
        when (is_partial_segment_name name base) (ignore (remove_file name)))
  end.

Definition cleanup_channel_files (base : string) : M S unit :=
  ignore (remove_file base) ;;
  entries <- attempt read_dir ;;
  match entries with
  | inr _ => ret tt
  | inl names =>
      for_each names (fun name =>
        when (is_rolled base name || is_partial_segment_name name base)
          (ignore (remove_file name)))
  end.

End names.

(** ** Sizes *)

Definition preallocation_len (region_size file_roll_size : Z) : res Z :=
  if file_roll_size =? 0 then Ok region_size
  else
    let r := region_size in
    let rem := file_roll_size mod r in
    let len :=
      if rem =? 0 then Ok file_roll_size
      else ok_or (checked_add file_roll_size (r - rem))
             (err_invalid_input "file_roll_size cannot be rounded up without overflowing u64") in
    match len with
    | Ok len =>
        if len >? I64_MAX then
          Err (err_invalid_input "file_roll_size exceeds the max file offset i64::MAX")
        else Ok len
    | e => e
    end.

#[global] Arguments u64_to_string : simpl never.
#[global] Arguments channel_file_name : simpl never.
