(* ===== verification/NamesFacts.v ===== *)
(** * Segment names: parsing inverts printing, and names never collide *)

From Stdlib Require Import Ascii String.
From stdpp Require Import sorting.
From S2P Require Import Prelude Bytes Effects Region Channel V4 Names.

#[local] Open Scope string_scope.
#[local] Open Scope Z_scope.

(** ** Digits *)

Lemma digit_value_digit d : 0 <= d < 10 -> digit_value (digit d) = Some d.
Proof.
  intros Hd. unfold digit_value, digit. rewrite N_ascii_embedding by lia.
  rewrite Z2N.id by lia.
  replace ((48 <=? 48 + d) && (48 + d <=? 57)) with true by lia. f_equal. lia.
Qed.

Lemma parse_dec_digits fuel n s :
  0 <= n <= U64_MAX -> n < 10 ^ Z.of_nat fuel ->
  parse_digits 0 (dec_digits fuel n s) = parse_digits n s.
Proof.
  revert n s. induction fuel as [|fuel IH]; intros n s Hn Hf; cbn [dec_digits].
  { assert (n = 0) by (cbn in Hf; lia). by subst. }
  rewrite Nat2Z.inj_succ, Z.pow_succ_r in Hf by lia.
  destruct (Z.ltb_spec n 10).
  - cbn [parse_digits]. rewrite Z.mod_small, digit_value_digit by lia.
    destruct (Z.gtb_spec (0 * 10 + n) U64_MAX); [lia|]. f_equal; lia.
  - rewrite IH by zlia. cbn [parse_digits].
    rewrite digit_value_digit by (apply Z.mod_pos_bound; lia).
    replace (n / 10 * 10 + n mod 10) with n by zlia.
    destruct (Z.gtb_spec n U64_MAX); [lia|]. done.
Qed.

Lemma digit_plus d : 0 <= d < 10 -> digit d <> "+"%char.
Proof. intros Hd Heq. apply (f_equal digit_value) in Heq. by rewrite digit_value_digit in Heq. Qed.

Lemma dec_digits_head fuel n s :
  0 <= n -> exists d s', 0 <= d < 10 /\ dec_digits (S fuel) n s = String (digit d) s'.
Proof.
  revert n s. induction fuel as [|fuel IH]; intros n s Hn; cbn [dec_digits].
  - exists (n mod 10). case_match; eexists; split; try done; apply Z.mod_pos_bound; lia.
  - case_match; bools.
    + exists (n mod 10). eexists. split; [apply Z.mod_pos_bound; lia|done].
    + apply (IH (n / 10)). zlia.
Qed.

Lemma parse_u64_digit d s : 0 <= d < 10 -> parse_u64 (String (digit d) s) = parse_digits 0 (String (digit d) s).
Proof.
  intros Hd. pose proof (digit_plus d Hd) as Hp. unfold parse_u64.
  destruct (digit d) as [[] [] [] [] [] [] [] []]; done || (exfalso; by apply Hp).
Qed.

Lemma parse_u64_to_string n : 0 <= n <= U64_MAX -> parse_u64 (u64_to_string n) = Some n.
Proof.
  intros Hn. unfold u64_to_string.
  destruct (dec_digits_head 19 n "" ltac:(lia)) as (d & s & Hd & Heq).
  rewrite Heq, parse_u64_digit, <- Heq, parse_dec_digits; [done|done| |done].
  unfold U64_MAX in Hn. cbn. lia.
Qed.

(** ** Prefixes and suffixes *)

Lemma app_cons_s c (a b : string) : String c a +:+ b = String c (a +:+ b).
Proof. done. Qed.

Lemma app_nil_s (b : string) : "" +:+ b = b.
Proof. done. Qed.

Lemma app_assoc_s (a b c : string) : (a +:+ b) +:+ c = a +:+ (b +:+ c).
Proof. induction a as [|x a IH]; [done|]. rewrite !app_cons_s. cbn. by rewrite IH. Qed.

Lemma length_app_s (a b : string) : String.length (a +:+ b) = (String.length a + String.length b)%nat.
Proof. induction a as [|x a IH]; [done|]. rewrite !app_cons_s. cbn. by rewrite IH. Qed.

Lemma strip_prefix_app p s : strip_prefix p (p +:+ s) = Some s.
Proof. induction p as [|c p IH]; [done|]. rewrite app_cons_s. cbn. by rewrite Ascii.eqb_refl. Qed.

Lemma strip_prefix_Some p s r : strip_prefix p s = Some r -> s = p +:+ r.
Proof.
  revert s. induction p as [|c p IH]; intros s; cbn; [by intros [= ->]|]. destruct s as [|c' s]; [done|].
  destruct (Ascii.eqb_spec c c') as [<-|]; [|done]. intros Hr. rewrite app_cons_s. f_equal. by apply IH.
Qed.

Lemma strip_suffix_Some suf s m : strip_suffix suf s = Some m -> s = m +:+ suf.
Proof.
  revert m. induction s as [|c s IH]; intros m; cbn [strip_suffix].
  - destruct (String.eqb_spec "" suf) as [<-|]; [by intros [= <-]|done].
  - destruct (String.eqb_spec (String c s) suf) as [<-|]; [by intros [= <-]|].
    destruct (strip_suffix suf s) as [m'|]; [|done]. intros [= <-]. rewrite app_cons_s. f_equal. by apply IH.
Qed.

Lemma strip_suffix_app suf m : strip_suffix suf (m +:+ suf) = Some m.
Proof.
  induction m as [|c m IH]; rewrite ?app_cons_s, ?app_nil_s.
  - destruct suf; cbn [strip_suffix]; by rewrite String.eqb_refl.
  - cbn [strip_suffix].
    destruct (String.eqb_spec (String c (m +:+ suf)) suf) as [He|]; [|by rewrite IH].
    exfalso. apply (f_equal String.length) in He. cbn in He. rewrite length_app_s in He. lia.
Qed.

Lemma dotted (b s : string) : b +:+ "." +:+ s = (b +:+ ".") +:+ s.
Proof. by rewrite app_assoc_s. Qed.

Lemma app_inv_s (a b c : string) : a +:+ b = a +:+ c -> b = c.
Proof. induction a as [|x a IH]; [done|]. rewrite !app_cons_s. intros [= Heq]. by apply IH. Qed.

(** ** Characters *)

Lemma all_chars_app f a b : all_chars f (a +:+ b) = all_chars f a && all_chars f b.
Proof. induction a as [|c a IH]; [done|]. rewrite app_cons_s. cbn. by rewrite IH, andb_assoc. Qed.

Definition is_digit (c : ascii) : bool := if digit_value c then true else false.

Lemma dec_digits_all fuel n s :
  0 <= n -> all_chars is_digit s = true -> all_chars is_digit (dec_digits fuel n s) = true.
Proof.
  revert n s. induction fuel as [|fuel IH]; intros n s Hn Hs; cbn [dec_digits]; [done|].
  assert (Hd : all_chars is_digit (String (digit (n mod 10)) s) = true).
  { cbn. unfold is_digit at 1. rewrite digit_value_digit by (apply Z.mod_pos_bound; lia). done. }
  case_match; [done|]. apply IH; [zlia|done].
Qed.

Lemma parse_digits_all acc s n : parse_digits acc s = Some n -> all_chars is_digit s = true.
Proof.
  revert acc. induction s as [|c s IH]; intros acc; cbn; [done|]. unfold is_digit at 1.
  destruct (digit_value c); [|done]. case_match; [done|]. apply IH.
Qed.

Definition is_sign_digit (c : ascii) : bool := is_digit c || Ascii.eqb c "+".

Lemma all_chars_impl (f g : ascii -> bool) s :
  (forall c, f c = true -> g c = true) -> all_chars f s = true -> all_chars g s = true.
Proof.
  intros Hfg. induction s as [|c s IH]; cbn; [done|]. rewrite !andb_true_iff. intros [? ?]. auto.
Qed.

Lemma parse_u64_all s n : parse_u64 s = Some n -> all_chars is_sign_digit s = true.
Proof.
  intros Hp. assert (Hd : forall x, parse_digits 0 x = Some n -> all_chars is_sign_digit x = true).
  { intros x Hx%parse_digits_all. eapply all_chars_impl; [|exact Hx]. unfold is_sign_digit. by intros c ->. }
  unfold parse_u64 in Hp. destruct s as [|c s]; [done|].
  destruct (Ascii.eqb_spec c "+") as [->|Hc].
  - destruct s as [|c' s]; [done|]. apply Hd in Hp. change (is_sign_digit "+" && all_chars is_sign_digit (String c' s) = true).
    by rewrite Hp.
  - apply Hd. by destruct c as [[] [] [] [] [] [] [] []].
Qed.

Lemma hex_digit_ok d : 0 <= d < 16 -> is_ascii_hexdigit (hex_digit d) = true.
Proof.
  intros Hd. unfold is_ascii_hexdigit, hex_digit. rewrite N_ascii_embedding by (case_match; lia).
  rewrite Z2N.id by (case_match; lia). destruct (Z.ltb_spec d 10).
  - apply orb_true_iff. left. apply orb_true_iff. left. apply andb_true_intro; split; apply Z.leb_le; lia.
  - apply orb_true_iff. right. apply andb_true_intro; split; apply Z.leb_le; lia.
Qed.

Lemma InstanceId_fmt_hex id : Forall is_byte id -> all_chars is_ascii_hexdigit (InstanceId_fmt id) = true.
Proof.
  induction 1 as [|b id Hb _ IH]; cbn; [done|]. unfold is_byte in Hb.
  rewrite !hex_digit_ok by zlia. done.
Qed.

Lemma length_InstanceId_fmt id : String.length (InstanceId_fmt id) = (2 * length id)%nat.
Proof. induction id as [|b id IH]; cbn; [done|]. rewrite IH. lia. Qed.

Lemma split_once_dot_app a b :
  all_chars (fun c => negb (Ascii.eqb c ".")) a = true -> split_once_dot (a +:+ "." +:+ b) = Some (a, b).
Proof.
  induction a as [|c a IH]; cbn [all_chars]; [done|]. rewrite andb_true_iff. intros [Hc Ha].
  rewrite app_cons_s. cbn [split_once_dot]. rewrite (IH Ha). by destruct c as [[] [] [] [] [] [] [] []].
Qed.

Lemma split_once_dot_none a :
  all_chars (fun c => negb (Ascii.eqb c ".")) a = true -> split_once_dot a = None.
Proof.
  induction a as [|c a IH]; cbn [all_chars]; [done|]. rewrite andb_true_iff. intros [Hc Ha].
  cbn [split_once_dot]. rewrite (IH Ha). by destruct c as [[] [] [] [] [] [] [] []].
Qed.

Lemma is_digit_not_dot c : is_digit c = true -> negb (Ascii.eqb c ".") = true.
Proof. by destruct c as [[] [] [] [] [] [] [] []]. Qed.

Lemma hexdigit_not_dot c : is_ascii_hexdigit c = true -> negb (Ascii.eqb c ".") = true.
Proof. by destruct c as [[] [] [] [] [] [] [] []]. Qed.

(** What follows the base name in a segment's own name. *)
Lemma u64_to_string_digits n : 0 <= n -> all_chars is_digit (u64_to_string n) = true.
Proof. intros. by apply dec_digits_all. Qed.

Lemma no_partial_suffix s : all_chars is_digit s = true -> strip_suffix ("." +:+ PARTIAL_SUFFIX) s = None.
Proof.
  intros Hs. destruct (strip_suffix _ s) as [m|] eqn:He; [|done].
  apply strip_suffix_Some in He. subst. rewrite all_chars_app in Hs. apply andb_prop in Hs as [_ Hs]. done.
Qed.

Lemma u64_to_string_inj n m :
  0 <= n <= U64_MAX -> 0 <= m <= U64_MAX -> u64_to_string n = u64_to_string m -> n = m.
Proof.
  intros Hn Hm Heq. apply (f_equal parse_u64) in Heq. rewrite !parse_u64_to_string in Heq by done. congruence.
Qed.

Lemma base_ne_dotted (b s : string) : b <> b +:+ "." +:+ s.
Proof. intros He. apply (f_equal String.length) in He. rewrite !length_app_s in He. cbn in He. lia. Qed.

Lemma sequence_of_channel_file_name base n :
  0 <= n <= U64_MAX -> sequence_of base (channel_file_name base n) = Some n.
Proof.
  intros Hn. unfold sequence_of, channel_file_name. destruct (Z.eqb_spec n 0) as [->|].
  - by rewrite String.eqb_refl.
  - destruct (String.eqb_spec (base +:+ "." +:+ u64_to_string n) base) as [He|].
    { exfalso. by apply (base_ne_dotted base (u64_to_string n)). }
    rewrite dotted, strip_prefix_app. by apply parse_u64_to_string.
Qed.

Lemma channel_file_name_inj base n m :
  0 <= n <= U64_MAX -> 0 <= m <= U64_MAX -> channel_file_name base n = channel_file_name base m -> n = m.
Proof.
  intros Hn Hm Heq. apply (f_equal (sequence_of base)) in Heq.
  rewrite !sequence_of_channel_file_name in Heq by done. congruence.
Qed.

Lemma attempt_name_tail base n id :
  attempt_name base n id =
  (base +:+ ".") +:+ ((if n =? 0 then "" else u64_to_string n +:+ ".") +:+ InstanceId_fmt id) +:+
    ("." +:+ PARTIAL_SUFFIX).
Proof.
  unfold attempt_name, channel_file_name. destruct (n =? 0).
  - by rewrite !app_assoc_s.
  - by rewrite !app_assoc_s.
Qed.

Lemma sequence_of_attempt_name base n id : sequence_of base (attempt_name base n id) = None.
Proof.
  rewrite attempt_name_tail. unfold sequence_of.
  destruct (String.eqb_spec ((base +:+ ".") +:+
    ((if n =? 0 then "" else u64_to_string n +:+ ".") +:+ InstanceId_fmt id) +:+
     ("." +:+ PARTIAL_SUFFIX)) base) as [He|].
  { exfalso. rewrite app_assoc_s in He. symmetry in He. by apply base_ne_dotted in He. }
  rewrite strip_prefix_app.
  destruct (parse_u64 _) as [k|] eqn:Hp; [|done]. apply parse_u64_all in Hp.
  rewrite all_chars_app in Hp. apply andb_prop in Hp as [_ Hp]. done.
Qed.

Lemma attempt_name_not_file base n id k :
  0 <= k <= U64_MAX -> attempt_name base n id <> channel_file_name base k.
Proof.
  intros Hk Heq. apply (f_equal (sequence_of base)) in Heq.
  by rewrite sequence_of_attempt_name, sequence_of_channel_file_name in Heq.
Qed.

Section listing_facts.
Context `{Env} {S : Type}.

Lemma sort_sequences_perm l : sort_sequences l ≡ₚ l.
Proof. apply merge_sort_Permutation. Qed.

Lemma sort_sequences_sorted l : Sorted Z.le (sort_sequences l).
Proof. apply Sorted_merge_sort. apply _. Qed.

End listing_facts.

Lemma preallocation_len_cases region_size frs :
  0 < region_size <= U32_MAX -> 0 <= frs <= U64_MAX ->
  match preallocation_len region_size frs with
  | Ok len =>
      len mod region_size = 0 /\ frs <= len <= I64_MAX /\
      (frs = 0 -> len = region_size) /\ (frs <> 0 -> len < frs + region_size)
  | Err e => kind e = InvalidInput /\ frs + (- frs) mod region_size > I64_MAX
  | Die _ => False
  end.
Proof.
  intros Hr Hf. unfold preallocation_len, U32_MAX, U64_MAX, I64_MAX in *.
  destruct (Z.eqb_spec frs 0) as [->|Hz].
  { rewrite Z.mod_same by lia. lia. }
  destruct (Z.eqb_spec (frs mod region_size) 0) as [H0|H0].
  - destruct (Z.gtb_spec frs (2 ^ 63 - 1)).
    + split; [done|]. rewrite Z.mod_opp_l_z by lia. lia.
    + lia.
  - assert (Hm := Z.mod_pos_bound frs region_size ltac:(lia)).
    assert (Hup : (frs + (region_size - frs mod region_size)) mod region_size = 0).
    { rewrite (Z.div_mod frs region_size) at 1 by lia.
      replace (region_size * (frs / region_size) + frs mod region_size + (region_size - frs mod region_size))
        with ((frs / region_size + 1) * region_size) by lia.
      apply Z_mod_mult. }
    unfold checked_add, U64_MAX.
    destruct (Z.leb_spec (frs + (region_size - frs mod region_size)) (2 ^ 64 - 1)); cbn [ok_or].
    + destruct (Z.gtb_spec (frs + (region_size - frs mod region_size)) (2 ^ 63 - 1)).
      * split; [done|]. rewrite Z.mod_opp_l_nz by lia. lia.
      * split_and!; [done|lia|lia|lia|lia].
    + split; [done|]. rewrite Z.mod_opp_l_nz by lia. lia.
Qed.

Lemma preallocation_len_Ok rs frs len :
  0 < rs <= U32_MAX -> 0 <= frs <= U64_MAX -> frs = 0 \/ 2 * rs <= frs ->
  preallocation_len rs frs = Ok len -> rs <= len <= I64_MAX /\ frs <= len.
Proof.
  intros Hr Hf H2 Hp. pose proof (preallocation_len_cases rs frs Hr Hf) as Hc. rewrite Hp in Hc.
  assert (rs <= I64_MAX) by (unfold U32_MAX, I64_MAX in *; lia).
  destruct Hc as (_ & ? & Hz & _). destruct H2 as [->|]; [specialize (Hz eq_refl)|]; lia.
Qed.

(** ** Properties *)

(** C40: a segment's name determines its sequence: for every [u64] sequence, the directory scan reads
    back from the segment's file name the sequence it was made from. *)
Theorem segment_name_roundtrip base n :
  0 <= n <= U64_MAX -> sequence_of base (channel_file_name base n) = Some n.
Proof. apply sequence_of_channel_file_name. Qed.

(** Private names and final names never mix: the startup sweep takes every attempt's private
    name, and only such names, for stale partial files, and the directory scan never takes one for
    a segment. *)
Theorem attempt_names_are_apart base n id :
  0 <= n <= U64_MAX -> id_ok id ->
  is_partial_segment_name (attempt_name base n id) base = true /\
  sequence_of base (attempt_name base n id) = None /\
  is_partial_segment_name (channel_file_name base n) base = false.
Proof.
  intros Hn [Hl Hb]. split_and!.
  - unfold is_partial_segment_name. case_match; [done|].
    rewrite attempt_name_tail, strip_prefix_app, strip_suffix_app.
    assert (Hi : (String.length (InstanceId_fmt id) =? 32)%nat
                 && all_chars is_ascii_hexdigit (InstanceId_fmt id) = true).
    { by rewrite length_InstanceId_fmt, Hl, InstanceId_fmt_hex. }
    destruct (n =? 0); rewrite ?app_nil_s.
    + rewrite split_once_dot_none
        by (eapply all_chars_impl; [apply hexdigit_not_dot|by apply InstanceId_fmt_hex]).
      by rewrite Hi, orb_true_r.
    + rewrite app_assoc_s, split_once_dot_app
        by (eapply all_chars_impl; [apply is_digit_not_dot|apply u64_to_string_digits; lia]).
      by rewrite parse_u64_to_string, Hi.
  - apply sequence_of_attempt_name.
  - unfold channel_file_name. destruct (Z.eqb_spec n 0) as [->|Hz].
    + unfold is_partial_segment_name.
      destruct (String.eqb_spec base (base +:+ "." +:+ PARTIAL_SUFFIX)) as [He|].
      { exfalso. by apply base_ne_dotted in He. }
      destruct (strip_prefix (base +:+ ".") base) as [r|] eqn:Hs; [|done].
      apply strip_prefix_Some in Hs. rewrite app_assoc_s in Hs. exfalso. by apply base_ne_dotted in Hs.
    + pose proof (u64_to_string_digits n ltac:(lia)) as Hd. unfold is_partial_segment_name.
      destruct (String.eqb_spec (base +:+ "." +:+ u64_to_string n) (base +:+ "." +:+ PARTIAL_SUFFIX)) as [He|].
      { exfalso. apply app_inv_s, app_inv_s in He. by rewrite He in Hd. }
      rewrite dotted, strip_prefix_app, no_partial_suffix; done.
Qed.

(** The length a segment is born with: a multiple of the region size, at least the roll size
    and less than a region more, and a valid file offset; it is refused exactly when rounding up
    leaves [i64]. *)
Theorem preallocation_len_spec region_size frs :
  0 < region_size <= U32_MAX -> 0 <= frs <= U64_MAX ->
  match preallocation_len region_size frs with
  | Ok len =>
      len mod region_size = 0 /\ frs <= len <= I64_MAX /\
      (frs = 0 -> len = region_size) /\ (frs <> 0 -> len < frs + region_size)
  | Err e => kind e = InvalidInput /\ frs + (- frs) mod region_size > I64_MAX
  | Die _ => False
  end.
Proof. apply preallocation_len_cases. Qed.

(** ** Witnesses *)

Lemma segment_name_roundtrip_witness : sequence_of "feed" (channel_file_name "feed" 18446744073709551615) = Some U64_MAX.
Proof. apply (segment_name_roundtrip "feed" 18446744073709551615). by vm_compute. Defined.

