(* ===== verification/Segment.v ===== *)
(** * Segment files (the low-level helpers of src/lib.rs, src/wake.rs)

    Constants, header validation, publication tests, the header-only walk, the wake word, and the
    preparation of a new segment. *)

From Stdlib Require Import String.
From S2P Require Import Prelude Bytes Effects Region Channel V4 Names.

#[local] Open Scope string_scope.
#[local] Open Scope Z_scope.

(** ** Constants *)

Definition ALIGN : Z := 8.
Definition HEADER_SLOT : Z := MESSAGE_HEADER_SIZE.
Definition FIRST_RECORD : Z := FIRST_RECORD_V4.
Definition ROLL_TOTAL : Z := ROLL_TOTAL_V4.

(** [(x + (ALIGN - 1)) & !(ALIGN - 1)] on a 64-bit [usize]. *)
Definition align_up (x : Z) : Z := Z.land (u64 (x + (ALIGN - 1))) (U64_MAX - (ALIGN - 1)).

(** [x / 0] and [x % 0] panic. *)
Definition div_guard {S} (y : Z) : M S unit :=
  if y =? 0 then die (Panicked "attempt to divide by zero") else ret tt.

(** ** Validation *)

Definition validate_channel_header (ch : ChannelHeader) (expected_region_size expected_sequence : Z)
  : res unit :=
  if negb (ch_format_version ch =? FORMAT_VERSION) then
    Err (err_invalid_data "unsupported format_version")
  else if negb (ch_endianness ch =? ENDIANNESS_LE) then
    Err (err_invalid_data "unsupported endianness")
  else if negb (ch_system_header_size ch =? SYSTEM_HEADER_SIZE)
          || negb (ch_user_header_size ch =? USER_HEADER_SIZE) then
    Err (err_invalid_data "header-size mismatch")
  else if negb (ch_user_header_kind ch =? USER_HEADER_KIND_DEFAULT) then
    Err (err_invalid_data "unsupported user_header_kind")
  else if negb (ch_region_size ch =? expected_region_size) then
    Err (err_invalid_data "region_size mismatch")
  else if negb (ch_channel_sequence ch =? expected_sequence) then
    Err (err_invalid_data "channel_sequence mismatch")
  else Ok tt.

(** What a walk found at its end. *)
Inductive WalkStop := Visitor | Uncommitted | AtRoll | EndOfFile.

#[export] Instance WalkStop_eq_dec : EqDecision WalkStop.
Proof. solve_decision. Defined.

Record WalkEnd := Walked { we_pos : Z; we_users : Z; we_stop : WalkStop }.

(** The fields of a segment's header that locating a record needs. *)
Record SegmentHeader := SegHeader {
  sh_region_size : Z;
  sh_base_record_index : Z;
  sh_message_count : Z;
  sh_generation : Z
}.

(** What [prepare_segment_at] and [open_file] return: the file, its channel region and current
    region, the current region's index, the file's length and the next header slot. *)
Record PreparedSegment := PSegment {
  ps_file : Z;
  ps_channel_region : RegionMapping;
  ps_current_region : RegionMapping;
  ps_region_index : Z;
  ps_file_len : Z;
  ps_next_hdr : Z
}.

Section segment.
Context `{Env} {S : Type}.

Definition validate_v4_prefix (page0 : RegionMapping) : M S Identity :=
  l <- load_length page0 0 ;;
  if negb (l =? CHANNEL_PAYLOAD_V4) then
    throw (err_invalid_data "Channel record has another length than v4 makes it")
  else e <- load_ext page0 ;; lift (ext_identity e).

Definition is_published (page0 : RegionMapping) : M S bool :=
  s <- load_state page0 ;; ret (bool_decide (s = Published)).

Definition open_segment_if_present (base : string) (sequence : Z) : M S (option Z) :=
  path <- make_channel_file_path base sequence ;;
  r <- attempt (open path) ;;
  match r with
  | inl file => ret (Some file)
  | inr e => if bool_decide (kind e = NotFound) then ret None else throw e
  end.

Definition segment_is_published (base : string) (sequence : Z) : M S bool :=
  f <- open_segment_if_present base sequence ;;
  match f with
  | None => ret false
  | Some file =>
      len <- metadata_len file ;;
      if len <? FIRST_RECORD then ret false
      else
        page0 <- create_read_only file 0 page_size ;;
        ch <- load_channel_header page0 ;;
        lift (validate_channel_header ch (ch_region_size ch) sequence) ;;
        validate_v4_prefix page0 ;;
        is_published page0
  end.

(** The newest published segment; one this build cannot read is returned for its open to report. *)
Fixpoint latest_published (base : string) (newest_first : list Z) : M S (option Z) :=
  match newest_first with
  | [] => ret None
  | seq :: rest =>
      r <- attempt (segment_is_published base seq) ;;
      match r with
      | inl false => latest_published base rest
      | _ => ret (Some seq)
      end
  end.

Definition find_latest_published_sequence (base : string) : M S Z :=
  seqs <- find_all_sequences base ;;
  r <- latest_published base (rev seqs) ;;
  ret (match r with Some seq => seq | None => hd 0 seqs end).

Definition verify_preinstall_signature (m : RegionMapping) (off : Z) : M S unit :=
  c <- is_committed m off ;;
  if c : bool then
    throw (err_invalid_data "crashed writer recovery: advanced slot is committed")
  else
    h <- load_header m off ;;
    if negb (header_type h =? HeaderType_u8 User) || negb (mh_length h =? 0)
       || negb (message_type h =? 0) || negb (user_meta_u64 h =? 0) then
      throw (err_invalid_data "crashed writer recovery: advanced slot is not a pre-installed header")
    else ret tt.

Definition with_ch_mut (file region_size : Z) (f : RegionMapping -> M S unit) : M S unit :=
  z <- create_writable file 0 region_size ;; f z.

(** ** The walk *)

(** One turn of [walk_segment_from]'s loop; the loop-carried variables are the cached mapping, the
    position and the user records stepped over. *)
Definition walk_step (file region_size file_len : Z) (stop : Z -> HeaderType -> Z -> bool)
    (v : option (Z * RegionMapping) * Z * Z) : M S (option (Z * RegionMapping) * Z * Z + WalkEnd) :=
  let '(map, pos, users) := v in
  let region_idx := pos / region_size in
  if u64 ((region_idx + 1) * region_size) >? file_len then ret (inr (Walked pos users EndOfFile))
  else
    region <- (match map with
               | Some (idx, region) =>
                   if idx =? region_idx then ret region
                   else create_read_only file (u64 (region_idx * region_size)) region_size
               | None => create_read_only file (u64 (region_idx * region_size)) region_size
               end) ;;
    let map := Some (region_idx, region) in
    let off := pos mod region_size in
    let leftover := region_size - off in
    if leftover <? HEADER_SLOT then
      throw (err_invalid_data "segment walk landed in a region's tail hole")
    else
      c <- is_committed region off ;;
      if negb c then ret (inr (Walked pos users Uncommitted))
      else
        t <- parsed_header_type region off ;;
        if stop pos t users then ret (inr (Walked pos users Visitor))
        else
          length <- load_length region off ;;
          if bool_decide (t = Roll) then
            if negb (length =? ROLL_PAYLOAD_V4) || (off + ROLL_TOTAL >? region_size) then
              throw (err_invalid_data "segment walk: Roll with another body length")
            else ret (inr (Walked pos users AtRoll))
          else
            let total_len := HEADER_SLOT + length in
            if total_len >? leftover then
              throw (err_invalid_data "segment walk: record extends past its region")
            else
              let users := if bool_decide (t = User) then users + 1 else users in
              ret (inl (map, align_up (pos + total_len), users)).

(** A turn moves at least a header forward, so one turn per 16 bytes of the file, and one to see
    its end, are enough. *)
Definition walk_fuel (file_len : Z) : nat := Z.to_nat (file_len / 16 + 2).

Definition walk_segment_from (file region_size start : Z) (stop : Z -> HeaderType -> Z -> bool)
  : M S WalkEnd :=
  file_len <- metadata_len file ;;
  div_guard region_size ;;
  loop_with (walk_fuel file_len) (walk_step file region_size file_len stop) (None, start, 0).

Definition walk_segment (file region_size : Z) (stop : Z -> HeaderType -> Z -> bool) : M S WalkEnd :=
  walk_segment_from file region_size 0 stop.

(** ** Wake flag and word *)

Definition set_wake_flag (region0 : RegionMapping) (wake : bool) : M S unit :=
  (if wake then fetch_or_u8 region0 OFF_wake_flags WAKE_FLAG_WAKES
   else fetch_and_u8 region0 OFF_wake_flags (255 - WAKE_FLAG_WAKES)) ;;
  ret tt.

(** [wake::wake_all]: the bump, then, where there is a futex, [FUTEX_WAKE] on the word. *)
Definition wake_all (region0 : RegionMapping) : M S unit :=
  fetch_add_u32 region0 OFF_wake_word 1 ;;
  when SUPPORTED (interfere ;; emit (add_call (KWake (rm_ino region0) (region_offset region0 + OFF_wake_word)))).

(** ** Headers of a segment for seeking *)

Definition read_segment_header (file sequence : Z) : M S SegmentHeader :=
  map <- create_read_only file 0 page_size ;;
  t <- parsed_header_type map 0 ;;
  if bool_decide (t <> Channel) then
    throw (err_invalid_data "segment does not begin with a Channel header")
  else
    ch <- load_channel_header map ;;
    lift (validate_channel_header ch (ch_region_size ch) sequence) ;;
    validate_v4_prefix map ;;
    p <- is_published map ;;
    if negb p then throw (IoError NotFound (Msg "segment is not published yet"))
    else
      base <- load_base_record_index map ;;
      count <- load_message_count map ;;
      generation <- load_generation map ;;
      ret (SegHeader (ch_region_size ch) base count generation).

(** ** Preparing a segment *)

(** The 128 bytes [init_segment] assigns field by field. *)
Definition channel_header_bytes (base_record_index sequence region_size mtu : Z)
    (channel_name : list Z) (generation : Z) : list Z :=
  le_bytes 8 0 ++ le_bytes 8 0 ++ le_bytes 8 base_record_index ++ le_bytes 8 sequence ++
  le_bytes 4 (u32 region_size) ++ le_bytes 4 (u32 mtu) ++ le_bytes 2 FORMAT_VERSION ++
  le_bytes 1 ENDIANNESS_LE ++ le_bytes 1 SYSTEM_HEADER_SIZE ++
  le_bytes 4 USER_HEADER_KIND_DEFAULT ++ le_bytes 1 USER_HEADER_SIZE ++ channel_name ++
  le_bytes 1 0 ++ zeros 2 ++ le_bytes 4 0 ++ zeros 16 ++ le_bytes 8 generation.

Definition init_segment (file sequence region_size initial_len mtu : Z) (channel_name : list Z)
    (base_record_index generation : Z) (identity : Identity) : M S PreparedSegment :=
  r <- attempt (set_len file initial_len) ;;
  match r with
  | inr e => throw (IoError (kind e) (Msg "set_len failed preallocating segment"))
  | inl _ =>
      region0 <- create_writable file 0 region_size ;;
      store_header region0 0 (Header 1 (HeaderType_u8 Channel) 0 CHANNEL_PAYLOAD_V4 0) ;;
      store region0 MESSAGE_HEADER_SIZE
        (channel_header_bytes base_record_index sequence region_size mtu channel_name generation) ;;
      store region0 EXT_FILE_OFFSET (ext_bytes (init_prepared identity)) ;;
      current_region <- create_writable file 0 region_size ;;
      let start := FIRST_RECORD in
      match get_bytes_mut current_region start MESSAGE_HEADER_SIZE with
      | None => throw (err_other "prepare_segment_at: cannot pre-install first header")
      | Some _ =>
          store_header current_region start preinstalled ;;
          store_u64 region0 OFF_write_position (start + HEADER_SLOT) ;;
          ret (PSegment file region0 current_region 0 initial_len start)
      end
  end.

Definition prepare_segment_at (partial_path : string) (sequence region_size file_roll_size mtu : Z)
    (channel_name : list Z) (base_record_index generation : Z) (identity : Identity)
  : M S PreparedSegment :=
  initial_len <- lift (preallocation_len region_size file_roll_size) ;;
  file <- create_new partial_path ;;
  r <- attempt (init_segment file sequence region_size initial_len mtu channel_name
                  base_record_index generation identity) ;;
  match r with
  | inl p => ret p
  | inr e => ignore (remove_file partial_path) ;; throw e
  end.

(** ** The newest segment a writer resumes *)

(** Each turn that does not end removes a name or meets a name someone else removed, so a turn
    per name in the directory, and one more, are enough on a directory nobody else changes. *)
Definition discard_fuel (w : world) : nat := Datatypes.S (size (w_dir w)).

Definition discard_step (base : string) : M S (option Z) :=
  seq <- find_latest_sequence base ;;
  if seq =? 0 then ret (Some 0)
  else
    f <- open_segment_if_present base seq ;;
    match f with
    | None => ret None
    | Some file =>
        len <- metadata_len file ;;
        if len <? FIRST_RECORD then ret (Some seq)
        else
          page0 <- create_read_only file 0 page_size ;;
          ch <- load_channel_header page0 ;;
          lift (validate_channel_header ch (ch_region_size ch) seq) ;;
          validate_v4_prefix page0 ;;
          p <- is_published page0 ;;
          if p : bool then ret (Some seq)
          else
            path <- make_channel_file_path base seq ;;
            remove_file path ;;
            ret None
    end.

Definition discard_unpublished_tail (base : string) : M S Z :=
  fuel <- ask discard_fuel ;;
  loop fuel (discard_step base).

End segment.
