(* ===== verification/Helper.v ===== *)
(** * Helper threads: failure, bounded hand-over, unmap policy (src/helper.rs) *)

From Stdlib Require Import String.
From S2P Require Import Prelude Bytes Effects Region.

#[local] Open Scope string_scope.
#[local] Open Scope list_scope.
#[local] Open Scope Z_scope.

(** ** Failure *)

(** Why a helper stopped early, if it did: the OS error code if there was one, the error's kind and
    its text. *)
Record Failure := MkFailure {
  f_stopped : bool;
  f_why : option (option Z * ErrorKind * payload)
}.

Definition Failure_default : Failure := MkFailure false None.

Definition raw_os_error (e : io_error) : option Z :=
  match get_ref e with Os n => Some n | _ => None end.

(** [Failure::guard]: record how the thread's function ended: an error it returned, or a panic. *)
Definition Failure_guard (f : Failure) (r : res unit) : Failure :=
  match r with
  | Ok _ => f
  | Err e => MkFailure true (Some (raw_os_error e, kind e, get_ref e))
  | Die (Panicked s) =>
      MkFailure true (Some (None, OtherKind, Msg (("helper thread panicked: " +:+ s))))
  | Die _ => MkFailure true (Some (None, OtherKind, Msg "helper thread panicked: "))
  end.

Definition Failure_stopped (f : Failure) : bool := f_stopped f.

Definition Failure_error (f : Failure) : option io_error :=
  if negb (Failure_stopped f) then None
  else
    match f_why f with
    | None => None
    | Some (os, k, text) =>
        Some (match os with Some code => IoError k (Os code) | None => IoError k text end)
    end.

(** ** Bounded queues *)

(** A queue of work handed to a helper; [USIZE_MAX] as a bound means it grows as needed. *)
Record Bounded (T : Type) := MkBounded { items : list T; bound : Z }.
Arguments MkBounded {T} _ _.
Arguments items {T} _.
Arguments bound {T} _.

Definition USIZE_MAX : Z := U64_MAX.

Definition Bounded_new {T} (bound : Z) : Bounded T := MkBounded [] bound.

(** The capacity [Bounded::new] reserves. *)
Definition Bounded_initial_capacity (bound : Z) : Z := if bound =? USIZE_MAX then 64 else bound.

(** [push]: the new queue, and the item handed back if the queue is full. *)
Definition Bounded_push {T} (q : Bounded T) (item : T) : Bounded T * option T :=
  if Z.of_nat (List.length (items q)) >=? bound q then (q, Some item)
  else (MkBounded (items q ++ [item]) (bound q), None).

(** [swap]: the queue takes [other]'s contents and [other] the queue's. *)
Definition Bounded_swap {T} (q : Bounded T) (other : list T) : Bounded T * list T :=
  (MkBounded other (bound q), items q).

Definition Bounded_retain {T} (f : T -> bool) (q : Bounded T) : Bounded T :=
  MkBounded (List.filter f (items q)) (bound q).

(** ** Unmap *)

Inductive Unmap := Immediate | AtFileRoll.

#[export] Instance Unmap_eq_dec : EqDecision Unmap.
Proof. solve_decision. Defined.

(** [Helper::on_core] and [Helper::inherit]. *)
Record HelperSpec := MkHelper { h_core : option Z }.
Definition on_core (core : Z) : HelperSpec := MkHelper (Some core).
Definition inherit : HelperSpec := MkHelper None.

(** ** Starting a thread *)

(** [libc::CPU_SETSIZE]. *)
Definition CPU_SETSIZE : Z := 1024.

(** [pin]: what the thread tells its starter about the core it was given.  [sched_setaffinity] fails
    with the process's error, which the caller gets under the same kind with a text of its own. *)
Definition pin {S} (core : Z) : M S unit :=
  if core >=? CPU_SETSIZE then throw (err_invalid_input "helper core is past the highest core the OS can name")
  else
    r <- attempt syscall ;;
    match r with
    | inl _ => ret tt
    | inr e => throw (IoError (kind e) (Msg "pinning the helper to a core"))
    end.

(** [Helper::spawn]: start the thread, which first pins itself; its function runs only once it is
    pinned, and a thread that could not be pinned is joined before the error is returned.  What the
    function does afterwards is the helper's own steps, and [Failure_guard] records how it ends. *)
Definition spawn {S} (h : HelperSpec) : M S unit :=
  syscall ;;
  match h_core h with None => ret tt | Some core => pin core end.

(** ** Facts *)

Lemma Bounded_push_bound {T} (q q' : Bounded T) x r :
  Bounded_push q x = (q', r) ->
  bound q' = bound q /\
  (Z.of_nat (List.length (items q)) <= bound q -> Z.of_nat (List.length (items q')) <= bound q').
Proof.
  unfold Bounded_push. destruct (Z.geb_spec (Z.of_nat (List.length (items q))) (bound q)).
  - intros [= <- <-]. done.
  - intros [= <- <-]. cbn. rewrite length_app. cbn. split; [done|lia].
Qed.

Lemma Bounded_push_keeps {T} (q q' : Bounded T) x r :
  Bounded_push q x = (q', r) -> items q' ++ (match r with Some y => [y] | None => [] end) = items q ++ [x].
Proof. unfold Bounded_push. case_match; intros [= <- <-]; cbn; by rewrite ?app_nil_r. Qed.
