(* ===== verification/Prefault.v ===== *)
(** * The writer's helper thread (src/prefault.rs)

    The state the writer and its helper thread share, the writer's side of every hand-over, and the
    helper's loop: releasing, populating ahead, preparing the next segment and region.  A lock the
    other thread may hold when the writer tries it is a flag of the state. *)

From Stdlib Require Import String SpecFloat.
From S2P Require Import Prelude Bytes Effects Region Channel V4 Names Segment Helper.

#[local] Open Scope string_scope.
#[local] Open Scope list_scope.
#[local] Open Scope Z_scope.

(** ** Data *)

Definition AHEAD_TIME : Z := 100000000.  (* in nanoseconds *)
Definition AHEAD_MIN : Z := Z.shiftl 64 10.
Definition AHEAD_MAX : Z := Z.shiftl 1 20.
Definition SMALL_QUEUE : Z := 8.
Definition DOOMED_QUEUE : Z := 2.
Definition NONE : Z := U64_MAX.

Definition retire_bound (unmap : Unmap) (regions_per_file : option Z) : Z :=
  match unmap, regions_per_file with
  | Immediate, _ => 64
  | AtFileRoll, Some n => 2 * n + 8
  | AtFileRoll, None => USIZE_MAX
  end.

(** [Segment]: the segment the helper is on, and the lock both sides take to grow it. *)
Record HelperSegment := HSegment {
  hs_sequence : Z;
  hs_instance : InstanceId;
  hs_file : Z;
  hs_len : Z
}.

Inductive Left :=
  | LRegion (sequence : Z) (region : RegionMapping)
  | LFile (file : Z)
  | LWorker (file : Z).

Definition Left_held (unmap : Unmap) (current : Z) (l : Left) : bool :=
  match unmap, l with
  | AtFileRoll, LRegion s _ => s >=? current
  | _, _ => false
  end.

Record Next := MkNext { n_sequence : Z; n_index : Z; n_region : RegionMapping }.

Record SegmentSpec := MkSpec {
  sp_base_path : string;
  sp_file_roll_size : Z;
  sp_mtu : Z;
  sp_channel_name : list Z;
  sp_generation : Z
}.

Record NextSegment := MkNextSegment {
  ns_sequence : Z;
  ns_identity : Identity;
  ns_segment : PreparedSegment;
  ns_worker : Z
}.

Record Shared := MkShared {
  p_failure : Failure;
  p_region_size : Z;
  p_regions_per_file : option Z;
  p_unmap : Unmap;
  p_segment : HelperSegment;
  p_segment_busy : bool;          (* the helper holds [segment]: [try_lock] would block *)
  p_current_ptr : option RegionMapping;
  p_current_index : Z;
  p_current_sequence : Z;
  p_next : option Next;
  p_retired : Bounded Left;
  p_queued_files : Z;
  p_saturated : Z;
  p_missed : Z;
  p_spec : option SegmentSpec;
  p_ready : option NextSegment;
  p_refused : option Z;
  p_next_segment_busy : bool;     (* the helper holds [next_segment] through all of the writer's tries *)
  p_claimed : Z;
  p_ready_sequence : Z;
  p_in_flight : Z;
  p_base_path : string;
  p_doomed : Bounded Z;
  p_handoff : option HelperSegment;
  p_stop : bool
}.

(** Functional updates of the fields the operations assign. *)
Definition with_failure v (p : Shared) : Shared :=
  MkShared v (p_region_size p) (p_regions_per_file p) (p_unmap p) (p_segment p) (p_segment_busy p)
    (p_current_ptr p) (p_current_index p) (p_current_sequence p) (p_next p) (p_retired p)
    (p_queued_files p) (p_saturated p) (p_missed p) (p_spec p) (p_ready p) (p_refused p)
    (p_next_segment_busy p) (p_claimed p) (p_ready_sequence p) (p_in_flight p) (p_base_path p)
    (p_doomed p) (p_handoff p) (p_stop p).
Definition with_segment v (p : Shared) : Shared :=
  MkShared (p_failure p) (p_region_size p) (p_regions_per_file p) (p_unmap p) v (p_segment_busy p)
    (p_current_ptr p) (p_current_index p) (p_current_sequence p) (p_next p) (p_retired p)
    (p_queued_files p) (p_saturated p) (p_missed p) (p_spec p) (p_ready p) (p_refused p)
    (p_next_segment_busy p) (p_claimed p) (p_ready_sequence p) (p_in_flight p) (p_base_path p)
    (p_doomed p) (p_handoff p) (p_stop p).
Definition with_current v0 v1 v2 (p : Shared) : Shared :=
  MkShared (p_failure p) (p_region_size p) (p_regions_per_file p) (p_unmap p) (p_segment p)
    (p_segment_busy p) v0 v1 v2 (p_next p) (p_retired p) (p_queued_files p) (p_saturated p)
    (p_missed p) (p_spec p) (p_ready p) (p_refused p) (p_next_segment_busy p) (p_claimed p)
    (p_ready_sequence p) (p_in_flight p) (p_base_path p) (p_doomed p) (p_handoff p)
    (p_stop p).
Definition with_next v (p : Shared) : Shared :=
  MkShared (p_failure p) (p_region_size p) (p_regions_per_file p) (p_unmap p) (p_segment p)
    (p_segment_busy p) (p_current_ptr p) (p_current_index p) (p_current_sequence p) v
    (p_retired p) (p_queued_files p) (p_saturated p) (p_missed p) (p_spec p) (p_ready p)
    (p_refused p) (p_next_segment_busy p) (p_claimed p) (p_ready_sequence p) (p_in_flight p)
    (p_base_path p) (p_doomed p) (p_handoff p) (p_stop p).
Definition with_retired v0 v1 (p : Shared) : Shared :=
  MkShared (p_failure p) (p_region_size p) (p_regions_per_file p) (p_unmap p) (p_segment p)
    (p_segment_busy p) (p_current_ptr p) (p_current_index p) (p_current_sequence p) (p_next p) v0
    v1 (p_saturated p) (p_missed p) (p_spec p) (p_ready p) (p_refused p) (p_next_segment_busy p)
    (p_claimed p) (p_ready_sequence p) (p_in_flight p) (p_base_path p) (p_doomed p) (p_handoff p)
    (p_stop p).
Definition with_saturated v (p : Shared) : Shared :=
  MkShared (p_failure p) (p_region_size p) (p_regions_per_file p) (p_unmap p) (p_segment p)
    (p_segment_busy p) (p_current_ptr p) (p_current_index p) (p_current_sequence p) (p_next p)
    (p_retired p) (p_queued_files p) v (p_missed p) (p_spec p) (p_ready p) (p_refused p)
    (p_next_segment_busy p) (p_claimed p) (p_ready_sequence p) (p_in_flight p) (p_base_path p)
    (p_doomed p) (p_handoff p) (p_stop p).
Definition with_missed v (p : Shared) : Shared :=
  MkShared (p_failure p) (p_region_size p) (p_regions_per_file p) (p_unmap p) (p_segment p)
    (p_segment_busy p) (p_current_ptr p) (p_current_index p) (p_current_sequence p) (p_next p)
    (p_retired p) (p_queued_files p) (p_saturated p) v (p_spec p) (p_ready p) (p_refused p)
    (p_next_segment_busy p) (p_claimed p) (p_ready_sequence p) (p_in_flight p) (p_base_path p)
    (p_doomed p) (p_handoff p) (p_stop p).
Definition with_ready v0 v1 (p : Shared) : Shared :=
  MkShared (p_failure p) (p_region_size p) (p_regions_per_file p) (p_unmap p) (p_segment p)
    (p_segment_busy p) (p_current_ptr p) (p_current_index p) (p_current_sequence p) (p_next p)
    (p_retired p) (p_queued_files p) (p_saturated p) (p_missed p) (p_spec p) v0 (p_refused p)
    (p_next_segment_busy p) (p_claimed p) v1 (p_in_flight p) (p_base_path p) (p_doomed p)
    (p_handoff p) (p_stop p).
Definition with_refused v (p : Shared) : Shared :=
  MkShared (p_failure p) (p_region_size p) (p_regions_per_file p) (p_unmap p) (p_segment p)
    (p_segment_busy p) (p_current_ptr p) (p_current_index p) (p_current_sequence p) (p_next p)
    (p_retired p) (p_queued_files p) (p_saturated p) (p_missed p) (p_spec p) (p_ready p) v
    (p_next_segment_busy p) (p_claimed p) (p_ready_sequence p) (p_in_flight p) (p_base_path p)
    (p_doomed p) (p_handoff p) (p_stop p).
Definition with_claimed v (p : Shared) : Shared :=
  MkShared (p_failure p) (p_region_size p) (p_regions_per_file p) (p_unmap p) (p_segment p)
    (p_segment_busy p) (p_current_ptr p) (p_current_index p) (p_current_sequence p) (p_next p)
    (p_retired p) (p_queued_files p) (p_saturated p) (p_missed p) (p_spec p) (p_ready p)
    (p_refused p) (p_next_segment_busy p) v (p_ready_sequence p) (p_in_flight p) (p_base_path p)
    (p_doomed p) (p_handoff p) (p_stop p).
Definition with_in_flight v (p : Shared) : Shared :=
  MkShared (p_failure p) (p_region_size p) (p_regions_per_file p) (p_unmap p) (p_segment p)
    (p_segment_busy p) (p_current_ptr p) (p_current_index p) (p_current_sequence p) (p_next p)
    (p_retired p) (p_queued_files p) (p_saturated p) (p_missed p) (p_spec p) (p_ready p)
    (p_refused p) (p_next_segment_busy p) (p_claimed p) (p_ready_sequence p) v (p_base_path p)
    (p_doomed p) (p_handoff p) (p_stop p).
Definition with_doomed v (p : Shared) : Shared :=
  MkShared (p_failure p) (p_region_size p) (p_regions_per_file p) (p_unmap p) (p_segment p)
    (p_segment_busy p) (p_current_ptr p) (p_current_index p) (p_current_sequence p) (p_next p)
    (p_retired p) (p_queued_files p) (p_saturated p) (p_missed p) (p_spec p) (p_ready p)
    (p_refused p) (p_next_segment_busy p) (p_claimed p) (p_ready_sequence p) (p_in_flight p)
    (p_base_path p) v (p_handoff p) (p_stop p).
Definition with_handoff v (p : Shared) : Shared :=
  MkShared (p_failure p) (p_region_size p) (p_regions_per_file p) (p_unmap p) (p_segment p)
    (p_segment_busy p) (p_current_ptr p) (p_current_index p) (p_current_sequence p) (p_next p)
    (p_retired p) (p_queued_files p) (p_saturated p) (p_missed p) (p_spec p) (p_ready p)
    (p_refused p) (p_next_segment_busy p) (p_claimed p) (p_ready_sequence p) (p_in_flight p)
    (p_base_path p) (p_doomed p) v (p_stop p).
Definition with_stop v (p : Shared) : Shared :=
  MkShared (p_failure p) (p_region_size p) (p_regions_per_file p) (p_unmap p) (p_segment p)
    (p_segment_busy p) (p_current_ptr p) (p_current_index p) (p_current_sequence p) (p_next p)
    (p_retired p) (p_queued_files p) (p_saturated p) (p_missed p) (p_spec p) (p_ready p)
    (p_refused p) (p_next_segment_busy p) (p_claimed p) (p_ready_sequence p) (p_in_flight p)
    (p_base_path p) (p_doomed p) (p_handoff p) v.

(** ** Floating point: [f64] as IEEE 754 binary64 *)

Definition f64_of_u64 (n : Z) : spec_float := binary_normalize 53 1024 n 0 false.
Definition f64_mul : spec_float -> spec_float -> spec_float := SFmul 53 1024.
Definition f64_div : spec_float -> spec_float -> spec_float := SFdiv 53 1024.
Definition f64_add : spec_float -> spec_float -> spec_float := SFadd 53 1024.

(** [as usize]: towards zero, saturating, [NaN] as 0. *)
Definition usize_of_f64 (f : spec_float) : Z :=
  match f with
  | S754_zero _ | S754_nan => 0
  | S754_infinity negative => if negative then 0 else U64_MAX
  | S754_finite negative m e =>
      if negative then 0 else Z.min U64_MAX (if 0 <=? e then Z.shiftl (Z.pos m) e else Z.shiftr (Z.pos m) (- e))
  end.

(** [Duration::as_secs_f64], of a number of nanoseconds. *)
Definition as_secs_f64 (ns : Z) : spec_float :=
  f64_add (f64_of_u64 (ns / 1000000000)) (f64_div (f64_of_u64 (ns mod 1000000000)) (f64_of_u64 1000000000)).

Definition clamp (x lo hi : Z) : Z := if x <? lo then lo else if x >? hi then hi else x.

(** [usize::div_ceil]. *)
Definition div_ceil (x y : Z) : Z := if x mod y =? 0 then x / y else x / y + 1.

(** ** The writer's side *)

(** [file.try_clone()]: another handle on the same inode, if the process may have one more. *)
Definition try_clone {S} (file : Z) : M S Z := syscall ;; ret file.

Section prefault.
Context `{Env}.

(** [Prefaulter::start]: the shared state, and the thread started on it. *)
Definition Prefaulter_start {S} (base_path : string) (sequence : Z) (instance : InstanceId)
    (file file_len : Z) (region : RegionMapping) (index : Z) (region_size : Z)
    (regions_per_file : option Z) (spec : option SegmentSpec) (unmap : Unmap) (helper : HelperSpec)
  : M S Shared :=
  handle <- try_clone file ;;
  spawn helper ;;
  ret {|
    p_failure := Failure_default;
    p_region_size := region_size;
    p_regions_per_file := regions_per_file;
    p_unmap := unmap;
    p_segment := HSegment sequence instance handle file_len;
    p_segment_busy := false;
    p_current_ptr := Some region;
    p_current_index := index;
    p_current_sequence := sequence;
    p_next := None;
    p_retired := Bounded_new (saturating_add (retire_bound unmap regions_per_file) (2 * SMALL_QUEUE));
    p_queued_files := 0;
    p_saturated := 0;
    p_missed := 0;
    p_spec := spec;
    p_ready := None;
    p_refused := None;
    p_next_segment_busy := false;
    p_claimed := sequence;
    p_ready_sequence := NONE;
    p_in_flight := NONE;
    p_base_path := base_path;
    p_doomed := Bounded_new DOOMED_QUEUE;
    p_handoff := None;
    p_stop := false
  |}.

Definition Prefaulter_take (sequence index : Z) : M Shared (option RegionMapping) :=
  p <- self ;;
  match p_next p with
  | Some n =>
      if (n_sequence n =? sequence) && (n_index n =? index) then
        modify (with_next None) ;; ret (Some (n_region n))
      else ret None
  | None => ret None
  end.

Definition claim (sequence : Z) : M Shared unit := modify (with_claimed sequence).

Definition try_take_segment (sequence : Z) : M Shared (option (Identity * PreparedSegment * Z)) :=
  p <- self ;;
  if negb (p_ready_sequence p =? sequence) then ret None
  else if p_next_segment_busy p then ret None
  else
    match p_ready p with
    | Some n =>
        if ns_sequence n =? sequence then
          modify (with_ready None NONE) ;;
          ret (Some (ns_identity n, ns_segment n, ns_worker n))
        else ret None
    | None => ret None
    end.

Definition installing (sequence : Z) (p : Shared) : bool :=
  negb (Failure_stopped (p_failure p)) && (p_in_flight p =? sequence).

(** [delete]: unlink the segments in [doomed]; names already gone are not errors. *)
Definition prefault_delete {S} (base_path : string) (doomed : list Z) : M S unit :=
  for_each doomed (fun sequence =>
    path <- ok (make_channel_file_path base_path sequence) ;;
    match path with
    | Some path => ignore (remove_file path)
    | None => ret tt
    end).

Definition saturated : M Shared unit := modify (fun p => with_saturated (p_saturated p + 1) p).

Definition release_if_stopped : M Shared unit :=
  p <- self ;;
  if negb (Failure_stopped (p_failure p)) then ret tt
  else
    modify (with_retired
      (Bounded_retain (Left_held (p_unmap p) (p_current_sequence p)) (p_retired p)) 0) ;;
    modify (with_doomed (MkBounded [] (bound (p_doomed p)))) ;;
    prefault_delete (p_base_path p) (items (p_doomed p)).

Definition unlink (sequence : Z) : M Shared unit :=
  p <- self ;;
  let '(doomed, full) := Bounded_push (p_doomed p) sequence in
  modify (with_doomed doomed) ;;
  match full with
  | Some sequence => saturated ;; prefault_delete (p_base_path p) [sequence]
  | None => ret tt
  end ;;
  release_if_stopped.

(** [retire]: queue what fits; what does not fit is released here. *)
Fixpoint retire_items (ls : list Left) (full : bool) : M Shared bool :=
  match ls with
  | [] => ret full
  | l :: ls =>
      p <- self ;;
      let file := match l with LRegion _ _ => false | _ => true end in
      if file && (p_queued_files p >=? 2 * SMALL_QUEUE) then retire_items ls true
      else
        let '(q, refused) := Bounded_push (p_retired p) l in
        match refused with
        | None =>
            modify (with_retired q (if file then p_queued_files p + 1 else p_queued_files p)) ;;
            retire_items ls full
        | Some _ => retire_items ls true
        end
  end.

Definition retire (ls : list Left) : M Shared unit :=
  full <- retire_items ls false ;;
  if full : bool then saturated else ret tt.

Definition hand_off : M Shared (option Left) :=
  p <- self ;;
  match p_handoff p with
  | None => ret None
  | Some next =>
      if p_segment_busy p then ret None
      else
        modify (with_segment next) ;;
        modify (with_handoff None) ;;
        ret (Some (LWorker (hs_file (p_segment p))))
  end.

Definition moved (region : RegionMapping) (index : Z) (l : RegionMapping) : M Shared unit :=
  p <- self ;;
  modify (with_current (Some region) index (p_current_sequence p)) ;;
  worker <- hand_off ;;
  retire (LRegion (p_current_sequence p) l :: option_list worker) ;;
  release_if_stopped.

Definition rolled (sequence : Z) (instance : InstanceId) (file file_len : Z) (region : RegionMapping)
    (index : Z) (ls : list RegionMapping) (left_file : Z) (worker : option Z) : M Shared unit :=
  p <- self ;;
  let old := p_current_sequence p in
  handle <- (match worker with
             | Some worker => ret (Some worker)
             | None => ok (try_clone file)
             end) ;;
  worker <- (match handle with
             | None => ret None
             | Some handle =>
                 modify (with_handoff (Some (HSegment sequence instance handle file_len))) ;;
                 hand_off
             end) ;;
  modify (with_current (Some region) index sequence) ;;
  p <- self ;;
  modify (with_next None) ;;
  retire (map (LRegion old) (ls ++ option_list (n_region <$> p_next p)) ++ [LFile left_file]
          ++ option_list worker) ;;
  release_if_stopped.

(** [Drop for Prefaulter], the thread joined. *)
Definition Prefaulter_drop : M Shared unit :=
  modify (with_stop true) ;;
  p <- self ;;
  modify (with_ready None (p_ready_sequence p)) ;;
  match p_ready p with
  | None => ret tt
  | Some unused =>
      published <- ok (is_published (ps_channel_region (ns_segment unused))) ;;
      match published with
      | Some false =>
          path <- ok (make_channel_file_path (p_base_path p) (ns_sequence unused)) ;;
          match path with
          | Some path => ignore (remove_file path)
          | None => ret tt
          end
      | _ => ret tt
      end
  end ;;
  modify (with_doomed (MkBounded [] (bound (p_doomed p)))) ;;
  prefault_delete (p_base_path p) (items (p_doomed p)).

(** ** The helper's side *)

(** [populate]: [madvise(MADV_POPULATE_WRITE)] on the pages of [m] from [off] on, where the system is
    Linux.  It changes no byte. *)
Definition populate {S} (m : RegionMapping) (off len : Z) : M S unit :=
  when SUPPORTED (syscall ;; emit (add_call (KPopulate m off len))).

Definition ENOMEM : Z := 12.
Definition EFAULT : Z := 14.

(** [populate] a range of the writer's, which it may have unmapped since. *)
Definition populate_writers {S} (m : RegionMapping) (off len : Z) : M S unit :=
  r <- attempt (populate m off len) ;;
  match r with
  | inl _ => ret tt
  | inr e =>
      if bool_decide (raw_os_error e = Some ENOMEM) || bool_decide (raw_os_error e = Some EFAULT) then ret tt
      else throw e
  end.

Definition install_ahead (spec : SegmentSpec) (sequence : Z) (parent : InstanceId) (ahead : Z)
  : M Shared (option (Identity * PreparedSegment * Z)) :=
  p <- self ;;
  id <- InstanceId_fresh ;;
  let identity := Identity_successor id parent (sequence - 1) in
  attempt_path <- make_attempt_path (sp_base_path spec) sequence (instance identity) ;;
  path <- make_channel_file_path (sp_base_path spec) sequence ;;
  prepared <- attempt (prepare_segment_at attempt_path sequence (p_region_size p)
                         (sp_file_roll_size spec) (sp_mtu spec) (sp_channel_name spec) 0
                         (sp_generation spec) identity) ;;
  let refuse :=
    ignore (remove_file attempt_path) ;;
    modify (with_refused (Some sequence)) ;;
    ret None in
  match prepared with
  | inr _ => refuse
  | inl segment =>
      populated <- attempt (populate (ps_current_region segment) 0 (Z.min ahead (p_region_size p))) ;;
      r <- attempt (install_no_replace attempt_path path) ;;
      match r with
      | inr e =>
          if bool_decide (kind e = AlreadyExists) then
            ignore (remove_file attempt_path) ;; ret None
          else refuse
      | inl _ =>
          match populated with
          | inr e => throw e
          | inl _ =>
              worker <- try_clone (ps_file segment) ;;
              ret (Some (identity, segment, worker))
          end
      end
  end.

Definition prepare_segment (spec : SegmentSpec) (sequence ahead : Z) : M Shared unit :=
  p <- self ;;
  if p_ready_sequence p =? sequence then ret tt
  else
    match p_ready p with
    | Some n =>
        if ns_sequence n <=? p_claimed p then modify (with_ready None NONE) else ret tt
    | None => ret tt
    end ;;
    p <- self ;;
    if bool_decide (p_refused p = Some sequence)
       || (match p_ready p with Some n => ns_sequence n =? sequence | None => false end) then ret tt
    else if negb (hs_sequence (p_segment p) + 1 =? sequence) then ret tt
    else
      let parent := hs_instance (p_segment p) in
      modify (with_in_flight sequence) ;;
      p <- self ;;
      installed <- attempt
        (if p_claimed p >=? sequence then ret None else install_ahead spec sequence parent ahead) ;;
      modify (with_in_flight NONE) ;;
      match installed with
      | inr e => throw e
      | inl None => ret tt
      | inl (Some (identity, segment, worker)) =>
          p <- self ;;
          if p_claimed p <? sequence then
            modify (with_ready (Some (MkNextSegment sequence identity segment worker)) sequence)
          else ret tt
      end.

(** [prepare]: map the region after the writer's, growing the file first if it is short. *)
Definition prepare (sequence index : Z) : M Shared unit :=
  p <- self ;;
  if (match p_regions_per_file p with Some n => index >=? n | None => false end) then ret tt
  else if (match p_next p with
           | Some n => (n_sequence n =? sequence) && (n_index n =? index)
           | None => false
           end) then ret tt
  else
    let size := p_region_size p in
    let segment := p_segment p in
    if negb (hs_sequence segment =? sequence) then ret tt
    else
      let needed := (index + 1) * size in
      grown <- (if hs_len segment <? needed then
                  r <- attempt (set_len (hs_file segment) needed) ;;
                  match r with
                  | inr _ => ret false
                  | inl _ =>
                      modify (with_segment (HSegment (hs_sequence segment) (hs_instance segment)
                                              (hs_file segment) needed)) ;;
                      ret true
                  end
                else ret true) ;;
      if negb grown then ret tt
      else
        region <- ok (create_writable (hs_file segment) (index * size) size) ;;
        match region with
        | None => ret tt
        | Some region => modify (with_next (Some (MkNext sequence index region)))
        end.

(** [map_header]: page 0 of the segment, through the helper's own handle. *)
Definition map_header (sequence : Z) : M Shared (option RegionMapping) :=
  p <- self ;;
  if negb (hs_sequence (p_segment p) =? sequence) then ret None
  else
    m <- create_read_only (hs_file (p_segment p)) 0 page_size ;;
    ret (Some m).

(** *** The thread's loop *)

(** The variables of [run].  The buffers it swaps with the queues are empty between turns. *)
Record Turn := MkTurn {
  u_done_at : Z * Z;
  u_done_to : Z;
  u_next_head_done : Z * Z;
  u_header : option (Z * RegionMapping);
  u_since : Z;
  u_since_at : Z * Z;
  u_ahead : Z
}.

Definition first_turn (time : Z) : Turn :=
  MkTurn (U64_MAX, U64_MAX) 0 (U64_MAX, U64_MAX) None time (U64_MAX, 0) AHEAD_MIN.

(** Release what the writer left, and delete what retention dropped. *)
Definition release_left : M Shared unit :=
  p <- self ;;
  let out := match p_unmap p with
             | Immediate => items (p_retired p)
             | AtFileRoll =>
                 List.filter (fun l => negb (Left_held AtFileRoll (p_current_sequence p) l)) (items (p_retired p))
             end in
  let stays := match p_unmap p with
               | Immediate => []
               | AtFileRoll => List.filter (Left_held AtFileRoll (p_current_sequence p)) (items (p_retired p))
               end in
  modify (with_retired (MkBounded stays (bound (p_retired p))) (p_queued_files p)) ;;
  let files := List.filter (fun l => match l with LRegion _ _ => false | _ => true end) out in
  for_each out (fun l => match l with LRegion _ _ => ignore (S := Shared) syscall | _ => ret tt end) ;;
  p <- self ;;
  modify (with_retired (p_retired p) (u64 (p_queued_files p - Z.of_nat (List.length files)))) ;;
  p <- self ;;
  modify (with_doomed (MkBounded [] (bound (p_doomed p)))) ;;
  prefault_delete (p_base_path p) (items (p_doomed p)).

(** How far ahead the writer gets in [AHEAD_TIME] at its present pace, sampled that often. *)
Definition estimate_ahead (t : Turn) (sequence pos : Z) : M Shared Turn :=
  time <- now ;;
  let elapsed := Z.max 0 (time - u_since t) in
  let again ahead time :=
    MkTurn (u_done_at t) (u_done_to t) (u_next_head_done t) (u_header t) time (sequence, pos) ahead in
  if negb ((u_since_at t).1 =? sequence) then
    time <- now ;; ret (again (u_ahead t) time)
  else if elapsed >=? AHEAD_TIME then
    let moved := f64_of_u64 (saturating_sub pos (u_since_at t).2) in
    let in_window := f64_div (f64_mul moved (as_secs_f64 AHEAD_TIME)) (as_secs_f64 elapsed) in
    let ahead := clamp (usize_of_f64 in_window) AHEAD_MIN AHEAD_MAX in
    time <- now ;; ret (again ahead time)
  else ret t.

(** Populate the writer's region from where the last turn stopped up to the estimate. *)
Definition populate_current (t : Turn) (sequence index off : Z) (base : option RegionMapping) : M Shared Turn :=
  p <- self ;;
  let size := p_region_size p in
  let '(done_at, done_to) :=
    if bool_decide ((sequence, index) <> u_done_at t) then ((sequence, index), off / page_size * page_size)
    else (u_done_at t, u_done_to t) in
  let target := Z.min (saturating_mul (div_ceil (u64 (off + u_ahead t)) page_size) page_size) size in
  let done v := MkTurn done_at v (u_next_head_done t) (u_header t) (u_since t) (u_since_at t) (u_ahead t) in
  match base with
  | Some m => if done_to <? target then populate_writers m done_to (target - done_to) ;; ret (done target) else ret (done done_to)
  | None => ret (done done_to)
  end.

(** Near the end of the region: populate the head of the next one, once. *)
Definition populate_next_head (t : Turn) (sequence index off : Z) : M Shared Turn :=
  p <- self ;;
  let size := p_region_size p in
  if (size - off <? u_ahead t) && negb (bool_decide (u_next_head_done t = (sequence, index + 1))) then
    match p_next p with
    | Some n =>
        if (n_sequence n =? sequence) && (n_index n =? index + 1) then
          populate_writers (n_region n) 0 (Z.min (u_ahead t) size) ;;
          ret (MkTurn (u_done_at t) (u_done_to t) (sequence, index + 1) (u_header t) (u_since t) (u_since_at t) (u_ahead t))
        else ret t
    | None => ret t
    end
  else ret t.

(** One turn of the loop, up to its sleep: [inr tt] once the writer asked the thread to stop. *)
Definition run_turn (t : Turn) : M Shared (Turn + unit) :=
  release_left ;;
  p <- self ;;
  if p_stop p then ret (inr tt)
  else
    let sequence := p_current_sequence p in
    let index := p_current_index p in
    let base := p_current_ptr p in
    let size := p_region_size p in
    header <- (if match u_header t with Some (s, _) => negb (s =? sequence) | None => true end then
                 h <- map_header sequence ;; ret ((fun m => (sequence, m)) <$> h)
               else ret (u_header t)) ;;
    let t := MkTurn (u_done_at t) (u_done_to t) (u_next_head_done t) header (u_since t) (u_since_at t) (u_ahead t) in
    match header with
    | None => ret (inl t)
    | Some (_, page0) =>
        pos <- load_write_position page0 ;;
        t <- estimate_ahead t sequence pos ;;
        div_guard size ;;
        let off := if pos / size =? index then pos mod size else 0 in
        t <- populate_current t sequence index off base ;;
        (if off >=? size / 2 then prepare sequence (index + 1) else ret tt) ;;
        t <- populate_next_head t sequence index off ;;
        (match p_spec p with
         | Some spec =>
             if u64 (pos + size / 2) >=? sp_file_roll_size spec then prepare_segment spec (sequence + 1) (u_ahead t)
             else ret tt
         | None => ret tt
         end) ;;
        ret (inl t)
    end.

(** [run]: turns until the writer asks it to stop, or one fails; [fuel] bounds their number. *)
Definition run (fuel : nat) : M Shared unit :=
  time <- now ;; loop_with fuel run_turn (first_turn time).

End prefault.
