(* ===== verification/Writer.v ===== *)
(** * The writer (src/lib.rs: WriterBuilder, Writer)

    Building and opening a writer, crash recovery, reserving and committing a record, moving to the
    next region and rolling to the next file. *)

From Stdlib Require Import String.
From S2P Require Import Prelude Bytes Crc32c Effects Region Channel V4 Names Segment Helper Prefault.

#[local] Open Scope string_scope.
#[local] Open Scope list_scope.
#[local] Open Scope Z_scope.

(** ** Data *)

Record WriterBuilder := MkWriterBuilder {
  wb_path : string;
  wb_region_size : Z;
  wb_file_roll_size : Z;
  wb_mtu : Z;
  wb_keep_files : option Z;
  wb_channel_name : list Z;
  wb_base_record_index : Z;
  wb_generation : Z;
  wb_wake_readers : bool;
  wb_helper : option HelperSpec;
  wb_unmap : Unmap
}.

Definition WriterBuilder_new (path : string) : WriterBuilder :=
  MkWriterBuilder path (1024 * 1024) 0 0 None (zeros CHANNEL_NAME_MAX) 0 0 false None Immediate.

(** [WriterBuilder::channel_name]: the name padded with zeros, or refused if it is too long. *)
Definition WriterBuilder_channel_name (name : list Z) (b : WriterBuilder) : res WriterBuilder :=
  if (CHANNEL_NAME_MAX <? List.length name)%nat then Err (err_invalid_input "channel_name too long")
  else
    Ok (MkWriterBuilder (wb_path b) (wb_region_size b) (wb_file_roll_size b) (wb_mtu b)
          (wb_keep_files b) (copy_from_slice (zeros CHANNEL_NAME_MAX) 0 name)
          (wb_base_record_index b) (wb_generation b) (wb_wake_readers b) (wb_helper b) (wb_unmap b)).

(** [WriterBuilder::keep_files]: asserts [n >= 1]. *)
Definition WriterBuilder_keep_files (n : Z) (b : WriterBuilder) : res WriterBuilder :=
  if n <? 1 then Die (Panicked "WriterBuilder::keep_files: n must be >= 1")
  else
    Ok (MkWriterBuilder (wb_path b) (wb_region_size b) (wb_file_roll_size b) (wb_mtu b)
          (Some n) (wb_channel_name b)
          (wb_base_record_index b) (wb_generation b) (wb_wake_readers b) (wb_helper b) (wb_unmap b)).

Record Writer := MkWriter {
  w_prefault : option Shared;
  w_helper : option HelperSpec;
  w_unmap : Unmap;
  w_held : list RegionMapping;
  w_base_path : string;
  w_file_sequence : Z;
  w_instance : InstanceId;
  w_file : Z;
  w_file_len : Z;
  w_channel_region : RegionMapping;
  w_current_region : RegionMapping;
  w_current_region_index : Z;
  w_region_size : Z;
  w_file_roll_size : Z;
  w_mtu : Z;
  w_keep_files : option Z;
  w_channel_name : list Z;
  w_next_hdr_pos : Z;
  w_pending_msg_size : option Z;
  w_wake : bool;
  w_deferred_prune : list Z
}.

(** Assignments to the fields the methods change. *)
Definition set_prefault v (w : Writer) : Writer :=
  MkWriter v (w_helper w) (w_unmap w) (w_held w) (w_base_path w) (w_file_sequence w)
    (w_instance w) (w_file w) (w_file_len w) (w_channel_region w) (w_current_region w)
    (w_current_region_index w) (w_region_size w) (w_file_roll_size w) (w_mtu w) (w_keep_files w)
    (w_channel_name w) (w_next_hdr_pos w) (w_pending_msg_size w) (w_wake w) (w_deferred_prune w).
Definition set_helper v (w : Writer) : Writer :=
  MkWriter (w_prefault w) v (w_unmap w) (w_held w) (w_base_path w) (w_file_sequence w)
    (w_instance w) (w_file w) (w_file_len w) (w_channel_region w) (w_current_region w)
    (w_current_region_index w) (w_region_size w) (w_file_roll_size w) (w_mtu w) (w_keep_files w)
    (w_channel_name w) (w_next_hdr_pos w) (w_pending_msg_size w) (w_wake w) (w_deferred_prune w).
Definition set_unmap v (w : Writer) : Writer :=
  MkWriter (w_prefault w) (w_helper w) v (w_held w) (w_base_path w) (w_file_sequence w)
    (w_instance w) (w_file w) (w_file_len w) (w_channel_region w) (w_current_region w)
    (w_current_region_index w) (w_region_size w) (w_file_roll_size w) (w_mtu w) (w_keep_files w)
    (w_channel_name w) (w_next_hdr_pos w) (w_pending_msg_size w) (w_wake w) (w_deferred_prune w).
Definition set_held v (w : Writer) : Writer :=
  MkWriter (w_prefault w) (w_helper w) (w_unmap w) v (w_base_path w) (w_file_sequence w)
    (w_instance w) (w_file w) (w_file_len w) (w_channel_region w) (w_current_region w)
    (w_current_region_index w) (w_region_size w) (w_file_roll_size w) (w_mtu w) (w_keep_files w)
    (w_channel_name w) (w_next_hdr_pos w) (w_pending_msg_size w) (w_wake w) (w_deferred_prune w).
Definition set_w_file_len v (w : Writer) : Writer :=
  MkWriter (w_prefault w) (w_helper w) (w_unmap w) (w_held w) (w_base_path w) (w_file_sequence w)
    (w_instance w) (w_file w) v (w_channel_region w) (w_current_region w)
    (w_current_region_index w) (w_region_size w) (w_file_roll_size w) (w_mtu w) (w_keep_files w)
    (w_channel_name w) (w_next_hdr_pos w) (w_pending_msg_size w) (w_wake w) (w_deferred_prune w).
Definition set_current v0 v1 (w : Writer) : Writer :=
  MkWriter (w_prefault w) (w_helper w) (w_unmap w) (w_held w) (w_base_path w) (w_file_sequence w)
    (w_instance w) (w_file w) (w_file_len w) (w_channel_region w) v0 v1 (w_region_size w)
    (w_file_roll_size w) (w_mtu w) (w_keep_files w) (w_channel_name w) (w_next_hdr_pos w)
    (w_pending_msg_size w) (w_wake w) (w_deferred_prune w).
Definition set_next_hdr_pos v (w : Writer) : Writer :=
  MkWriter (w_prefault w) (w_helper w) (w_unmap w) (w_held w) (w_base_path w) (w_file_sequence w)
    (w_instance w) (w_file w) (w_file_len w) (w_channel_region w) (w_current_region w)
    (w_current_region_index w) (w_region_size w) (w_file_roll_size w) (w_mtu w) (w_keep_files w)
    (w_channel_name w) v (w_pending_msg_size w) (w_wake w) (w_deferred_prune w).
Definition set_pending v (w : Writer) : Writer :=
  MkWriter (w_prefault w) (w_helper w) (w_unmap w) (w_held w) (w_base_path w) (w_file_sequence w)
    (w_instance w) (w_file w) (w_file_len w) (w_channel_region w) (w_current_region w)
    (w_current_region_index w) (w_region_size w) (w_file_roll_size w) (w_mtu w) (w_keep_files w)
    (w_channel_name w) (w_next_hdr_pos w) v (w_wake w) (w_deferred_prune w).
Definition set_deferred_prune v (w : Writer) : Writer :=
  MkWriter (w_prefault w) (w_helper w) (w_unmap w) (w_held w) (w_base_path w) (w_file_sequence w)
    (w_instance w) (w_file w) (w_file_len w) (w_channel_region w) (w_current_region w)
    (w_current_region_index w) (w_region_size w) (w_file_roll_size w) (w_mtu w) (w_keep_files w)
    (w_channel_name w) (w_next_hdr_pos w) (w_pending_msg_size w) (w_wake w) v.
Definition switch_file v0 v1 v2 v3 v4 v5 v6 v7 (w : Writer) : Writer :=
  MkWriter (w_prefault w) (w_helper w) (w_unmap w) (w_held w) (w_base_path w) v0 v1 v2 v6 v3 v4 v5
    (w_region_size w) (w_file_roll_size w) (w_mtu w) (w_keep_files w) (w_channel_name w) v7
    (w_pending_msg_size w) (w_wake w) (w_deferred_prune w).

Section writer.
Context `{Env}.

(** ** Helpers of the model *)

(** Call a method of the helper handle, if there is one. *)
Definition on_prefault {A} (m : M Shared A) : M Writer (option A) := fun w wd =>
  match w_prefault w with
  | None => Outcome (Ok None) w wd []
  | Some p =>
      let o := m p wd in
      Outcome (match o_res o with Ok a => Ok (Some a) | Err e => Err e | Die y => Die y end)
        (set_prefault (Some (o_self o)) w) (o_world o) (o_trace o)
  end.

(** Run a method of [w] in a function that has no [self] and return the writer it leaves. *)
Definition on_writer {S A} (w : Writer) (m : M Writer A) : M S (A * Writer) := fun s wd =>
  let o := m w wd in
  Outcome (match o_res o with Ok a => Ok (a, o_self o) | Err e => Err e | Die y => Die y end)
    s (o_world o) (o_trace o).

(** [fs::metadata(path)]: the length of a file; a directory has some positive one. *)
Definition fs_metadata {S} (name : string) : M S Z :=
  syscall ;;
  e <- entry name ;;
  match e with
  | Some (DFile ino) => ask (fun w => len_of w ino)
  | Some DDir => ret 4096
  | None => throw e_not_found
  end.

(** ** Opening *)

(** [open_file] where no usable file is there: a new initial segment, installed and published. *)
Definition open_fresh {S} (base_path file_path : string) (existing : option Z)
    (sequence region_size file_roll_size mtu : Z) (channel_name : list Z)
    (base_record_index generation : Z) : M S PreparedSegment :=
  if negb (sequence =? 0) then throw (err_invalid_data "segment is empty")
  else
    match existing with
    | Some _ => ignore (remove_file file_path)
    | None => ret tt
    end ;;
    fresh <- InstanceId_fresh ;;
    let identity := Identity_initial fresh in
    partial_path <- make_attempt_path base_path sequence (instance identity) ;;
    prepared <- prepare_segment_at partial_path sequence region_size file_roll_size mtu
                  channel_name base_record_index generation identity ;;
    r <- attempt (install_no_replace partial_path file_path) ;;
    match r with
    | inr e => ignore (remove_file partial_path) ;; throw e
    | inl _ => publish (ps_channel_region prepared) ;; ret prepared
    end.

(** The one-step recovery of [open_file] once the header at [next_hdr] is seen committed: the
    advanced slot, its region and that region's index. *)
Definition recover_slot {S} (file region_size file_len next_hdr region_index : Z)
    (current_region : RegionMapping) : M S (Z * Z * RegionMapping) :=
  let next_hdr_off := next_hdr mod region_size in
  stale_type <- parsed_header_type current_region next_hdr_off ;;
  stale_len <- load_length current_region next_hdr_off ;;
  let advance := HEADER_SLOT + align_up stale_len in
  match stale_type with
  | User =>
      if next_hdr_off + advance + HEADER_SLOT >? region_size then
        throw (err_invalid_data
          "crashed writer: User-record recovery would cross region boundary")
      else
        verify_preinstall_signature current_region (next_hdr_off + advance) ;;
        ret (next_hdr + advance, region_index, current_region)
  | Skip =>
      if negb (next_hdr_off + advance =? region_size) then
        throw (err_invalid_data "crashed writer: Skip length does not align to region boundary")
      else
        let next_region_index := region_index + 1 in
        let needed_end := u64 ((next_region_index + 1) * region_size) in
        if needed_end >? file_len then
          throw (err_invalid_data "crashed writer: Skip points past end of file")
        else
          new_region <- create_writable file (u64 (next_region_index * region_size)) region_size ;;
          verify_preinstall_signature new_region 0 ;;
          ret (next_hdr + advance, next_region_index, new_region)
  | Roll | Channel =>
      throw (err_invalid_data "crashed writer: unexpected header_type at write_position slot")
  end.

(** [open_file] once the file is mapped: resume at [next_hdr], or recover the append that was
    interrupted between its commit and its [write_position], and recount. *)
Definition resume_at {S} (file region_size file_len next_hdr region_index : Z)
    (region0 current_region : RegionMapping) : M S PreparedSegment :=
  c <- is_committed current_region (next_hdr mod region_size) ;;
  if c : bool then
    let* (next_hdr, region_index, current_region) :=
      recover_slot file region_size file_len next_hdr region_index current_region in
    walked <- walk_segment file region_size (fun _ _ _ => false) ;;
    if negb (we_pos walked =? next_hdr) then
      throw (err_invalid_data "crashed writer: recount stopped elsewhere")
    else
      with_ch_mut file region_size (fun ch =>
        store_u64 ch OFF_message_count (we_users walked) ;;
        store_u64 ch OFF_write_position (next_hdr + HEADER_SLOT)) ;;
      ret (PSegment file region0 current_region region_index file_len next_hdr)
  else ret (PSegment file region0 current_region region_index file_len next_hdr).

(** [open_file] on an existing file. *)
Definition open_existing {S} (file_path : string) (sequence region_size file_roll_size : Z)
  : M S PreparedSegment :=
  file <- open file_path ;;
  initial_len <- lift (preallocation_len region_size file_roll_size) ;;
  region0 <- create_writable file 0 region_size ;;
  ch <- load_channel_header region0 ;;
  lift (validate_channel_header ch region_size sequence) ;;
  validate_v4_prefix region0 ;;
  p <- is_published region0 ;;
  (if p : bool then ret tt
   else if negb (sequence =? 0) then
     throw (err_invalid_data "segment is unpublished, but is the newest file a writer resumes")
   else publish region0) ;;
  wp_payload <- load_write_position region0 ;;
  let next_hdr := saturating_sub wp_payload HEADER_SLOT in
  div_guard region_size ;;
  let region_index := next_hdr / region_size in
  let needed_end := u64 ((region_index + 1) * region_size) in
  let target_len := Z.max needed_end initial_len in
  file_len <- metadata_len file ;;
  file_len <- (if target_len >? file_len then set_len file target_len ;; ret target_len
               else ret file_len) ;;
  current_region <- create_writable file (u64 (region_index * region_size)) region_size ;;
  resume_at file region_size file_len next_hdr region_index region0 current_region.

Definition open_file {S} (base_path : string) (sequence region_size file_roll_size mtu : Z)
    (channel_name : list Z) (base_record_index generation : Z) : M S PreparedSegment :=
  file_path <- make_channel_file_path base_path sequence ;;
  existing_meta <- ok (fs_metadata file_path) ;;
  let recover_existing := match existing_meta with Some len => len >? 0 | None => false end in
  if negb recover_existing then
    open_fresh base_path file_path existing_meta sequence region_size file_roll_size mtu
      channel_name base_record_index generation
  else open_existing file_path sequence region_size file_roll_size.

(** How far the interrupted roll of a predecessor got: [None] if its record chain does not end in
    a roll this write position belongs to, otherwise [(staged, behind)]. *)
Definition stranded_state (walked : WalkEnd) (wp : Z) : option (bool * bool) :=
  let slot := we_pos walked in
  match we_stop walked with
  | AtRoll =>
      if wp =? slot + HEADER_SLOT + ROLL_TOTAL then Some (false, false)
      else if wp =? slot + HEADER_SLOT then Some (false, true)
      else None
  | Uncommitted => if wp =? slot + HEADER_SLOT then Some (true, true) else None
  | _ => None
  end.

(** [commit_stranded_roll] from the walk on: [region0] is the predecessor's region 0, of [identity]. *)
Definition finish_stranded_roll {S} (file : Z) (region0 : RegionMapping) (identity : Identity)
    (sequence region_size : Z) (successor : Identity) (successor_base : Z) : M S unit :=
  let corrupt := throw (err_invalid_data "the segment's predecessor is corrupt") in
  wp <- load_write_position region0 ;;
  div_guard region_size ;;
  let earliest := saturating_sub wp (HEADER_SLOT + ROLL_TOTAL) in
  walked <- walk_segment_from file region_size (earliest - earliest mod region_size)
              (fun _ _ _ => false) ;;
  let slot := we_pos walked in
  match stranded_state walked wp with
  | None => corrupt
  | Some (staged, behind) =>
      let region_start := slot - slot mod region_size in
      region <- (if region_start =? 0 then ret region0
                 else create_writable file region_start region_size) ;;
      let hdr := slot - region_start in
      t <- parsed_header_type region hdr ;;
      length <- load_length region hdr ;;
      if bool_decide (t <> Roll) || negb (length =? ROLL_PAYLOAD_V4) then corrupt
      else
        body <- load region (hdr + HEADER_SLOT) ROLL_PAYLOAD_V4 ;;
        edge <- lift (RollEdge_decode body) ;;
        if negb (RollEdge_names edge sequence (instance identity) successor)
           || negb (next_base_record_index edge =? successor_base) then corrupt
        else if negb behind then ret tt
        else
          when staged (commit region hdr) ;;
          compare_exchange_u64 region0 OFF_write_position (slot + HEADER_SLOT)
            (slot + HEADER_SLOT + ROLL_TOTAL) ;;
          wake_all region0
  end.

Definition commit_stranded_roll {S} (base_path : string) (sequence region_size generation : Z)
    (successor : Identity) (successor_base : Z) : M S unit :=
  let corrupt := throw (err_invalid_data "the segment's predecessor is corrupt") in
  path <- make_channel_file_path base_path sequence ;;
  r <- attempt (open path) ;;
  match r with
  | inr e => if bool_decide (kind e = NotFound) then ret tt else throw e
  | inl file =>
      len <- metadata_len file ;;
      if len <? region_size then ret tt
      else
        region0 <- create_writable file 0 region_size ;;
        ch <- load_channel_header region0 ;;
        lift (validate_channel_header ch region_size sequence) ;;
        identity <- validate_v4_prefix region0 ;;
        p <- is_published region0 ;;
        if negb p then corrupt
        else if negb (ch_generation ch =? generation)
             || bool_decide (predecessor successor <> instance identity)
             || negb (predecessor_sequence successor =? sequence) then corrupt
        else
          count <- load_message_count region0 ;;
          if bool_decide (checked_add (ch_base_record_index ch) count <> Some successor_base) then corrupt
          else finish_stranded_roll file region0 identity sequence region_size successor successor_base
  end.

(** The checks [open_or_create] makes of [region_size]. *)
Definition check_region_size (region_size : Z) : res unit :=
  if negb (is_multiple_of region_size page_size) then
    Err (err_invalid_input "region_size must be a multiple of OS page size")
  else if negb (is_multiple_of region_size ALIGN) then
    Err (err_invalid_input "region_size must be a multiple of header alignment")
  else if region_size <? FIRST_RECORD + ROLL_TOTAL then
    Err (err_invalid_input "region_size must be >= header space")
  else if region_size >? U32_MAX then Err (err_invalid_input "region_size too large for u32")
  else Ok tt.

Definition open_or_create {S} (base_path : string) (region_size file_roll_size mtu : Z)
    (keep_files : option Z) (channel_name : list Z) (base_record_index generation : Z)
    (wake : bool) : M S Writer :=
  lift (check_region_size region_size) ;;
  sequence <- discard_unpublished_tail base_path ;;
  p <- open_file base_path sequence region_size file_roll_size mtu channel_name
         base_record_index generation ;;
  let channel_region := ps_channel_region p in
  set_wake_flag channel_region wake ;;
  identity <- validate_v4_prefix channel_region ;;
  (if sequence >? 0 then
     ch <- load_channel_header channel_region ;;
     commit_stranded_roll base_path (sequence - 1) region_size (ch_generation ch) identity
       (ch_base_record_index ch)
   else ret tt) ;;
  ret {|
    w_prefault := None;
    w_helper := None;
    w_unmap := Immediate;
    w_held := [];
    w_base_path := base_path;
    w_file_sequence := sequence;
    w_instance := instance identity;
    w_file := ps_file p;
    w_file_len := ps_file_len p;
    w_channel_region := channel_region;
    w_current_region := ps_current_region p;
    w_current_region_index := ps_region_index p;
    w_region_size := region_size;
    w_file_roll_size := file_roll_size;
    w_mtu := mtu;
    w_keep_files := keep_files;
    w_channel_name := channel_name;
    w_next_hdr_pos := ps_next_hdr p;
    w_pending_msg_size := None;
    w_wake := wake;
    w_deferred_prune := []
  |}.

(** ** Accessors and the advisory pair *)

Definition next_record_index : M Writer Z :=
  w <- self ;;
  base <- load_base_record_index (w_channel_region w) ;;
  count <- load_message_count (w_channel_region w) ;;
  ret (u64 (base + count)).

Definition Writer_generation : M Writer Z := w <- self ;; load_generation (w_channel_region w).

(** [publish_wp]: the count, then the position, then the wake-up. *)
Definition publish_wp (pos : Z) : M Writer unit :=
  w <- self ;;
  let ch := w_channel_region w in
  fetch_add_u64 ch OFF_message_count 1 ;;
  store_u64 ch OFF_write_position pos ;;
  when (w_wake w) (wake_all ch).

Definition store_wp_local (val : Z) : M Writer unit :=
  w <- self ;; store_u64 (w_channel_region w) OFF_write_position val.

(** ** Regions *)

Definition ensure_len (want : Z) : M Writer unit :=
  w <- self ;;
  let grow :=
    if want >? w_file_len w then
      set_len (w_file w) want ;; modify (set_w_file_len want)
    else ret tt in
  match w_prefault w with
  | Some p =>
      let segment := p_segment p in
      if hs_sequence segment =? w_file_sequence w then
        (if want >? hs_len segment then
           set_len (hs_file segment) want ;;
           modify (set_prefault (Some (with_segment
             (HSegment (hs_sequence segment) (hs_instance segment) (hs_file segment) want) p)))
         else ret tt) ;;
        modify (set_w_file_len (Z.max (w_file_len w) (Z.max want (hs_len segment))))
      else grow
  | None => grow
  end.

Definition region_at (index : Z) : M Writer RegionMapping :=
  w <- self ;;
  let needed_end := u64 ((index + 1) * w_region_size w) in
  taken <- on_prefault (Prefaulter_take (w_file_sequence w) index) ;;
  match taken with
  | Some (Some region) =>
      modify (set_w_file_len (Z.max (w_file_len w) needed_end)) ;; ret region
  | _ =>
      ensure_len needed_end ;;
      create_writable (w_file w) (u64 (index * w_region_size w)) (w_region_size w)
  end.

Definition switch_region (region : RegionMapping) (index : Z) : M Writer unit :=
  w <- self ;;
  let l := w_current_region w in
  modify (set_current region index) ;;
  match w_prefault w with
  | Some _ => on_prefault (moved region index l) ;; ret tt
  | None =>
      if bool_decide (w_unmap w = AtFileRoll) then modify (set_held (w_held w ++ [l])) else ret tt
  end.

Definition roll_over_region : M Writer unit :=
  modify (set_pending None) ;;
  w <- self ;;
  let wp := w_next_hdr_pos w in
  let rs := w_region_size w in
  let off := wp mod rs in
  let leftover := rs - off in
  if leftover >=? HEADER_SLOT then
    let skip_len := leftover - HEADER_SLOT in
    let new_wp := u64 (wp + HEADER_SLOT + skip_len) in
    let next_idx := new_wp / rs in
    new_region <- region_at next_idx ;;
    match get_bytes_mut new_region 0 MESSAGE_HEADER_SIZE with
    | None => throw (err_other "roll_over_region: cannot pre-install next header")
    | Some _ =>
        store_header new_region 0 preinstalled ;;
        match get_bytes_mut (w_current_region w) off MESSAGE_HEADER_SIZE with
        | None => throw (err_other "roll_over_region: header bytes")
        | Some _ =>
            store_header (w_current_region w) off
              (Header 0 (HeaderType_u8 Skip) 0 (u32 skip_len) 0) ;;
            commit (w_current_region w) off ;;
            switch_region new_region next_idx ;;
            modify (set_next_hdr_pos new_wp) ;;
            store_wp_local (new_wp + HEADER_SLOT)
        end
    end
  else
    let next_region_start := u64 ((wp / rs + 1) * rs) in
    let next_idx := next_region_start / rs in
    new_region <- region_at next_idx ;;
    switch_region new_region next_idx ;;
    match get_bytes_mut new_region 0 MESSAGE_HEADER_SIZE with
    | Some _ => store_header new_region 0 preinstalled
    | None => ret tt
    end ;;
    modify (set_next_hdr_pos next_region_start) ;;
    store_wp_local (next_region_start + HEADER_SLOT).

(** ** Rolling *)

Definition adopt_successor (next_seq generation : Z) (path : string)
  : M Writer (Identity * PreparedSegment) :=
  w <- self ;;
  file <- open path ;;
  len <- lift (preallocation_len (w_region_size w) (w_file_roll_size w)) ;;
  let refuse := throw (err_invalid_data "segment is already installed and unusable") in
  file_len <- metadata_len file ;;
  if negb (file_len =? len) then refuse
  else
    region0 <- create_writable file 0 (w_region_size w) ;;
    ch <- load_channel_header region0 ;;
    lift (validate_channel_header ch (w_region_size w) next_seq) ;;
    identity <- validate_v4_prefix region0 ;;
    published <- is_published region0 ;;
    if published : bool then refuse
    else if bool_decide (predecessor identity <> w_instance w)
         || negb (predecessor_sequence identity =? w_file_sequence w)
         || negb (ch_generation ch =? generation)
         || negb (ch_mtu ch =? w_mtu w)
         || bool_decide (ch_channel_name ch <> w_channel_name w) then refuse
    else
      count <- load_message_count region0 ;;
      if negb (count =? 0) then refuse
      else
        wp <- load_write_position region0 ;;
        if negb (wp =? FIRST_RECORD + HEADER_SLOT) then refuse
        else
          current <- create_writable file 0 (w_region_size w) ;;
          verify_preinstall_signature current FIRST_RECORD ;;
          ret (identity, PSegment file region0 current 0 len FIRST_RECORD).

Definition prepare_successor (next_seq generation : Z) : M Writer (Identity * PreparedSegment) :=
  w <- self ;;
  final_path <- make_channel_file_path (w_base_path w) next_seq ;;
  exists_ <- try_exists final_path ;;
  if exists_ : bool then adopt_successor next_seq generation final_path
  else
    fresh <- InstanceId_fresh ;;
    let identity := Identity_successor fresh (w_instance w) (w_file_sequence w) in
    attempt_path <- make_attempt_path (w_base_path w) next_seq (instance identity) ;;
    segment <- prepare_segment_at attempt_path next_seq (w_region_size w) (w_file_roll_size w)
                 (w_mtu w) (w_channel_name w) 0 generation identity ;;
    r <- attempt (install_no_replace attempt_path final_path) ;;
    match r with
    | inl _ => ret (identity, segment)
    | inr e =>
        ignore (remove_file attempt_path) ;;
        if bool_decide (kind e <> AlreadyExists) then throw e
        else adopt_successor next_seq generation final_path
    end.

(** [prune]: unlink a segment retention drops, unless the helper may still install it. *)
Definition prune (seq : Z) : M Writer unit :=
  w <- self ;;
  match w_prefault w with
  | Some p =>
      if installing seq p then modify (set_deferred_prune (w_deferred_prune w ++ [seq]))
      else on_prefault (unlink seq) ;; ret tt
  | None =>
      path <- ok (make_channel_file_path (w_base_path w) seq) ;;
      match path with
      | Some path => ignore (remove_file path)
      | None => ret tt
      end
  end.

(** The loop over [0..self.deferred_prune.len()]: each turn removes the first entry. *)
Fixpoint prune_deferred (n : nat) : M Writer unit :=
  match n with
  | O => ret tt
  | Datatypes.S n =>
      w <- self ;;
      match w_deferred_prune w with
      | [] => die (Panicked "removal index should be < len")
      | seq :: rest => modify (set_deferred_prune rest) ;; prune seq ;; prune_deferred n
      end
  end.

(** Step 1 of a roll: the successor the helper prepared, or one prepared here. *)
Definition take_successor (next_seq generation : Z)
  : M Writer (Identity * PreparedSegment * option Z) :=
  w <- self ;;
  taken <- on_prefault (claim next_seq ;; try_take_segment next_seq) ;;
  let prepared_here :=
    on_prefault (modify (fun p => with_missed (p_missed p + 1) p)) ;;
    r <- prepare_successor next_seq generation ;;
    ret (r.1, r.2, None) in
  match taken with
  | Some (Some (identity, prepared, worker)) =>
      if bool_decide (predecessor identity = w_instance w)
         && (predecessor_sequence identity =? w_file_sequence w)
      then ret (identity, prepared, Some worker)
      else prepared_here
  | _ => prepared_here
  end.

(** Step 2: the whole [Roll], uncommitted, in the region already mapped. *)
Definition stage_roll (roll_off : Z) (edge : RollEdge) : M Writer unit :=
  w <- self ;;
  match get_bytes_mut (w_current_region w) roll_off ROLL_TOTAL with
  | None => throw (err_other "roll header outside region")
  | Some _ =>
      store (w_current_region w) (roll_off + HEADER_SLOT) (RollEdge_encode edge) ;;
      store_header (w_current_region w) roll_off
        (Header 0 (HeaderType_u8 Roll) 0 ROLL_PAYLOAD_V4 0)
  end.

(** Steps 3 and 4: stamp the successor's base, publish it, commit the [Roll], move the terminal
    hint one slot past it and wake. *)
Definition publish_roll (roll_pos : Z) (new_channel_region : RegionMapping) (edge : RollEdge)
  : M Writer unit :=
  w <- self ;;
  let roll_off := roll_pos mod w_region_size w in
  store_u64 new_channel_region OFF_base_record_index (next_base_record_index edge) ;;
  set_wake_flag new_channel_region (w_wake w) ;;
  publish new_channel_region ;;
  commit (w_current_region w) roll_off ;;
  store_wp_local (roll_pos + ROLL_TOTAL + HEADER_SLOT) ;;
  when (w_wake w) (wake_all (w_channel_region w)).

(** The switch to the new file, and retention. *)
Definition enter_successor (next_seq : Z) (identity : Identity) (prepared : PreparedSegment)
    (worker : option Z) : M Writer unit :=
  w <- self ;;
  modify (switch_file next_seq (instance identity) (ps_file prepared) (ps_channel_region prepared)
            (ps_current_region prepared) (ps_region_index prepared) (ps_file_len prepared)
            (ps_next_hdr prepared)) ;;
  match w_prefault w with
  | Some _ =>
      on_prefault (rolled next_seq (instance identity) (ps_file prepared) (ps_file_len prepared)
                     (ps_current_region prepared) (ps_region_index prepared)
                     [w_channel_region w; w_current_region w] (w_file w) worker) ;;
      ret tt
  | None => modify (set_held [])
  end ;;
  w <- self ;;
  prune_deferred (List.length (w_deferred_prune w)) ;;
  match w_keep_files w with
  | Some n => if next_seq >=? n then prune (next_seq - n) else ret tt
  | None => ret tt
  end.

Definition roll_file : M Writer unit :=
  modify (set_pending None) ;;
  w <- self ;;
  let old_seq := w_file_sequence w in
  let roll_pos := w_next_hdr_pos w in
  div_guard (w_region_size w) ;;
  let roll_off := roll_pos mod w_region_size w in
  if w_region_size w - roll_off <? ROLL_TOTAL then throw (err_invalid_data "no room for a Roll")
  else
    old_base <- load_base_record_index (w_channel_region w) ;;
    old_count <- load_message_count (w_channel_region w) ;;
    generation <- load_generation (w_channel_region w) ;;
    next_seq <- lift (ok_or (checked_add old_seq 1) (err_invalid_input "file sequence exhausted")) ;;
    let* (identity, prepared, worker) := take_successor next_seq generation in
    edge <- lift (RollEdge_after old_seq old_base old_count (instance identity)) ;;
    stage_roll roll_off edge ;;
    publish_roll roll_pos (ps_channel_region prepared) edge ;;
    enter_successor next_seq identity prepared worker.

(** ** Reserving and committing a record *)

(** One turn of [try_reserve]'s loop: the payload slice, or go round again. *)
Definition reserve_step (msg_size record_with_padding needed_total : Z) : M Writer (option slice) :=
  w <- self ;;
  let wp := w_next_hdr_pos w in
  let off := wp mod w_region_size w in
  if (w_file_roll_size w >? 0) && (u64 (wp + needed_total) >? w_file_roll_size w) then
    roll_file ;; ret None
  else if u64 (off + needed_total) >? w_region_size w then
    roll_over_region ;; ret None
  else
    let next_hdr_off := u64 (off + record_with_padding) in
    match get_bytes_mut (w_current_region w) next_hdr_off MESSAGE_HEADER_SIZE with
    | None => throw (err_other "Failed to pre-install next header")
    | Some _ =>
        store_header (w_current_region w) next_hdr_off preinstalled ;;
        modify (set_pending (Some msg_size)) ;;
        payload <- lift (ok_or (get_bytes_mut (w_current_region w) (off + HEADER_SLOT) msg_size)
                          (err_other "message crosses region boundary")) ;;
        ret (Some payload)
    end.

(** The longest way to a reservation: the rest of a region, the rest of a file, and the first
    region of the new file are each too short, and the fourth turn reserves. *)
Definition RESERVE_FUEL : nat := 4.

Definition try_reserve (msg_size : Z) : M Writer slice :=
  w <- self ;;
  if (w_mtu w >? 0) && (msg_size >? w_mtu w) then throw (err_other "MTU exceeded")
  else
    let record_size := u64 (HEADER_SLOT + msg_size) in
    let record_with_padding := align_up record_size in
    let needed_total := u64 (record_with_padding + ROLL_TOTAL) in
    if needed_total >? w_region_size w then
      throw (err_other "reservation cannot fit in region_size")
    else if (w_file_roll_size w >? 0) && (u64 (FIRST_RECORD + needed_total) >? w_file_roll_size w) then
      throw (err_other "reservation cannot fit in file_roll_size")
    else
      div_guard (w_region_size w) ;;
      loop RESERVE_FUEL (reserve_step msg_size record_with_padding needed_total).

(** [Writer::commit]. *)
Definition Writer_commit (msg_type length user_meta : Z) : M Writer unit :=
  w <- self ;;
  modify (set_pending None) ;;
  reserved <- lift (ok_or (w_pending_msg_size w) (err_other "commit without preceding try_reserve")) ;;
  if length >? reserved then throw (err_other "commit length exceeds try_reserve size")
  else
    div_guard (w_region_size w) ;;
    let region := w_current_region w in
    let hdr_off := w_next_hdr_pos w mod w_region_size w in
    match get_bytes_mut region hdr_off MESSAGE_HEADER_SIZE with
    | None => throw (err_other "No header to commit")
    | Some _ =>
        store_u8 region hdr_off 0 ;;
        store_u32 region (hdr_off + 4) length ;;
        store_u8 region (hdr_off + 1) (HeaderType_u8 User) ;;
        store_u16 region (hdr_off + 2) msg_type ;;
        store_u64 region (hdr_off + 8) user_meta ;;
        let payload_end := u64 (w_next_hdr_pos w + HEADER_SLOT + length) in
        let next_pos := align_up payload_end in
        (if length <? reserved then
           let new_next_off := next_pos mod w_region_size w in
           match get_bytes_mut region new_next_off MESSAGE_HEADER_SIZE with
           | None => throw (err_other "Failed to re-install next header on short commit")
           | Some _ => store_header region new_next_off preinstalled
           end
         else ret tt) ;;
        commit region hdr_off ;;
        modify (set_next_hdr_pos next_pos) ;;
        publish_wp (u64 (next_pos + HEADER_SLOT))
    end.

(** ** The helper's start, its error, and [Drop] *)

Definition start_prefault : M Writer unit :=
  w <- self ;;
  regions_per_file <-
    (if w_file_roll_size w =? 0 then ret None
     else len <- lift (preallocation_len (w_region_size w) (w_file_roll_size w)) ;;
          ret (Some (len / w_region_size w))) ;;
  spec <-
    (if w_file_roll_size w >? 0 then
       generation <- load_generation (w_channel_region w) ;;
       ret (Some (MkSpec (w_base_path w) (w_file_roll_size w) (w_mtu w) (w_channel_name w) generation))
     else ret None) ;;
  p <- Prefaulter_start (w_base_path w) (w_file_sequence w) (w_instance w) (w_file w) (w_file_len w)
         (w_current_region w) (w_current_region_index w) (w_region_size w) regions_per_file spec
         (w_unmap w) (default inherit (w_helper w)) ;;
  modify (set_prefault (Some p)).

Definition Writer_helper_error (w : Writer) : option io_error :=
  match w_prefault w with Some p => Failure_error (p_failure p) | None => None end.

(** [Drop for Writer]: stop the helper, then unlink what retention deferred. *)
Definition Writer_drop : M Writer unit :=
  on_prefault Prefaulter_drop ;;
  modify (set_prefault None) ;;
  w <- self ;;
  modify (set_deferred_prune []) ;;
  for_each (w_deferred_prune w) (fun seq =>
    path <- ok (make_channel_file_path (w_base_path w) seq) ;;
    match path with
    | Some path => ignore (remove_file path)
    | None => ret tt
    end).

(** ** [WriterBuilder::build] *)

Definition WriterBuilder_build {S} (b : WriterBuilder) : M S Writer :=
  if negb (wb_file_roll_size b =? 0)
     && (wb_file_roll_size b <? saturating_mul (wb_region_size b) 2) then
    throw (err_invalid_input "file_roll_size must be 0 or span at least two regions")
  else
    sweep_stale_partial_files (wb_path b) ;;
    w <- open_or_create (wb_path b) (wb_region_size b) (wb_file_roll_size b) (wb_mtu b)
           (wb_keep_files b) (wb_channel_name b) (wb_base_record_index b) (wb_generation b)
           (wb_wake_readers b) ;;
    let w := set_unmap (wb_unmap b) w in
    match wb_helper b with
    | Some h =>
        r <- on_writer (set_helper (Some h) w) start_prefault ;;
        ret r.2
    | None => ret w
    end.

(** [precreate]: build, then drop. *)
Definition precreate {S} (b : WriterBuilder) : M S unit :=
  w <- WriterBuilder_build b ;;
  on_writer w Writer_drop ;;
  ret tt.

End writer.
