(* ===== verification/MapAhead.v ===== *)
(** * The reader's helper thread (src/map_ahead.rs)

    The state the reader and its helper thread share, the reader's side of every hand-over, and the
    helper's loop, turn by turn.  A lock section is one step of the state. *)

From Stdlib Require Import String.
From S2P Require Import Prelude Bytes Effects Region Channel V4 Names Segment Helper.

#[local] Open Scope string_scope.
#[local] Open Scope list_scope.
#[local] Open Scope Z_scope.

(** ** Data *)

(** [MappedRegion] of src/lib.rs: one region of a segment, mapped for reading. *)
Record MappedRegion := Mapped {
  m_file_sequence : Z;
  m_region_idx : Z;
  m_mapping : RegionMapping
}.

#[export] Instance MappedRegion_eq_dec : EqDecision MappedRegion.
Proof. solve_decision. Defined.

Record Ready := MkReady { y_file_sequence : Z; y_region_idx : Z; y_mapping : RegionMapping }.

(** [NextSegment]: the segment after the reader's, opened and mapped ahead of the roll. *)
Record AheadSegment := MkAheadSegment {
  as_sequence : Z;
  as_file : Z;
  as_region0 : MappedRegion;
  as_header : RegionMapping;
  as_identity : Identity
}.

(** What the reader leaves behind for the thread to release. *)
Inductive Retired :=
  | RetiredRegion (r : MappedRegion)
  | RetiredSegment (s : AheadSegment)
  | RetiredFile (file : Z)
  | RetiredHeader (m : RegionMapping).

(** The part of [Shared] the protocol uses. *)
Record Ahead := MkAhead {
  a_failure : Failure;
  a_region_size : Z;
  a_base_path : string;
  a_want_sequence : Z;
  a_want_region : Z;
  a_rolled : option (Z * option Z);
  a_ready : option Ready;
  a_next_segment : option AheadSegment;
  a_retired : Bounded Retired;
  a_saturated : Z;
  a_stop : bool
}.

(** Assignments to the fields the operations change. *)
Definition set_want v0 v1 (a : Ahead) : Ahead :=
  MkAhead (a_failure a) (a_region_size a) (a_base_path a) v0 v1 (a_rolled a) (a_ready a)
    (a_next_segment a) (a_retired a) (a_saturated a) (a_stop a).
Definition set_rolled v (a : Ahead) : Ahead :=
  MkAhead (a_failure a) (a_region_size a) (a_base_path a) (a_want_sequence a) (a_want_region a) v
    (a_ready a) (a_next_segment a) (a_retired a) (a_saturated a) (a_stop a).
Definition set_ready v (a : Ahead) : Ahead :=
  MkAhead (a_failure a) (a_region_size a) (a_base_path a) (a_want_sequence a) (a_want_region a)
    (a_rolled a) v (a_next_segment a) (a_retired a) (a_saturated a) (a_stop a).
Definition set_next_segment v (a : Ahead) : Ahead :=
  MkAhead (a_failure a) (a_region_size a) (a_base_path a) (a_want_sequence a) (a_want_region a)
    (a_rolled a) (a_ready a) v (a_retired a) (a_saturated a) (a_stop a).
Definition set_retired v (a : Ahead) : Ahead :=
  MkAhead (a_failure a) (a_region_size a) (a_base_path a) (a_want_sequence a) (a_want_region a)
    (a_rolled a) (a_ready a) (a_next_segment a) v (a_saturated a) (a_stop a).
Definition set_saturated v (a : Ahead) : Ahead :=
  MkAhead (a_failure a) (a_region_size a) (a_base_path a) (a_want_sequence a) (a_want_region a)
    (a_rolled a) (a_ready a) (a_next_segment a) (a_retired a) v (a_stop a).
Definition set_stop v (a : Ahead) : Ahead :=
  MkAhead (a_failure a) (a_region_size a) (a_base_path a) (a_want_sequence a) (a_want_region a)
    (a_rolled a) (a_ready a) (a_next_segment a) (a_retired a) (a_saturated a) v.

Section ahead.
Context `{Env}.

(** ** The reader's side *)

(** [MapAhead::start]: the shared state, and the thread started on it. *)
Definition MapAhead_start {S} (helper : HelperSpec) (base_path : string) (file file_sequence region_idx region_size : Z)
  : M S Ahead :=
  len <- metadata_len file ;;
  div_guard region_size ;;
  let regions := len / region_size in
  let retire_bound := Z.max (2 * regions + 8) 64 in
  clone <- (syscall ;; ret file) ;;
  spawn helper ;;
  ret {|
    a_failure := Failure_default;
    a_region_size := region_size;
    a_base_path := base_path;
    a_want_sequence := file_sequence;
    a_want_region := region_idx + 1;
    a_rolled := Some (file_sequence, Some clone);
    a_ready := None;
    a_next_segment := None;
    a_retired := Bounded_new retire_bound;
    a_saturated := 0;
    a_stop := false
  |}.

(** [MapAhead::take]. *)
Definition ahead_take (file_sequence region_idx : Z) : M Ahead (option RegionMapping) :=
  a <- self ;;
  match a_ready a with
  | Some r =>
      if (y_file_sequence r =? file_sequence) && (y_region_idx r =? region_idx) then
        modify (set_ready None) ;; ret (Some (y_mapping r))
      else ret None
  | None => ret None
  end.

(** [MapAhead::take_segment]. *)
Definition ahead_take_segment (sequence : Z) : M Ahead (option AheadSegment) :=
  a <- self ;;
  match a_next_segment a with
  | Some n =>
      if as_sequence n =? sequence then modify (set_next_segment None) ;; ret (Some n) else ret None
  | None => ret None
  end.

(** [MapAhead::moved]. *)
Definition ahead_moved (file_sequence region_idx : Z) : M Ahead unit :=
  modify (set_want file_sequence (region_idx + 1)).

(** [MapAhead::rolled]. *)
Definition ahead_rolled (file_sequence : Z) (file : option Z) : M Ahead unit :=
  let moved_on (f : option Z) :=
    modify (set_rolled (Some (file_sequence, f))) ;; ahead_moved file_sequence 0 in
  match file with
  | None => moved_on None
  | Some file =>
      clone <- attempt (syscall ;; ret file) ;;
      match clone with
      | inl file => moved_on (Some file)
      | inr _ => ahead_moved file_sequence 0
      end
  end.

(** Push what the queue takes; the rest is released by the caller. *)
Fixpoint push_all (q : Bounded Retired) (ls : list Retired) (full : bool) : Bounded Retired * bool :=
  match ls with
  | [] => (q, full)
  | l :: ls =>
      let '(q, refused) := Bounded_push q l in
      push_all q ls (full || (if refused then true else false))
  end.

(** [MapAhead::retire]. *)
Definition ahead_retire (ls : list Retired) : M Ahead unit :=
  a <- self ;;
  if Failure_stopped (a_failure a) then modify (set_retired (MkBounded [] (bound (a_retired a))))
  else
    let '(q, full) := push_all (a_retired a) ls false in
    modify (set_retired q) ;;
    if full : bool then modify (fun a => set_saturated (a_saturated a + 1) a) else ret tt.

(** [Drop for MapAhead]: ask the thread to stop, and wait for it; what it still holds goes with the
    shared state. *)
Definition MapAhead_drop : M Ahead unit := modify (set_stop true).

(** ** The helper's side *)

(** [open_next]; [populate] is an [madvise] that changes no byte. *)
Definition open_next (base_path : string) (size sequence : Z) {S} : M S (option AheadSegment) :=
  ok (path <- make_channel_file_path base_path sequence ;;
      file <- open path ;;
      len <- metadata_len file ;;
      if len <? size then throw (err_other "not installed yet")
      else
        region0 <- create_read_only file 0 size ;;
        t <- parsed_header_type region0 0 ;;
        if bool_decide (t <> Channel) then throw (err_other "not a segment")
        else
          ch <- load_channel_header region0 ;;
          lift (validate_channel_header ch size sequence) ;;
          identity <- validate_v4_prefix region0 ;;
          syscall ;;
          header <- create_read_only file 0 page_size ;;
          syscall ;;
          ret (MkAheadSegment sequence file (Mapped sequence 0 region0) header identity)).

(** The variables of [run]. *)
Record AheadThread := MkThread {
  t_shared : Ahead;
  t_segment : option (Z * Z);
  t_upcoming : option (Z * Z);
  t_done : Z * Z;
  t_looked_for_next : Z
}.

Definition LOOK_FOR_NEXT : Z := 5000000.

Definition on_shared {A} (m : M Ahead A) : M AheadThread A :=
  zoom t_shared (fun a t =>
    MkThread a (t_segment t) (t_upcoming t) (t_done t) (t_looked_for_next t)) m.

(** The start of a turn: which file the reader says a segment is. *)
Definition follow_reader : M AheadThread unit :=
  t <- self ;;
  match a_rolled (t_shared t) with
  | None => ret tt
  | Some (seq, file) =>
      on_shared (modify (set_rolled None)) ;;
      modify (fun t =>
        match file with
        | Some file => MkThread (t_shared t) (Some (seq, file)) (t_upcoming t) (t_done t) (t_looked_for_next t)
        | None =>
            let segment := match t_upcoming t with
                           | Some (s, f) => if s =? seq then Some (s, f) else None
                           | None => None
                           end in
            MkThread (t_shared t) segment None (t_done t) (t_looked_for_next t)
        end)
  end.

(** Map the region the reader wants next, if the file has grown to hold it. *)
Definition map_wanted (file file_sequence region_idx len : Z) : M AheadThread unit :=
  t <- self ;;
  let size := a_region_size (t_shared t) in
  if negb (bool_decide (t_done t = (file_sequence, region_idx))) && (len >=? u64 ((region_idx + 1) * size)) then
    mapping <- create_read_only file (u64 (region_idx * size)) size ;;
    syscall ;;
    on_shared (modify (set_ready (Some (MkReady file_sequence region_idx mapping)))) ;;
    modify (fun t => MkThread (t_shared t) (t_segment t) (t_upcoming t) (file_sequence, region_idx)
                       (t_looked_for_next t))
  else ret tt.

(** In the last region: look for the next segment now and then. *)
Definition look_for_next (file_sequence region_idx len : Z) : M AheadThread unit :=
  t <- self ;;
  let a := t_shared t in
  time <- (if len <? u64 ((region_idx + 1) * a_region_size a) then now else ret (t_looked_for_next t)) ;;
  if (time - t_looked_for_next t >=? LOOK_FOR_NEXT)
     && negb (match a_next_segment a with Some n => as_sequence n =? file_sequence + 1 | None => false end)
  then
    looked <- now ;;
    next <- open_next (a_base_path a) (a_region_size a) (file_sequence + 1) ;;
    clone <- (match next with Some n => ok (syscall ;; ret (as_file n)) | None => ret None end) ;;
    modify (fun t =>
      MkThread (match next with Some n => set_next_segment (Some n) (t_shared t) | None => t_shared t end)
        (t_segment t)
        (match next with Some n => (fun f => (as_sequence n, f)) <$> clone | None => t_upcoming t end)
        (t_done t) looked)
  else ret tt.

(** One turn of [run]'s loop, before its sleep. *)
Definition ahead_turn : M AheadThread unit :=
  follow_reader ;;
  t <- self ;;
  let file_sequence := a_want_sequence (t_shared t) in
  let region_idx := a_want_region (t_shared t) in
  match t_segment t with
  | Some (seq, file) =>
      if seq =? file_sequence then
        len <- metadata_len file ;;
        map_wanted file file_sequence region_idx len ;;
        look_for_next file_sequence region_idx len
      else ret tt
  | None => ret tt
  end ;;
  on_shared (modify (fun a => set_retired (MkBounded [] (bound (a_retired a))) a)).

(** [run]: turns until the reader asks it to stop, or one fails; [fuel] bounds their number. *)
Definition first_thread (time : Z) (a : Ahead) : AheadThread :=
  MkThread a None None (U64_MAX, U64_MAX) (time - LOOK_FOR_NEXT).
Definition ahead_run (fuel : nat) : M AheadThread unit :=
  loop_with fuel (fun _ =>
    t <- self ;;
    if a_stop (t_shared t) then ret (inr tt) else ahead_turn ;; ret (inl tt)) tt.

End ahead.
