(* ===== verification/Reader.v ===== *)
(** * The reader (src/lib.rs: Reader, MessageRef, MessageBatch)

    Opening a reader in each mode, following regions and rolls, and reading records one at a time
    or in batches. *)

From Stdlib Require Import String.
From S2P Require Import Prelude Bytes Crc32c Effects Region Channel V4 Names Segment Helper MapAhead.

#[local] Open Scope string_scope.
#[local] Open Scope list_scope.
#[local] Open Scope Z_scope.

(** ** Data *)

Inductive ReaderMode := LateJoin | Live | At (index : Z).

(** Where in a segment a new reader starts. *)
Inductive SegmentStart := Beginning | Head | StartAt (read_pos position : Z).

(** A borrowed view of a record, and one that owns a share of its region. *)
Record MessageRef := MkRef { mr_mapping : RegionMapping; mr_header_offset : Z; mr_payload_len : Z }.
Record OwnedMessage := MkOwned { om_region : MappedRegion; om_header_offset : Z; om_payload_len : Z }.

Record BatchSeg := MkSeg { bs_map_idx : nat; bs_start : Z; bs_end : Z }.
Record MsgPos := MkPos { mp_seg : Z; mp_off : Z }.

(** [ScannedHeader]: [None] is an uncommitted header, whose other fields callers ignore. *)
Record ScannedHeader := Scanned {
  s_header_type : HeaderType;
  s_payload_len : Z;
  s_total_len : Z;
  s_message_type : Z;
  s_user_meta_u64 : Z
}.

Record RecordLoc := Loc { l_map_idx : nat; l_header_offset : Z; l_payload_len : Z }.
Record FoundRecord := Found { fr_loc : RecordLoc; fr_message_type : Z; fr_user_meta_u64 : Z }.
Record PeekedHeader := Peeked { pk_message_type : Z; pk_user_meta_u64 : Z; pk_length : Z }.

Record MessageBatch := MkBatch {
  mb_segs : list BatchSeg;
  mb_pos : list MsgPos;
  mb_maps : list MappedRegion
}.

(** A validated next segment, opened but not yet committed to the reader. *)
Record Successor := MkSuccessor {
  su_sequence : Z;
  su_instance : InstanceId;
  su_opened_ahead : bool;
  su_file : Z;
  su_region0 : MappedRegion;
  su_header : RegionMapping;
  su_channel_name : list Z;
  su_base_record_index : Z
}.

(** The carried state of a batch scan: the last segment it rolled into, if any, the sequence it is
    in, the cursor, the position and whether anything was stepped over.  It is also what
    [scan_batch] returns for [try_read_batch] to commit. *)
Record BatchEnd := MkEnd {
  be_cursor : Z;
  be_position : Z;
  be_file_sequence : Z;
  be_rolled : option Successor;
  be_progressed : bool
}.

Record Reader := MkReader {
  r_map_ahead : option Ahead;
  r_helper : option HelperSpec;
  r_unmap : Unmap;
  r_held : list MappedRegion;
  r_base_path : string;
  r_file_sequence : Z;
  r_file : Z;
  r_read_position : Z;
  r_position : Z;
  region_size_cached : Z;
  mtu_cached : Z;
  channel_name_cached : list Z;
  base_record_index_cached : Z;
  generation_cached : Z;
  batch_limit : option Z;
  batch_segs : list BatchSeg;
  batch_pos : list MsgPos;
  maps : list MappedRegion;
  r_header : RegionMapping;
  r_instance : InstanceId;
  wake_untrusted : bool;
  wake_miss : option Z
}.

(** Assignments to the fields the methods change. *)
Definition set_map_ahead v (r : Reader) : Reader :=
  MkReader v (r_helper r) (r_unmap r) (r_held r) (r_base_path r) (r_file_sequence r) (r_file r)
    (r_read_position r) (r_position r) (region_size_cached r) (mtu_cached r)
    (channel_name_cached r) (base_record_index_cached r) (generation_cached r) (batch_limit r)
    (batch_segs r) (batch_pos r) (maps r) (r_header r) (r_instance r) (wake_untrusted r)
    (wake_miss r).
Definition set_options v0 v1 v2 v3 (r : Reader) : Reader :=
  MkReader v0 v1 v2 (r_held r) (r_base_path r) (r_file_sequence r) (r_file r) (r_read_position r)
    (r_position r) (region_size_cached r) (mtu_cached r) (channel_name_cached r)
    (base_record_index_cached r) (generation_cached r) v3 (batch_segs r) (batch_pos r) (maps r)
    (r_header r) (r_instance r) (wake_untrusted r) (wake_miss r).
Definition set_r_held v (r : Reader) : Reader :=
  MkReader (r_map_ahead r) (r_helper r) (r_unmap r) v (r_base_path r) (r_file_sequence r)
    (r_file r) (r_read_position r) (r_position r) (region_size_cached r) (mtu_cached r)
    (channel_name_cached r) (base_record_index_cached r) (generation_cached r) (batch_limit r)
    (batch_segs r) (batch_pos r) (maps r) (r_header r) (r_instance r) (wake_untrusted r)
    (wake_miss r).
Definition set_read_position v (r : Reader) : Reader :=
  MkReader (r_map_ahead r) (r_helper r) (r_unmap r) (r_held r) (r_base_path r) (r_file_sequence r)
    (r_file r) v (r_position r) (region_size_cached r) (mtu_cached r) (channel_name_cached r)
    (base_record_index_cached r) (generation_cached r) (batch_limit r) (batch_segs r)
    (batch_pos r) (maps r) (r_header r) (r_instance r) (wake_untrusted r) (wake_miss r).
Definition set_position v (r : Reader) : Reader :=
  MkReader (r_map_ahead r) (r_helper r) (r_unmap r) (r_held r) (r_base_path r) (r_file_sequence r)
    (r_file r) (r_read_position r) v (region_size_cached r) (mtu_cached r) (channel_name_cached r)
    (base_record_index_cached r) (generation_cached r) (batch_limit r) (batch_segs r)
    (batch_pos r) (maps r) (r_header r) (r_instance r) (wake_untrusted r) (wake_miss r).
Definition set_batch_segs v (r : Reader) : Reader :=
  MkReader (r_map_ahead r) (r_helper r) (r_unmap r) (r_held r) (r_base_path r) (r_file_sequence r)
    (r_file r) (r_read_position r) (r_position r) (region_size_cached r) (mtu_cached r)
    (channel_name_cached r) (base_record_index_cached r) (generation_cached r) (batch_limit r) v
    (batch_pos r) (maps r) (r_header r) (r_instance r) (wake_untrusted r) (wake_miss r).
Definition set_batch_pos v (r : Reader) : Reader :=
  MkReader (r_map_ahead r) (r_helper r) (r_unmap r) (r_held r) (r_base_path r) (r_file_sequence r)
    (r_file r) (r_read_position r) (r_position r) (region_size_cached r) (mtu_cached r)
    (channel_name_cached r) (base_record_index_cached r) (generation_cached r) (batch_limit r)
    (batch_segs r) v (maps r) (r_header r) (r_instance r) (wake_untrusted r) (wake_miss r).
Definition set_maps v (r : Reader) : Reader :=
  MkReader (r_map_ahead r) (r_helper r) (r_unmap r) (r_held r) (r_base_path r) (r_file_sequence r)
    (r_file r) (r_read_position r) (r_position r) (region_size_cached r) (mtu_cached r)
    (channel_name_cached r) (base_record_index_cached r) (generation_cached r) (batch_limit r)
    (batch_segs r) (batch_pos r) v (r_header r) (r_instance r) (wake_untrusted r) (wake_miss r).
Definition set_wake_untrusted v (r : Reader) : Reader :=
  MkReader (r_map_ahead r) (r_helper r) (r_unmap r) (r_held r) (r_base_path r) (r_file_sequence r)
    (r_file r) (r_read_position r) (r_position r) (region_size_cached r) (mtu_cached r)
    (channel_name_cached r) (base_record_index_cached r) (generation_cached r) (batch_limit r)
    (batch_segs r) (batch_pos r) (maps r) (r_header r) (r_instance r) v (wake_miss r).
Definition set_wake_miss v (r : Reader) : Reader :=
  MkReader (r_map_ahead r) (r_helper r) (r_unmap r) (r_held r) (r_base_path r) (r_file_sequence r)
    (r_file r) (r_read_position r) (r_position r) (region_size_cached r) (mtu_cached r)
    (channel_name_cached r) (base_record_index_cached r) (generation_cached r) (batch_limit r)
    (batch_segs r) (batch_pos r) (maps r) (r_header r) (r_instance r) (wake_untrusted r) v.
Definition set_cursor v0 v1 v2 (r : Reader) : Reader :=
  MkReader (r_map_ahead r) (r_helper r) (r_unmap r) (r_held r) (r_base_path r) v2 (r_file r) v0 v1
    (region_size_cached r) (mtu_cached r) (channel_name_cached r) (base_record_index_cached r)
    (generation_cached r) (batch_limit r) (batch_segs r) (batch_pos r) (maps r) (r_header r)
    (r_instance r) (wake_untrusted r) (wake_miss r).
Definition enter_segment v0 v1 v2 v3 v4 v5 v6 (r : Reader) : Reader :=
  MkReader (r_map_ahead r) (r_helper r) (r_unmap r) (r_held r) (r_base_path r) (r_file_sequence r)
    v0 (r_read_position r) (r_position r) (region_size_cached r) (mtu_cached r) v5 v6
    (generation_cached r) (batch_limit r) (batch_segs r) (batch_pos r) (maps r) v1 v2 v3 v4.
Record ReaderBuilder := MkReaderBuilder {
  rb_path : string;
  rb_mode : ReaderMode;
  rb_batch_limit : option Z;
  rb_expected_generation : option Z;
  rb_helper : option HelperSpec;
  rb_unmap : Unmap
}.

Definition ReaderBuilder_new (path : string) : ReaderBuilder :=
  MkReaderBuilder path LateJoin None None None Immediate.

(** ** Error values *)

Definition GenerationMismatch_into_io (expected found : Z) : io_error :=
  IoError InvalidData (MismatchOf expected found).
Definition GenerationMismatch_of (e : io_error) : option (Z * Z) :=
  match get_ref e with MismatchOf expected found => Some (expected, found) | _ => None end.
Definition IndexPruned_into_io (index earliest : Z) : io_error :=
  IoError NotFound (PrunedOf index earliest).
Definition IndexPruned_of (e : io_error) : option (Z * Z) :=
  match get_ref e with PrunedOf index earliest => Some (index, earliest) | _ => None end.
Definition StaleSegment_into_io : io_error := IoError OtherKind StaleOf.
Definition StaleSegment_is (e : io_error) : bool :=
  match get_ref e with StaleOf => true | _ => false end.

Definition retries_exhausted : io_error :=
  IoError NotFound (Msg "Reader::open: the segments kept rolling or disappearing").

Definition MAX_OPEN_RETRIES : nat := 8.

Section reader.
Context `{Env}.

(** ** Views of a record *)

Definition MessageRef_header {S} (m : MessageRef) : M S MessageHeader :=
  load_header (mr_mapping m) (mr_header_offset m).
Definition MessageRef_payload {S} (m : MessageRef) : M S (list Z) :=
  load (mr_mapping m) (mr_header_offset m + HEADER_SLOT) (mr_payload_len m).

Definition OwnedMessage_as_ref (m : OwnedMessage) : MessageRef :=
  MkRef (m_mapping (om_region m)) (om_header_offset m) (om_payload_len m).

(** [MessageBatch::message_at], its bounds asserted. *)
Definition message_at {S} (b : MessageBatch) (pos : MsgPos) : M S MessageRef :=
  match mb_segs b !! Z.to_nat (mp_seg pos) with
  | None => die (Panicked "index out of bounds")
  | Some seg =>
      match mb_maps b !! bs_map_idx seg with
      | None => die (Panicked "index out of bounds")
      | Some map =>
          let map := m_mapping map in
          let header_offset := mp_off pos in
          if header_offset + MESSAGE_HEADER_SIZE >? region_size map then
            die (Panicked "message header out of bounds")
          else
            length <- load_length map header_offset ;;
            if header_offset + HEADER_SLOT + length >? region_size map then
              die (Panicked "message payload out of bounds")
            else ret (MkRef map header_offset length)
      end
  end.

(** [MessageBatch::get]. *)
Definition MessageBatch_get {S} (b : MessageBatch) (index : nat) : M S (option MessageRef) :=
  match mb_pos b !! index with
  | None => ret None
  | Some pos => m <- message_at b pos ;; ret (Some m)
  end.

(** [MessageBatch::iter], run to its end. *)
Fixpoint collect_refs {S} (b : MessageBatch) (ps : list MsgPos) : M S (list MessageRef) :=
  match ps with
  | [] => ret []
  | p :: ps => m <- message_at b p ;; ms <- collect_refs b ps ;; ret (m :: ms)
  end.

Definition MessageBatch_iter {S} (b : MessageBatch) : M S (list MessageRef) :=
  collect_refs b (mb_pos b).

(** [MessageBatch::get_owned]. *)
Definition MessageBatch_get_owned {S} (b : MessageBatch) (index : nat) : M S (option OwnedMessage) :=
  match mb_pos b !! index with
  | None => ret None
  | Some pos =>
      msg <- message_at b pos ;;
      match mb_segs b !! Z.to_nat (mp_seg pos) with
      | None => die (Panicked "index out of bounds")
      | Some seg =>
          match mb_maps b !! bs_map_idx seg with
          | None => die (Panicked "index out of bounds")
          | Some region => ret (Some (MkOwned region (mr_header_offset msg) (mr_payload_len msg)))
          end
      end
  end.

(** ** Mapping and releasing *)

(** Call a method of the helper handle, if there is one. *)
Definition on_ahead {A} (m : M Ahead A) : M Reader (option A) := fun r w =>
  match r_map_ahead r with
  | None => Outcome (Ok None) r w []
  | Some a =>
      let o := m a w in
      Outcome (match o_res o with Ok x => Ok (Some x) | Err e => Err e | Die y => Die y end)
        (set_map_ahead (Some (o_self o)) r) (o_world o) (o_trace o)
  end.

Definition on_reader {S A} (r : Reader) (m : M Reader A) : M S (A * Reader) := fun s w =>
  let o := m r w in
  Outcome (match o_res o with Ok a => Ok (a, o_self o) | Err e => Err e | Die y => Die y end)
    s (o_world o) (o_trace o).

Definition current_map (r : Reader) : option MappedRegion := last (maps r).

Definition map_region (file file_sequence region_idx : Z) : M Reader RegionMapping :=
  r <- self ;;
  taken <- on_ahead (ahead_take file_sequence region_idx) ;;
  map <- (match taken with
          | Some (Some map) => ret map
          | _ => create_read_only file (u64 (region_idx * region_size_cached r)) (region_size_cached r)
          end) ;;
  on_ahead (ahead_moved file_sequence region_idx) ;;
  ret map.

Definition push_map (m : MappedRegion) : M Reader unit := modify (fun r => set_maps (maps r ++ [m]) r).

Definition ensure_scan_region_mapped (scan_file : option Z) (scan_file_sequence region_idx : Z)
  : M Reader unit :=
  r <- self ;;
  let map_it :=
    map <- map_region (default (r_file r) scan_file) scan_file_sequence region_idx ;;
    push_map (Mapped scan_file_sequence region_idx map) in
  match current_map r with
  | Some l =>
      if (m_file_sequence l =? scan_file_sequence) && (m_region_idx l =? region_idx) then ret tt
      else if (m_file_sequence l =? scan_file_sequence) && (m_region_idx l >? region_idx) then
        throw (err_invalid_data "batch scan moved backward across regions")
      else map_it
  | None => map_it
  end.

(** [Reader::retire]. *)
Definition Reader_retire (region : MappedRegion) : M Reader unit :=
  r <- self ;;
  if bool_decide (r_unmap r = AtFileRoll) && (m_file_sequence region =? r_file_sequence r) then
    modify (set_r_held (r_held r ++ [region]))
  else on_ahead (ahead_retire [RetiredRegion region]) ;; ret tt.

(** The mappings [retire_all_but_last] pops, in its order: after the swap the old first one is
    last, and they leave from the back. *)
Definition popped (ms : list MappedRegion) : list MappedRegion :=
  match ms with
  | [] => []
  | m :: rest => match last rest with None => [] | Some _ => m :: rev (removelast rest) end
  end.

Definition retire_all_but_last : M Reader unit :=
  r <- self ;;
  match current_map r with
  | None => die (Panicked "attempt to subtract with overflow")
  | Some l => modify (set_maps [l]) ;; for_each (popped (maps r)) Reader_retire
  end.

(** [Reader::rolled]. *)
Definition Reader_rolled (opened_ahead : bool) (old_file : Z) (old_header : RegionMapping)
  : M Reader unit :=
  r <- self ;;
  on_ahead (
    ahead_rolled (r_file_sequence r) (if opened_ahead then None else Some (r_file r)) ;;
    ahead_retire (map RetiredRegion (r_held r) ++ [RetiredFile old_file; RetiredHeader old_header])) ;;
  modify (set_r_held []).

Definition prune_to_current : M Reader unit :=
  r <- self ;;
  match current_map r with
  | None => die (Panicked "no current map")
  | Some l =>
      div_guard (region_size_cached r) ;;
      let expected_region := r_read_position r / region_size_cached r in
      if negb (m_file_sequence l =? r_file_sequence r) || negb (m_region_idx l =? expected_region) then
        die (Panicked "current map does not match reader position")
      else if (1 <? List.length (maps r))%nat then retire_all_but_last
      else ret tt
  end.

(** [Reader::switch_region]. *)
Definition Reader_switch_region (idx : Z) : M Reader unit :=
  r <- self ;;
  let map_it :=
    new_map <- map_region (r_file r) (r_file_sequence r) idx ;;
    push_map (Mapped (r_file_sequence r) idx new_map) in
  match current_map r with
  | Some l =>
      if (m_file_sequence l =? r_file_sequence r) && (m_region_idx l =? idx) then ret tt else map_it
  | None => map_it
  end.

Definition current_message_header_info (off : Z) : M Reader (option ScannedHeader) :=
  r <- self ;;
  match current_map r with
  | None => throw (err_other "reader has no current region mapped")
  | Some l =>
      let region := m_mapping l in
      c <- is_committed region off ;;
      if negb c then ret None
      else
        payload_len <- load_length region off ;;
        header_type <- parsed_header_type region off ;;
        message_type <- load_u16 region (off + 2) ;;
        user_meta <- load_u64 region (off + 8) ;;
        ret (Some (Scanned header_type payload_len (HEADER_SLOT + payload_len) message_type user_meta))
  end.

(** ** Following a roll *)

Definition roll_edge (map_idx : nat) (off payload_len : Z) : M Reader RollEdge :=
  r <- self ;;
  match maps r !! map_idx with
  | None => die (Panicked "index out of bounds")
  | Some l =>
      let map := m_mapping l in
      if off + HEADER_SLOT + payload_len >? region_size map then
        throw (err_invalid_data "Roll body extends past its region")
      else
        body <- load map (off + HEADER_SLOT) payload_len ;;
        lift (RollEdge_decode body)
  end.

(** The file [open_successor] reads: the one opened ahead, if it is the one the edge names, or the
    one of that name; and whether its identity is already checked. *)
Definition successor_file (edge : RollEdge) (prev_sequence next_sequence : Z)
    (prev_instance : InstanceId) : M Reader (Z * MappedRegion * option (RegionMapping * Identity)) :=
  r <- self ;;
  ahead <- on_ahead (ahead_take_segment next_sequence) ;;
  let open_here :=
    file_path <- make_channel_file_path (r_base_path r) next_sequence ;;
    file <- open file_path ;;
    map <- create_read_only file 0 (region_size_cached r) ;;
    ret (file, Mapped next_sequence 0 map, None) in
  match ahead with
  | Some (Some next) =>
      if RollEdge_names edge prev_sequence prev_instance (as_identity next) then
        ret (as_file next, as_region0 next, Some (as_header next, as_identity next))
      else on_ahead (ahead_retire [RetiredSegment next]) ;; open_here
  | _ => open_here
  end.

Definition open_successor (prev_header : RegionMapping) (prev_sequence : Z)
    (prev_instance : InstanceId) (edge : RollEdge) : M Reader Successor :=
  r <- self ;;
  prev_base <- load_base_record_index prev_header ;;
  prev_count <- load_message_count prev_header ;;
  let expected_base := checked_add prev_base prev_count in
  next_sequence <- lift (ok_or
    (match checked_add prev_sequence 1 with
     | Some n => if n =? next_sequence edge then Some n else None
     | None => None
     end) (err_invalid_data "the segment rolls to another than the next one")) ;;
  let* (file, region0, checked) := successor_file edge prev_sequence next_sequence prev_instance in
  let page0 := m_mapping region0 in
  identity <- (match checked with
               | Some (_, identity) => ret identity
               | None =>
                   t <- parsed_header_type page0 0 ;;
                   if bool_decide (t <> Channel) then throw (err_other "next file missing Channel header")
                   else
                     ch <- load_channel_header page0 ;;
                     lift (validate_channel_header ch (region_size_cached r) next_sequence) ;;
                     validate_v4_prefix page0
               end) ;;
  if negb (RollEdge_names edge prev_sequence prev_instance identity) then
    throw (err_invalid_data "the segment is not the instance the Roll names")
  else
    published <- is_published page0 ;;
    if negb published then throw (err_invalid_data "segment is not published, but a Roll leads to it")
    else
      ch <- load_channel_header page0 ;;
      if bool_decide (Some (ch_base_record_index ch) <> expected_base)
         || negb (ch_base_record_index ch =? next_base_record_index edge) then
        throw (err_invalid_data "base_record_index discontinuity")
      else if negb (ch_generation ch =? generation_cached r) then
        throw (err_invalid_data "generation mismatch")
      else
        header <- (match checked with
                   | Some (header, _) => ret header
                   | None => create_read_only file 0 page_size
                   end) ;;
        ret (MkSuccessor next_sequence (instance identity) (if checked then true else false) file
               region0 header (ch_channel_name ch) (ch_base_record_index ch)).

Definition open_next_file (edge : RollEdge) : M Reader unit :=
  r <- self ;;
  next <- open_successor (r_header r) (r_file_sequence r) (r_instance r) edge ;;
  modify (set_cursor 0 (su_base_record_index next) (su_sequence next)) ;;
  modify (enter_segment (su_file next) (su_header next) (su_instance next) false None
            (su_channel_name next) (su_base_record_index next)) ;;
  push_map (su_region0 next) ;;
  retire_all_but_last ;;
  Reader_rolled (su_opened_ahead next) (r_file r) (r_header r).

(** ** Scanning to the next user record *)

(** How many turns a scan can take while nobody writes: one for each 16 bytes of every file, and
    one more for each file. *)
Definition scan_fuel (w : world) : nat :=
  map_fold (fun _ i n => (Z.to_nat (i_len i / 16) + 2 + n)%nat) 1%nat (w_inodes w).

(** Step over a committed [Skip] or [Channel] record. *)
Definition step_over (next_pos : Z) : M Reader unit :=
  r <- self ;;
  if is_multiple_of next_pos (region_size_cached r) then
    Reader_switch_region (next_pos / region_size_cached r) ;;
    modify (set_read_position next_pos) ;;
    prune_to_current
  else modify (set_read_position next_pos).

(** One turn of [scan_to_user_record]'s loop. *)
Definition scan_step (consume : bool) : M Reader (option (option FoundRecord)) :=
  r <- self ;;
  let region_size := region_size_cached r in
  let off := r_read_position r mod region_size in
  let leftover := region_size - off in
  hdr <- current_message_header_info off ;;
  match hdr with
  | None => ret (Some None)
  | Some hdr =>
      if s_total_len hdr >? leftover then
        throw (err_invalid_data "message payload extends past remaining region bytes")
      else
        let next_pos := align_up (r_read_position r + s_total_len hdr) in
        match s_header_type hdr with
        | User =>
            let msg_map_idx := (List.length (maps r) - 1)%nat in
            when consume (
              when (is_multiple_of next_pos region_size)
                (Reader_switch_region (next_pos / region_size)) ;;
              modify (fun r => set_position (u64 (r_position r + 1)) r) ;;
              modify (set_read_position next_pos)) ;;
            ret (Some (Some (Found (Loc msg_map_idx off (s_payload_len hdr))
                               (s_message_type hdr) (s_user_meta_u64 hdr))))
        | Skip | Channel => step_over next_pos ;; ret None
        | Roll =>
            edge <- roll_edge (List.length (maps r) - 1) off (s_payload_len hdr) ;;
            open_next_file edge ;;
            ret None
        end
  end.

Definition scan_to_user_record (consume : bool) : M Reader (option FoundRecord) :=
  prune_to_current ;;
  fuel <- ask scan_fuel ;;
  loop fuel (scan_step consume).

Definition advance_to_user_record : M Reader (option RecordLoc) :=
  found <- scan_to_user_record true ;; ret (fr_loc <$> found).

Definition try_read : M Reader (option MessageRef) :=
  loc <- advance_to_user_record ;;
  match loc with
  | None => ret None
  | Some loc =>
      r <- self ;;
      match maps r !! l_map_idx loc with
      | None => die (Panicked "index out of bounds")
      | Some l => ret (Some (MkRef (m_mapping l) (l_header_offset loc) (l_payload_len loc)))
      end
  end.

Definition try_read_owned : M Reader (option OwnedMessage) :=
  loc <- advance_to_user_record ;;
  match loc with
  | None => ret None
  | Some loc =>
      r <- self ;;
      match maps r !! l_map_idx loc with
      | None => die (Panicked "index out of bounds")
      | Some l => ret (Some (MkOwned l (l_header_offset loc) (l_payload_len loc)))
      end
  end.

Definition peek_header : M Reader (option PeekedHeader) :=
  found <- scan_to_user_record false ;;
  ret ((fun f => Peeked (fr_message_type f) (fr_user_meta_u64 f) (l_payload_len (fr_loc f))) <$> found).

(** One turn of [read_owned_into]'s loop, on the buffer and the messages appended so far.  An error
    leaves with the buffer: messages read before it stay there. *)
Definition read_owned_step (max : Z) (v : list OwnedMessage * Z)
  : M Reader (list OwnedMessage * Z + list OwnedMessage * (Z + io_error)) :=
  let '(out, n) := v in
  if negb (n <? max) then ret (inr (out, inl n))
  else
    msg <- attempt try_read_owned ;;
    match msg with
    | inr e => ret (inr (out, inr e))
    | inl None => ret (inr (out, inl n))
    | inl (Some m) => ret (inl (out ++ [m], n + 1))
    end.

Definition read_owned_into (out : list OwnedMessage) (max : option Z)
  : M Reader (list OwnedMessage * (Z + io_error)) :=
  let max := default U64_MAX max in
  if max =? 0 then ret (out, inl 0)
  else fuel <- ask scan_fuel ;; loop_with fuel (read_owned_step max) (out, 0).

Definition owned_batch (max : option Z) : M Reader (list OwnedMessage) :=
  let* (out, n) := read_owned_into [] max in
  match n with inl _ => ret out | inr e => throw e end.

(** One turn of [poll_for_user_message]'s loop. *)
Definition poll_step : M Reader (option bool) :=
  r <- self ;;
  let region_size := region_size_cached r in
  let off := r_read_position r mod region_size in
  let leftover := region_size - off in
  hdr <- current_message_header_info off ;;
  match hdr with
  | None => ret (Some false)
  | Some hdr =>
      if s_total_len hdr >? leftover then
        throw (err_invalid_data "message payload extends past remaining region bytes")
      else
        let next_pos := align_up (r_read_position r + s_total_len hdr) in
        match s_header_type hdr with
        | User => ret (Some true)
        | Skip | Channel => step_over next_pos ;; ret None
        | Roll =>
            edge <- roll_edge (List.length (maps r) - 1) off (s_payload_len hdr) ;;
            open_next_file edge ;;
            ret None
        end
  end.

Definition poll_for_user_message : M Reader bool :=
  prune_to_current ;;
  fuel <- ask scan_fuel ;;
  loop fuel poll_step.

(** ** Batches *)

(** Set the end of the segment scanned last. *)
Definition set_seg_end (e : Z) : M Reader unit :=
  modify (fun r =>
    set_batch_segs
      (alter (fun s => MkSeg (bs_map_idx s) (bs_start s) e) (List.length (batch_segs r) - 1)%nat
         (batch_segs r)) r).

(** How the inner loop of [scan_batch] ends: leave the scan, or go on in the next region or file. *)
Inductive BatchExit := BreakScan (b : BatchEnd) | ContinueScan (b : BatchEnd).

Definition advance_batch (cursor : Z) (b : BatchEnd) : BatchEnd :=
  MkEnd cursor (be_position b) (be_file_sequence b) (be_rolled b) true.

(** The [Roll] arm of the inner loop. *)
Definition batch_roll (b : BatchEnd) (map_idx : nat) (roll_pos cursor_off payload_len next_off : Z)
  : M Reader BatchExit :=
  r <- self ;;
  let '(prev, prev_instance) :=
    match be_rolled b with
    | Some n => (su_header n, su_instance n)
    | None => (r_header r, r_instance r)
    end in
  next <- attempt (
    edge <- roll_edge map_idx cursor_off payload_len ;;
    open_successor prev (be_file_sequence b) prev_instance edge) ;;
  match next with
  | inr e =>
      match batch_pos r with
      | [] => throw e
      | _ =>
          set_seg_end cursor_off ;;
          ret (BreakScan (MkEnd roll_pos (be_position b) (be_file_sequence b) (be_rolled b)
                            (be_progressed b)))
      end
  | inl next =>
      set_seg_end next_off ;;
      push_map (su_region0 next) ;;
      ret (ContinueScan (MkEnd 0 (su_base_record_index next) (su_sequence next) (Some next) true))
  end.

(** One turn of the inner loop of [scan_batch], at [cursor_off] in the region that starts at
    [region_start]. *)
Definition batch_step (max_batch region_start seg_idx : Z) (map_idx : nat) (v : BatchEnd * Z)
  : M Reader (BatchEnd * Z + BatchExit) :=
  let '(b, cursor_off) := v in
  r <- self ;;
  let region_size := region_size_cached r in
  if cursor_off + HEADER_SLOT >? region_size then
    throw (err_invalid_data "batch scan landed in an invalid header slot")
  else
    hdr <- current_message_header_info cursor_off ;;
    match hdr with
    | None => set_seg_end cursor_off ;; ret (inr (BreakScan b))
    | Some hdr =>
        if cursor_off + s_total_len hdr >? region_size then
          throw (err_invalid_data "message payload extends past region boundary")
        else
          let roll_pos := region_start + cursor_off in
          let next_pos := align_up (roll_pos + s_total_len hdr) in
          let next_off := next_pos - region_start in
          let go_on (b : BatchEnd) : M Reader (BatchEnd * Z + BatchExit) :=
            let b := advance_batch next_pos b in
            if next_off =? region_size then set_seg_end next_off ;; ret (inr (ContinueScan b))
            else ret (inl (b, next_off)) in
          match s_header_type hdr with
          | User =>
              modify (set_batch_pos (batch_pos r ++ [MkPos seg_idx cursor_off])) ;;
              let b := MkEnd (be_cursor b) (u64 (be_position b + 1)) (be_file_sequence b)
                         (be_rolled b) (be_progressed b) in
              if Z.of_nat (List.length (batch_pos r)) + 1 >=? max_batch then
                set_seg_end next_off ;; ret (inr (BreakScan (advance_batch next_pos b)))
              else go_on b
          | Channel | Skip => go_on b
          | Roll =>
              x <- batch_roll b map_idx roll_pos cursor_off (s_payload_len hdr) next_off ;;
              ret (inr x)
          end
    end.

(** One turn of the outer loop of [scan_batch]: map the region and scan it. *)
Definition batch_segment (max_batch : Z) (b : BatchEnd) : M Reader (BatchEnd + BatchEnd) :=
  r <- self ;;
  let region_size := region_size_cached r in
  div_guard region_size ;;
  let region_index := be_cursor b / region_size in
  let region_start := region_index * region_size in
  let cursor_off := be_cursor b - region_start in
  ensure_scan_region_mapped (su_file <$> be_rolled b) (be_file_sequence b) region_index ;;
  r <- self ;;
  let map_idx := (List.length (maps r) - 1)%nat in
  let seg_idx := Z.of_nat (List.length (batch_segs r)) in
  if seg_idx >? U16_MAX then throw (err_other "too many batch segments")
  else
    modify (set_batch_segs (batch_segs r ++ [MkSeg map_idx cursor_off cursor_off])) ;;
    x <- loop_with (Z.to_nat (region_size / 16 + 2))
           (batch_step max_batch region_start seg_idx map_idx) (b, cursor_off) ;;
    match x with
    | BreakScan b => ret (inr b)
    | ContinueScan b => ret (inl b)
    end.

Definition scan_batch (max_batch : Z) : M Reader (option BatchEnd) :=
  r <- self ;;
  fuel <- ask scan_fuel ;;
  b <- loop_with fuel (batch_segment max_batch)
         (MkEnd (r_read_position r) (r_position r) (r_file_sequence r) None false) ;;
  ret (if be_progressed b then Some b else None).

Definition clear_batch : M Reader unit := modify (set_batch_segs []) ;; modify (set_batch_pos []).

(** Move the reader to where a scan ended. *)
Definition commit_batch (b : BatchEnd) : M Reader unit :=
  r <- self ;;
  modify (set_cursor (be_cursor b) (be_position b) (be_file_sequence b)) ;;
  match be_rolled b with
  | None => ret tt
  | Some n =>
      modify (enter_segment (su_file n) (su_header n) (su_instance n) false None
                (su_channel_name n) (su_base_record_index n)) ;;
      Reader_rolled (su_opened_ahead n) (r_file r) (r_header r)
  end.

Definition try_read_batch (max_batch : option Z) : M Reader (option MessageBatch) :=
  r <- self ;;
  let max_batch := default U16_MAX (match max_batch with Some m => Some m | None => batch_limit r end) in
  if max_batch =? 0 then ret None
  else
    clear_batch ;;
    prune_to_current ;;
    scanned <- attempt (scan_batch max_batch) ;;
    match scanned with
    | inr e =>
        modify (fun r => set_maps (take 1 (maps r)) r) ;;
        clear_batch ;;
        throw e
    | inl None => clear_batch ;; ret None
    | inl (Some b) =>
        commit_batch b ;;
        r <- self ;;
        match batch_pos r with
        | [] => clear_batch ;; prune_to_current ;; ret None
        | _ => ret (Some (MkBatch (batch_segs r) (batch_pos r) (maps r)))
        end
    end.

(** ** Opening *)

(** One turn of [live_start]'s loop; the variable is the region mapped last. *)
Definition SPIN_BUDGET : Z := 1000000.

Definition live_step (file : Z) (page0 : RegionMapping) (base region_size started : Z)
    (newer_segment_exists : forall S, M S bool) {S} (map : option (Z * RegionMapping))
  : M S (option (Z * RegionMapping) + Z * Z) :=
  wp <- load_write_position page0 ;;
  count <- load_message_count page0 ;;
  newer <- newer_segment_exists S ;;
  if newer : bool then throw StaleSegment_into_io
  else
    let read_pos := saturating_sub wp HEADER_SLOT in
    div_guard region_size ;;
    let region_idx := read_pos / region_size in
    let map_it :=
      len <- metadata_len file ;;
      if u64 ((region_idx + 1) * region_size) >? len then
        throw (err_invalid_data "Live open: write_position is past the end of the segment")
      else create_read_only file (u64 (region_idx * region_size)) region_size in
    region <- (match map with
               | Some (idx, region) => if idx =? region_idx then ret region else map_it
               | None => map_it
               end) ;;
    let off := read_pos mod region_size in
    c <- is_committed region off ;;
    if negb c then ret (inr (read_pos, u64 (base + count)))
    else
      t <- parsed_header_type region off ;;
      if bool_decide (t = Roll) then ret (inr (read_pos, u64 (base + count)))
      else
        time <- now ;;
        if time - started >=? SPIN_BUDGET then
          walked <- walk_segment file region_size (fun pos _ _ => pos >=? read_pos) ;;
          if negb (we_pos walked =? read_pos) then
            throw (err_invalid_data "Live open: write_position is not on the record chain")
          else ret (inr (read_pos, u64 (base + we_users walked)))
        else ret (inl (Some (region_idx, region))).

(** The clock moves on at each turn, by 1 ns once the oracle has nothing more to say, so the budget
    ends the loop within this many turns. *)
Definition live_fuel (w : world) : nat :=
  (List.length (o_ticks (w_oracle w)) + Z.to_nat SPIN_BUDGET + 1)%nat.

Definition live_start {S} (file : Z) (page0 : RegionMapping) (base region_size : Z)
    (newer_segment_exists : forall S, M S bool) : M S (Z * Z) :=
  started <- now ;;
  fuel <- ask live_fuel ;;
  loop_with fuel (live_step file page0 base region_size started newer_segment_exists) None.

(** [newer_segment_exists] of [from_segment]: the next segment is published, or this one is gone. *)
Definition newer_segment (base_path this : string) (sequence : Z) S : M S bool :=
  n <- segment_is_published base_path (sequence + 1) ;;
  if n : bool then ret true else e <- try_exists this ;; ret (negb e).

Definition from_segment {S} (base_path : string) (sequence file : Z) (start : SegmentStart)
  : M S Reader :=
  page0 <- create_read_only file 0 page_size ;;
  t <- parsed_header_type page0 0 ;;
  if bool_decide (t <> Channel) then throw (err_invalid_data "file has no Channel header")
  else
    ch <- load_channel_header page0 ;;
    let region_size := ch_region_size ch in
    lift (validate_channel_header ch region_size sequence) ;;
    identity <- validate_v4_prefix page0 ;;
    published <- is_published page0 ;;
    if negb published then throw (IoError NotFound (Msg "segment is not published yet"))
    else
      let* (read_pos, position) :=
        match start with
        | Beginning => ret (0, ch_base_record_index ch)
        | Head =>
            this <- make_channel_file_path base_path sequence ;;
            live_start file page0 (ch_base_record_index ch) region_size
              (newer_segment base_path this sequence)
        | StartAt read_pos position => ret (read_pos, position)
        end in
      div_guard region_size ;;
      let region_index := read_pos / region_size in
      current_region <- create_read_only file (u64 (region_index * region_size)) region_size ;;
      ret {|
        r_map_ahead := None;
        r_helper := None;
        r_unmap := Immediate;
        r_held := [];
        r_base_path := base_path;
        r_file_sequence := sequence;
        r_file := file;
        r_read_position := read_pos;
        r_position := position;
        region_size_cached := region_size;
        mtu_cached := ch_mtu ch;
        channel_name_cached := ch_channel_name ch;
        base_record_index_cached := ch_base_record_index ch;
        generation_cached := ch_generation ch;
        batch_limit := None;
        batch_segs := [];
        batch_pos := [];
        maps := [Mapped sequence region_index current_region];
        r_header := page0;
        r_instance := instance identity;
        wake_untrusted := false;
        wake_miss := None
      |}.

(** [probe] of [locate]. *)
Definition probe {S} (base_path : string) (seq : Z) : M S (option (Z * SegmentHeader)) :=
  f <- open_segment_if_present base_path seq ;;
  match f with
  | None => ret None
  | Some file => header <- read_segment_header file seq ;; ret (Some (file, header))
  end.

(** Drop the newest sequences, but never the first, while they are not published. *)
Fixpoint drop_unpublished {S} (base_path : string) (newest_first : list Z) : M S (list Z) :=
  match newest_first with
  | l :: ((_ :: _) as rest) =>
      p <- segment_is_published base_path l ;;
      if p : bool then ret newest_first else drop_unpublished base_path rest
  | _ => ret newest_first
  end.

(** One turn of the binary search over [seqs]; [None] is a segment that vanished. *)
Definition search_step {S} (base_path : string) (seqs : list Z) (index : Z) (v : Z * Z)
  : M S (Z * Z + option Z) :=
  let '(lo, hi) := v in
  if negb (lo <? hi) then ret (inr (Some lo))
  else
    let mid := lo + (hi - lo + 1) / 2 in
    p <- probe base_path (nth (Z.to_nat mid) seqs 0) ;;
    match p with
    | None => ret (inr None)
    | Some (_, header) =>
        if sh_base_record_index header <=? index then ret (inl (mid, hi)) else ret (inl (lo, mid - 1))
    end.

(** The end of [locate]: walk the segment found to the record and open a reader there. *)
Definition locate_in {S} (base_path : string) (index seq earliest_generation : Z) : M S (option Reader) :=
  p <- probe base_path seq ;;
  match p with
  | None => ret None
  | Some (file, header) =>
      if negb (sh_generation header =? earliest_generation) then
        throw (err_invalid_data "generation mismatch")
      else
        let skip := u64 (index - sh_base_record_index header) in
        walked <- walk_segment file (sh_region_size header)
                    (fun _ t users => bool_decide (t = User) && (users =? skip)) ;;
        if negb (we_users walked =? skip) || bool_decide (we_stop walked = EndOfFile) then
          throw (err_invalid_data "the segment's header implies the record is in it")
        else
          r <- from_segment base_path seq file (StartAt (we_pos walked) index) ;;
          ret (Some r)
  end.

Definition locate {S} (base_path : string) (index : Z) (expected_generation : option Z)
  : M S (option Reader) :=
  all <- find_all_sequences base_path ;;
  kept <- drop_unpublished base_path (rev all) ;;
  let seqs := rev kept in
  match head seqs, last seqs with
  | Some first, Some latest_seq =>
      p <- probe base_path first ;;
      match p with
      | None => ret None
      | Some (_, earliest) =>
          if match expected_generation with
             | Some expected => negb (sh_generation earliest =? expected)
             | None => false
             end
          then throw (GenerationMismatch_into_io (default 0 expected_generation) (sh_generation earliest))
          else if index <? sh_base_record_index earliest then
            throw (IndexPruned_into_io index (sh_base_record_index earliest))
          else
            p <- probe base_path latest_seq ;;
            match p with
            | None => ret None
            | Some (_, latest) =>
                let head := u64 (sh_base_record_index latest + sh_message_count latest) in
                if index >? head then throw (err_invalid_input "record is past the channel head")
                else
                  found <- loop_with (Datatypes.S (List.length seqs)) (search_step base_path seqs index)
                             (0, Z.of_nat (List.length seqs) - 1) ;;
                  match found with
                  | None => ret None
                  | Some lo => locate_in base_path index (nth (Z.to_nat lo) seqs 0) (sh_generation earliest)
                  end
            end
      end
  | _, _ => throw (IoError NotFound (Msg "no channel"))
  end.

(** One attempt of [open_with]'s retry loops: [None] is a segment that vanished or went stale. *)
Definition open_attempt {S} (base_path : string) (mode : ReaderMode) (expected_generation : option Z)
  : M S (option Reader) :=
  match mode with
  | Live =>
      seq <- find_latest_published_sequence base_path ;;
      f <- open_segment_if_present base_path seq ;;
      match f with
      | None => ret None
      | Some file =>
          r <- attempt (from_segment base_path seq file Head) ;;
          match r with
          | inl r => ret (Some r)
          | inr e => if StaleSegment_is e then ret None else throw e
          end
      end
  | LateJoin =>
      seq <- find_earliest_sequence base_path ;;
      f <- open_segment_if_present base_path seq ;;
      match f with
      | None => ret None
      | Some file => r <- from_segment base_path seq file Beginning ;; ret (Some r)
      end
  | At index => locate base_path index expected_generation
  end.

(** [for _ in 0..MAX_OPEN_RETRIES]. *)
Fixpoint retrying {S A} (n : nat) (m : M S (option A)) : M S (option A) :=
  match n with
  | O => ret None
  | Datatypes.S n => r <- m ;; match r with Some a => ret (Some a) | None => retrying n m end
  end.

Definition open_with {S} (base_path : string) (mode : ReaderMode) (expected_generation : option Z)
  : M S Reader :=
  opened <- retrying MAX_OPEN_RETRIES (open_attempt base_path mode expected_generation) ;;
  reader <- lift (ok_or opened retries_exhausted) ;;
  match expected_generation with
  | Some expected =>
      if negb (generation_cached reader =? expected) then
        throw (GenerationMismatch_into_io expected (generation_cached reader))
      else ret reader
  | None => ret reader
  end.

(** ** Indices *)

Definition tail_attempt : M Reader (option Z) :=
  r <- self ;;
  seq <- find_earliest_sequence (r_base_path r) ;;
  f <- open_segment_if_present (r_base_path r) seq ;;
  match f with
  | None => ret None
  | Some file =>
      header <- read_segment_header file seq ;;
      if negb (sh_generation header =? generation_cached r) then
        throw (GenerationMismatch_into_io (generation_cached r) (sh_generation header))
      else ret (Some (sh_base_record_index header))
  end.

Definition tail_record_index : M Reader Z :=
  t <- retrying MAX_OPEN_RETRIES tail_attempt ;; lift (ok_or t retries_exhausted).

Definition head_record_index : M Reader Z :=
  r <- self ;;
  latest <- find_latest_published_sequence (r_base_path r) ;;
  file_path <- make_channel_file_path (r_base_path r) latest ;;
  file <- open file_path ;;
  header <- read_segment_header file latest ;;
  ret (u64 (sh_base_record_index header + sh_message_count header)).

(** [channel_name], up to the first zero byte. *)
Fixpoint until_zero (l : list Z) : list Z :=
  match l with
  | [] => []
  | b :: l => if b =? 0 then [] else b :: until_zero l
  end.
Definition channel_name (r : Reader) : list Z := until_zero (channel_name_cached r).

Definition start_map_ahead : M Reader unit :=
  r <- self ;;
  match r_helper r with
  | None => ret tt
  | Some helper =>
      let region_idx := match current_map r with Some l => m_region_idx l | None => 0 end in
      a <- MapAhead_start helper (r_base_path r) (r_file r) (r_file_sequence r) region_idx
             (region_size_cached r) ;;
      modify (set_map_ahead (Some a))
  end.

Definition Reader_helper_error (r : Reader) : option io_error :=
  match r_map_ahead r with Some a => Failure_error (a_failure a) | None => None end.

(** [reopen]: nothing of the reader changes unless every step succeeds. *)
Definition reopen (mode : ReaderMode) : M Reader unit :=
  r <- self ;;
  fresh <- open_with (r_base_path r) mode (Some (generation_cached r)) ;;
  let fresh := set_options None (r_helper r) (r_unmap r) (batch_limit r) fresh in
  started <- on_reader fresh start_map_ahead ;;
  set_self started.2.

Definition seek (index : Z) : M Reader unit := reopen (At index).
Definition rewind : M Reader unit := reopen LateJoin.
Definition seek_to_head : M Reader unit := reopen Live.

Definition ReaderBuilder_build {S} (b : ReaderBuilder) : M S Reader :=
  reader <- open_with (rb_path b) (rb_mode b) (rb_expected_generation b) ;;
  let reader := set_options None (rb_helper b) (rb_unmap b) (rb_batch_limit b) reader in
  started <- on_reader reader start_map_ahead ;;
  ret started.2.

End reader.
