(* ===== verification/Api.v ===== *)
(** * The options and the accessors (src/lib.rs)

    The setters of the two builders, what a writer, a reader, a message and a batch say of
    themselves, and the texts of the errors the crate defines. *)

From Stdlib Require Import String.
From S2P Require Import Prelude Bytes Effects Region Channel V4 Names Segment Helper Prefault Writer MapAhead Reader.

#[local] Open Scope string_scope.
#[local] Open Scope Z_scope.

(** ** [WriterBuilder] *)

Definition WriterBuilder_helper (h : HelperSpec) (b : WriterBuilder) : WriterBuilder :=
  MkWriterBuilder (wb_path b) (wb_region_size b) (wb_file_roll_size b) (wb_mtu b) (wb_keep_files b) (wb_channel_name b)
    (wb_base_record_index b) (wb_generation b) (wb_wake_readers b) (Some h) (wb_unmap b).

Definition WriterBuilder_unmap (unmap : Unmap) (b : WriterBuilder) : WriterBuilder :=
  MkWriterBuilder (wb_path b) (wb_region_size b) (wb_file_roll_size b) (wb_mtu b) (wb_keep_files b) (wb_channel_name b)
    (wb_base_record_index b) (wb_generation b) (wb_wake_readers b) (wb_helper b) unmap.

Definition WriterBuilder_wake_readers (wake : bool) (b : WriterBuilder) : WriterBuilder :=
  MkWriterBuilder (wb_path b) (wb_region_size b) (wb_file_roll_size b) (wb_mtu b) (wb_keep_files b) (wb_channel_name b)
    (wb_base_record_index b) (wb_generation b) wake (wb_helper b) (wb_unmap b).

Definition WriterBuilder_generation (generation : Z) (b : WriterBuilder) : WriterBuilder :=
  MkWriterBuilder (wb_path b) (wb_region_size b) (wb_file_roll_size b) (wb_mtu b) (wb_keep_files b) (wb_channel_name b)
    (wb_base_record_index b) generation (wb_wake_readers b) (wb_helper b) (wb_unmap b).

Definition WriterBuilder_base_record_index (base : Z) (b : WriterBuilder) : WriterBuilder :=
  MkWriterBuilder (wb_path b) (wb_region_size b) (wb_file_roll_size b) (wb_mtu b) (wb_keep_files b) (wb_channel_name b)
    base (wb_generation b) (wb_wake_readers b) (wb_helper b) (wb_unmap b).

Definition WriterBuilder_region_size (region_size : Z) (b : WriterBuilder) : WriterBuilder :=
  MkWriterBuilder (wb_path b) region_size (wb_file_roll_size b) (wb_mtu b) (wb_keep_files b) (wb_channel_name b)
    (wb_base_record_index b) (wb_generation b) (wb_wake_readers b) (wb_helper b) (wb_unmap b).

Definition WriterBuilder_file_roll_size (file_roll_size : Z) (b : WriterBuilder) : WriterBuilder :=
  MkWriterBuilder (wb_path b) (wb_region_size b) file_roll_size (wb_mtu b) (wb_keep_files b) (wb_channel_name b)
    (wb_base_record_index b) (wb_generation b) (wb_wake_readers b) (wb_helper b) (wb_unmap b).

Definition WriterBuilder_mtu (mtu : Z) (b : WriterBuilder) : WriterBuilder :=
  MkWriterBuilder (wb_path b) (wb_region_size b) (wb_file_roll_size b) mtu (wb_keep_files b) (wb_channel_name b)
    (wb_base_record_index b) (wb_generation b) (wb_wake_readers b) (wb_helper b) (wb_unmap b).

(** ** [ReaderBuilder] *)

Definition ReaderBuilder_mode (mode : ReaderMode) (b : ReaderBuilder) : ReaderBuilder :=
  MkReaderBuilder (rb_path b) mode (rb_batch_limit b) (rb_expected_generation b) (rb_helper b) (rb_unmap b).

Definition ReaderBuilder_live (b : ReaderBuilder) : ReaderBuilder :=
  MkReaderBuilder (rb_path b) Live (rb_batch_limit b) (rb_expected_generation b) (rb_helper b) (rb_unmap b).

Definition ReaderBuilder_late_join (b : ReaderBuilder) : ReaderBuilder :=
  MkReaderBuilder (rb_path b) LateJoin (rb_batch_limit b) (rb_expected_generation b) (rb_helper b) (rb_unmap b).

Definition ReaderBuilder_start_at (index : Z) (b : ReaderBuilder) : ReaderBuilder :=
  MkReaderBuilder (rb_path b) (At index) (rb_batch_limit b) (rb_expected_generation b) (rb_helper b) (rb_unmap b).

Definition ReaderBuilder_expect_generation (generation : Z) (b : ReaderBuilder) : ReaderBuilder :=
  MkReaderBuilder (rb_path b) (rb_mode b) (rb_batch_limit b) (Some generation) (rb_helper b) (rb_unmap b).

Definition ReaderBuilder_batch_limit (limit : Z) (b : ReaderBuilder) : ReaderBuilder :=
  MkReaderBuilder (rb_path b) (rb_mode b) (Some limit) (rb_expected_generation b) (rb_helper b) (rb_unmap b).

Definition ReaderBuilder_helper (h : HelperSpec) (b : ReaderBuilder) : ReaderBuilder :=
  MkReaderBuilder (rb_path b) (rb_mode b) (rb_batch_limit b) (rb_expected_generation b) (Some h) (rb_unmap b).

Definition ReaderBuilder_unmap (unmap : Unmap) (b : ReaderBuilder) : ReaderBuilder :=
  MkReaderBuilder (rb_path b) (rb_mode b) (rb_batch_limit b) (rb_expected_generation b) (rb_helper b) unmap.

(** ** Accessors *)

Definition Writer_file_sequence (w : Writer) : Z := w_file_sequence w.

Definition Reader_open `{Env} {S} (path : string) (mode : ReaderMode) : M S Reader := open_with path mode None.
Definition Reader_position (r : Reader) : Z := r_position r.
Definition Reader_base_record_index (r : Reader) : Z := base_record_index_cached r.
Definition Reader_generation (r : Reader) : Z := generation_cached r.
Definition Reader_file_sequence (r : Reader) : Z := r_file_sequence r.
Definition Reader_mtu (r : Reader) : Z := mtu_cached r.
Definition Reader_region_size (r : Reader) : Z := region_size_cached r.

Definition MessageRef_len (m : MessageRef) : Z := mr_payload_len m.

(** An owned message is read through the mapping it shares with the reader that gave it. *)
Definition OwnedMessage_header {S} `{Env} (m : OwnedMessage) : M S MessageHeader :=
  load_header (m_mapping (om_region m)) (om_header_offset m).
Definition OwnedMessage_payload {S} `{Env} (m : OwnedMessage) : M S (list Z) :=
  load (m_mapping (om_region m)) (om_header_offset m + HEADER_SLOT) (om_payload_len m).
Definition OwnedMessage_len (m : OwnedMessage) : Z := om_payload_len m.

Definition MessageBatch_is_empty (b : MessageBatch) : bool := match mb_pos b with [] => true | _ => false end.

(** ** The errors' texts *)

Definition GenerationMismatch_fmt (expected found : Z) : string :=
  "channel generation is " +:+ pretty found +:+ " but " +:+ pretty expected +:+
  " was expected (path deleted and recreated?)".

Definition IndexPruned_fmt (index earliest : Z) : string :=
  "record " +:+ pretty index +:+ " has been pruned: the earliest retained record is " +:+ pretty earliest.

Definition StaleSegment_fmt : string := "a newer segment exists; the opened segment is no longer the tail".

Example fmt_mismatch : GenerationMismatch_fmt 7 9 =
  "channel generation is 9 but 7 was expected (path deleted and recreated?)".
Proof. vm_compute. reflexivity. Qed.

Example fmt_pruned : IndexPruned_fmt 3 100 = "record 3 has been pruned: the earliest retained record is 100".
Proof. vm_compute. reflexivity. Qed.
