(* ===== verification/Wake.v ===== *)
(** * Waiting for records (src/wake.rs, the waits of src/lib.rs)

    Sleeping on a segment's wake word or with backoff, over one reader or several.  Times are in
    nanoseconds of the world's clock. *)

From Stdlib Require Import String.
From S2P Require Import Prelude Bytes Effects Region Channel Segment MapAhead Reader.

#[local] Open Scope string_scope.
#[local] Open Scope list_scope.
#[local] Open Scope Z_scope.

Definition BACKOFF_START : Z := 50000.
Definition BACKOFF_CAP : Z := 500000.
Definition WAKE_SLEEP_CAP : Z := 10000000.
Definition WAITV_MAX : Z := 128.

(** [Duration::MAX]. *)
Definition DURATION_MAX : Z := 2 ^ 64 * 1000000000 - 1.

Inductive Waited := Changed | TimedOut | Unsupported.

#[export] Instance Waited_eq_dec : EqDecision Waited.
Proof. solve_decision. Defined.

(** What a group wait works on: the readers, and the process-wide [NO_WAITV], set once the kernel
    has refused [futex_waitv]. *)
Record Waiters := MkWaiters { readers : list Reader; NO_WAITV : bool }.

Section wake.
Context `{Env}.

(** ** Sleeping *)

Definition pass {S} (d : Z) : M S unit :=
  consume (fun w => (tt, set_clock (w_clock w + d) w)).

(** [thread::sleep]. *)
Definition sleep {S} (d : Z) : M S unit := interfere ;; pass d.

(** What [wait] and [wait_any] make of the error number a futex call left. *)
Definition waited_of (e : io_error) : option Waited :=
  match get_ref e with
  | Os 11 | Os 4 => Some Changed
  | Os 110 => Some TimedOut
  | _ => None
  end.

(** Whether every word holds the value expected of it; [None] if one cannot be read. *)
Fixpoint words_hold (words : list (RegionMapping * Z)) (w : world) : option bool :=
  match words with
  | [] => Some true
  | (region0, expected) :: words =>
      if accessible region0 OFF_wake_word 4 w then
        if get 4 (data_of w (rm_ino region0)) (region_offset region0 + OFF_wake_word) =? expected
        then words_hold words w else Some false
      else None
  end.

(** Whether [c] wakes who sleeps on [words]: a futex is the word's place in its file. *)
Definition wakes (words : list (RegionMapping * Z)) (c : kcall) : bool :=
  match c with
  | KWake ino off =>
      existsb (fun '(region0, _) => (rm_ino region0 =? ino) && (region_offset region0 + OFF_wake_word =? off)) words
  | KPopulate _ _ _ => false
  end.

(** How often they were woken so far. *)
Definition wakes_so_far (words : list (RegionMapping * Z)) (w : world) : nat :=
  length (List.filter (wakes words) (w_calls w)).

Definition EFAULT_futex : io_error := IoError OtherKind (Os 14).

(** The futex call over [words].  The kernel compares the words and puts the caller to sleep in one
    step; nothing but a [FUTEX_WAKE] on one of the words, a signal or the time ends the sleep: a word
    that changes while the caller is asleep does not.  The oracle gives the error number of a call
    that is refused or interrupted. *)
Definition futex_wait {S} (words : list (RegionMapping * Z)) (timeout : Z) : M S (Waited + io_error) :=
  r <- attempt syscall ;;
  match r with
  | inr e =>
      match waited_of e with
      | Some TimedOut => pass timeout ;; ret (inl TimedOut)
      | Some w => ret (inl w)
      | None => ret (inr e)
      end
  | inl _ =>
      hold <- ask (words_hold words) ;;
      match hold with
      | None => ret (inr EFAULT_futex)
      | Some false => ret (inl Changed)
      | Some true =>
          before <- ask (wakes_so_far words) ;;
          interfere ;;
          after <- ask (wakes_so_far words) ;;
          if Nat.ltb before after then ret (inl Changed) else pass timeout ;; ret (inl TimedOut)
      end
  end.

(** [wake::wait]: [SUPPORTED] is false where there is no futex. *)
Definition wait {S} (region0 : RegionMapping) (expected timeout : Z) : M S Waited :=
  if negb SUPPORTED then ret Unsupported
  else
    r <- futex_wait [(region0, expected)] timeout ;;
    match r with inl w => ret w | inr e => throw e end.

Definition waitv_available (ws : Waiters) : bool := SUPPORTED && negb (NO_WAITV ws).

(** [wake::wait_any]: [ENOSYS] 38 and [EPERM] 1 mean there is no [futex_waitv]. *)
Definition waitv (words : list (RegionMapping * Z)) (timeout : Z) : M Waiters Waited :=
  ws <- self ;;
  match words with
  | [] => ret Unsupported
  | _ =>
      if negb (waitv_available ws) then ret Unsupported
      else
        r <- futex_wait words timeout ;;
        match r with
        | inl w => ret w
        | inr e =>
            match get_ref e with
            | Os 38 | Os 1 => modify (fun ws => MkWaiters (readers ws) true) ;; ret Unsupported
            | _ => throw e
            end
        end
  end.

(** ** One reader *)

(** [time_left]: [None] once [deadline] has passed. *)
Definition time_left {S} (deadline : option Z) : M S (option Z) :=
  match deadline with
  | None => ret (Some DURATION_MAX)
  | Some d =>
      t <- now ;;
      let remaining := Z.max 0 (d - t) in
      ret (if remaining =? 0 then None else Some remaining)
  end.

(** The instants that exist: a signed 64-bit count of seconds, and nanoseconds. *)
Definition INSTANT_END : Z := 2 ^ 63 * 1000000000.

(** [Instant::now() + timeout] panics past the last instant. *)
Definition deadline_of {S} (timeout : option Z) : M S (option Z) :=
  match timeout with
  | None => ret None
  | Some d =>
      t <- now ;;
      if t + d >=? INSTANT_END then die (Panicked "overflow when adding duration to instant")
      else ret (Some (t + d))
  end.

(** The wake word's value, if the segment's writer wakes readers and that is still believed. *)
Definition wake_word_if_waking : M Reader (option Z) :=
  r <- self ;;
  if negb SUPPORTED || wake_untrusted r then ret None
  else
    flags <- load_wake_flags (r_header r) ;;
    if Z.land flags WAKE_FLAG_WAKES =? 0 then ret None
    else word <- load_wake_word (r_header r) ;; ret (Some word).

Definition distrust_flag_if_unwoken (sequence seen : Z) : M Reader unit :=
  r <- self ;;
  if negb (r_file_sequence r =? sequence) then ret tt
  else
    word <- load_wake_word (r_header r) ;;
    if negb (word =? seen) then ret tt
    else if bool_decide (wake_miss r = Some seen) then modify (set_wake_untrusted true)
    else modify (set_wake_miss (Some seen)).

(** One turn of [wait_for_message]'s loop; the variable is the backoff. *)
Definition wait_step (deadline : option Z) (backoff : Z) : M Reader (Z + bool) :=
  r <- self ;;
  let sequence := r_file_sequence r in
  seen <- wake_word_if_waking ;;
  found <- poll_for_user_message ;;
  if found : bool then ret (inr true)
  else
    time <- time_left deadline ;;
    match time with
    | None => ret (inr false)
    | Some remaining =>
        match seen with
        | Some value =>
            r <- self ;;
            if negb (r_file_sequence r =? sequence) then ret (inl backoff)
            else
              let nap := Z.min remaining WAKE_SLEEP_CAP in
              waited <- wait (r_header r) value nap ;;
              match waited with
              | Changed => ret (inl backoff)
              | TimedOut =>
                  if nap =? WAKE_SLEEP_CAP then
                    found <- poll_for_user_message ;;
                    if found : bool then distrust_flag_if_unwoken sequence value ;; ret (inr true)
                    else ret (inl backoff)
                  else ret (inl backoff)
              | Unsupported => modify (set_wake_untrusted true) ;; ret (inl backoff)
              end
        | None =>
            sleep (Z.min backoff remaining) ;;
            ret (inl (Z.min (backoff * 2) BACKOFF_CAP))
        end
    end.

(** [fuel] bounds the turns: how long a wait goes on depends on others. *)
Definition wait_for_message (fuel : nat) (timeout : option Z) : M Reader bool :=
  deadline <- deadline_of timeout ;;
  loop_with fuel (wait_step deadline) BACKOFF_START.

Definition read_blocking (fuel : nat) (timeout : option Z) : M Reader (option MessageRef) :=
  ready <- wait_for_message fuel timeout ;;
  if ready : bool then
    m <- try_read ;;
    match m with
    | Some m => ret (Some m)
    | None => die (Panicked "wait_for_message reported a user message ready but try_read returned None")
    end
  else ret None.

(** ** Several readers *)

(** Run a method of the reader at [i]. *)
Definition on_nth {A} (i : nat) (m : M Reader A) : M Waiters A := fun ws w =>
  match readers ws !! i with
  | None => Outcome (Die (Panicked "index out of bounds")) ws w []
  | Some r =>
      let o := m r w in
      Outcome (o_res o) (MkWaiters (<[i := o_self o]> (readers ws)) (NO_WAITV ws)) (o_world o) (o_trace o)
  end.

(** The index of the first reader of [is_] with a message at its cursor. *)
Fixpoint poll_first (is_ : list nat) : M Waiters (option nat) :=
  match is_ with
  | [] => ret None
  | i :: is_ =>
      found <- on_nth i poll_for_user_message ;;
      if found : bool then ret (Some i) else poll_first is_
  end.

Fixpoint words_seen (is_ : list nat) : M Waiters (list (Z * option Z)) :=
  match is_ with
  | [] => ret []
  | i :: is_ =>
      v <- on_nth i (r <- self ;; word <- wake_word_if_waking ;; ret (r_file_sequence r, word)) ;;
      vs <- words_seen is_ ;;
      ret (v :: vs)
  end.

(** The words to sleep on: those of the readers still on the segment whose word was seen. *)
Definition words_of (rs : list Reader) (seen : list (Z * option Z)) : list (RegionMapping * Z) :=
  omap (fun '(r, (sequence, value)) =>
    if r_file_sequence r =? sequence then (fun v => (r_header r, v)) <$> value else None)
    (combine rs seen).

Definition any_step (deadline : option Z) (backoff : Z) : M Waiters (Z + option nat) :=
  ws <- self ;;
  let indices := seq 0 (List.length (readers ws)) in
  seen <- words_seen indices ;;
  found <- poll_first indices ;;
  match found with
  | Some i => ret (inr (Some i))
  | None =>
      time <- time_left deadline ;;
      match time with
      | None => ret (inr None)
      | Some remaining =>
          ws <- self ;;
          let rs := readers ws in
          let words := words_of rs seen in
          let n := Z.of_nat (List.length words) in
          let all_wake := n =? Z.of_nat (List.length rs) in
          let can_futex := negb (n =? 0) && (n <=? WAITV_MAX) && waitv_available ws in
          let nap := Z.min remaining (if all_wake && can_futex then WAKE_SLEEP_CAP else backoff) in
          waited <- (if can_futex then waitv words nap else ret Unsupported) ;;
          match waited with
          | Changed => ret (inl backoff)
          | TimedOut =>
              if all_wake && (nap =? WAKE_SLEEP_CAP) then
                found <- poll_first indices ;;
                match found with
                | Some i =>
                    match nth i seen (0, None) with
                    | (sequence, Some value) => on_nth i (distrust_flag_if_unwoken sequence value)
                    | _ => ret tt
                    end ;;
                    ret (inr (Some i))
                | None => ret (inl backoff)
                end
              else ret (inl (Z.min (backoff * 2) BACKOFF_CAP))
          | Unsupported =>
              sleep (Z.min remaining backoff) ;;
              ret (inl (Z.min (backoff * 2) BACKOFF_CAP))
          end
      end
  end.

Definition wait_any (fuel : nat) (timeout : option Z) : M Waiters (option nat) :=
  ws <- self ;;
  match readers ws with
  | [] => throw (err_invalid_input "wait_any needs at least one reader")
  | _ => deadline <- deadline_of timeout ;; loop_with fuel (any_step deadline) BACKOFF_START
  end.

End wake.
