(* ===== verification/Chain.v ===== *)
(** * Record chains: what the bytes of a segment mean

    The specification the writer and the reader are verified against.  A segment's records form a
    chain of committed headers from [FIRST_RECORD]; the chain ends at the first header that is not
    committed.  The user records on it, each with its payload, are the segment's contents. *)

From S2P Require Import Prelude Bytes Effects Region Channel V4 Segment.

(** ** Alignment *)

Lemma align_up_spec x : 0 <= x < 2 ^ 64 - 8 -> align_up x = (x + 7) / 8 * 8.
Proof.
  intros Hx. unfold align_up, ALIGN, U64_MAX.
  rewrite wrap_small by lia.
  replace (2 ^ 64 - 1 - (8 - 1)) with (Z.shiftl (Z.ones 61) 3) by reflexivity.
  replace (x + (8 - 1)) with (x + 7) by lia.
  assert (Hr : 0 <= x + 7 < 2 ^ 64) by lia.
  rewrite <- (Z.shiftr_div_pow2 _ 3), <- (Z.shiftl_mul_pow2 _ 3) by lia.
  apply Z.bits_inj'. intros n Hn. rewrite Z.land_spec.
  destruct (Z.ltb_spec n 3) as [Hl|Hl].
  - rewrite (Z.shiftl_spec_low (Z.ones 61)), (Z.shiftl_spec_low _ _ _ Hl), andb_false_r by lia. done.
  - rewrite !Z.shiftl_spec_high, Z.shiftr_spec by lia. replace (n - 3 + 3) with n by lia.
    destruct (Z.ltb_spec n 64) as [Hh|Hh].
    + rewrite Z.ones_spec_low by lia. by rewrite andb_true_r.
    + rewrite Z.ones_spec_high by lia. rewrite andb_false_r. symmetry.
      apply Z.bits_above_log2; [lia|]. destruct (decide (x + 7 = 0)) as [->|]; [simpl; lia|].
      apply Z.log2_lt_pow2; [lia|]. pose proof (Z.pow_le_mono_r 2 64 n). lia.
Qed.

Lemma align_up_bounds x :
  0 <= x < 2 ^ 64 - 8 -> x <= align_up x < x + 8 /\ align_up x mod 8 = 0.
Proof. intros. rewrite align_up_spec by done. split; zlia. Qed.

Lemma align_up_id x : 0 <= x < 2 ^ 64 - 8 -> x mod 8 = 0 -> align_up x = x.
Proof. intros. rewrite align_up_spec by done. zlia. Qed.

Lemma align_up_mono x y : 0 <= x <= y -> y < 2 ^ 64 - 8 -> align_up x <= align_up y.
Proof. intros. rewrite !align_up_spec by lia. zlia. Qed.

Lemma align_up_add x y :
  0 <= x -> 0 <= y -> x + y < 2 ^ 64 - 8 -> x mod 8 = 0 -> align_up (x + y) = x + align_up y.
Proof. intros. rewrite !align_up_spec by lia. zlia. Qed.

#[global] Opaque align_up.

(** ** Chains *)

Record Entry := MkEntry { en_pos : Z; en_head : MessageHeader }.

#[export] Instance Entry_eq_dec : EqDecision Entry.
Proof. solve_decision. Defined.

Definition is_user (e : Entry) : bool := header_type (en_head e) =? HeaderType_u8 User.
Definition en_next (e : Entry) : Z := align_up (en_pos e + HEADER_SLOT + mh_length (en_head e)).

(** The record at [p] of a segment with regions of [rs] bytes: committed, of a type that leads on to
    the next record of this segment, and inside its region. *)
Record entry_at (rs : Z) (d : bytes) (e : Entry) : Prop := {
  ea_pos : 0 <= en_pos e < 2 ^ 63;
  ea_head : message_header d (en_pos e) = en_head e;
  ea_committed : committed (en_head e) = COMMITTED;
  ea_type : from_raw (header_type (en_head e)) = Ok Channel \/
            from_raw (header_type (en_head e)) = Ok User \/
            from_raw (header_type (en_head e)) = Ok Skip;
  ea_fits : en_pos e mod rs + HEADER_SLOT + mh_length (en_head e) <= rs
}.

Inductive chain (rs : Z) (d : bytes) : Z -> list Entry -> Z -> Prop :=
  | chain_nil p : chain rs d p [] p
  | chain_cons e es q :
      entry_at rs d e -> chain rs d (en_next e) es q -> chain rs d (en_pos e) (e :: es) q.

Definition users (es : list Entry) : Z := Z.of_nat (length (List.filter is_user es)).

(** A message as its readers see it: type, user word, payload. *)
Record Message := MkMessage { ms_type : Z; ms_meta : Z; ms_payload : list Z }.

Definition message_of (d : bytes) (e : Entry) : Message :=
  MkMessage (message_type (en_head e)) (user_meta_u64 (en_head e))
    (peek d (en_pos e + HEADER_SLOT) (Z.to_nat (mh_length (en_head e)))).

Definition messages (d : bytes) (es : list Entry) : list Message :=
  map (message_of d) (List.filter is_user es).

(** What a reader of the segment finds: a chain from the first record to a header that is not
    committed. *)
Definition sees (rs : Z) (d : bytes) (es : list Entry) (q : Z) : Prop :=
  chain rs d FIRST_RECORD es q /\ get 1 d q = NOT_COMMITTED.

(** ** Facts *)

Section facts.
Context (rs : Z).
Implicit Types (d : bytes) (es : list Entry) (e : Entry).

Lemma entry_length_nonneg d e : entry_at rs d e -> 0 <= mh_length (en_head e) < 2 ^ 32.
Proof. intros [_ <- _ _ _]. by apply message_header_ok. Qed.

Lemma en_next_bounds d e :
  entry_at rs d e ->
  en_pos e + HEADER_SLOT + mh_length (en_head e) <= en_next e
    < en_pos e + HEADER_SLOT + mh_length (en_head e) + 8 /\ en_next e mod 8 = 0.
Proof.
  intros He. pose proof (entry_length_nonneg d e He). pose proof (ea_pos _ _ _ He).
  apply align_up_bounds. unfold HEADER_SLOT, MESSAGE_HEADER_SIZE. lia.
Qed.

Lemma chain_app d p es1 q es2 r : chain rs d p es1 q -> chain rs d q es2 r -> chain rs d p (es1 ++ es2) r.
Proof. induction 1; [done|]. intros. cbn. constructor; auto. Qed.

Lemma chain_snoc d p es e : chain rs d p es (en_pos e) -> entry_at rs d e -> chain rs d p (es ++ [e]) (en_next e).
Proof. intros Hc He. eapply chain_app; [done|]. constructor; [done|constructor]. Qed.

Lemma chain_app_inv d p es1 es2 r :
  chain rs d p (es1 ++ es2) r -> exists q, chain rs d p es1 q /\ chain rs d q es2 r.
Proof.
  revert p. induction es1 as [|e es1 IH]; intros p Hc; cbn in Hc; [exists p; split; [constructor|done]|].
  inversion Hc; subst. edestruct IH as (q & ? & ?); [done|]. exists q. split; [by constructor|done].
Qed.

(** The records determine where the chain ends. *)
Lemma chain_end d p es q q' : chain rs d p es q -> chain rs d p es q' -> q = q'.
Proof.
  induction 1 as [p|e es q He Hc IH]; intros Hc'; inversion Hc'; subst; [done|auto].
Qed.

(** Every record takes at least its 16-byte header. *)
Lemma chain_length d p es q : chain rs d p es q -> p + 16 * Z.of_nat (length es) <= q.
Proof.
  induction 1 as [|e es q He _ IH]; cbn [length]; [lia|].
  pose proof (en_next_bounds d e He) as [Hb _]. pose proof (entry_length_nonneg d e He).
  unfold HEADER_SLOT, MESSAGE_HEADER_SIZE in Hb. lia.
Qed.

Lemma chain_le d p es q : chain rs d p es q -> p <= q.
Proof. intros ?%chain_length. lia. Qed.

Lemma chain_pos_bound d p es q e : chain rs d p es q -> e ∈ es -> p <= en_pos e /\ en_next e <= q.
Proof.
  induction 1 as [|e' es q He' Hc IH]; intros Hin; [by apply elem_of_nil in Hin|].
  pose proof (en_next_bounds d e' He') as [Hb _]. pose proof (entry_length_nonneg d e' He').
  unfold HEADER_SLOT, MESSAGE_HEADER_SIZE in Hb. pose proof (chain_le _ _ _ _ Hc).
  apply elem_of_cons in Hin as [->|Hin]; [lia|]. specialize (IH Hin). lia.
Qed.

Lemma chain_entry d p es q e : chain rs d p es q -> e ∈ es -> entry_at rs d e.
Proof.
  induction 1 as [|e' es q He' Hc IH]; intros Hin; [by apply elem_of_nil in Hin|].
  apply elem_of_cons in Hin as [->|Hin]; auto.
Qed.

Lemma entry_at_same d d' e :
  same (en_pos e) (en_pos e + 16) d d' -> entry_at rs d e -> entry_at rs d' e.
Proof. intros Hs [? Hh ? ? ?]. constructor; [done| |done..]. by rewrite <- (message_header_same d). Qed.

(** A chain depends on the bytes it spans only. *)
Lemma chain_same d d' p es q : same p q d d' -> chain rs d p es q -> chain rs d' p es q.
Proof.
  intros Hs Hc. induction Hc as [|e es q He Hc IH]; [constructor|].
  pose proof (en_next_bounds d e He) as [Hb _]. pose proof (entry_length_nonneg d e He).
  unfold HEADER_SLOT, MESSAGE_HEADER_SIZE in Hb. pose proof (chain_le _ _ _ _ Hc).
  constructor.
  - eapply entry_at_same; [|done]. eapply same_sub; [done|lia..].
  - apply IH. eapply same_sub; [done|lia..].
Qed.

Lemma message_of_same d d' e :
  same (en_pos e + 16) (en_pos e + 16 + mh_length (en_head e)) d d' -> 0 <= mh_length (en_head e) ->
  message_of d e = message_of d' e.
Proof.
  intros Hs Hl. unfold message_of. f_equal. apply peek_same.
  eapply same_sub; [done|unfold HEADER_SLOT, MESSAGE_HEADER_SIZE; lia..].
Qed.

Lemma messages_same d d' p es q : same p q d d' -> chain rs d p es q -> messages d es = messages d' es.
Proof.
  intros Hs Hc. unfold messages. induction Hc as [|e es q He Hc IH]; [done|].
  pose proof (en_next_bounds d e He) as [Hb _]. pose proof (entry_length_nonneg d e He).
  unfold HEADER_SLOT, MESSAGE_HEADER_SIZE in Hb. pose proof (chain_le _ _ _ _ Hc).
  assert (Hm : message_of d e = message_of d' e).
  { apply message_of_same; [|lia]. eapply same_sub; [done|lia..]. }
  cbn [List.filter]. destruct (is_user e); cbn [map];
    rewrite ?Hm, IH by (eapply same_sub; [done|lia..]); done.
Qed.

Lemma messages_app d es1 es2 : messages d (es1 ++ es2) = messages d es1 ++ messages d es2.
Proof. unfold messages. by rewrite List.filter_app, map_app. Qed.

Lemma users_app es1 es2 : users (es1 ++ es2) = users es1 + users es2.
Proof. unfold users. rewrite List.filter_app, length_app. lia. Qed.

Lemma users_cons e es : users (e :: es) = (if is_user e then 1 else 0) + users es.
Proof. unfold users. cbn. destruct (is_user e); cbn [length]; lia. Qed.

Lemma users_nonneg es : 0 <= users es.
Proof. unfold users. lia. Qed.

Lemma users_le es : users es <= Z.of_nat (length es).
Proof. unfold users. pose proof (List.filter_length_le is_user es). lia. Qed.

Lemma users_messages d es : Z.of_nat (length (messages d es)) = users es.
Proof. unfold users, messages. by rewrite length_map. Qed.

(** The bytes determine the chain: a segment has one contents. *)
Lemma chain_unique d p es q es' q' :
  chain rs d p es q -> get 1 d q = NOT_COMMITTED ->
  chain rs d p es' q' -> get 1 d q' = NOT_COMMITTED -> es = es' /\ q = q'.
Proof.
  assert (Hhead : forall e, entry_at rs d e -> get 1 d (en_pos e) <> NOT_COMMITTED).
  { intros e [_ Hh Hc _ _]. unfold message_header in Hh. rewrite <- Hh in Hc. cbn in Hc.
    rewrite Hc. done. }
  intros Hc Hq. revert es' q'. induction Hc as [p|e es q He Hc IH]; intros es' q' Hc' Hq'.
  - inversion Hc' as [|e' ? ? He']; subst; [done|]. by apply Hhead in He'.
  - inversion Hc' as [|e' es'' ? He' Hc'' Hpos]; subst; [by apply Hhead in He|].
    assert (e' = e) as ->.
    { destruct e as [a h], e' as [a' h']; cbn in *. subst a'. f_equal.
      pose proof (ea_head _ _ _ He) as E1. pose proof (ea_head _ _ _ He') as E2. cbn in *. congruence. }
    destruct (IH Hq es'' q') as [-> ->]; done.
Qed.

Lemma sees_unique d es q es' q' : sees rs d es q -> sees rs d es' q' -> es = es' /\ q = q'.
Proof. intros [? ?] [? ?]. by eapply chain_unique. Qed.

(** A store that leaves the bytes of the records alone and the slot after them uncommitted changes
    nothing a reader finds. *)
Lemma sees_same d d' es q :
  sees rs d es q -> same FIRST_RECORD (q + 1) d d' -> sees rs d' es q.
Proof.
  intros [Hc Hq] Hs. pose proof (chain_le _ _ _ _ Hc). split.
  - eapply chain_same; [|done]. eapply same_sub; [done|lia..].
  - rewrite <- (get_same 1 d); [done|]. eapply same_sub; [done|lia..].
Qed.

Lemma sees_keeps d d' es q :
  sees rs d es q -> same FIRST_RECORD q d d' -> get 1 d' q = NOT_COMMITTED -> sees rs d' es q.
Proof. intros [Hc Hq] Hs Hq'. split; [|done]. by eapply chain_same. Qed.

(** Appending a record: its header committed, and the slot after it not. *)
Lemma sees_snoc d es e :
  chain rs d FIRST_RECORD es (en_pos e) -> entry_at rs d e -> get 1 d (en_next e) = NOT_COMMITTED ->
  sees rs d (es ++ [e]) (en_next e).
Proof. intros. split; [by apply chain_snoc|done]. Qed.

End facts.
