(* ===== verification/RegionFacts.v ===== *)
(** * Rules for mappings and file calls on a calm world

    A world is calm when nobody else acts and no call fails.  An operation that only reads is then
    an equation ([reads]); one that writes has a weakest-precondition rule. *)

From S2P Require Import Prelude Bytes Effects Region Channel.

Definition calm (w : world) : Prop := quiet w /\ healthy w.

(** [m] only reads, and gives [r]. *)
Definition reads {S A} (m : M S A) (s : S) (w : world) (r : res A) : Prop :=
  m s w = Outcome r s w [].

Section rules.
Context {S : Type}.
Implicit Types (s : S) (w : world) (C : world -> Prop).

Lemma reads_bind {A B} (m : M S A) (k : A -> M S B) s w a :
  reads m s w (Ok a) -> bind m k s w = k a s w.
Proof. unfold reads, bind. intros ->. cbn. by destruct (k a s w). Qed.

Lemma reads_bind_err {A B} (m : M S A) (k : A -> M S B) s w e :
  reads m s w (Err e) -> reads (bind m k) s w (Err e).
Proof. unfold reads, bind. by intros ->. Qed.

Lemma reads_seq {A B} (m : M S A) (k : A -> M S B) s w a r :
  reads m s w (Ok a) -> reads (k a) s w r -> reads (bind m k) s w r.
Proof. intros Hm Hk. unfold reads. by rewrite (reads_bind m k s w a). Qed.

Lemma reads_attempt_ok {A} (m : M S A) s w a : reads m s w (Ok a) -> reads (attempt m) s w (Ok (inl a)).
Proof. unfold reads, attempt. by intros ->. Qed.

Lemma reads_attempt_err {A} (m : M S A) s w e : reads m s w (Err e) -> reads (attempt m) s w (Ok (inr e)).
Proof. unfold reads, attempt. by intros ->. Qed.

Lemma wp_reads {A} (m : M S A) s w r (Q : res A -> S -> world -> Prop) C :
  reads m s w r -> Q r s w -> wp m s w Q C.
Proof. unfold reads, wp. intros -> HQ. split; [done|constructor]. Qed.

Lemma wp_reads_bind {A B} (m : M S A) (k : A -> M S B) s w a (Q : res B -> S -> world -> Prop) C :
  reads m s w (Ok a) -> wp (k a) s w Q C -> wp (bind m k) s w Q C.
Proof. intros Hm HQ. unfold wp. by rewrite (reads_bind m k s w a). Qed.

(** A run with a result that is known, as an outcome satisfying a weakest precondition. *)
Lemma wp_elim {A} (m : M S A) s w (Q : res A -> S -> world -> Prop) C :
  wp m s w Q C -> Q (o_res (m s w)) (o_self (m s w)) (o_world (m s w)) /\ Forall C (o_trace (m s w)).
Proof. done. Qed.

Lemma wp_conj {A} (m : M S A) s w (Q1 Q2 : res A -> S -> world -> Prop) C1 C2 :
  wp m s w Q1 C1 -> wp m s w Q2 C2 ->
  wp m s w (fun r s' w' => Q1 r s' w' /\ Q2 r s' w') (fun w' => C1 w' /\ C2 w').
Proof. intros [? ?] [? ?]. split; [done|]. by apply Forall_and. Qed.

Lemma bind_modify {B} f (k : unit -> M S B) s w : bind (modify f) k s w = k tt (f s) w.
Proof. unfold bind, modify. cbn. by destruct (k tt (f s) w). Qed.

Lemma bind_outcome {A B} (m : M S A) (k : A -> M S B) s w a s' w' :
  m s w = Outcome (Ok a) s' w' [] -> bind m k s w = k a s' w'.
Proof. intros E. unfold bind at 1. rewrite E. cbn. by destruct (k a s' w'). Qed.

Lemma bind_outcome_trace {A B} (m : M S A) (k : A -> M S B) s w x s1 w1 tr1 v s2 w2 tr2 :
  m s w = Outcome (Ok x) s1 w1 tr1 -> k x s1 w1 = Outcome v s2 w2 tr2 -> bind m k s w = Outcome v s2 w2 (tr1 ++ tr2).
Proof. unfold bind. intros -> E. cbn. by rewrite E. Qed.

Lemma calm_set_inodes w i : calm w -> calm (set_inodes i w).
Proof. done. Qed.
Lemma calm_write w ino off bs : calm w -> calm (write_inode ino off bs w).
Proof. done. Qed.

Lemma reads_ret {A} (a : A) s w : reads (ret a) s w (Ok a).
Proof. done. Qed.
Lemma reads_lift {A} (r : res A) s w : reads (lift r) s w r.
Proof. done. Qed.
Lemma reads_lift_eq {A} (r r' : res A) s w : r = r' -> reads (lift r) s w r'.
Proof. by intros ->. Qed.
Lemma reads_self s w : reads self s w (Ok s).
Proof. done. Qed.
Lemma reads_ask {A} (f : world -> A) s w : reads (ask f) s w (Ok (f w)).
Proof. done. Qed.

Lemma reads_interfere s w : quiet w -> reads interfere s w (Ok tt).
Proof. unfold quiet, reads, interfere. by intros ->. Qed.

Lemma reads_syscall s w : calm w -> reads syscall s w (Ok tt).
Proof.
  intros [Hq Hh]. unfold syscall. eapply reads_seq; [by apply reads_interfere|].
  unfold healthy, reads, may_fail in *. by rewrite Hh.
Qed.

Lemma reads_loop_with {V A} n (body : V -> M S (V + A)) v v' s w :
  reads (body v) s w (Ok (inl v')) ->
  loop_with (Datatypes.S n) body v s w = loop_with n body v' s w.
Proof. intros Hb. cbn [loop_with]. by rewrite (reads_bind _ _ s w (inl v')). Qed.

Lemma reads_loop_with_end {V A} n (body : V -> M S (V + A)) v a s w :
  reads (body v) s w (Ok (inr a)) -> reads (loop_with (Datatypes.S n) body v) s w (Ok a).
Proof. intros Hb. unfold reads. cbn [loop_with]. by rewrite (reads_bind _ _ s w (inr a)). Qed.

End rules.

Section calm_rules.
Context `{EnvOk} {S : Type}.
Implicit Types (m : RegionMapping) (s : S) (w : world) (C : world -> Prop).

Lemma reads_view {A} m off n (f : bytes -> Z -> A) s w :
  quiet w -> backed m off n w ->
  reads (view m off n f) s w (Ok (f (data_of w (rm_ino m)) (region_offset m + off))).
Proof.
  intros Hq Hb. unfold view. eapply reads_seq; [by apply reads_interfere|].
  eapply reads_seq; [apply reads_ask|].
  rewrite (backed_in_mapping _ _ _ w), backed_accessible by done. done.
Qed.

Lemma reads_metadata_len file s w : calm w -> reads (metadata_len file) s w (Ok (len_of w file)).
Proof. intros Hc. eapply reads_seq; [by apply reads_syscall|]. done. Qed.

(** A region of a file the code maps: page-aligned sizes and offsets. *)
Definition aligned (off rs : Z) : Prop :=
  0 < rs /\ rs mod page_size = 0 /\ off mod page_size = 0.

Lemma check_alignment_ok off rs : aligned off rs -> check_alignment off rs = Ok tt.
Proof.
  intros (Hp & Hr & Ho). unfold check_alignment, is_multiple_of. pose proof page_size_pos.
  decide_if. replace (page_size =? 0) with false by (symmetry; apply Z.eqb_neq; lia).
  rewrite Hr, Ho. done.
Qed.

Lemma reads_create_read_only file off rs s w :
  calm w -> aligned off rs -> reads (create_read_only file off rs) s w (Ok (Mapping file off rs)).
Proof.
  intros Hc Ha. eapply reads_seq; [by apply reads_lift_eq, check_alignment_ok|].
  eapply reads_seq; [by apply reads_syscall|]. apply reads_ret.
Qed.

Lemma reads_create_writable file off rs s w :
  calm w -> aligned off rs -> 0 <= off -> off + rs <= len_of w file ->
  reads (create_writable file off rs) s w (Ok (Mapping file off rs)).
Proof.
  intros Hc Ha Ho Hl. eapply reads_seq; [by apply reads_lift_eq, check_alignment_ok|].
  eapply reads_seq; [by apply reads_metadata_len|].
  assert (Hle : u64 (off + rs) <= len_of w file).
  { unfold wrap. destruct Ha as (? & _). pose proof (Z.mod_le (off + rs) (2 ^ 64)). lia. }
  replace (len_of w file <? u64 (off + rs)) with false by (symmetry; apply Z.ltb_ge; lia).
  eapply reads_seq; [apply reads_ret|].
  eapply reads_seq; [by apply reads_syscall|]. apply reads_ret.
Qed.

Lemma wp_set_len file len s w (Q : res unit -> S -> world -> Prop) C :
  calm w -> len <= I64_MAX ->
  let w' := resize_inode file len w in C w' -> Q (Ok tt) s w' -> wp (set_len file len) s w Q C.
Proof.
  intros Hc Hl w' HC HQ. eapply wp_reads_bind; [by apply reads_syscall|].
  replace (len >? I64_MAX) with false by (symmetry; rewrite Z.gtb_ltb; apply Z.ltb_ge; lia).
  by apply wp_emit.
Qed.

(** A plain store of [n] bytes. *)
Lemma wp_store_le m off n v s w (Q : res unit -> S -> world -> Prop) C :
  quiet w -> backed m off (Z.of_nat n) w ->
  let w' := write_inode (rm_ino m) (region_offset m + off) (le_bytes n v) w in
  C w' -> Q (Ok tt) s w' -> wp (store m off (le_bytes n v)) s w Q C.
Proof. intros ? ? w' ? ?. apply wp_store; [done|by rewrite length_le_bytes|done|done]. Qed.

Lemma backed_mono m off n off' n' w :
  backed m off n w -> off <= off' -> off' + n' <= off + n -> 0 <= n' -> backed m off' n' w.
Proof. intros (? & ? & ?) ? ? ?. unfold backed. lia. Qed.

End calm_rules.

#[global] Opaque store update view.
