(* ===== verification/PrefaultFacts.v ===== *)
(** * The writer's helper: its queues

    Whatever the system calls return and whatever others do in between, the accounts of the queues
    stay exact and bounded through every hand-over. *)

From Stdlib Require Import String.
From S2P Require Import Prelude Bytes Effects Region Channel V4 Names Segment Helper Prefault RegionFacts.

#[local] Open Scope list_scope.
#[local] Open Scope Z_scope.

(** ** Steps that return, in any world *)

Section any.
Context `{Env} {S : Type}.
Implicit Types (s : S) (w : world).

Lemma wp_interfere_any s w (Q : res unit -> S -> world -> Prop) :
  (forall w', Q (Ok tt) s w') -> wp interfere s w Q (fun _ => True).
Proof.
  intros HQ. unfold wp, interfere. destruct (o_events (w_oracle w)); cbn; split; try apply HQ; by repeat constructor.
Qed.

Lemma wp_may_fail_any s w (Q : res unit -> S -> world -> Prop) :
  (forall w', Q (Ok tt) s w') -> (forall e w', Q (Err e) s w') -> wp may_fail s w Q (fun _ => True).
Proof.
  intros HQ HE. unfold wp, may_fail. destruct (o_io (w_oracle w)) as [|[e|] ?]; cbn; split; auto; by repeat constructor.
Qed.

Lemma wp_syscall_any s w (Q : res unit -> S -> world -> Prop) :
  (forall w', Q (Ok tt) s w') -> (forall e w', Q (Err e) s w') -> wp syscall s w Q (fun _ => True).
Proof. intros HQ HE. apply wp_bind, wp_interfere_any. intros w'. by apply wp_may_fail_any. Qed.

Lemma wp_remove_file_any name s w (Q : res unit -> S -> world -> Prop) :
  (forall r w', (forall y, r <> Die y) -> Q r s w') -> wp (remove_file name) s w Q (fun _ => True).
Proof.
  intros HQ. apply wp_bind, wp_syscall_any; [|intros e w'; by apply HQ]. intros w'. apply wp_bind, wp_ask.
  destruct (w_dir w' !! name) as [[]|]; [apply wp_emit; [done|by apply HQ]|by apply wp_lift, HQ|by apply wp_lift, HQ].
Qed.

Lemma wp_ignore_any {A} (m : M S A) s w (Q : res unit -> S -> world -> Prop) :
  wp m s w (fun r s' _ => s' = s /\ forall y, r <> Die y) (fun _ => True) -> (forall w', Q (Ok tt) s w') ->
  wp (ignore m) s w Q (fun _ => True).
Proof.
  intros Hm HQ. apply wp_bind, wp_attempt. eapply wp_mono; [exact Hm| |done].
  intros r s' w' [-> Hr]. destruct r as [a|e|y]; [by apply wp_ret|by apply wp_ret|by destruct (Hr y)].
Qed.

Lemma wp_for_each_any {A} (l : list A) (f : A -> M S unit) s w (Q : res unit -> S -> world -> Prop) :
  (forall a w', wp (f a) s w' (fun r s' _ => r = Ok tt /\ s' = s) (fun _ => True)) -> (forall w', Q (Ok tt) s w') ->
  wp (for_each l f) s w Q (fun _ => True).
Proof.
  intros Hf HQ. revert w. induction l as [|a l IH]; intros w; [by apply wp_ret|].
  apply wp_bind. eapply wp_mono; [apply Hf| |done]. intros r s' w' [-> ->]. apply IH.
Qed.

Lemma wp_channel_path_any base seq s w (Q : res string -> S -> world -> Prop) :
  (forall r, (forall y, r <> Die y) -> Q r s w) -> wp (make_channel_file_path base seq) s w Q (fun _ => True).
Proof.
  intros HQ. apply wp_bind. unfold is_dir. apply wp_bind, wp_ask, wp_ret. case_match; [by apply wp_lift, HQ|by apply wp_ret, HQ].
Qed.

Lemma wp_prefault_delete base doomed s w (Q : res unit -> S -> world -> Prop) :
  (forall w', Q (Ok tt) s w') -> wp (prefault_delete base doomed) s w Q (fun _ => True).
Proof.
  intros HQ. apply wp_for_each_any; [|done]. intros seq w'. apply wp_bind. unfold ok.
  apply wp_bind, wp_attempt, wp_channel_path_any. intros [p|e|y] Hr; [..|by destruct (Hr y)].
  - apply wp_ret. apply wp_ignore_any; [|done]. by apply wp_remove_file_any.
  - by apply wp_ret, wp_ret.
Qed.

Lemma wp_try_clone_any file s w (Q : res Z -> S -> world -> Prop) :
  (forall w', Q (Ok file) s w') -> (forall e w', Q (Err e) s w') -> wp (try_clone file) s w Q (fun _ => True).
Proof. intros HQ HE. apply wp_bind, wp_syscall_any; [|done]. intros w'. by apply wp_ret. Qed.

End any.

(** ** The accounts of the queues *)

Definition is_handle (l : Left) : bool := match l with LRegion _ _ => false | _ => true end.
Definition handles (ls : list Left) : Z := Z.of_nat (List.length (List.filter is_handle ls)).

(** The descriptors in [retired] are counted, there are at most [2 * SMALL_QUEUE] of them, and
    neither queue is over its bound. *)
Record accounts_ok (rb : Z) (p : Shared) : Prop := {
  ac_handles : p_queued_files p = handles (items (p_retired p));
  ac_few : p_queued_files p <= 2 * SMALL_QUEUE;
  ac_bounds : bound (p_retired p) = rb /\ bound (p_doomed p) = DOOMED_QUEUE;
  ac_retired : Z.of_nat (List.length (items (p_retired p))) <= rb;
  ac_doomed : Z.of_nat (List.length (items (p_doomed p))) <= DOOMED_QUEUE
}.

(** The calls of the writer and the thread that use the queues. *)
Inductive Call :=
  | CTake (sequence index : Z)
  | CClaim (sequence : Z)
  | CTakeSegment (sequence : Z)
  | CUnlink (sequence : Z)
  | CMoved (region : RegionMapping) (index : Z) (l : RegionMapping)
  | CRolled (sequence : Z) (instance : InstanceId) (file file_len : Z) (region : RegionMapping) (index : Z)
      (ls : list RegionMapping) (left_file : Z) (worker : option Z)
  | CRelease.

Definition call `{Env} (c : Call) : M Shared unit :=
  match c with
  | CTake sequence index => _ <- Prefaulter_take sequence index ;; ret tt
  | CClaim sequence => claim sequence
  | CTakeSegment sequence => _ <- try_take_segment sequence ;; ret tt
  | CUnlink sequence => unlink sequence
  | CMoved region index l => moved region index l
  | CRolled sequence instance file file_len region index ls left_file worker =>
      rolled sequence instance file file_len region index ls left_file worker
  | CRelease => release_left
  end.

(** Calls one after another, each in whatever world it finds. *)
Inductive calls `{Env} : Shared -> list Call -> Shared -> Prop :=
  | calls_nil p : calls p [] p
  | calls_cons p c w cs p' : calls (o_self (call c p w)) cs p' -> calls p (c :: cs) p'.

Section accounts.
Context `{Env} (rb : Z).
Implicit Types (p : Shared) (w : world).

Lemma handles_app ls ls' : handles (ls ++ ls') = handles ls + handles ls'.
Proof. unfold handles. rewrite List.filter_app, length_app. lia. Qed.

Lemma handles_nonneg ls : 0 <= handles ls.
Proof. unfold handles. lia. Qed.

Lemma handles_held unmap current ls : handles (List.filter (Left_held unmap current) ls) = 0.
Proof.
  unfold handles. induction ls as [|l ls IH]; [done|]. cbn. destruct (Left_held unmap current l) eqn:E; [|done].
  cbn. destruct l; [done|by destruct unmap..].
Qed.

Lemma handles_split (f : Left -> bool) ls :
  handles (List.filter (fun l => negb (f l)) ls) + handles (List.filter f ls) = handles ls.
Proof. unfold handles. induction ls as [|l ls IH]; [done|]. cbn. destruct (f l), (is_handle l) eqn:E; cbn; rewrite ?E; cbn; lia. Qed.

Lemma filter_length_le {A} (f : A -> bool) ls : (List.length (List.filter f ls) <= List.length ls)%nat.
Proof. induction ls as [|l ls IH]; [done|]. cbn. destruct (f l); cbn; lia. Qed.

(** Nothing the queues are made of changes. *)
Definition same_queues p p' : Prop :=
  p_queued_files p' = p_queued_files p /\ p_retired p' = p_retired p /\ p_doomed p' = p_doomed p.

Lemma same_queues_ok p p' : same_queues p p' -> accounts_ok rb p -> accounts_ok rb p'.
Proof. intros (E1 & E2 & E3) [? ? ? ? ?]. constructor; rewrite ?E1, ?E2, ?E3; done. Qed.

Ltac same_accounts := match goal with A : accounts_ok _ ?p |- accounts_ok _ _ => apply (same_queues_ok p); [repeat split|exact A] end.

Lemma retire_items_ok ls full p w (Q : res bool -> Shared -> world -> Prop) :
  accounts_ok rb p -> (forall b p' w', accounts_ok rb p' -> Q (Ok b) p' w') ->
  wp (retire_items ls full) p w Q (fun _ => True).
Proof.
  revert full p. induction ls as [|l ls IH]; intros full p Hp HQ; cbn [retire_items]; [by apply wp_ret, HQ|].
  apply wp_bind, wp_self. fold (is_handle l).
  change (match l with LRegion _ _ => false | _ => true end) with (is_handle l).
  destruct (is_handle l && (p_queued_files p >=? 2 * SMALL_QUEUE)) eqn:E; [by apply IH|].
  destruct (Bounded_push (p_retired p) l) as [q r] eqn:Hq. destruct (Bounded_push_bound _ _ _ _ Hq) as [Hb Hlen].
  pose proof (Bounded_push_keeps _ _ _ _ Hq) as Hk. destruct r; [by apply IH|]. rewrite app_nil_r in Hk.
  apply wp_bind, wp_modify, IH; [|done]. destruct Hp as [A1 A2 [A3 A4] A5 A6]. constructor; cbn.
  - rewrite Hk, handles_app, <- A1. unfold handles. cbn. destruct (is_handle l); cbn; lia.
  - destruct (is_handle l); [|done]. cbn in E. rewrite Z.geb_leb in E. apply Z.leb_gt in E. lia.
  - by rewrite Hb.
  - rewrite A3 in *. lia.
  - done.
Qed.

Lemma retire_ok ls p w (Q : res unit -> Shared -> world -> Prop) :
  accounts_ok rb p -> (forall p' w', accounts_ok rb p' -> Q (Ok tt) p' w') -> wp (retire ls) p w Q (fun _ => True).
Proof.
  intros Hp HQ. apply wp_bind, retire_items_ok; [done|]. intros [] p' w' Hp'; [|by apply wp_ret, HQ].
  apply wp_modify, HQ. same_accounts.
Qed.

Lemma release_if_stopped_ok p w (Q : res unit -> Shared -> world -> Prop) :
  accounts_ok rb p -> (forall p' w', accounts_ok rb p' -> Q (Ok tt) p' w') -> wp release_if_stopped p w Q (fun _ => True).
Proof.
  intros Hp HQ. apply wp_bind, wp_self. destruct (Failure_stopped (p_failure p)); cbn [negb]; [|by apply wp_ret, HQ].
  apply wp_bind, wp_modify, wp_bind, wp_modify, wp_prefault_delete. intros w'. apply HQ.
  destruct Hp as [A1 A2 [A3 A4] A5 A6]. constructor; cbn.
  - by rewrite handles_held.
  - done.
  - done.
  - pose proof (filter_length_le (Left_held (p_unmap p) (p_current_sequence p)) (items (p_retired p))). lia.
  - done.
Qed.

Lemma hand_off_ok p w (Q : res (option Left) -> Shared -> world -> Prop) :
  accounts_ok rb p -> (forall l p' w', accounts_ok rb p' -> Q (Ok l) p' w') -> wp hand_off p w Q (fun _ => True).
Proof.
  intros Hp HQ. apply wp_bind, wp_self. destruct (p_handoff p); [|by apply wp_ret, HQ].
  destruct (p_segment_busy p); [by apply wp_ret, HQ|]. apply wp_bind, wp_modify, wp_bind, wp_modify, wp_ret, HQ.
  same_accounts.
Qed.

Lemma release_left_ok p w (Q : res unit -> Shared -> world -> Prop) :
  accounts_ok rb p -> (forall p' w', accounts_ok rb p' -> Q (Ok tt) p' w') -> wp release_left p w Q (fun _ => True).
Proof.
  intros Hp HQ. apply wp_bind, wp_self. cbv zeta. apply wp_bind, wp_modify, wp_bind, wp_for_each_any.
  { intros [] w'; [|by apply wp_ret..]. apply wp_ignore_any; [|done]. by apply wp_syscall_any. }
  intros w1. apply wp_bind, wp_self, wp_bind, wp_modify, wp_bind, wp_self, wp_bind, wp_modify, wp_prefault_delete.
  intros w2. apply HQ. destruct Hp as [A1 A2 [A3 A4] A5 A6]. pose proof (handles_nonneg (items (p_retired p))) as Hn.
  assert (Hsub : forall out stays, handles out + handles stays = handles (items (p_retired p)) ->
    u64 (p_queued_files p - Z.of_nat (List.length (List.filter is_handle out))) = handles stays).
  { intros out stays Hos. fold (handles out). unfold handles in Hos at 1. fold (handles out) in Hos.
    rewrite A1. pose proof (handles_nonneg stays). pose proof (handles_nonneg out).
    change (Z.of_nat (List.length (List.filter is_handle out))) with (handles out). rewrite wrap_small; [lia|].
    change SMALL_QUEUE with 8 in *. lia. }
  pose proof (handles_split (Left_held AtFileRoll (p_current_sequence p)) (items (p_retired p))) as Hsp.
  constructor; cbn.
  - destruct (p_unmap p); apply Hsub; [by rewrite Z.add_0_r|done].
  - destruct (p_unmap p).
    + eapply Z.le_trans; [apply Z.eq_le_incl, (Hsub _ []); by rewrite Z.add_0_r|done].
    + eapply Z.le_trans; [apply Z.eq_le_incl, (Hsub _ _ Hsp)|]. change SMALL_QUEUE with 8 in *.
      pose proof (handles_nonneg (List.filter (fun l => negb (Left_held AtFileRoll (p_current_sequence p) l)) (items (p_retired p)))). lia.
  - done.
  - destruct (p_unmap p); [cbn; lia|].
    pose proof (filter_length_le (Left_held AtFileRoll (p_current_sequence p)) (items (p_retired p))). lia.
  - done.
Qed.

Lemma call_ok c p w :
  accounts_ok rb p -> wp (call c) p w (fun r p' _ => r = Ok tt /\ accounts_ok rb p') (fun _ => True).
Proof.
  intros Hp. assert (Hsame : forall p', same_queues p p' -> Ok tt = Ok tt /\ accounts_ok rb p').
  { intros p' Hq. split; [done|by eapply same_queues_ok]. }
  destruct c as [seq index|seq|seq|seq|region index l|seq instance file len region index ls lf worker|]; cbn [call].
  - apply wp_bind, wp_bind, wp_self. destruct (p_next p) as [n|]; [|apply wp_ret, wp_ret; by apply Hsame].
    destruct (_ && _); [apply wp_bind, wp_modify, wp_ret, wp_ret|apply wp_ret, wp_ret]; by apply Hsame.
  - apply wp_modify. by apply Hsame.
  - apply wp_bind, wp_bind, wp_self. destruct (negb _); [apply wp_ret, wp_ret; by apply Hsame|].
    destruct (p_next_segment_busy p); [apply wp_ret, wp_ret; by apply Hsame|].
    destruct (p_ready p) as [n|]; [|apply wp_ret, wp_ret; by apply Hsame].
    destruct (_ =? _); [apply wp_bind, wp_modify, wp_ret, wp_ret|apply wp_ret, wp_ret]; by apply Hsame.
  - apply wp_bind, wp_self. destruct (Bounded_push (p_doomed p) seq) as [q r] eqn:Hq.
    destruct (Bounded_push_bound _ _ _ _ Hq) as [Hb Hlen].
    assert (Hp' : accounts_ok rb (with_doomed q p)).
    { destruct Hp as [A1 A2 [A3 A4] A5 A6]. constructor; cbn; [done..|by rewrite Hb|done|]. rewrite A4 in *. lia. }
    apply wp_bind, wp_modify, wp_bind. destruct r as [seq'|].
    + apply wp_bind, wp_modify, wp_prefault_delete. intros w'. apply release_if_stopped_ok; [|done]. same_accounts.
    + apply wp_ret, release_if_stopped_ok; done.
  - apply wp_bind, wp_self, wp_bind, wp_modify, wp_bind, hand_off_ok; [same_accounts|]. intros worker p1 w1 Hp1.
    apply wp_bind, retire_ok; [done|]. intros p2 w2 Hp2. by apply release_if_stopped_ok.
  - apply wp_bind, wp_self. cbv zeta. apply wp_bind.
    apply (wp_mono _ _ _ (fun r p' _ => p' = p /\ exists h, r = Ok h) _ (fun _ => True)); [|intros r p' w1 (-> & h & ->)|done].
    { destruct worker as [wk|]; [apply wp_ret; by eauto|]. apply wp_bind, wp_attempt, wp_try_clone_any; intros; apply wp_ret; by eauto. }
    apply wp_bind. apply (wp_mono _ _ _ (fun r p' _ => accounts_ok rb p' /\ exists wk, r = Ok wk) _ (fun _ => True)); [|intros r p1 w2 (Hp1 & wk & ->)|done].
    { destruct h as [h|]; [|apply wp_ret; by eauto]. apply wp_bind, wp_modify, hand_off_ok; [same_accounts|]. eauto. }
    apply wp_bind, wp_modify, wp_bind, wp_self, wp_bind, wp_modify, wp_bind, retire_ok; [same_accounts|].
    intros p2 w3 Hp2. by apply release_if_stopped_ok.
  - by apply release_left_ok.
Qed.

Lemma calls_ok p cs p' : calls p cs p' -> accounts_ok rb p -> accounts_ok rb p'.
Proof. induction 1 as [p|p c w cs p' _ IH]; [done|]. intros Hp. apply IH, (call_ok c p w Hp). Qed.

End accounts.
