(* ===== verification/PopulateFacts.v ===== *)
(** * The writer's helper: what it populates (src/prefault.rs)

    Which ranges the thread asks the kernel to populate, whatever the system calls return and whatever
    others do in between, and what has been asked for once it has taken a turn. *)

From Stdlib Require Import String.
From S2P Require Import Prelude Bytes Effects Region Channel V4 Names Segment Helper Prefault RegionFacts PrefaultFacts.

#[local] Open Scope list_scope.
#[local] Open Scope Z_scope.

(** ** Requests *)

(** A range of whole pages inside a mapping of [size] bytes; the last page of the range may be asked
    for in part. *)
Definition range_ok `{Env} (size : Z) (m : RegionMapping) (off len : Z) : Prop :=
  region_size m = size /\ off mod page_size = 0 /\ 0 <= off /\ 0 <= len /\ off + len <= size.

Definition call_ok_in `{Env} (size : Z) (c : kcall) : Prop :=
  match c with KPopulate m off len => range_ok size m off len | KWake _ _ => True end.

(** From [w] to [w'] every range asked for lies inside a region. *)
Definition asks `{Env} (size : Z) (w w' : world) : Prop :=
  exists l, w_calls w' = l ++ w_calls w /\ Forall (call_ok_in size) l.

(** The bytes of [m] from [lo] up to [hi] have been asked for. *)
Definition covered (w : world) (m : RegionMapping) (lo hi : Z) : Prop :=
  forall x, lo <= x < hi -> exists off len, KPopulate m off len ∈ w_calls w /\ off <= x < off + len.

#[export] Instance asks_preorder `{Env} size : PreOrder (asks size).
Proof.
  split.
  - intros w. by exists [].
  - intros w1 w2 w3 (l1 & E1 & H1) (l2 & E2 & H2). exists (l2 ++ l1). split; [by rewrite E2, E1, app_assoc|].
    by apply Forall_app.
Qed.

Lemma asks_same `{Env} size w w' : w_calls w' = w_calls w -> asks size w w'.
Proof. intros E. by exists []. Qed.

Lemma covered_more w w' m lo hi l : w_calls w' = l ++ w_calls w -> covered w m lo hi -> covered w' m lo hi.
Proof.
  intros E Hc x Hx. destruct (Hc x Hx) as (off & len & Hin & ?). exists off, len. split; [|done].
  rewrite E. apply elem_of_app. by right.
Qed.

Lemma covered_asks `{Env} size w w' m lo hi : asks size w w' -> covered w m lo hi -> covered w' m lo hi.
Proof. intros (l & E & _). by apply (covered_more _ _ _ _ _ l). Qed.

Lemma covered_sub w m lo hi lo' hi' : lo <= lo' -> hi' <= hi -> covered w m lo hi -> covered w m lo' hi'.
Proof. intros ?? Hc x Hx. apply Hc. lia. Qed.

Lemma covered_app w m lo mid hi : covered w m lo mid -> covered w m mid hi -> covered w m lo hi.
Proof. intros H1 H2 x Hx. destruct (Z.lt_ge_cases x mid); [apply H1|apply H2]; lia. Qed.

Lemma covered_call w m off len : covered (add_call (KPopulate m off len) w) m off (off + len).
Proof. intros x Hx. exists off, len. split; [cbn; by left|done]. Qed.

(** ** Operations that ask for nothing else *)

(** From a state that satisfies [I], and in any world, [m] leaves one that does, its requests lie inside
    regions, and what it returns satisfies [Q]. *)
Definition careful `{Env} {S A} (size : Z) (I : S -> Prop) (m : M S A) (Q : A -> Prop) : Prop :=
  forall s w, I s ->
    I (o_self (m s w)) /\ asks size w (o_world (m s w)) /\ forall a, o_res (m s w) = Ok a -> Q a.

Section careful.
Context `{Env} {S : Type} (size : Z) (I : S -> Prop).
#[local] Notation careful := (careful size I).

Lemma careful_weak {A} (m : M S A) (Q Q' : A -> Prop) : careful m Q -> (forall a, Q a -> Q' a) -> careful m Q'.
Proof. intros Hm HQ s w Hs. destruct (Hm s w Hs) as (? & ? & ?). split_and!; auto. Qed.

Lemma careful_bind {A B} (m : M S A) (k : A -> M S B) (Q : A -> Prop) (R : B -> Prop) :
  careful m Q -> (forall a, Q a -> careful (k a) R) -> careful (bind m k) R.
Proof.
  intros Hm Hk s w Hs. destruct (Hm s w Hs) as (Hs1 & Ha1 & HQ). unfold bind. destruct (o_res (m s w)) as [a|e|y]; cbn.
  - destruct (Hk a (HQ a eq_refl) (o_self (m s w)) (o_world (m s w)) Hs1) as (Hs2 & Ha2 & HR).
    split_and!; [done|by etransitivity|done].
  - by split_and!.
  - by split_and!.
Qed.

Lemma careful_lift {A} (r : res A) (Q : A -> Prop) : (forall a, r = Ok a -> Q a) -> careful (lift r) Q.
Proof. intros HQ s w Hs. by split_and!. Qed.

Lemma careful_ret {A} (a : A) (Q : A -> Prop) : Q a -> careful (ret a) Q.
Proof. intros HQ. apply (careful_lift (Ok a)). by intros b [= <-]. Qed.

Lemma careful_throw {A} e (Q : A -> Prop) : careful (throw e) Q.
Proof. by apply careful_lift. Qed.

Lemma careful_die {A} y (Q : A -> Prop) : careful (die y) Q.
Proof. by apply careful_lift. Qed.

Lemma careful_self : careful self I.
Proof. intros s w Hs. split_and!; [done|done|]. by intros a [= <-]. Qed.

Lemma careful_ask {A} (f : world -> A) : careful (ask f) (fun _ => True).
Proof. intros s w Hs. by split_and!. Qed.

Lemma careful_modify (f : S -> S) : (forall s, I s -> I (f s)) -> careful (modify f) (fun _ => True).
Proof. intros Hf s w Hs. split_and!; [by apply Hf|done|done]. Qed.

Lemma careful_emit (f : world -> world) : (forall w, w_calls (f w) = w_calls w) -> careful (emit f) (fun _ => True).
Proof. intros Hf s w Hs. split_and!; [done|by apply asks_same, Hf|done]. Qed.

Lemma careful_consume {A} (f : world -> A * world) :
  (forall w, w_calls (f w).2 = w_calls w) -> careful (consume f) (fun _ => True).
Proof.
  intros Hf s w Hs. unfold consume. specialize (Hf w). destruct (f w) as [a w']. cbn in *. split_and!; [done|by apply asks_same|done].
Qed.

Lemma careful_attempt {A} (m : M S A) (Q : A -> Prop) :
  careful m Q -> careful (attempt m) (fun r => match r with inl a => Q a | inr _ => True end).
Proof.
  intros Hm s w Hs. destruct (Hm s w Hs) as (Hs1 & Ha & HQ). unfold attempt.
  destruct (o_res (m s w)) as [a|e|y]; cbn; (split_and!; [done|done|]); intros b [= <-]; auto.
Qed.

Lemma careful_when b (m : M S unit) : careful m (fun _ => True) -> careful (when b m) (fun _ => True).
Proof. intros Hm. destruct b; [done|by apply careful_ret]. Qed.

Lemma careful_loop {A} n (m : M S (option A)) : careful m (fun _ => True) -> careful (loop n m) (fun _ => True).
Proof.
  intros Hm. induction n as [|n IH]; [apply careful_die|]. cbn [loop]. eapply careful_bind; [exact Hm|].
  intros [a|] _; [by apply careful_ret|exact IH].
Qed.

Lemma careful_loop_with {V A} n (m : V -> M S (V + A)) (J : V -> Prop) v :
  (forall v, J v -> careful (m v) (fun r => match r with inl v => J v | inr _ => True end)) -> J v ->
  careful (loop_with n m v) (fun _ => True).
Proof.
  intros Hm. revert v. induction n as [|n IH]; intros v Hv; [apply careful_die|]. cbn [loop_with].
  eapply careful_bind; [by apply Hm|]. intros [v'|a]; [apply IH|by intros _; apply careful_ret].
Qed.

Lemma careful_for_each {A} (l : list A) (f : A -> M S unit) :
  (forall a, careful (f a) (fun _ => True)) -> careful (for_each l f) (fun _ => True).
Proof.
  intros Hf. induction l as [|a l IH]; [by apply careful_ret|]. cbn [for_each]. eapply careful_bind; [apply Hf|]. by intros.
Qed.

(** Others may wake and be woken. *)
Lemma events_asks evs w : asks size w (foldl apply_event w evs).
Proof.
  revert w. induction evs as [|ev evs IH]; intros w; [done|]. cbn [foldl]. etransitivity; [|apply IH].
  destruct ev as [| | | |ino off]; try by apply asks_same. exists [KWake ino off]. split; [done|by apply Forall_singleton].
Qed.

Lemma careful_interfere : careful interfere (fun _ => True).
Proof.
  intros s w Hs. unfold interfere. destruct (o_events (w_oracle w)) as [|evs rest]; [by split_and!|]. cbn.
  split_and!; [done| |done]. etransitivity; [|apply events_asks]. by apply asks_same.
Qed.

Lemma careful_may_fail : careful may_fail (fun _ => True).
Proof. intros s w Hs. unfold may_fail. by destruct (o_io (w_oracle w)) as [|[e|] ?]; (split_and!; [|apply asks_same|]). Qed.

Lemma careful_populate m off len : range_ok size m off len -> careful (populate m off len) (fun _ => True).
Proof.
  intros Hr. unfold populate. apply careful_when. eapply careful_bind; [eapply careful_bind; [apply careful_interfere|]|].
  - intros _ _. apply careful_may_fail.
  - intros _ _ s w Hs. split_and!; [done| |done]. exists [KPopulate m off len]. split; [done|by apply Forall_singleton].
Qed.
(** What such an operation ends with. *)
Lemma careful_wp {A} (m : M S A) (Q : A -> Prop) (R : res A -> S -> world -> Prop) s w :
  careful m Q -> I s -> wp m s w R (fun _ => True) ->
  wp m s w (fun r s' w' => R r s' w' /\ asks size w w' /\ forall a, r = Ok a -> Q a) (fun _ => True).
Proof. intros Hm Hs [HR HC]. destruct (Hm s w Hs) as (_ & Ha & HQ). by split. Qed.

End careful.

Create HintDb careful discriminated.
#[export] Hint Constants Opaque : careful.
#[export] Hint Resolve careful_throw careful_die careful_ask careful_interfere careful_may_fail : careful.

(** Take an operation apart to steps that are known; what a step returns is forgotten unless a hint
    says something of it. *)
Ltac careful_step :=
  lazymatch goal with
  | |- careful _ _ (ret _) (fun _ => True) => by apply careful_ret
  | |- careful _ _ (lift _) (fun _ => True) => by apply careful_lift
  | |- careful _ _ self _ => apply careful_self
  | |- careful _ _ (when _ _) _ => apply careful_when; careful_go
  | |- careful _ _ (attempt _) (fun _ => True) => eapply careful_weak; [apply careful_attempt; careful_go|done]
  | |- careful _ _ (loop _ _) _ => apply careful_loop; careful_go
  | |- careful _ _ (for_each _ _) _ => apply careful_for_each; intros ?; careful_go
  | |- careful _ _ (emit _) _ => apply careful_emit; by intros
  | |- careful _ _ (match ?x with _ => _ end) _ => destruct x; careful_go
  | |- _ => solve [auto with nocore careful]
  end
with careful_go :=
  cbv zeta;
  lazymatch goal with
  | |- careful _ _ (bind self _) _ => eapply careful_bind; [apply careful_self|intros ? ?; careful_go]
  | |- careful _ _ (bind _ _) _ =>
      first [eapply careful_bind; [solve [auto with nocore careful]|intros ? ?; careful_go]
            |apply (careful_bind _ _ _ _ (fun _ => True)); [careful_go|intros ? _; careful_go]]
  | |- _ => careful_step
  end.

Section operations.
Context `{Env} {S : Type} (size : Z) (I : S -> Prop).
#[local] Notation quietly m := (careful size I m (fun _ => True)).

Lemma careful_syscall : quietly syscall.
Proof. unfold syscall. careful_go. Qed.
Hint Resolve careful_syscall : careful.

#[local] Transparent view update store.
Lemma careful_view {A} m off n (f : bytes -> Z -> A) : quietly (view m off n f).
Proof. unfold view. careful_go. Qed.
Lemma careful_update m off n f : quietly (update m off n f).
Proof. unfold update. careful_go. Qed.
Hint Resolve careful_view careful_update : careful.
Lemma careful_store m off bs : quietly (store m off bs).
Proof. unfold store. careful_go. Qed.
#[local] Opaque view update store.
Lemma careful_metadata_len file : quietly (metadata_len file).
Proof. unfold metadata_len. careful_go. Qed.
Lemma careful_set_len file len : quietly (set_len file len).
Proof. unfold set_len. careful_go. Qed.
Hint Resolve careful_store careful_metadata_len careful_set_len : careful.

(** A mapping is as long as was asked. *)
Lemma careful_mmap file off rs : careful size I (mmap file off rs) (fun m => region_size m = rs).
Proof. unfold mmap. eapply careful_bind; [apply careful_syscall|]. intros _ _. by apply careful_ret. Qed.
Lemma careful_create_writable file off rs : careful size I (create_writable file off rs) (fun m => region_size m = rs).
Proof.
  unfold create_writable. eapply careful_bind; [by apply (careful_lift _ _ _ (fun _ => True))|]. intros _ _.
  eapply careful_bind; [apply careful_metadata_len|]. intros len _. eapply careful_bind; [careful_go|]. intros _ _. apply careful_mmap.
Qed.
Lemma careful_create_read_only file off rs : quietly (create_read_only file off rs).
Proof.
  unfold create_read_only. eapply careful_bind; [by apply (careful_lift _ _ _ (fun _ => True))|]. intros _ _.
  eapply careful_weak; [apply careful_mmap|done].
Qed.
Hint Resolve careful_create_writable careful_create_read_only : careful.

Lemma careful_remove_file name : quietly (remove_file name).
Proof. unfold remove_file, entry. careful_go. Qed.
Lemma careful_create_new name : quietly (create_new name).
Proof. unfold create_new, entry. careful_go. Qed.
Hint Resolve careful_remove_file careful_create_new : careful.
Lemma careful_channel_path base n : quietly (make_channel_file_path base n).
Proof. unfold make_channel_file_path, is_dir, entry. careful_go. Qed.
Hint Resolve careful_channel_path : careful.
Lemma careful_attempt_path base n id : quietly (make_attempt_path base n id).
Proof. unfold make_attempt_path. careful_go. Qed.
Lemma careful_install from to : quietly (install_no_replace from to).
Proof. unfold install_no_replace, renameat2_noreplace, hard_link, ignore, entry. careful_go. Qed.
Lemma careful_try_clone file : quietly (try_clone file).
Proof. unfold try_clone. careful_go. Qed.
Lemma careful_delete base doomed : quietly (prefault_delete base doomed).
Proof. unfold prefault_delete, ok, ignore. careful_go. Qed.
Hint Resolve careful_attempt_path careful_install careful_try_clone careful_delete : careful.

Lemma careful_now : quietly now.
Proof. apply careful_consume. intros w. by destruct (o_ticks (w_oracle w)). Qed.

Lemma careful_fresh : quietly InstanceId_fresh.
Proof.
  assert (Hg : forall n, quietly (getrandom n)).
  { intros n. unfold getrandom. eapply careful_bind; [apply careful_syscall|]. intros _ _. apply (careful_bind _ _ _ _ (fun _ => True)).
    - apply careful_consume. intros w. by destruct (o_random (w_oracle w)).
    - intros r _. by apply careful_lift. }
  unfold InstanceId_fresh. eapply careful_bind; [apply careful_ask|]. intros fuel _. apply careful_loop.
  apply (careful_bind _ _ _ _ (fun _ => True)); [|intros; by apply careful_ret].
  unfold fill_random. eapply careful_bind; [apply careful_ask|]. intros n _.
  apply (careful_loop_with _ _ _ _ (fun _ => True)); [|done]. intros v _. unfold fill_step.
  destruct (Nat.ltb _ _); [|by apply careful_ret]. eapply careful_bind; [apply careful_attempt, Hg|].
  intros [bs|e] _; [by apply careful_ret|]. case_bool_decide; [by apply careful_ret|apply careful_throw].
Qed.
Hint Resolve careful_now careful_fresh : careful.

(** The region a prepared segment comes with. *)
Lemma careful_init f sq rs len mtu name base gen id :
  careful size I (init_segment f sq rs len mtu name base gen id) (fun seg => region_size (ps_current_region seg) = rs).
Proof.
  unfold init_segment. apply (careful_bind _ _ _ _ (fun _ => True)); [careful_go|]. intros [u|e] _; [|apply careful_throw].
  eapply careful_bind; [apply careful_create_writable|]. intros region0 _. unfold store_header, store_u64.
  do 3 (eapply careful_bind; [apply careful_store|]; intros _ _). eapply careful_bind; [apply careful_create_writable|].
  intros cur Hcur. cbv zeta. destruct (get_bytes_mut cur _ _); [|apply careful_throw].
  do 2 (eapply careful_bind; [apply careful_store|]; intros _ _). by apply careful_ret.
Qed.

Lemma careful_prepare_at path sq rs roll mtu name base gen id :
  careful size I (prepare_segment_at path sq rs roll mtu name base gen id) (fun seg => region_size (ps_current_region seg) = rs).
Proof.
  unfold prepare_segment_at. apply (careful_bind _ _ _ _ (fun _ => True)); [by apply careful_lift|]. intros len _.
  eapply careful_bind; [apply careful_create_new|]. intros file _. eapply careful_bind; [apply careful_attempt, careful_init|].
  intros [seg|e] Hseg; [by apply careful_ret|]. apply (careful_bind _ _ _ _ (fun _ => True)); [unfold ignore; careful_go|].
  intros _ _. apply careful_throw.
Qed.

End operations.

#[export] Hint Resolve careful_syscall careful_view careful_update careful_store careful_metadata_len careful_set_len
  careful_create_writable careful_create_read_only careful_remove_file careful_create_new careful_channel_path
  careful_attempt_path careful_install careful_try_clone careful_delete careful_now careful_fresh careful_prepare_at : careful.

(** ** The thread *)

(** The thread's place in a region of [size] bytes: at a page, and its estimate within its limits. *)
Record turn_ok (size : Z) `{Env} (t : Turn) : Prop := {
  tu_done : 0 <= u_done_to t <= size;
  tu_page : u_done_to t mod page_size = 0;
  tu_ahead : AHEAD_MIN <= u_ahead t <= AHEAD_MAX
}.

(** The regions the shared state holds are [size] bytes long. *)
Record sizes (size : Z) (p : Shared) : Prop := {
  sz_region : p_region_size p = size;
  sz_current : forall m, p_current_ptr p = Some m -> region_size m = size;
  sz_next : forall n, p_next p = Some n -> region_size (n_region n) = size
}.

Section thread.
Context `{EnvOk} (size : Z).
Hypothesis Hsize : 0 < size <= U32_MAX /\ size mod page_size = 0.
Implicit Types (t : Turn) (p : Shared) (w : world).
#[local] Notation careful := (careful size (sizes size)).
#[local] Notation quietly m := (careful m (fun _ => True)).

Lemma div_ceil_spec x y : 0 < y -> 0 <= x -> x <= div_ceil x y * y < x + y.
Proof.
  intros Hy Hx. unfold div_ceil. pose proof (Z.div_mod x y ltac:(lia)). pose proof (Z.mod_pos_bound x y ltac:(lia)).
  destruct (Z.eqb_spec (x mod y) 0); nia.
Qed.

Lemma clamp_spec x lo hi : lo <= hi -> lo <= clamp x lo hi <= hi.
Proof. intros Hl. unfold clamp. destruct (Z.ltb_spec x lo), (Z.gtb_spec x hi); lia. Qed.

(** The end of what a turn populates: whole pages, at least up to the estimate, inside the region. *)
Definition target_of (off ahead : Z) : Z :=
  Z.min (saturating_mul (div_ceil (u64 (off + ahead)) page_size) page_size) size.

Lemma target_spec off ahead :
  0 <= off < size -> AHEAD_MIN <= ahead <= AHEAD_MAX ->
  Z.min (off + ahead) size <= target_of off ahead <= size /\ target_of off ahead mod page_size = 0.
Proof.
  intros Hoff Ha. set (target := target_of off ahead). destruct Hsize as [Hs1 Hs2]. pose proof page_size_pos as Hp.
  change AHEAD_MIN with 65536 in Ha. change AHEAD_MAX with 1048576 in Ha. unfold U32_MAX in Hs1.
  assert (Hu : u64 (off + ahead) = off + ahead) by (apply wrap_small; lia). unfold target, target_of. rewrite Hu.
  assert (Hd : off + ahead <= div_ceil (off + ahead) page_size * page_size < off + ahead + page_size)
    by (apply div_ceil_spec; lia).
  set (c := div_ceil (off + ahead) page_size) in *. unfold saturating_mul.
  assert (Hmin : Z.min (Z.min U64_MAX (c * page_size)) size = Z.min (c * page_size) size) by (unfold U64_MAX; lia).
  rewrite Hmin. split; [lia|]. destruct (Z.min_spec (c * page_size) size) as [[_ ->]|[_ ->]]; [by apply Z.mod_mul; lia|done].
Qed.

(** The page of an offset. *)
Definition page_of (off : Z) : Z := off / page_size * page_size.

Lemma page_of_spec off : 0 <= off -> 0 <= page_of off <= off /\ page_of off mod page_size = 0.
Proof.
  intros Hoff. pose proof page_size_pos. unfold page_of. split; [|apply Z.mod_mul; lia].
  assert (off = page_size * (off / page_size) + off mod page_size) by (apply Z.div_mod; lia).
  assert (0 <= off mod page_size < page_size) by (apply Z.mod_pos_bound; lia).
  assert (0 <= off / page_size) by (apply Z.div_pos; lia). nia.
Qed.

(** Where a turn begins to populate. *)
Definition from_of t (sequence index off : Z) : Z :=
  if bool_decide (u_done_at t = (sequence, index)) then u_done_to t else page_of off.

Lemma from_spec t sequence index off :
  turn_ok size t -> 0 <= off < size -> 0 <= from_of t sequence index off <= size /\ from_of t sequence index off mod page_size = 0.
Proof.
  intros [T1 T2 T3] Hoff. unfold from_of. case_bool_decide; [done|]. destruct (page_of_spec off) as [? ?]; [lia|]. split; [lia|done].
Qed.

(** The thread's variables once it has populated up to [v]. *)
Definition at_place t sequence index v : Turn :=
  MkTurn (sequence, index) v (u_next_head_done t) (u_header t) (u_since t) (u_since_at t) (u_ahead t).

Lemma populate_current_eq t sequence index off base p w :
  p_region_size p = size ->
  populate_current t sequence index off base p w =
    match base with
    | Some m =>
        if from_of t sequence index off <? target_of off (u_ahead t) then
          (populate_writers m (from_of t sequence index off) (target_of off (u_ahead t) - from_of t sequence index off) ;;
           ret (at_place t sequence index (target_of off (u_ahead t)))) p w
        else ret (at_place t sequence index (from_of t sequence index off)) p w
    | None => ret (at_place t sequence index (from_of t sequence index off)) p w
    end.
Proof.
  intros Hp. unfold populate_current. rewrite (reads_bind _ _ _ _ p) by apply reads_self. rewrite Hp. cbv zeta.
  unfold from_of, target_of. destruct (decide (u_done_at t = (sequence, index))) as [E|E].
  - rewrite !(bool_decide_eq_true_2 (u_done_at t = _)), bool_decide_eq_false_2 by (done || by intros Hx; apply Hx). unfold at_place. rewrite <- E.
    destruct base; [|done]. by destruct (_ <? _).
  - rewrite !(bool_decide_eq_false_2 (u_done_at t = _)), bool_decide_eq_true_2 by (done || by apply not_eq_sym).
    destruct base; [|done]. by destruct (_ <? _).
Qed.

Lemma careful_populate_writers m off len : range_ok size m off len -> quietly (populate_writers m off len).
Proof.
  intros Hr. unfold populate_writers. eapply careful_bind; [by apply careful_attempt, careful_populate|].
  intros [u|e] _; [by apply careful_ret|]. destruct (_ || _); [by apply careful_ret|apply careful_throw].
Qed.

Lemma careful_current t sequence index off base :
  turn_ok size t -> 0 <= off < size -> (forall m, base = Some m -> region_size m = size) ->
  careful (populate_current t sequence index off base) (fun t' => turn_ok size t' /\ u_ahead t' = u_ahead t /\ u_header t' = u_header t).
Proof.
  intros Ht Hoff Hm p w Hp. rewrite populate_current_eq by apply Hp.
  destruct (target_spec off (u_ahead t) Hoff (tu_ahead _ _ Ht)) as [Ht1 Ht2].
  destruct (from_spec t sequence index off Ht Hoff) as [Hf1 Hf2].
  set (from := from_of t sequence index off) in *. set (target := target_of off (u_ahead t)) in *.
  assert (Hat : forall v, 0 <= v <= size -> v mod page_size = 0 -> turn_ok size (at_place t sequence index v)).
  { intros v ??. by constructor; [..|apply Ht]. }
  assert (Hret : forall v, 0 <= v <= size -> v mod page_size = 0 ->
    careful (ret (at_place t sequence index v)) (fun t' => turn_ok size t' /\ u_ahead t' = u_ahead t /\ u_header t' = u_header t)).
  { intros v ??. apply careful_ret. auto. }
  destruct base as [m|]; [|by apply Hret]. destruct (Z.ltb_spec from target); [|by apply Hret].
  revert p w Hp. eapply careful_bind; [apply careful_populate_writers|intros _ _; apply Hret; [lia|done]].
  split_and!; [by apply Hm|done|lia..].
Qed.

Lemma careful_next_head t sequence index off :
  turn_ok size t -> careful (populate_next_head t sequence index off) (fun t' => turn_ok size t' /\ u_ahead t' = u_ahead t /\ u_header t' = u_header t).
Proof.
  intros Ht. pose proof Ht as [T1 T2 T3]. unfold populate_next_head. eapply careful_bind; [apply careful_self|]. intros p Hp. cbv zeta.
  destruct (_ && _); [|by apply careful_ret]. destruct (p_next p) as [n|] eqn:En; [|by apply careful_ret].
  destruct (_ && _); [|by apply careful_ret]. rewrite (sz_region _ _ Hp). change AHEAD_MIN with 65536 in T3.
  eapply careful_bind; [apply careful_populate_writers|].
  - pose proof page_size_pos. split_and!; [by apply (sz_next _ _ Hp)|apply Z.mod_0_l; lia|lia..].
  - intros _ _. apply careful_ret. by split; [constructor|].
Qed.

Lemma careful_estimate t sequence pos :
  turn_ok size t -> careful (estimate_ahead t sequence pos) (fun t' => turn_ok size t' /\ u_done_at t' = u_done_at t /\
    u_done_to t' = u_done_to t /\ u_header t' = u_header t /\ u_next_head_done t' = u_next_head_done t).
Proof.
  intros [T1 T2 T3]. unfold estimate_ahead. eapply careful_bind; [apply careful_now|]. intros time _. cbv zeta.
  destruct (negb _).
  - eapply careful_bind; [apply careful_now|]. intros time' _. apply careful_ret. by split; [constructor|].
  - destruct (_ >=? _); [|by apply careful_ret]. eapply careful_bind; [apply careful_now|]. intros time' _. apply careful_ret.
    split; [|done]. constructor; cbn; [done|done|by apply clamp_spec].
Qed.
(** *** The rest of a turn *)

Lemma sizes_same p p' :
  p_region_size p' = p_region_size p -> p_current_ptr p' = p_current_ptr p -> p_next p' = p_next p -> sizes size p -> sizes size p'.
Proof. intros E1 E2 E3 [S1 S2 S3]. constructor; rewrite ?E1, ?E2, ?E3; done. Qed.

Lemma careful_set (f : Shared -> Shared) :
  (forall p, p_region_size (f p) = p_region_size p /\ p_current_ptr (f p) = p_current_ptr p /\ p_next (f p) = p_next p) ->
  quietly (modify f).
Proof. intros Hf. apply careful_modify. intros p. destruct (Hf p) as (? & ? & ?). by apply sizes_same. Qed.
#[local] Hint Extern 1 (careful (modify _) _) => apply careful_set; by intros : careful.

Lemma careful_release : quietly release_left.
Proof.
  unfold release_left, ignore. repeat first [eapply careful_bind; [by apply careful_set|intros _ _]
    |eapply careful_bind; [apply careful_self|intros ? _]
    |eapply careful_bind; [apply careful_for_each; intros []; careful_go|intros _ _]]. apply careful_delete.
Qed.

Lemma careful_map_header sequence : quietly (map_header sequence).
Proof. unfold map_header. careful_go. Qed.

Lemma careful_prepare sequence index : quietly (prepare sequence index).
Proof.
  unfold prepare. eapply careful_bind; [apply careful_self|]. intros p Hp. cbv zeta.
  destruct (match p_regions_per_file p with Some n => _ | None => false end); [by apply careful_ret|].
  destruct (match p_next p with Some n => _ | None => false end); [by apply careful_ret|].
  destruct (negb _); [by apply careful_ret|]. apply (careful_bind _ _ _ _ (fun _ => True)).
  { destruct (_ <? _); [|by apply careful_ret]. apply (careful_bind _ _ _ _ (fun _ => True)).
    - eapply careful_weak; [apply careful_attempt, careful_set_len|done].
    - intros [u|e] _; [|by apply careful_ret]. eapply careful_bind; [by apply careful_set|]. intros _ _. by apply careful_ret. }
  intros grown _. destruct (negb grown); [by apply careful_ret|].
  apply (careful_bind _ _ _ _ (fun r => match r with Some m => region_size m = size | None => True end)).
  { unfold ok. eapply careful_bind; [apply careful_attempt, careful_create_writable|]. rewrite (sz_region _ _ Hp).
    intros [m|e] Hm; by apply careful_ret. }
  intros [m|] Hm; [|by apply careful_ret]. apply careful_modify. intros p' [S1 S2 S3]. constructor; [done..|]. by intros n [= <-].
Qed.

Lemma careful_install_ahead spec sequence parent ahead : 0 <= ahead -> quietly (install_ahead spec sequence parent ahead).
Proof.
  intros Ha. unfold install_ahead, ignore. eapply careful_bind; [apply careful_self|]. intros p Hp.
  eapply careful_bind; [apply careful_fresh|]. intros id _. cbv zeta. eapply careful_bind; [apply careful_attempt_path|]. intros path _.
  eapply careful_bind; [apply careful_channel_path|]. intros name _. eapply careful_bind; [apply careful_attempt, careful_prepare_at|].
  intros [seg|e] Hseg; [|careful_go]. rewrite (sz_region _ _ Hp) in *. eapply careful_bind.
  { apply careful_attempt, careful_populate. pose proof page_size_pos. split_and!; [done|apply Z.mod_0_l; lia|lia..]. }
  intros populated _. careful_go.
Qed.

Lemma careful_prepare_segment spec sequence ahead : 0 <= ahead -> quietly (prepare_segment spec sequence ahead).
Proof.
  intros Ha. unfold prepare_segment. pose proof (fun parent => careful_install_ahead spec sequence parent ahead Ha) as Hi.
  eapply careful_bind; [apply careful_self|]. intros p _. destruct (_ =? _); [by apply careful_ret|].
  apply (careful_bind _ _ _ _ (fun _ => True)); [careful_go|]. intros _ _. eapply careful_bind; [apply careful_self|]. intros p1 _.
  destruct (_ || _); [by apply careful_ret|]. destruct (negb _); [by apply careful_ret|]. cbv zeta.
  eapply careful_bind; [by apply careful_set|]. intros _ _. eapply careful_bind; [apply careful_self|]. intros p2 _.
  apply (careful_bind _ _ _ _ (fun _ => True)).
  { eapply careful_weak; [apply (careful_attempt _ _ _ (fun _ => True))|done]. destruct (_ >=? _); [by apply careful_ret|apply Hi]. }
  intros installed _. careful_go.
Qed.

Definition turn_end (r : Turn + unit) : Prop := match r with inl t => turn_ok size t | inr _ => True end.

(** Whatever the turn meets. *)
Lemma careful_turn t : turn_ok size t -> careful (run_turn t) turn_end.
Proof.
  intros Ht. unfold run_turn. eapply careful_bind; [apply careful_release|]. intros _ _.
  eapply careful_bind; [apply careful_self|]. intros p Hp. destruct (p_stop p); [by apply careful_ret|]. cbv zeta.
  apply (careful_bind _ _ _ _ (fun _ => True)).
  { pose proof (careful_map_header (p_current_sequence p)). destruct (match u_header t with Some _ => _ | None => _ end); [|by apply careful_ret].
    eapply careful_bind; [done|]. intros h _. by apply careful_ret. }
  intros header _. destruct Ht as [T1 T2 T3]. set (t1 := MkTurn _ _ _ _ _ _ _). assert (Ht1 : turn_ok size t1) by by constructor.
  clearbody t1. clear T1 T2 T3. destruct header as [[s page0]|]; [|by apply careful_ret].
  eapply careful_bind; [apply careful_view|]. intros pos _. eapply careful_bind; [by apply careful_estimate|]. intros t2 (Ht2 & _).
  eapply careful_bind; [unfold div_guard; by destruct (_ =? 0); [apply careful_die|apply (careful_ret _ _ _ (fun _ => True))]|]. intros _ _.
  rewrite (sz_region _ _ Hp). set (off := if pos / size =? p_current_index p then pos mod size else 0).
  assert (Hoff : 0 <= off < size) by (unfold off; destruct (_ =? _); [apply Z.mod_pos_bound|]; lia).
  eapply careful_bind; [apply careful_current; [done|done|apply Hp]|]. intros t3 (Ht3 & _).
  apply (careful_bind _ _ _ _ (fun _ => True)); [destruct (_ >=? _); [apply careful_prepare|by apply careful_ret]|]. intros _ _.
  eapply careful_bind; [by apply careful_next_head|]. intros t4 (Ht4 & _). pose proof (tu_ahead _ _ Ht4). change AHEAD_MIN with 65536 in *.
  apply (careful_bind _ _ _ _ (fun _ => True)); [|intros _ _; by apply careful_ret].
  destruct (p_spec p); [|by apply careful_ret]. destruct (_ >=? _); [apply careful_prepare_segment; lia|by apply careful_ret].
Qed.

Lemma first_turn_ok time : turn_ok size (first_turn time).
Proof. pose proof page_size_pos. constructor; cbn; [lia|apply Z.mod_0_l; lia|done]. Qed.

Lemma careful_run fuel : quietly (run fuel).
Proof.
  unfold run. eapply careful_bind; [apply careful_now|]. intros time _.
  apply (careful_loop_with _ _ _ _ (turn_ok size)); [apply careful_turn|apply first_turn_ok].
Qed.
(** ** What a turn on a calm world has asked for *)

(** The world once a range has been asked for. *)
Definition asked (m : RegionMapping) (off len : Z) w : world := if SUPPORTED then add_call (KPopulate m off len) w else w.

Lemma populate_run {S} m off len (s : S) w :
  calm w -> exists tr, populate m off len s w = Outcome (Ok tt) s (asked m off len w) tr.
Proof.
  intros Hc. unfold populate, asked, when. destruct SUPPORTED; [|by exists []].
  rewrite (reads_bind _ _ _ _ _ (reads_syscall s w Hc)). by eexists.
Qed.

Lemma populate_writers_run {S} m off len (s : S) w :
  calm w -> exists tr, populate_writers m off len s w = Outcome (Ok tt) s (asked m off len w) tr.
Proof.
  intros Hc. destruct (populate_run m off len s w Hc) as [tr E]. exists (tr ++ []). unfold populate_writers, bind, attempt. by rewrite E.
Qed.

(** The writer's region, from the page the writer is at up to where the thread says it is done. *)
Lemma current_covers t sequence index off m p w :
  calm w -> p_region_size p = size -> turn_ok size t -> 0 <= off < size ->
  exists v w' tr, populate_current t sequence index off (Some m) p w = Outcome (Ok (at_place t sequence index v)) p w' tr /\
    (w' = w \/ exists from len, w' = asked m from len w) /\
    (SUPPORTED = true -> (u_done_at t = (sequence, index) -> covered w m (page_of off) (u_done_to t)) ->
     covered w' m (page_of off) v /\ Z.min (off + u_ahead t) size <= v).
Proof.
  intros Hc Hp Ht Hoff. rewrite populate_current_eq by done.
  destruct (target_spec off (u_ahead t) Hoff (tu_ahead _ _ Ht)) as [Ht1 Ht2].
  assert (Hdone : (u_done_at t = (sequence, index) -> covered w m (page_of off) (u_done_to t)) ->
    covered w m (page_of off) (from_of t sequence index off)).
  { intros Hk. unfold from_of. case_bool_decide; [by apply Hk|]. intros x Hx. lia. }
  destruct (Z.ltb_spec (from_of t sequence index off) (target_of off (u_ahead t))) as [Hlt|Hge].
  - set (from := from_of t sequence index off) in *. set (target := target_of off (u_ahead t)) in *.
    destruct (populate_writers_run m from (target - from) p w Hc) as [tr E].
    exists target, (asked m from (target - from) w), (tr ++ []). split; [unfold bind; by rewrite E|]. split; [right; by eexists _, _|].
    intros Hsup Hk. split; [|lia]. unfold asked. rewrite Hsup. apply (covered_app _ _ _ from).
    + apply (covered_more w _ _ _ _ [KPopulate m from (target - from)]); [done|by apply Hdone].
    + replace target with (from + (target - from)) at 2 by lia. apply covered_call.
  - exists (from_of t sequence index off), w, []. split; [done|]. split; [by left|]. intros _ Hk. split; [by apply Hdone|lia].
Qed.

(** The head of the next region, near the end of the writer's. *)
Lemma next_head_covers t sequence index off p w :
  calm w -> p_region_size p = size ->
  exists t' w' tr, populate_next_head t sequence index off p w = Outcome (Ok t') p w' tr /\
    (w' = w \/ exists m from len, w' = asked m from len w) /\
    u_done_at t' = u_done_at t /\ u_done_to t' = u_done_to t /\ u_header t' = u_header t /\ u_ahead t' = u_ahead t /\
    (u_next_head_done t' = u_next_head_done t \/ u_next_head_done t' = (sequence, index + 1) /\
       exists n, p_next p = Some n /\ (SUPPORTED = true -> covered w' (n_region n) 0 (Z.min (u_ahead t) size))) /\
    (size - off < u_ahead t -> forall n, p_next p = Some n -> n_sequence n = sequence -> n_index n = index + 1 ->
       u_next_head_done t' = (sequence, index + 1)).
Proof.
  intros Hc Hp. unfold populate_next_head. rewrite (reads_bind _ _ _ _ p) by apply reads_self. rewrite Hp. cbv zeta.
  assert (Hret : (size - off < u_ahead t -> forall n, p_next p = Some n -> n_sequence n = sequence -> n_index n = index + 1 ->
      u_next_head_done t = (sequence, index + 1)) ->
    exists t' w' tr, ret t p w = Outcome (Ok t') p w' tr /\
    (w' = w \/ exists m from len, w' = asked m from len w) /\
    u_done_at t' = u_done_at t /\ u_done_to t' = u_done_to t /\ u_header t' = u_header t /\ u_ahead t' = u_ahead t /\
    (u_next_head_done t' = u_next_head_done t \/ u_next_head_done t' = (sequence, index + 1) /\
       exists n, p_next p = Some n /\ (SUPPORTED = true -> covered w' (n_region n) 0 (Z.min (u_ahead t) size))) /\
    (size - off < u_ahead t -> forall n, p_next p = Some n -> n_sequence n = sequence -> n_index n = index + 1 ->
       u_next_head_done t' = (sequence, index + 1))).
  { intros Hno. exists t, w, []. by split_and!; [|left|..|left|]. }
  destruct (Z.ltb_spec (size - off) (u_ahead t)); cbn [andb]; [|apply Hret; lia].
  case_bool_decide as Ed; cbn [negb]; [by apply Hret|].
  destruct (p_next p) as [n|] eqn:En; [|by apply Hret].
  destruct ((n_sequence n =? sequence) && (n_index n =? index + 1)) eqn:Em.
  2: { apply Hret. intros _ n' [= <-] E1 E2. rewrite E1, E2, !Z.eqb_refl in Em. done. }
  destruct (populate_writers_run (n_region n) 0 (Z.min (u_ahead t) size) p w Hc) as [tr E].
  eexists _, (asked (n_region n) 0 (Z.min (u_ahead t) size) w), (tr ++ []). split; [unfold bind; by rewrite E|].
  split; [right; by eexists _, _, _|]. cbn [u_done_at u_done_to u_header u_ahead u_next_head_done]. do 4 (split; [done|]).
  split; [|done]. right. split; [done|]. exists n. split; [done|]. intros Hsup. unfold asked. rewrite Hsup.
  apply (covered_call w (n_region n) 0).
Qed.
End thread.
