(* ===== verification/SegmentFacts.v ===== *)
(** * Walking a segment: the header-only walk finds the chain (src/lib.rs: walk_segment_from) *)

From S2P Require Import Prelude Bytes Effects Region Channel V4 Names Segment Chain RegionFacts.

#[local] Open Scope Z_scope.

(** ** The region of a position *)

Definition region_of (file rs p : Z) : RegionMapping := Mapping file (p / rs * rs) rs.

(** The region of [p] lies inside a file of [len] bytes. *)
Definition in_file (rs len p : Z) : Prop := (p / rs + 1) * rs <= len.

Section region_of.
Context `{EnvOk} {S : Type} (file rs : Z).
Implicit Types (s : S) (w : world) (p : Z).

Definition rs_ok : Prop := 4096 <= rs <= U32_MAX /\ rs mod page_size = 0.

Lemma rs_pos : rs_ok -> 0 < rs < 2 ^ 32.
Proof. unfold rs_ok, U32_MAX. lia. Qed.

Lemma rs_aligned p : rs_ok -> aligned (p / rs * rs) rs.
Proof.
  intros Hrs. pose proof (rs_pos Hrs). split_and!; [lia|apply Hrs|].
  pose proof page_size_pos. destruct Hrs as [_ Hr].
  rewrite Z.mul_mod, Hr, Z.mul_0_r, Z.mod_0_l by lia. done.
Qed.

Lemma region_of_address p : rs_ok -> region_offset (region_of file rs p) + p mod rs = p.
Proof. intros Hrs%rs_pos. cbn. zlia. Qed.

Lemma region_of_eq p q : p / rs = q / rs -> region_of file rs p = region_of file rs q.
Proof. unfold region_of. by intros ->. Qed.

Lemma region_of_backed p off n w :
  rs_ok -> 0 <= off -> off + n <= rs -> in_file rs (len_of w file) p ->
  backed (region_of file rs p) off n w.
Proof. intros ? ? ? Hin. unfold backed, region_of, in_file in *. cbn. nia. Qed.

(** Reading [n] bytes, [k] past [p], through the region of [p]. *)
Lemma reads_view_at {A} p k n (f : bytes -> Z -> A) s w :
  rs_ok -> quiet w -> in_file rs (len_of w file) p -> 0 <= k -> p mod rs + k + n <= rs ->
  reads (view (region_of file rs p) (p mod rs + k) n f) s w (Ok (f (data_of w file) (p + k))).
Proof.
  intros Hrs Hq Hin Hk Hn. pose proof (region_of_address p Hrs) as Ha.
  replace (p + k) with (region_offset (region_of file rs p) + (p mod rs + k)) by lia.
  apply (reads_view (region_of file rs p)); [done|].
  pose proof (rs_pos Hrs). pose proof (Z.mod_pos_bound p rs). apply region_of_backed; [done|lia..|done].
Qed.

Lemma reads_is_committed p s w :
  rs_ok -> quiet w -> in_file rs (len_of w file) p -> p mod rs + 16 <= rs ->
  reads (is_committed (region_of file rs p) (p mod rs)) s w (committed_flag (get 1 (data_of w file) p)).
Proof.
  intros. unfold is_committed, load_u8. rewrite <- (Z.add_0_r (p mod rs)) at 1.
  eapply reads_seq; [apply reads_view_at; first [done|lia]|]. rewrite Z.add_0_r. done.
Qed.

Lemma reads_parsed_header_type p s w :
  rs_ok -> quiet w -> in_file rs (len_of w file) p -> p mod rs + 16 <= rs ->
  reads (parsed_header_type (region_of file rs p) (p mod rs)) s w
    (from_raw (get 1 (data_of w file) (p + 1))).
Proof. intros. eapply reads_seq; [apply reads_view_at; first [done|lia]|]. done. Qed.

Lemma reads_load_length p s w :
  rs_ok -> quiet w -> in_file rs (len_of w file) p -> p mod rs + 16 <= rs ->
  reads (load_length (region_of file rs p) (p mod rs)) s w (Ok (get 4 (data_of w file) (p + 4))).
Proof. intros. unfold load_length, load_u32. apply reads_view_at; first [done|lia]. Qed.

Lemma reads_map_region p s w :
  rs_ok -> calm w -> in_file rs (len_of w file) p -> 0 <= p -> len_of w file < 2 ^ 64 ->
  reads (create_read_only file (u64 (p / rs * rs)) rs) s w (Ok (region_of file rs p)).
Proof.
  intros Hrs Hc Hin Hp Hl. pose proof (rs_pos Hrs). unfold in_file in Hin.
  assert (0 <= p / rs) by (apply Z.div_pos; lia).
  rewrite wrap_small by nia. apply reads_create_read_only; [done|by apply rs_aligned].
Qed.

Lemma in_file_le len p q : rs_ok -> p <= q -> in_file rs len q -> in_file rs len p.
Proof.
  intros Hrs Hpq Hin. pose proof (rs_pos Hrs). unfold in_file in *.
  pose proof (Z.div_le_mono p q rs). nia.
Qed.

End region_of.

(** ** The walk *)

Definition type_of (e : Entry) : HeaderType :=
  match from_raw (header_type (en_head e)) with Ok t => t | _ => Channel end.

(** [stop] is false on every record of [es], [u] users before them. *)
Fixpoint passes (stop : Z -> HeaderType -> Z -> bool) (u : Z) (es : list Entry) : Prop :=
  match es with
  | [] => True
  | e :: es =>
      stop (en_pos e) (type_of e) u = false /\ passes stop (u + (if is_user e then 1 else 0)) es
  end.

Lemma passes_never u es : passes (fun _ _ _ => false) u es.
Proof. revert u. induction es; cbn; auto. Qed.

Section walk.
Context `{EnvOk} {S : Type} (file rs : Z).
Implicit Types (s : S) (w : world).

(** The mapping a walk keeps is of a region of this file. *)
Definition cache_ok (map : option (Z * RegionMapping)) : Prop :=
  match map with Some (idx, m) => m = Mapping file (idx * rs) rs | None => True end.

Definition walk_map (map : option (Z * RegionMapping)) (p : Z) : M S RegionMapping :=
  match map with
  | Some (idx, region) =>
      if idx =? p / rs then ret region
      else create_read_only file (u64 (p / rs * rs)) rs
  | None => create_read_only file (u64 (p / rs * rs)) rs
  end.

Lemma reads_walk_map map p s w :
  rs_ok rs -> calm w -> in_file rs (len_of w file) p -> 0 <= p -> len_of w file < 2 ^ 64 ->
  cache_ok map -> reads (walk_map map p) s w (Ok (region_of file rs p)).
Proof.
  intros Hrs Hc Hin Hp Hl Hm. unfold walk_map. destruct map as [[idx m]|].
  - cbn in Hm. destruct (Z.eqb_spec idx (p / rs)) as [->|]; [by rewrite Hm|].
    by apply reads_map_region.
  - by apply reads_map_region.
Qed.

Lemma entry_type d e : entry_at rs d e -> from_raw (get 1 d (en_pos e + 1)) = Ok (type_of e) /\ type_of e <> Roll.
Proof.
  intros [_ Hh _ Ht _]. unfold type_of.
  replace (get 1 d (en_pos e + 1)) with (header_type (en_head e)) by (by rewrite <- Hh).
  destruct Ht as [Ht|[Ht|Ht]]; by rewrite Ht.
Qed.

Lemma is_user_type d e : entry_at rs d e -> is_user e = bool_decide (type_of e = User).
Proof.
  intros He. pose proof (entry_type d e He) as [Ht _].
  replace (get 1 d (en_pos e + 1)) with (header_type (en_head e)) in Ht
    by (by rewrite <- (ea_head _ _ _ He)).
  apply from_raw_Ok in Ht. unfold is_user. rewrite Ht. by destruct (type_of e).
Qed.

Lemma entry_length d e : entry_at rs d e -> get 4 d (en_pos e + 4) = mh_length (en_head e).
Proof. intros [_ Hh _ _ _]. by rewrite <- Hh. Qed.

Lemma entry_committed d e : entry_at rs d e -> committed_flag (get 1 d (en_pos e)) = Ok true.
Proof.
  intros [_ Hh Hc _ _]. replace (get 1 d (en_pos e)) with (committed (en_head e)) by (by rewrite <- Hh).
  by rewrite Hc.
Qed.

Lemma in_file_small p w :
  rs_ok rs -> in_file rs (len_of w file) p -> 0 <= p -> len_of w file < 2 ^ 64 ->
  (u64 ((p / rs + 1) * rs) >? len_of w file) = false.
Proof.
  intros Hrs Hin Hp Hl. pose proof (rs_pos _ Hrs). unfold in_file in Hin.
  assert (0 <= p / rs) by (apply Z.div_pos; lia).
  rewrite wrap_small by nia. rewrite Z.gtb_ltb. apply Z.ltb_ge. lia.
Qed.

Lemma reads_walk_step map e u stop s w :
  rs_ok rs -> calm w -> len_of w file < 2 ^ 63 -> in_file rs (len_of w file) (en_pos e) ->
  entry_at rs (data_of w file) e -> cache_ok map -> stop (en_pos e) (type_of e) u = false ->
  reads (walk_step file rs (len_of w file) stop (map, en_pos e, u)) s w
    (Ok (inl (Some (en_pos e / rs, region_of file rs (en_pos e)), en_next e,
              u + (if is_user e then 1 else 0)))).
Proof.
  intros Hrs Hc Hl Hin He Hm Hstop. pose proof (ea_pos _ _ _ He). pose proof (ea_fits _ _ _ He) as Hfits.
  pose proof (entry_length_nonneg rs _ e He).
  unfold walk_step. rewrite in_file_small by (done || lia).
  eapply reads_seq; [apply (reads_walk_map map); first [done|lia]|].
  unfold HEADER_SLOT, MESSAGE_HEADER_SIZE in *.
  replace (rs - en_pos e mod rs <? 16) with false by (symmetry; apply Z.ltb_ge; lia).
  eapply reads_seq; [rewrite <- (entry_committed _ e He); apply reads_is_committed; try done; [apply Hc|lia]|].
  cbn [negb].
  eapply reads_seq; [rewrite <- (proj1 (entry_type _ e He)); apply reads_parsed_header_type; try done; [apply Hc|lia]|].
  rewrite Hstop.
  eapply reads_seq; [apply reads_load_length; try done; [apply Hc|lia]|].
  rewrite (entry_length _ e He).
  rewrite bool_decide_eq_false_2 by apply (entry_type _ e He).
  replace (16 + mh_length (en_head e) >? rs - en_pos e mod rs) with false
    by (symmetry; rewrite Z.gtb_ltb; apply Z.ltb_ge; lia).
  unfold reads, ret, en_next, HEADER_SLOT, MESSAGE_HEADER_SIZE. do 3 f_equal.
  rewrite (is_user_type _ e He), Z.add_assoc.
  case_bool_decide; f_equal; lia.
Qed.

(** Over a chain, the walk counts its user records and arrives at its end. *)
Lemma walk_chain stop d p es q n map u s w :
  rs_ok rs -> calm w -> len_of w file < 2 ^ 63 -> data_of w file = d ->
  chain rs d p es q -> in_file rs (len_of w file) q -> cache_ok map -> passes stop u es ->
  exists map', cache_ok map' /\
    loop_with (length es + n) (walk_step file rs (len_of w file) stop) (map, p, u) s w =
    loop_with n (walk_step file rs (len_of w file) stop) (map', q, u + users es) s w.
Proof.
  intros Hrs Hc Hl Hd Hch. revert map u. induction Hch as [p|e es q He Hch IH]; intros map u Hin Hm Hp.
  - exists map. cbn. by rewrite Z.add_0_r.
  - destruct Hp as [Hstop Hp]. subst d.
    pose proof (chain_le rs _ _ _ _ Hch) as Hle.
    pose proof (en_next_bounds rs _ e He) as [Hb _]. pose proof (entry_length_nonneg rs _ e He).
    unfold HEADER_SLOT, MESSAGE_HEADER_SIZE in Hb.
    edestruct (IH (Some (en_pos e / rs, region_of file rs (en_pos e)))) as (map' & Hm' & Heq);
      [done|by cbn|apply Hp|].
    exists map'. split; [done|]. cbn [length Nat.add].
    rewrite (reads_loop_with _ _ _ (Some (en_pos e / rs, region_of file rs (en_pos e)), en_next e,
              u + (if is_user e then 1 else 0))).
    + rewrite Heq, users_cons. replace (u + (if is_user e then 1 else 0) + users es) with (u + ((if is_user e then 1 else 0) + users es)) by lia. done.
    + apply reads_walk_step; try done. eapply in_file_le; [done| |done]. lia.
Qed.

Lemma walk_fuel_enough d p es q len :
  rs_ok rs -> 0 <= p -> chain rs d p es q -> in_file rs len q ->
  exists n, walk_fuel len = (length es + Datatypes.S n)%nat.
Proof.
  intros Hrs Hp Hc Hin. pose proof (rs_pos _ Hrs). apply chain_length in Hc. unfold in_file in Hin.
  assert (q < len).
  { pose proof (Z.div_mod q rs). pose proof (Z.mod_pos_bound q rs). nia. }
  exists (walk_fuel len - length es - 1)%nat. unfold walk_fuel. zlia.
Qed.

(** The walk stops at the slot after the records, if nothing stopped it before. *)
Lemma walk_to_end stop d start es q s w :
  rs_ok rs -> calm w -> len_of w file < 2 ^ 63 -> data_of w file = d -> 0 <= start ->
  chain rs d start es q -> get 1 d q = NOT_COMMITTED -> q mod rs + 16 <= rs ->
  in_file rs (len_of w file) q -> passes stop 0 es ->
  reads (walk_segment_from file rs start stop) s w (Ok (Walked q (users es) Uncommitted)).
Proof.
  intros Hrs Hc Hl Hd Hs Hch Hq Hroom Hin Hp. pose proof (chain_le rs _ _ _ _ Hch).
  eapply reads_seq; [by apply reads_metadata_len|].
  unfold div_guard. replace (rs =? 0) with false by (symmetry; apply Z.eqb_neq; pose proof (rs_pos _ Hrs); lia).
  eapply reads_seq; [apply reads_ret|].
  destruct (walk_fuel_enough d start es q (len_of w file)) as [n ->]; [done..|].
  destruct (walk_chain stop d start es q (Datatypes.S n) None 0 s w) as (map' & Hm & Heq); [done..|].
  unfold reads. rewrite Heq. apply reads_loop_with_end.
  rewrite Z.add_0_l. unfold walk_step. rewrite in_file_small by (done || lia).
  eapply reads_seq; [apply (reads_walk_map map'); first [done|lia]|].
  unfold HEADER_SLOT, MESSAGE_HEADER_SIZE.
  replace (rs - q mod rs <? 16) with false by (symmetry; apply Z.ltb_ge; lia).
  subst d. eapply (reads_seq _ _ _ _ false); [|done].
  replace (Ok false) with (committed_flag (get 1 (data_of w file) q)) by (by rewrite Hq).
  apply reads_is_committed; try done. apply Hc.
Qed.

(** The walk stops at the first record the visitor asks for. *)
Lemma walk_to_visitor stop d start es e es' q s w :
  rs_ok rs -> calm w -> len_of w file < 2 ^ 63 -> data_of w file = d -> 0 <= start ->
  chain rs d start (es ++ e :: es') q -> in_file rs (len_of w file) q -> passes stop 0 es ->
  stop (en_pos e) (type_of e) (users es) = true ->
  reads (walk_segment_from file rs start stop) s w (Ok (Walked (en_pos e) (users es) Visitor)).
Proof.
  intros Hrs Hc Hl Hd Hs Hch Hin Hp Hstop.
  destruct (chain_app_inv _ _ _ _ _ _ Hch) as (m & Hch1 & Hch2). inversion Hch2 as [|e0 es0 q0 He Hch3 E]; subst.
  pose proof (chain_le rs _ _ _ _ Hch1). pose proof (chain_le rs _ _ _ _ Hch2).
  assert (Hin1 : in_file rs (len_of w file) (en_pos e)) by (by eapply in_file_le).
  pose proof (ea_fits _ _ _ He) as Hfits. pose proof (entry_length_nonneg rs _ e He).
  eapply reads_seq; [by apply reads_metadata_len|].
  unfold div_guard. replace (rs =? 0) with false by (symmetry; apply Z.eqb_neq; pose proof (rs_pos _ Hrs); lia).
  eapply reads_seq; [apply reads_ret|].
  destruct (walk_fuel_enough _ start es (en_pos e) (len_of w file) Hrs Hs Hch1 Hin1) as [n ->].
  destruct (walk_chain stop _ start es (en_pos e) (Datatypes.S n) None 0 s w Hrs Hc Hl eq_refl Hch1 Hin1 I Hp) as (map' & Hm & Heq).
  unfold reads. rewrite Heq. apply reads_loop_with_end.
  rewrite Z.add_0_l. unfold walk_step. rewrite in_file_small by (done || lia).
  eapply reads_seq; [apply (reads_walk_map map'); first [done|lia]|].
  unfold HEADER_SLOT, MESSAGE_HEADER_SIZE in *.
  replace (rs - en_pos e mod rs <? 16) with false by (symmetry; apply Z.ltb_ge; lia).
  eapply reads_seq; [rewrite <- (entry_committed _ e He); apply reads_is_committed; try done; [apply Hc|lia]|].
  cbn [negb].
  eapply reads_seq; [rewrite <- (proj1 (entry_type _ e He)); apply reads_parsed_header_type; try done; [apply Hc|lia]|].
  rewrite Hstop. apply reads_ret.
Qed.

(** Looking for the record after [k] user records: either the walk stops there, or there are just
    [k] and it passes them all. *)
Definition at_user (k : Z) : Z -> HeaderType -> Z -> bool := fun _ t u => bool_decide (t = User) && (u =? k).

Lemma split_users d p es q u k :
  chain rs d p es q -> u <= k <= u + users es ->
  (exists es1 e es2, es = es1 ++ e :: es2 /\ is_user e = true /\ u + users es1 = k /\
     passes (at_user k) u es1 /\ type_of e = User) \/
  (k = u + users es /\ passes (at_user k) u es).
Proof.
  intros Hch. revert u. induction Hch as [p|e es q He Hch IH]; intros u Hk.
  { right. change (users []) with 0 in *. split; [lia|done]. }
  pose proof (is_user_type _ e He) as Ht. rewrite users_cons in Hk. pose proof (users_nonneg es).
  destruct (is_user e) eqn:Hu.
  - symmetry in Ht. apply bool_decide_eq_true in Ht. destruct (Z.eq_dec u k) as [->|Hne].
    + left. exists [], e, es. split_and!; [done|done|change (users []) with 0; lia|done|done].
    + assert (Hpass : at_user k (en_pos e) (type_of e) u = false).
      { unfold at_user. apply andb_false_iff. right. by apply Z.eqb_neq. }
      destruct (IH (u + 1)) as [(es1 & e' & es2 & -> & K1 & K2 & K3 & K4)|[K1 K2]]; [lia|left|right].
      * exists (e :: es1), e', es2. rewrite users_cons, Hu. split_and!; [done|done|lia| |done].
        cbn [passes]. rewrite Hu. done.
      * rewrite users_cons, Hu. split; [lia|]. cbn [passes]. by rewrite Hu.
  - assert (Hpass : at_user k (en_pos e) (type_of e) u = false).
    { unfold at_user. by rewrite <- Ht. }
    destruct (IH u) as [(es1 & e' & es2 & -> & K1 & K2 & K3 & K4)|[K1 K2]]; [lia|left|right].
    + exists (e :: es1), e', es2. rewrite users_cons, Hu. split_and!; [done|done|lia| |done].
      cbn [passes]. rewrite Hu, Z.add_0_r. done.
    + rewrite users_cons, Hu. split; [lia|]. cbn [passes]. by rewrite Hu, Z.add_0_r.
Qed.

End walk.
