(* ===== verification/WriterInv.v ===== *)
(** * The writer's invariant, and rules for its stores

    What a segment's bytes and a [Writer] look like between two calls, the states a commit passes
    through, and rules for stores through the writer's two mappings. *)

From S2P Require Import Prelude Bytes Effects Region Channel V4 Names Segment Helper Prefault Writer Chain RegionFacts SegmentFacts.

#[local] Open Scope Z_scope.

(** ** Invariants *)

(** The record every segment begins with. *)
Definition channel_record : MessageHeader := Header COMMITTED (HeaderType_u8 Channel) 0 CHANNEL_PAYLOAD_V4 0.

(** A segment at rest: its records, a slot after them that is not committed, with room for a [Roll],
    and the advisory pair that says so. *)
Record segment_ok (rs : Z) (d : bytes) (es : list Entry) (q : Z) : Prop := {
  sg_channel : message_header d 0 = channel_record;
  sg_chain : chain rs d FIRST_RECORD es q;
  sg_slot : get 1 d q = NOT_COMMITTED;
  sg_position : get 8 d OFF_write_position = q + HEADER_SLOT;
  sg_count : get 8 d OFF_message_count = users es;
  sg_aligned : q mod 8 = 0;
  sg_room : q mod rs + ROLL_TOTAL <= rs
}.

(** A writer between two calls, without a helper, its current segment holding the records [es]. *)
Record writer_ok `{Env} (w : Writer) (wd : world) (es : list Entry) : Prop := {
  wk_rs : rs_ok (w_region_size w);
  wk_prefault : w_prefault w = None;
  wk_deferred : w_deferred_prune w = [];
  wk_channel : w_channel_region w = Mapping (w_file w) 0 (w_region_size w);
  wk_current : w_current_region w = region_of (w_file w) (w_region_size w) (w_next_hdr_pos w);
  wk_index : w_current_region_index w = w_next_hdr_pos w / w_region_size w;
  wk_file_len : w_file_len w = len_of wd (w_file w);
  wk_in_file : in_file (w_region_size w) (len_of wd (w_file w)) (w_next_hdr_pos w);
  wk_len : len_of wd (w_file w) <= I64_MAX;
  wk_roll : w_file_roll_size w = 0 \/
            2 * w_region_size w <= w_file_roll_size w <= len_of wd (w_file w);
  wk_segment : segment_ok (w_region_size w) (data_of wd (w_file w)) es (w_next_hdr_pos w)
}.

(** A reservation of [n] bytes is pending: the slot after the longest record it allows is laid, and
    leaves room for a [Roll]. *)
Record reserved (w : Writer) (wd : world) (n : Z) : Prop := {
  rv_pending : w_pending_msg_size w = Some n;
  rv_size : 0 <= n < 2 ^ 32;
  rv_fits : w_next_hdr_pos w mod w_region_size w + align_up (HEADER_SLOT + n) + ROLL_TOTAL
              <= w_region_size w;
  rv_slot : message_header (data_of wd (w_file w)) (w_next_hdr_pos w + align_up (HEADER_SLOT + n))
              = preinstalled
}.

(** The absolute index of the next record: base of the current file and user records in it. *)
Definition next_index (w : Writer) (wd : world) (es : list Entry) : Z :=
  get 8 (data_of wd (w_file w)) OFF_base_record_index + users es.

(** What a writer keeps from one region to the next. *)
Record same_channel (w w' : Writer) : Prop := {
  sc_base_path : w_base_path w' = w_base_path w;
  sc_sequence : w_file_sequence w' = w_file_sequence w;
  sc_instance : w_instance w' = w_instance w;
  sc_file : w_file w' = w_file w;
  sc_region_size : w_region_size w' = w_region_size w;
  sc_roll_size : w_file_roll_size w' = w_file_roll_size w;
  sc_mtu : w_mtu w' = w_mtu w;
  sc_keep_files : w_keep_files w' = w_keep_files w;
  sc_name : w_channel_name w' = w_channel_name w;
  sc_wake : w_wake w' = w_wake w
}.

(** The states of the segment while [e] is appended to [es] at [en_pos e]: before the header's
    commit readers find [es] and the old advisory pair; after it they find [es ++ [e]] and a
    pre-installed slot behind it, and the count moves before the position. *)
Definition appending (rs : Z) (d : bytes) (es : list Entry) (e : Entry) : Prop :=
  let q := en_pos e in
  let count := get 8 d OFF_message_count in
  let position := get 8 d OFF_write_position in
  let bump := if is_user e then 1 else 0 in
  message_header d 0 = channel_record /\
  ((sees rs d es q /\ position = q + HEADER_SLOT /\ count = users es) \/
  (sees rs d (es ++ [e]) (en_next e) /\ message_header d (en_next e) = preinstalled /\
   ((position = q + HEADER_SLOT /\ (count = users es \/ count = users es + bump)) \/
    (position = en_next e + HEADER_SLOT /\ count = users es + bump)))).

(** ** The header of a published segment *)

(** The header a writer resumes at and a reader accepts. *)
Record resumable `{Env} (d : bytes) (rs seq : Z) (i : Identity) : Prop := {
  rm_channel : message_header d 0 = channel_record;
  rm_header : validate_channel_header (channel_header_at d 0) rs seq = Ok tt;
  rm_ext : ext_identity (ext_at d EXT_FILE_OFFSET) = Ok i;
  rm_state : get 1 d OFF_publication_state = PUBLISHED
}.

(** ** Facts about the slot *)

Lemma align_slot x : 0 <= x < 2 ^ 63 -> x mod 8 = 0 -> align_up x = x.
Proof. intros. apply align_up_id; lia. Qed.

Lemma preinstalled_ok : header_ok preinstalled.
Proof. unfold header_ok. cbn. lia. Qed.

Lemma get_committed d a : get 1 d a = committed (message_header d a).
Proof. done. Qed.

Lemma chain_start_le rs d es q : chain rs d FIRST_RECORD es q -> 208 <= q.
Proof. intros Hc%chain_le. done. Qed.

(** [d'] differs from [d] only at and after the slot [q], which is still not committed. *)
Definition untouched (q : Z) (d d' : bytes) : Prop := same 0 q d d' /\ get 1 d' q = NOT_COMMITTED.

Lemma untouched_wr q d d' a bs :
  untouched q d d' -> q + 1 <= a -> untouched q d (wr d' a bs).
Proof.
  intros [Hs Hc] Ha. split.
  - eapply same_trans; [done|]. apply same_wr. lia.
  - rewrite get_wr_out by lia. done.
Qed.

Lemma untouched_slot q d d' : untouched q d d' -> untouched q d (put 1 d' q NOT_COMMITTED).
Proof.
  intros [Hs Hc]. split.
  - eapply same_trans; [done|]. apply same_put. lia.
  - by rewrite get_put_eq.
Qed.

Lemma untouched_appending rs d d' es e :
  segment_ok rs d es (en_pos e) -> untouched (en_pos e) d d' -> appending rs d' es e.
Proof.
  intros [Hh Hch _ Hp Hn _ _] [Hs Hc]. pose proof (chain_start_le _ _ _ _ Hch). split.
  { rewrite <- Hh. symmetry. apply message_header_same. eapply same_sub; [exact Hs|lia..]. }
  left.
  assert (Ho : forall n a, 0 <= a -> a + Z.of_nat n <= en_pos e -> get n d' a = get n d a).
  { intros n a ??. symmetry. apply get_same. eapply same_sub; [done|lia..]. }
  rewrite !Ho by (unfold OFF_write_position, OFF_message_count, MESSAGE_HEADER_SIZE; lia).
  split; [|done]. split; [|done]. eapply chain_same; [|done]. eapply same_sub; [done|done|lia].
Qed.

(** ** Worlds that differ in the bytes of one file *)

Record frame (f : Z) (w w' : world) : Prop := {
  fr_dir : w_dir w' = w_dir w;
  fr_next : w_next w' = w_next w;
  fr_oracle : w_oracle w' = w_oracle w;
  fr_others : forall i, i <> f -> inode_of w' i = inode_of w i;
  fr_len : len_of w' f = len_of w f
}.

Lemma frame_refl f w : frame f w w.
Proof. by constructor. Qed.

Lemma frame_trans f w1 w2 w3 : frame f w1 w2 -> frame f w2 w3 -> frame f w1 w3.
Proof.
  intros [? ? ? Ho ?] [? ? ? Ho' ?]. constructor; try congruence.
  intros i Hi. rewrite Ho' by done. auto.
Qed.

Lemma frame_write f w w' a bs : frame f w w' -> frame f w (write_inode f a bs w').
Proof.
  intros. eapply frame_trans; [done|]. constructor; try done; [|by rewrite len_of_write].
  intros i Hi. by rewrite inode_of_write_ne.
Qed.

Lemma frame_quiet f w w' : frame f w w' -> quiet w -> quiet w'.
Proof. unfold quiet. intros [_ _ -> _ _]. done. Qed.

Lemma frame_calm f w w' : frame f w w' -> calm w -> calm w'.
Proof. unfold calm, quiet, healthy. intros [_ _ -> _ _]. done. Qed.

Lemma frame_data f w w' i : frame f w w' -> i <> f -> data_of w' i = data_of w i /\ len_of w' i = len_of w i.
Proof. intros [_ _ _ Ho _] Hi. unfold data_of, len_of. by rewrite Ho. Qed.

(** The same, but the file may also have grown. *)
Record grows (f : Z) (w w' : world) : Prop := {
  gr_dir : w_dir w' = w_dir w;
  gr_next : w_next w' = w_next w;
  gr_oracle : w_oracle w' = w_oracle w;
  gr_others : forall i, i <> f -> inode_of w' i = inode_of w i;
  gr_len : len_of w f <= len_of w' f
}.

Lemma frame_grows f w w' : frame f w w' -> grows f w w'.
Proof. intros [? ? ? ? Hl]. constructor; try done. by rewrite Hl. Qed.

Lemma grows_trans f w1 w2 w3 : grows f w1 w2 -> grows f w2 w3 -> grows f w1 w3.
Proof.
  intros [? ? ? Ho ?] [? ? ? Ho' ?]. constructor; try congruence; [|lia].
  intros i Hi. rewrite Ho' by done. auto.
Qed.

Lemma grows_resize f w len : len_of w f <= len -> grows f w (resize_inode f len w).
Proof.
  intros. constructor; try done; [|by rewrite len_of_resize_eq].
  intros i Hi. by rewrite inode_of_resize_ne.
Qed.

Lemma grows_calm f w w' : grows f w w' -> calm w -> calm w'.
Proof. unfold calm, quiet, healthy. intros [_ _ -> _ _]. done. Qed.

#[export] Hint Resolve frame_grows grows_calm : xch.
#[export] Hint Resolve frame_refl frame_write frame_quiet frame_calm : xch.

(** A header that is not committed, written over the slot. *)
Lemma untouched_header q d d' h :
  untouched q d d' -> committed h = NOT_COMMITTED ->
  untouched q d (wr d' q (message_header_bytes h)).
Proof.
  intros [Hs Hc] Hh. split.
  - eapply same_trans; [done|]. apply same_wr. lia.
  - apply (get_wr_field 1 _ _ _ _ [] (le_bytes 1 (header_type h) ++ le_bytes 2 (message_type h) ++
      le_bytes 4 (mh_length h) ++ le_bytes 8 (user_meta_u64 h))); [|by rewrite Z.add_0_r|done].
    unfold message_header_bytes. by rewrite Hh.
Qed.

(** ** The states an interrupted append can leave *)

(** The bytes of the header that appending a record leaves alone: all but the advisory pair and the
    wake word. *)
Definition kept_head (d d' : bytes) : Prop :=
  same 0 16 d d' /\ same 32 OFF_wake_word d d' /\ same (OFF_wake_word + 4) FIRST_RECORD d d'.

Lemma kept_head_trans d1 d2 d3 : kept_head d1 d2 -> kept_head d2 d3 -> kept_head d1 d3.
Proof. intros (? & ? & ?) (? & ? & ?). split_and!; by eapply same_trans. Qed.

Lemma kept_head_below q d d' : same 0 q d d' -> 208 <= q -> kept_head d d'.
Proof. intros Hs Hq. split_and!; (eapply same_sub; [exact Hs|done|by apply (Z.le_trans _ 208)]). Qed.

Lemma kept_head_refl d : kept_head d d.
Proof. by split_and!. Qed.

Lemma kept_head_put n d d' a v :
  (16 <= a /\ a + Z.of_nat n <= 32) \/ (OFF_wake_word <= a /\ a + Z.of_nat n <= OFF_wake_word + 4) ->
  kept_head d d' -> kept_head d (put n d' a v).
Proof.
  intros Ha Hd. apply (kept_head_trans _ d'); [done|].
  change OFF_wake_word with 116 in *. change FIRST_RECORD with 208.
  split_and!; apply same_put; change OFF_wake_word with 116; lia.
Qed.

(** The records before [e] and its payload are left alone. *)
Definition kept_records (e : Entry) (d d' : bytes) : Prop :=
  same FIRST_RECORD (en_pos e) d d' /\ same (en_pos e + 16) (en_pos e + 16 + mh_length (en_head e)) d d'.

Lemma kept_records_trans e d1 d2 d3 : kept_records e d1 d2 -> kept_records e d2 d3 -> kept_records e d1 d3.
Proof. intros [??] [??]. split; by eapply same_trans. Qed.

Lemma kept_records_below e n d d' :
  same FIRST_RECORD n d d' -> 208 <= en_pos e -> 0 <= mh_length (en_head e) ->
  en_pos e + 16 + mh_length (en_head e) <= n -> kept_records e d d'.
Proof.
  intros Hs ???. change FIRST_RECORD with 208 in *. split; (eapply same_sub; [exact Hs|change FIRST_RECORD with 208; lia..]).
Qed.

(** [wd'] is a world in the middle of appending [e] to the segment [f], begun in [wd]. *)
Record interrupted (f rs : Z) (es : list Entry) (e : Entry) (wd wd' : world) : Prop := {
  it_appending : appending rs (data_of wd' f) es e;
  it_head : kept_head (data_of wd f) (data_of wd' f);
  it_grows : grows f wd wd';
  it_records : kept_records e (data_of wd f) (data_of wd' f);
  it_len : len_of wd' f <= I64_MAX;
  it_next : get 1 (data_of wd' f) (en_pos e) = NOT_COMMITTED \/ in_file rs (len_of wd' f) (en_next e)
}.

Lemma untouched_interrupted f rs es e wd wd' :
  segment_ok rs (data_of wd f) es (en_pos e) -> grows f wd wd' -> len_of wd' f <= I64_MAX ->
  untouched (en_pos e) (data_of wd f) (data_of wd' f) ->
  same (en_pos e + 16) (en_pos e + 16 + mh_length (en_head e)) (data_of wd f) (data_of wd' f) ->
  interrupted f rs es e wd wd'.
Proof.
  intros Hs Hg Hlen Hu Hpay. pose proof (chain_start_le _ _ _ _ (sg_chain _ _ _ _ Hs)).
  constructor; [| |done| |done|].
  - by eapply untouched_appending.
  - by apply (kept_head_below (en_pos e)); [apply Hu|].
  - split; [|done]. eapply same_sub; [apply Hu|done|reflexivity].
  - left. apply Hu.
Qed.

(** ** Rules for the writer's stores *)

Section rules.
Context `{EnvOk} {S : Type}.
Implicit Types (s : S) (w : world) (C : world -> Prop).

Lemma get_bytes_mut_Some m off n :
  0 <= off -> 0 <= n -> off + n <= region_size m -> region_size m < 2 ^ 32 ->
  get_bytes_mut m off n = Some (Slice m off n).
Proof.
  intros. unfold get_bytes_mut, checked_add, U64_MAX. decide_if.
  replace (off + n >? region_size m) with false by (symmetry; rewrite Z.gtb_ltb; apply Z.ltb_ge; lia).
  done.
Qed.

Lemma wp_store_rec file rs p k bs s w (Q : res unit -> S -> world -> Prop) C :
  rs_ok rs -> quiet w -> in_file rs (len_of w file) p -> 0 <= k ->
  p mod rs + k + Z.of_nat (length bs) <= rs ->
  let w' := write_inode file (p + k) bs w in
  C w' -> Q (Ok tt) s w' -> wp (store (region_of file rs p) (p mod rs + k) bs) s w Q C.
Proof.
  intros Hrs Hq Hin Hk Hn w' HC HQ. pose proof (region_of_address file rs p Hrs) as Ha.
  pose proof (rs_pos _ Hrs). pose proof (Z.mod_pos_bound p rs).
  apply wp_store; [done|by apply region_of_backed; first [done|lia]|..];
    replace (region_offset (region_of file rs p) + (p mod rs + k)) with (p + k) by lia; done.
Qed.

Lemma wp_store_rec0 file rs p bs s w (Q : res unit -> S -> world -> Prop) C :
  rs_ok rs -> quiet w -> in_file rs (len_of w file) p -> p mod rs + Z.of_nat (length bs) <= rs ->
  let w' := write_inode file p bs w in
  C w' -> Q (Ok tt) s w' -> wp (store (region_of file rs p) (p mod rs) bs) s w Q C.
Proof.
  intros. rewrite <- (Z.add_0_r (p mod rs)). apply wp_store_rec; [done..|lia|lia| |];
    rewrite Z.add_0_r; done.
Qed.

Lemma head_backed file rs off n w :
  rs_ok rs -> rs <= len_of w file -> 0 <= off -> off + n <= 4096 -> backed (Mapping file 0 rs) off n w.
Proof. intros [? _] ? ? ?. unfold backed. cbn. lia. Qed.

Lemma wp_store_head file rs off bs s w (Q : res unit -> S -> world -> Prop) C :
  rs_ok rs -> quiet w -> rs <= len_of w file -> 0 <= off -> off + Z.of_nat (length bs) <= 4096 ->
  let w' := write_inode file off bs w in
  C w' -> Q (Ok tt) s w' -> wp (store (Mapping file 0 rs) off bs) s w Q C.
Proof. intros Hrs Hq Hl Ho Hn w' HC HQ. apply wp_store; [done|by apply head_backed|done|done]. Qed.

Lemma wp_update_head file rs off n f s w (Q : res Z -> S -> world -> Prop) C :
  rs_ok rs -> quiet w -> rs <= len_of w file -> 0 <= off -> off + Z.of_nat n <= 4096 ->
  let old := get n (data_of w file) off in
  let w' := write_inode file off (f old) w in
  C w' -> Q (Ok old) s w' -> wp (update (Mapping file 0 rs) off n f) s w Q C.
Proof. intros Hrs Hq Hl Ho Hn old w' HC HQ. apply wp_update; [done|by apply head_backed|done|done]. Qed.

Lemma reads_head {A} file rs off n (f : bytes -> Z -> A) s w :
  rs_ok rs -> quiet w -> rs <= len_of w file -> 0 <= off -> off + n <= 4096 ->
  reads (view (Mapping file 0 rs) off n f) s w (Ok (f (data_of w file) off)).
Proof. intros. apply (reads_view (Mapping file 0 rs)); [done|by apply head_backed]. Qed.

End rules.

Section writer_facts.
Context `{EnvOk}.

(** Growing the writer's file, without a helper. *)
Lemma ensure_len_spec w wd want (Q : res unit -> Writer -> world -> Prop) C :
  calm wd -> w_prefault w = None -> w_file_len w = len_of wd (w_file w) -> want <= I64_MAX ->
  (forall w' wd', w' = set_w_file_len (Z.max (w_file_len w) want) w -> grows (w_file w) wd wd' ->
     (forall i, data_of wd' i = data_of wd i) ->
     len_of wd' (w_file w) = Z.max (w_file_len w) want -> C wd' /\ Q (Ok tt) w' wd') ->
  wp (ensure_len want) w wd Q C.
Proof.
  intros Hc Hp Hl Hw HQ. unfold ensure_len. apply wp_bind, wp_self. rewrite Hp.
  destruct (Z.gtb_spec want (w_file_len w)).
  - destruct (HQ (set_w_file_len want w) (resize_inode (w_file w) want wd)) as [HC HQ'].
    + by rewrite Z.max_r by lia.
    + apply grows_resize. lia.
    + intros i. apply data_of_grow. lia.
    + rewrite len_of_resize_eq. lia.
    + apply wp_bind, wp_set_len; [done|done|done|]. by apply wp_modify.
  - destruct (HQ w wd) as [HC HQ']; [|done|done|lia|by apply wp_ret].
    rewrite Z.max_l by lia. by destruct w.
Qed.

Lemma writer_ok_same w wd wd' es :
  writer_ok w wd es -> inode_of wd' (w_file w) = inode_of wd (w_file w) -> writer_ok w wd' es.
Proof.
  intros Hw Hi. constructor; try apply Hw; unfold len_of, data_of; rewrite Hi; apply Hw.
Qed.

Lemma writer_ok_rs_len w wd es : writer_ok w wd es -> w_region_size w <= len_of wd (w_file w).
Proof.
  intros Hw. pose proof (rs_pos _ (wk_rs _ _ _ Hw)). pose proof (wk_in_file _ _ _ Hw) as Hin.
  unfold in_file in Hin. pose proof (chain_start_le _ _ _ _ (sg_chain _ _ _ _ (wk_segment _ _ _ Hw))).
  assert (0 <= w_next_hdr_pos w / w_region_size w) by (apply Z.div_pos; lia). nia.
Qed.

Lemma writer_ok_next w wd es : writer_ok w wd es -> 208 <= w_next_hdr_pos w < 2 ^ 63 - 16.
Proof.
  intros Hw. pose proof (rs_pos _ (wk_rs _ _ _ Hw)). pose proof (wk_in_file _ _ _ Hw) as Hin.
  pose proof (chain_start_le _ _ _ _ (sg_chain _ _ _ _ (wk_segment _ _ _ Hw))).
  pose proof (sg_room _ _ _ _ (wk_segment _ _ _ Hw)). pose proof (wk_len _ _ _ Hw).
  unfold in_file, I64_MAX, ROLL_TOTAL, ROLL_TOTAL_V4 in *.
  pose proof (Z.div_mod (w_next_hdr_pos w) (w_region_size w)). nia.
Qed.

End writer_facts.

(** Positions in one region. *)
Lemma same_region rs p k : 0 < rs -> 0 <= k -> p mod rs + k < rs -> (p + k) / rs = p / rs /\ (p + k) mod rs = p mod rs + k.
Proof.
  intros Hr Hk Hlt. pose proof (Z.div_mod p rs). pose proof (Z.mod_pos_bound p rs).
  assert ((p + k) / rs = p / rs) as Hd.
  { symmetry. apply Z.div_unique with (p mod rs + k); [left; lia|lia]. }
  split; [done|]. pose proof (Z.div_mod (p + k) rs). nia.
Qed.
