(* ===== verification/CommitFacts.v ===== *)
(** * Committing a record (src/lib.rs: Writer::commit, publish_wp) *)

From S2P Require Import Prelude Bytes Effects Region Channel V4 Names Segment Helper Prefault Writer Chain RegionFacts SegmentFacts WriterInv.

#[local] Open Scope Z_scope.

(** ** The bytes *)

(** The five stores that fill the header at [q], and the re-laid slot at [q'] if there is one. *)
Definition filled (d : bytes) (q mt len meta : Z) : bytes :=
  put 8 (put 2 (put 1 (put 4 (put 1 d q 0) (q + 4) len) (q + 1) 1) (q + 2) mt) (q + 8) meta.

Definition relaid (b : bool) (d : bytes) (q' : Z) : bytes :=
  if b then wr d q' (message_header_bytes preinstalled) else d.

(** Look a field up through stores elsewhere. *)
Ltac puts := repeat first [rewrite get_put_eq | rewrite get_put_ne by lia].

Lemma filled_head d q mt len meta :
  0 <= mt < 2 ^ 16 -> 0 <= len < 2 ^ 32 -> 0 <= meta < 2 ^ 64 ->
  message_header (filled d q mt len meta) q = Header 0 1 mt len meta.
Proof.
  intros. unfold message_header, filled.
  f_equal; puts; try done; apply Z.mod_small; cbn; lia.
Qed.

Lemma filled_same lo hi d q mt len meta :
  hi <= q \/ q + 16 <= lo -> same lo hi d (filled d q mt len meta).
Proof. intros. unfold filled. repeat (eapply same_trans; [|apply same_put; lia]). done. Qed.

Lemma filled_untouched d q mt len meta :
  get 1 d q = NOT_COMMITTED -> untouched q d (filled d q mt len meta).
Proof.
  intros. unfold filled. repeat (apply untouched_wr; [|lia]). apply untouched_slot. by split.
Qed.

Lemma relaid_same b lo hi d q' : hi <= q' \/ q' + 16 <= lo -> same lo hi d (relaid b d q').
Proof. intros. unfold relaid. destruct b; [|done]. apply same_wr. by rewrite length_message_header_bytes. Qed.

Lemma relaid_slot b d q' :
  (b = false -> message_header d q' = preinstalled) -> message_header (relaid b d q') q' = preinstalled.
Proof. intros Hb. destruct b; [|by apply Hb]. apply message_header_wr, preinstalled_ok. Qed.

(** Setting [committed] in a header that is otherwise complete. *)
Lemma commit_head d q h :
  message_header d q = h ->
  message_header (put 1 d q COMMITTED) q =
    Header COMMITTED (header_type h) (message_type h) (mh_length h) (user_meta_u64 h).
Proof. intros <-. unfold message_header. cbn. by puts. Qed.

(** ** A segment with one more record *)

(** [dc] is [d] with the record [e] committed after [es], and the slot behind it laid. *)
Record committed_at (rs : Z) (es : list Entry) (e : Entry) (d dc : bytes) : Prop := {
  ca_segment : segment_ok rs d es (en_pos e);
  ca_entry : entry_at rs dc e;
  ca_slot : message_header dc (en_next e) = preinstalled;
  ca_below : same 0 (en_pos e) d dc;
  ca_payload : same (en_pos e + 16) (en_pos e + 16 + mh_length (en_head e)) d dc
}.

(** [d'] is [dc] with the advisory pair on its way to say so: the count moves before the position. *)
Record advancing (es : list Entry) (e : Entry) (dc d' : bytes) : Prop := {
  av_head : kept_head dc d';
  av_records : same FIRST_RECORD (en_next e + 16) dc d';
  av_pair :
    let bump := if is_user e then 1 else 0 in
    (get 8 d' OFF_write_position = en_pos e + 16 /\
       (get 8 d' OFF_message_count = users es \/ get 8 d' OFF_message_count = users es + bump)) \/
    (get 8 d' OFF_write_position = en_next e + 16 /\ get 8 d' OFF_message_count = users es + bump)
}.

Section committed.
Context {rs : Z} {es : list Entry} {e : Entry} {d dc : bytes}.
Hypothesis Hc : committed_at rs es e d dc.
#[local] Notation q := (en_pos e).
#[local] Notation q' := (en_next e).

Lemma committed_bounds : 208 <= q < 2 ^ 63 /\ 0 <= mh_length (en_head e) /\ q + 16 + mh_length (en_head e) <= q'.
Proof.
  pose proof (ca_entry _ _ _ _ _ Hc) as He. pose proof (chain_start_le _ _ _ _ (sg_chain _ _ _ _ (ca_segment _ _ _ _ _ Hc))).
  pose proof (entry_length_nonneg _ _ _ He). pose proof (proj1 (en_next_bounds _ _ _ He)) as Hb.
  pose proof (ea_pos _ _ _ He). unfold HEADER_SLOT, MESSAGE_HEADER_SIZE in Hb. lia.
Qed.

Lemma committed_chain : chain rs dc FIRST_RECORD (es ++ [e]) q'.
Proof.
  apply chain_snoc; [|apply Hc]. eapply chain_same; [|apply (sg_chain _ _ _ _ (ca_segment _ _ _ _ _ Hc))].
  by eapply same_sub; [apply Hc|..].
Qed.

Lemma committed_sees : sees rs dc (es ++ [e]) q'.
Proof. split; [apply committed_chain|]. by rewrite get_committed, (ca_slot _ _ _ _ _ Hc). Qed.

Lemma committed_get k m : 0 <= k -> k + Z.of_nat m <= 208 -> get m dc k = get m d k.
Proof. intros. pose proof committed_bounds. symmetry. apply get_same. eapply same_sub; [apply Hc|lia..]. Qed.

Lemma pair_at_rest : get 8 dc OFF_write_position = q + 16 /\ get 8 dc OFF_message_count = users es.
Proof.
  pose proof (ca_segment _ _ _ _ _ Hc) as Hseg. rewrite !committed_get by done.
  split; [apply (sg_position _ _ _ _ Hseg)|apply (sg_count _ _ _ _ Hseg)].
Qed.

Lemma committed_advancing : advancing es e dc dc.
Proof. destruct pair_at_rest. constructor; [apply kept_head_refl|done|left; auto]. Qed.

Lemma committed_kept d' : advancing es e dc d' -> same FIRST_RECORD q d d' /\ kept_head d d' /\ kept_records e d d'.
Proof.
  intros [Hh Hs _]. pose proof committed_bounds.
  assert (Hr : kept_records e d d').
  { apply (kept_records_trans e _ dc); [split; [by eapply same_sub; [apply Hc|..]|apply Hc]|].
    apply (kept_records_below e _ _ _ Hs); lia. }
  split_and!; [apply Hr| |done]. apply (kept_head_trans _ dc); [|done]. by apply (kept_head_below q); [apply Hc|lia].
Qed.

Lemma advancing_channel d' : advancing es e dc d' -> message_header d' 0 = channel_record.
Proof.
  intros [Hh _ _]. pose proof committed_bounds. rewrite <- (sg_channel _ _ _ _ (ca_segment _ _ _ _ _ Hc)).
  symmetry. apply message_header_same. eapply same_trans; [eapply same_sub; [apply Hc|lia..]|apply Hh].
Qed.

Lemma advancing_slot d' : advancing es e dc d' -> message_header d' q' = preinstalled.
Proof.
  intros [_ Hs _]. pose proof committed_bounds. rewrite <- (message_header_same dc); [apply Hc|].
  eapply same_sub; [exact Hs|unfold FIRST_RECORD, FIRST_RECORD_V4; lia|lia].
Qed.

Lemma advancing_sees d' : advancing es e dc d' -> sees rs d' (es ++ [e]) q'.
Proof. intros [_ Hs _]. eapply sees_same; [apply committed_sees|]. eapply same_sub; [exact Hs|done|lia]. Qed.

Lemma advancing_between f wd wd' :
  data_of wd f = d -> grows f wd wd' -> len_of wd' f <= I64_MAX -> in_file rs (len_of wd' f) q' ->
  advancing es e dc (data_of wd' f) -> interrupted f rs es e wd wd'.
Proof.
  intros Hd Hg Hlen Hin Ha. destruct (committed_kept _ Ha) as (_ & Hh & Hs).
  constructor; rewrite ?Hd; [|done|done|done|done|by right]. split; [by apply advancing_channel|]. right.
  split_and!; [by apply advancing_sees|by apply advancing_slot|apply Ha].
Qed.

(** The segment at rest again. *)
Lemma advanced_segment d' :
  advancing es e dc d' -> get 8 d' OFF_write_position = q' + HEADER_SLOT ->
  get 8 d' OFF_message_count = users (es ++ [e]) -> q' mod 8 = 0 -> q' mod rs + ROLL_TOTAL <= rs ->
  segment_ok rs d' (es ++ [e]) q'.
Proof.
  intros Ha Hp Hn H8 Hroom. destruct (advancing_sees _ Ha) as [Hch Hsl]. constructor; try done. by apply advancing_channel.
Qed.
End committed.

(** ** The record *)

Section commit.
Context `{EnvOk}.

(** The record [Writer_commit mt len meta] appends. *)
Definition new_entry (w : Writer) (mt len meta : Z) : Entry :=
  MkEntry (w_next_hdr_pos w) (Header COMMITTED (HeaderType_u8 User) mt len meta).

(** Where the slot after it is. *)
Lemma next_slot w wd es n mt len meta :
  writer_ok w wd es -> reserved w wd n -> 0 <= len <= n ->
  let q := w_next_hdr_pos w in
  let q' := en_next (new_entry w mt len meta) in
  let rs := w_region_size w in
  q + 16 + len <= q' < q + 16 + len + 8 /\ q' mod 8 = 0 /\ q' / rs = q / rs /\
  q' mod rs = q mod rs + (q' - q) /\ q' mod rs + 56 <= rs /\
  q' = align_up (q + 16 + len) /\ (len = n -> q' = q + align_up (16 + n)).
Proof.
  intros Hw Hr Hl q q' rs. pose proof (writer_ok_next _ _ _ Hw). fold q in H1.
  pose proof (rs_pos _ (wk_rs _ _ _ Hw)) as Hrs. fold rs in Hrs.
  pose proof (rv_fits _ _ _ Hr) as Hf. pose proof (rv_size _ _ _ Hr). fold q rs in Hf.
  assert (Ha : q mod 8 = 0) by apply (sg_aligned _ _ _ _ (wk_segment _ _ _ Hw)).
  pose proof (Z.mod_pos_bound q rs). unfold HEADER_SLOT, MESSAGE_HEADER_SIZE, ROLL_TOTAL, ROLL_TOTAL_V4 in *.
  assert (Hq' : q' = q + align_up (16 + len)).
  { unfold q', en_next, new_entry. cbn. rewrite <- align_up_add by lia.
    f_equal. unfold HEADER_SLOT, MESSAGE_HEADER_SIZE. lia. }
  pose proof (align_up_bounds (16 + len)) as Hb. pose proof (align_up_mono (16 + len) (16 + n)) as Hm.
  destruct (same_region rs q (align_up (16 + len))) as [Hd Hmod]; [lia..|].
  split_and!; [lia|lia|rewrite Hq'; zlia|by rewrite Hq'|rewrite Hq', Hmod; lia|rewrite Hq', Hmod; lia| |].
  - rewrite Hq', <- align_up_add by lia. f_equal. lia.
  - by intros <-.
Qed.

(** ** The states of a commit *)

(** Only bytes of the file [f] have changed, and the kernel was asked for nothing. *)
Record still (f : Z) (wd wd' : world) : Prop := {
  stl_frame : frame f wd wd';
  stl_calls : w_calls wd' = w_calls wd
}.

Lemma still_refl f wd : still f wd wd.
Proof. by constructor. Qed.

Lemma still_write f wd wd' a bs : still f wd wd' -> still f wd (write_inode f a bs wd').
Proof. intros [Hf Hc]. constructor; [by apply frame_write|done]. Qed.

#[local] Hint Resolve still_refl still_write stl_frame : xch.

Section states.
Context (w : Writer) (wd : world) (es : list Entry) (n mt len meta : Z).
Hypothesis Hq : quiet wd.
Hypothesis Hw : writer_ok w wd es.
Hypothesis Hr : reserved w wd n.
Hypothesis Hmt : 0 <= mt < 2 ^ 16.
Hypothesis Hl : 0 <= len <= n.
Hypothesis Hmeta : 0 <= meta < 2 ^ 64.

#[local] Notation e := (new_entry w mt len meta).
#[local] Notation f := (w_file w).
#[local] Notation rs := (w_region_size w).
#[local] Notation q := (w_next_hdr_pos w).
#[local] Notation q' := (en_next e).
#[local] Notation d := (data_of wd f).
#[local] Notation between := (interrupted f rs es e wd).

(** The segment's bytes with the header filled, with the next slot laid, with the record committed and
    with the pair moved. *)
#[local] Notation d5 := (filled d q mt len meta).
#[local] Notation d6 := (relaid (len <? n) d5 q').
#[local] Notation d7 := (put 1 d6 q COMMITTED).
#[local] Notation d9 := (put 8 (put 8 d7 OFF_message_count (users es + 1)) OFF_write_position (q' + HEADER_SLOT)).

(** Where the slot and the next one are. *)
Lemma slot_place :
  (208 <= q < 2 ^ 63 - 16 /\ 0 <= q mod rs /\ 0 < rs < 2 ^ 32) /\
  (q + 16 + len <= q' < q + 16 + len + 8 /\ q' mod 8 = 0 /\ q' / rs = q / rs /\
   q' mod rs = q mod rs + (q' - q) /\ q' mod rs + 56 <= rs /\ q' = align_up (q + 16 + len) /\
   (len = n -> q' = q + align_up (16 + n))).
Proof.
  pose proof (rs_pos _ (wk_rs _ _ _ Hw)). pose proof (writer_ok_next _ _ _ Hw). pose proof (Z.mod_pos_bound q rs).
  split; [split_and!; lia|]. exact (next_slot w wd es n mt len meta Hw Hr Hl).
Qed.

Ltac place :=
  destruct slot_place as [(Hpos & Hqm & Hrs') (Hn1 & Hn2 & Hn3 & Hn4 & Hn5 & Hn6 & Hn7)].

(** *** Before the commit *)

Lemma laying_between wd' :
  frame f wd wd' -> untouched q d (data_of wd' f) -> same (q + 16) (q + 16 + len) d (data_of wd' f) -> between wd'.
Proof.
  intros Hfr. apply (untouched_interrupted f rs es e wd wd' (wk_segment _ _ _ Hw)); [by apply frame_grows|].
  rewrite (fr_len _ _ _ Hfr). apply (wk_len _ _ _ Hw).
Qed.

Lemma slot_free : get 1 d q = NOT_COMMITTED.
Proof. apply (sg_slot _ _ _ _ (wk_segment _ _ _ Hw)). Qed.

Lemma filled_between wd' : frame f wd wd' -> data_of wd' f = d5 -> between wd'.
Proof.
  intros Hfr E. apply laying_between; [done|rewrite E; apply filled_untouched, slot_free|].
  rewrite E. apply filled_same. lia.
Qed.

Lemma laid_between wd' : frame f wd wd' -> data_of wd' f = d6 -> between wd'.
Proof.
  intros Hfr E. place. apply laying_between; [done|..]; rewrite E.
  - unfold relaid. case_match; [apply untouched_wr; [|lia]|]; apply filled_untouched, slot_free.
  - eapply same_trans; [apply (filled_same _ _ _ q mt len meta); lia|apply relaid_same; lia].
Qed.

(** *** After it *)

Lemma record_committed : committed_at rs es e d d7.
Proof.
  place. pose proof (rv_size _ _ _ Hr). constructor.
  - apply (wk_segment _ _ _ Hw).
  - constructor; [change (0 <= q < 2 ^ 63); lia| |done|right; left; done|change (q mod rs + 16 + len <= rs); lia].
    change (en_pos e) with q. rewrite (commit_head d6 q (Header 0 1 mt len meta)); [done|].
    rewrite <- (filled_head d q mt len meta) by lia. symmetry. apply message_header_same, relaid_same. lia.
  - rewrite <- (message_header_same d6) by (apply same_put; lia). apply relaid_slot.
    intros Hb%Z.ltb_ge. rewrite <- (message_header_same d) by (apply filled_same; lia).
    rewrite Hn7 by lia. apply (rv_slot _ _ _ Hr).
  - change (en_pos e) with q. eapply same_trans; [apply (filled_untouched d q mt len meta), slot_free|].
    eapply same_trans; [apply (relaid_same (len <? n) 0 q _ q'); lia|]. apply same_put. lia.
  - change (en_pos e) with q. change (mh_length (en_head e)) with len.
    eapply same_trans; [apply (filled_same _ _ _ q mt len meta); lia|].
    eapply same_trans; [apply (relaid_same (len <? n) _ _ _ q'); lia|]. apply same_put. lia.
Qed.

Lemma next_in_file wd' : len_of wd' f = len_of wd f -> in_file rs (len_of wd' f) q'.
Proof. intros ->. place. pose proof (wk_in_file _ _ _ Hw). unfold in_file in *. by rewrite Hn3. Qed.

Lemma advancing_is_between wd' : frame f wd wd' -> advancing es e d7 (data_of wd' f) -> between wd'.
Proof.
  intros Hfr Ha. pose proof (fr_len _ _ _ Hfr) as Hlen.
  eapply (advancing_between record_committed); [done|by apply frame_grows| |by apply next_in_file|done].
  rewrite Hlen. apply (wk_len _ _ _ Hw).
Qed.

Lemma users_bounds : 0 <= users es < 2 ^ 63.
Proof.
  place. pose proof (users_nonneg es). pose proof (users_le es). pose proof (wk_segment _ _ _ Hw) as Hseg.
  pose proof (chain_length _ _ _ _ _ (sg_chain _ _ _ _ Hseg)). unfold FIRST_RECORD, FIRST_RECORD_V4 in *. lia.
Qed.

Lemma counted_advancing : advancing es e d7 (put 8 d7 OFF_message_count (users es + 1)).
Proof.
  destruct (pair_at_rest record_committed) as [Hp Hc]. pose proof users_bounds.
  constructor; [apply (kept_head_put 8); [by left|apply kept_head_refl]|apply (same_put _ _ 8); right; done|].
  left. rewrite get_put_eq, get_put_ne by (left; done). split; [done|right; apply Z.mod_small; cbn; lia].
Qed.

Lemma moved_pair d' : same 16 32 d9 d' -> get 8 d' OFF_write_position = q' + 16 /\ get 8 d' OFF_message_count = users es + 1.
Proof.
  place. pose proof users_bounds. intros Hs. rewrite <- !(get_same 8 d9 d') by (eapply same_sub; [exact Hs|done..]).
  rewrite get_put_eq, get_put_ne, get_put_eq by (right; done).
  split; apply Z.mod_small; cbn; unfold HEADER_SLOT, MESSAGE_HEADER_SIZE; lia.
Qed.

Lemma moved_same lo hi : 32 <= lo \/ hi <= 16 -> same lo hi d7 d9.
Proof. intros. eapply same_trans; apply same_put; unfold OFF_message_count, OFF_write_position, MESSAGE_HEADER_SIZE; lia. Qed.

(** [d'] is the segment at the end of the commit, but for the wake word. *)
Record all_moved (d' : bytes) : Prop := {
  mv_pair : same 16 32 d9 d';
  mv_records : same 208 (q' + 16) d9 d';
  mv_head : kept_head d9 d'
}.

Lemma moved_refl : all_moved d9.
Proof. constructor; [done|done|apply kept_head_refl]. Qed.

Lemma moved_woken v : all_moved (put 4 d9 OFF_wake_word v).
Proof.
  constructor; [apply (same_put _ _ 4); left; done|apply (same_put _ _ 4); right; done|].
  apply (kept_head_put 4); [by right|apply kept_head_refl].
Qed.

Lemma moved_advancing d' : all_moved d' -> advancing es e d7 d'.
Proof.
  intros [Hp Hs Hh]. constructor; [|eapply same_trans; [by apply moved_same; left|done]|right; by apply moved_pair].
  eapply kept_head_trans; [|exact Hh]. apply (kept_head_put 8); [by left|]. apply (kept_head_put 8); [by left|]. apply kept_head_refl.
Qed.

(** What the commit leaves. *)
Lemma committed_writer wd' :
  len_of wd' f = len_of wd f -> all_moved (data_of wd' f) ->
  writer_ok (set_next_hdr_pos q' (set_pending None w)) wd' (es ++ [e]).
Proof.
  intros Hlen Hm. place. destruct (moved_pair _ (mv_pair _ Hm)) as [Hp Hc].
  constructor; try apply Hw; cbn.
  - rewrite (wk_current _ _ _ Hw). by apply region_of_eq.
  - rewrite (wk_index _ _ _ Hw). by rewrite Hn3.
  - rewrite Hlen. apply (wk_file_len _ _ _ Hw).
  - by apply next_in_file.
  - rewrite Hlen. apply (wk_len _ _ _ Hw).
  - rewrite Hlen. apply (wk_roll _ _ _ Hw).
  - apply (advanced_segment record_committed); [by apply moved_advancing|done|by rewrite Hc, users_app|lia|exact Hn5].
Qed.

Lemma committed_message d' :
  all_moved d' -> message_of d' e = MkMessage mt meta (peek d (q + 16) (Z.to_nat len)).
Proof.
  intros Hm. destruct (committed_kept record_committed _ (moved_advancing _ Hm)) as (_ & _ & _ & Hpay).
  unfold message_of. cbn. f_equal. symmetry. apply peek_same. change HEADER_SLOT with 16. rewrite Z2Nat.id by lia. exact Hpay.
Qed.

(** What [Writer_commit] ends with. *)
Definition committed_post (r : res unit) (w' : Writer) (wd' : world) : Prop :=
  r = Ok tt /\ writer_ok w' wd' (es ++ [e]) /\ w' = set_next_hdr_pos q' (set_pending None w) /\
  message_of (data_of wd' f) e = MkMessage mt meta (peek d (q + 16) (Z.to_nat len)) /\
  same FIRST_RECORD q d (data_of wd' f) /\ kept_head d (data_of wd' f) /\ frame f wd wd' /\
  get 4 (data_of wd' f) OFF_wake_word =
    (let v := get 4 d OFF_wake_word in if w_wake w then u32 (v + 1) else v).

Lemma committed_posts wd' :
  frame f wd wd' -> all_moved (data_of wd' f) ->
  get 4 (data_of wd' f) OFF_wake_word = (let v := get 4 d OFF_wake_word in if w_wake w then u32 (v + 1) else v) ->
  committed_post (Ok tt) (set_next_hdr_pos q' (set_pending None w)) wd'.
Proof.
  intros Hfr Hm Hword. destruct (committed_kept record_committed _ (moved_advancing _ Hm)) as (? & ? & _).
  split_and!; try done; [apply committed_writer; [apply Hfr|done]|by apply committed_message].
Qed.

(** The readers' wake-up at a point of the commit: the word is as it was and nobody was woken, or the
    commit is done but for the call that wakes, which bumps the word first. *)
Definition woken_calls (calls : list kcall) : list kcall :=
  if w_wake w && SUPPORTED then KWake f OFF_wake_word :: calls else calls.

Definition waking wd' : Prop :=
  (get 4 (data_of wd' f) OFF_wake_word = get 4 d OFF_wake_word /\ w_calls wd' = w_calls wd) \/
  (w_wake w = true /\ committed_post (Ok tt) (set_next_hdr_pos q' (set_pending None w)) wd' /\
   (w_calls wd' = w_calls wd \/ w_calls wd' = woken_calls (w_calls wd))).

(** What holds at every point of the commit. *)
Definition passing wd' : Prop := between wd' /\ waking wd'.

Lemma passing_still wd' : still f wd wd' -> between wd' -> get 4 (data_of wd' f) OFF_wake_word = get 4 d OFF_wake_word -> passing wd'.
Proof. intros [_ Hc] Hb Hw'. split; [done|by left]. Qed.

Lemma word_below p d' : 120 <= p <= 208 -> same 0 p d d' -> get 4 d' OFF_wake_word = get 4 d OFF_wake_word.
Proof. intros Hp Hs. symmetry. apply get_same. eapply same_sub; [exact Hs|done|]. unfold OFF_wake_word, MESSAGE_HEADER_SIZE. lia. Qed.

(** *** The run *)

Ltac laid :=
  apply passing_still; [by auto 20 with xch| |rewrite !data_of_write_eq; apply (word_below 208); [done|]];
    [apply laying_between; [by auto 20 with xch|rewrite !data_of_write_eq..];
       [repeat (apply untouched_wr; [|lia]); apply untouched_slot; split; [done|apply slot_free]
       |repeat (eapply same_trans; [|apply same_wr; len]); apply same_refl]
    |repeat (eapply same_trans; [|apply same_wr; len]); apply same_refl].

(** The stores of the header's fields. *)
Lemma fill_header_run {A} (k : M Writer A) s Q :
  (forall wd', still f wd wd' -> data_of wd' f = d5 -> wp k s wd' Q passing) ->
  let region := region_of f rs q in
  let off := q mod rs in
  wp (store_u8 region off 0 ;;
      store_u32 region (off + 4) len ;;
      store_u8 region (off + 1) (HeaderType_u8 User) ;;
      store_u16 region (off + 2) mt ;;
      store_u64 region (off + 8) meta ;; k) s wd Q passing.
Proof.
  intros Hk region off. unfold region, off. place. pose proof (wk_rs _ _ _ Hw) as Hrs. pose proof (wk_in_file _ _ _ Hw).
  apply wp_bind, wp_store_rec0; [done..|len|by laid|].
  do 4 (apply wp_bind, wp_store_rec; [done|done|by rewrite ?len_of_write|lia|len|by laid|]).
  apply Hk; [by auto 10 with xch|]. by rewrite !data_of_write_eq.
Qed.

(** The slot after a record shorter than was reserved. *)
Lemma relay_run {A} (k : M Writer A) s wd5 Q :
  still f wd wd5 -> data_of wd5 f = d5 ->
  (forall wd', still f wd wd' -> data_of wd' f = d6 -> wp k s wd' Q passing) ->
  wp ((if len <? n then
         match get_bytes_mut (region_of f rs q) (q' mod rs) MESSAGE_HEADER_SIZE with
         | None => throw (err_other "Failed to re-install next header on short commit")
         | Some _ => store_header (region_of f rs q) (q' mod rs) preinstalled
         end
       else ret tt) ;; k) s wd5 Q passing.
Proof.
  intros Hf5 Hd5 Hk. place. pose proof (wk_rs _ _ _ Hw) as Hrs. pose proof (wk_in_file _ _ _ Hw) as Hin.
  assert (Hlb : still f wd (write_inode f q' (message_header_bytes preinstalled) wd5) ->
    data_of (write_inode f q' (message_header_bytes preinstalled) wd5) f = d6 -> passing (write_inode f q' (message_header_bytes preinstalled) wd5)).
  { intros Hs E. apply passing_still; [done|by apply laid_between; [apply Hs|]|]. rewrite E. apply (word_below 208); [done|].
    eapply same_trans; [apply (filled_same _ _ _ q mt len meta); lia|apply relaid_same; lia]. }
  pose proof (Hk (write_inode f q' (message_header_bytes preinstalled) wd5)) as Hk'.
  pose proof (Hk wd5 Hf5) as Hk5. unfold relaid in *. destruct (len <? n); [|by apply wp_bind, wp_ret, Hk5].
  rewrite get_bytes_mut_Some by (cbn; unfold MESSAGE_HEADER_SIZE; lia).
  rewrite (region_of_eq _ _ q q') by done. unfold store_header. apply wp_bind, wp_store_rec0.
  - done.
  - by eapply frame_quiet; [apply Hf5|].
  - unfold in_file in *. by rewrite (fr_len _ _ _ (stl_frame _ _ _ Hf5)), Hn3.
  - rewrite length_message_header_bytes. lia.
  - apply Hlb; [by auto with xch|by rewrite data_of_write_eq, Hd5].
  - apply Hk'; [by auto with xch|by rewrite data_of_write_eq, Hd5].
Qed.

(** A store in the header after the commit. *)
Lemma head_store {A} (k : M Writer A) s off bs wd1 Q :
  still f wd wd1 -> 0 <= off -> off + Z.of_nat (length bs) <= 4096 -> advancing es e d7 (wr (data_of wd1 f) off bs) ->
  get 4 (wr (data_of wd1 f) off bs) OFF_wake_word = get 4 d OFF_wake_word ->
  (forall wd', still f wd wd' -> data_of wd' f = wr (data_of wd1 f) off bs -> wp k s wd' Q passing) ->
  wp (store (Mapping f 0 rs) off bs ;; k) s wd1 Q passing.
Proof.
  intros Hf1 H1 H2 Ha Hg Hk. pose proof (writer_ok_rs_len _ _ _ Hw) as Hrl. pose proof (wk_rs _ _ _ Hw) as Hrs.
  apply wp_bind, wp_store_head; [done|by eapply frame_quiet; [apply Hf1|]|by rewrite (fr_len _ _ _ (stl_frame _ _ _ Hf1))|done|done|..].
  - apply passing_still; [by auto with xch|apply advancing_is_between; [by auto with xch|]|]; by rewrite data_of_write_eq.
  - apply Hk; [by auto with xch|]. by rewrite data_of_write_eq.
Qed.

Lemma head_add {A} (k : Z -> M Writer A) s off m v wd1 Q :
  let d1 := data_of wd1 f in
  let d2 := put m d1 off (get m d1 off + v) in
  still f wd wd1 -> 0 <= off -> off + Z.of_nat m <= 4096 -> advancing es e d7 d2 ->
  get 4 d2 OFF_wake_word = get 4 d OFF_wake_word ->
  (forall wd', still f wd wd' -> data_of wd' f = d2 -> wp (k (get m d1 off)) s wd' Q passing) ->
  wp (bind (update (Mapping f 0 rs) off m (fun old => le_bytes m (old + v))) k) s wd1 Q passing.
Proof.
  intros d1 d2 Hf1 H1 H2 Ha Hg Hk. pose proof (writer_ok_rs_len _ _ _ Hw) as Hrl. pose proof (wk_rs _ _ _ Hw) as Hrs.
  apply wp_bind, wp_update_head; [done|by eapply frame_quiet; [apply Hf1|]|by rewrite (fr_len _ _ _ (stl_frame _ _ _ Hf1))|done|done|..].
  - apply passing_still; [by auto with xch|apply advancing_is_between; [by auto with xch|]|]; by rewrite data_of_write_eq.
  - apply Hk; [by auto with xch|]. by rewrite data_of_write_eq.
Qed.

(** The bump of the word, and the call that wakes those asleep on it. *)
Lemma wake_run wd9 :
  w_wake w = true -> still f wd wd9 -> data_of wd9 f = d9 -> get 4 d9 OFF_wake_word = get 4 d OFF_wake_word ->
  wp (wake_all (Mapping f 0 rs)) (set_next_hdr_pos q' (set_pending None w)) wd9
    (fun r w' wd' => committed_post r w' wd' /\ w_calls wd' = woken_calls (w_calls wd)) passing.
Proof.
  intros Ewake [Hf9 Hc9] Hd9 Hword. pose proof (writer_ok_rs_len _ _ _ Hw) as Hrl. pose proof (wk_rs _ _ _ Hw) as Hrs.
  unfold wake_all, fetch_add_u32. set (d' := put 4 d9 OFF_wake_word (get 4 d9 OFF_wake_word + 1)).
  set (wd10 := write_inode f OFF_wake_word (le_bytes 4 (get 4 d9 OFF_wake_word + 1)) wd9).
  assert (Hd10 : data_of wd10 f = d') by (unfold wd10; by rewrite data_of_write_eq, Hd9).
  assert (Hpost : committed_post (Ok tt) (set_next_hdr_pos q' (set_pending None w)) wd10).
  { apply committed_posts; [by apply frame_write|rewrite Hd10; apply moved_woken|]. rewrite Hd10. unfold d'. by rewrite get_put_eq, Hword, Ewake. }
  assert (Hb : between wd10) by (apply advancing_is_between; [by apply frame_write|rewrite Hd10; apply moved_advancing, moved_woken]).
  apply wp_bind, wp_update_head; [done|by eapply frame_quiet|by rewrite (fr_len _ _ _ Hf9)|done|done| |]; rewrite Hd9; fold wd10.
  { split; [done|right]. split_and!; [done|done|by left]. }
  assert (Hend : forall wd', committed_post (Ok tt) (set_next_hdr_pos q' (set_pending None w)) wd' -> between wd' ->
    w_calls wd' = woken_calls (w_calls wd) -> passing wd').
  { intros wd' ???. split; [done|right]. split_and!; [done|done|by right]. }
  unfold when. unfold woken_calls in *. rewrite Ewake in *. cbn [andb] in *. destruct SUPPORTED; [|by apply wp_ret].
  apply wp_bind, wp_interfere_quiet; [by eapply (frame_quiet f wd); [by apply frame_write|]|]. cbn [rm_ino region_offset].
  change (0 + OFF_wake_word) with OFF_wake_word.
  assert (Hpost' : committed_post (Ok tt) (set_next_hdr_pos q' (set_pending None w)) (add_call (KWake f OFF_wake_word) wd10)).
  { destruct Hpost as (P1 & [] & P3 & P4 & P5 & P6 & [] & P8). split_and!; try done; by constructor. }
  assert (Hc : w_calls (add_call (KWake f OFF_wake_word) wd10) = KWake f OFF_wake_word :: w_calls wd) by (cbn; by rewrite <- Hc9).
  apply wp_emit; [|by split]. apply Hend; [done| |done]. apply advancing_is_between; [apply Hpost'|].
  change (data_of (add_call (KWake f OFF_wake_word) wd10) f) with (data_of wd10 f). rewrite Hd10. apply moved_advancing, moved_woken.
Qed.

(** The advisory pair moves, and readers are woken. *)
Lemma publish_run wd7 :
  still f wd wd7 -> data_of wd7 f = d7 ->
  wp (publish_wp (u64 (q' + HEADER_SLOT))) (set_next_hdr_pos q' (set_pending None w)) wd7
    (fun r w' wd' => committed_post r w' wd' /\ w_calls wd' = woken_calls (w_calls wd)) passing.
Proof.
  intros Hf7 Hd7. place. rewrite (wrap_small 64) by (unfold HEADER_SLOT, MESSAGE_HEADER_SIZE; lia).
  unfold publish_wp. apply wp_bind, wp_self.
  change (w_channel_region (set_next_hdr_pos q' (set_pending None w))) with (w_channel_region w).
  change (w_wake (set_next_hdr_pos q' (set_pending None w))) with (w_wake w).
  rewrite (wk_channel _ _ _ Hw). unfold fetch_add_u64, store_u64.
  assert (Hword7 : get 4 d7 OFF_wake_word = get 4 d OFF_wake_word) by (by rewrite <- (committed_get record_committed)).
  assert (Hword : get 4 d9 OFF_wake_word = get 4 d OFF_wake_word).
  { rewrite <- Hword7. symmetry. by apply get_same, moved_same; left. }
  apply head_add; rewrite ?Hd7, ?(proj2 (pair_at_rest record_committed)); [done..|apply counted_advancing| |intros wd8 Hf8 Hd8].
  { rewrite get_put_ne by (first [by left|by right]). exact Hword7. }
  assert (Hm : advancing es e d7 d9) by apply moved_advancing, moved_refl.
  apply head_store; rewrite ?Hd8; [done..|exact Hm|exact Hword|intros wd9 Hf9 Hd9]. change (data_of wd9 f = d9) in Hd9.
  destruct (w_wake w) eqn:Ewake; cbn [when]; [by apply wake_run|].
  apply wp_ret. split; [|unfold woken_calls; rewrite Ewake; apply Hf9].
  apply committed_posts; [apply Hf9|rewrite Hd9; apply moved_refl|]. by rewrite Hd9, Hword, Ewake.
Qed.

Lemma commit_run_word :
  wp (Writer_commit mt len meta) w wd (fun r w' wd' => committed_post r w' wd' /\ w_calls wd' = woken_calls (w_calls wd)) passing.
Proof.
  place. unfold Writer_commit. apply wp_bind, wp_self. apply wp_bind, wp_modify. apply wp_bind, wp_lift.
  rewrite (rv_pending _ _ _ Hr). cbn [ok_or].
  replace (len >? n) with false by (symmetry; rewrite Z.gtb_ltb; apply Z.ltb_ge; lia).
  unfold div_guard. replace (rs =? 0) with false by (symmetry; apply Z.eqb_neq; lia). apply wp_bind, wp_ret.
  rewrite (wk_current _ _ _ Hw), get_bytes_mut_Some by (cbn; unfold MESSAGE_HEADER_SIZE; lia).
  apply fill_header_run. intros wd5 Hf5 Hd5. rewrite (wrap_small 64) by (unfold HEADER_SLOT, MESSAGE_HEADER_SIZE; lia). cbv zeta.
  replace (align_up (q + HEADER_SLOT + len)) with q' by (by rewrite Hn6).
  apply (relay_run _ _ wd5); [done..|intros wd6 Hf6 Hd6]. unfold commit, store_u8.
  pose proof (wk_rs _ _ _ Hw) as Hrs. pose proof (wk_in_file _ _ _ Hw) as Hin.
  assert (Hd7 : data_of (write_inode f q (le_bytes 1 COMMITTED) wd6) f = d7) by (by rewrite data_of_write_eq, Hd6).
  apply wp_bind, wp_store_rec0; [done|by eapply frame_quiet; [apply Hf6|]|by rewrite (fr_len _ _ _ (stl_frame _ _ _ Hf6))|len| |].
  - apply passing_still; [by auto with xch|apply advancing_is_between; [by auto with xch|]|]; rewrite Hd7.
    + apply (committed_advancing record_committed).
    + by rewrite <- (committed_get record_committed).
  - apply wp_bind, wp_modify, publish_run; [by auto with xch|done].
Qed.

End states.

Lemma commit_run w wd es n mt len meta :
  quiet wd -> writer_ok w wd es -> reserved w wd n ->
  0 <= mt < 2 ^ 16 -> 0 <= len <= n -> 0 <= meta < 2 ^ 64 ->
  let e := new_entry w mt len meta in
  wp (Writer_commit mt len meta) w wd
    (fun r w' wd' =>
       r = Ok tt /\ writer_ok w' wd' (es ++ [e]) /\ w' = set_next_hdr_pos (en_next e) (set_pending None w) /\
       message_of (data_of wd' (w_file w)) e =
         MkMessage mt meta (peek (data_of wd (w_file w)) (w_next_hdr_pos w + 16) (Z.to_nat len)) /\
       same FIRST_RECORD (w_next_hdr_pos w) (data_of wd (w_file w)) (data_of wd' (w_file w)) /\
       kept_head (data_of wd (w_file w)) (data_of wd' (w_file w)) /\ frame (w_file w) wd wd')
    (interrupted (w_file w) (w_region_size w) es e wd).
Proof.
  intros Hq Hw Hr Hmt Hl Hmeta e.
  eapply wp_mono; [by apply (commit_run_word w wd es n)| |by intros wd' [? _]].
  by intros r w' wd' [(? & ? & ? & ? & ? & ? & ? & _) _].
Qed.

End commit.
