(* ===== verification/ReserveFacts.v ===== *)
(** * Moving to the next region and reserving (src/lib.rs: roll_over_region, try_reserve) *)

From S2P Require Import Prelude Bytes Effects Region Channel V4 Names Segment Helper Prefault Writer Chain RegionFacts SegmentFacts WriterInv CommitFacts.

#[local] Open Scope Z_scope.

Section reserve.
Context `{EnvOk}.

Lemma reads_on_prefault {A} (m : M Shared A) w wd :
  w_prefault w = None -> reads (on_prefault m) w wd (Ok None).
Proof. intros Hp. unfold reads, on_prefault. by rewrite Hp. Qed.

(** The mapping of a region, the file grown to hold it. *)
Lemma region_at_spec w wd idx (Q : res RegionMapping -> Writer -> world -> Prop) C :
  calm wd -> rs_ok (w_region_size w) -> w_prefault w = None -> w_file_len w = len_of wd (w_file w) ->
  0 <= idx -> (idx + 1) * w_region_size w <= I64_MAX ->
  (forall w' wd', w' = set_w_file_len (Z.max (w_file_len w) ((idx + 1) * w_region_size w)) w ->
     grows (w_file w) wd wd' -> (forall i, data_of wd' i = data_of wd i) ->
     len_of wd' (w_file w) = Z.max (w_file_len w) ((idx + 1) * w_region_size w) ->
     C wd' /\ Q (Ok (Mapping (w_file w) (idx * w_region_size w) (w_region_size w))) w' wd') ->
  wp (region_at idx) w wd Q C.
Proof.
  intros Hc Hrs Hp Hl Hi Hlen HQ. pose proof (rs_pos _ Hrs). unfold I64_MAX in *.
  unfold region_at. apply wp_bind, wp_self.
  eapply wp_reads_bind; [by apply reads_on_prefault|].
  rewrite !wrap_small by lia.
  apply wp_bind, ensure_len_spec; [done|done|done|unfold I64_MAX; lia|].
  intros w' wd' -> Hg Hd Hl'. destruct (HQ _ wd' eq_refl Hg Hd Hl') as [HC HQ'].
  split; [done|]. eapply wp_reads; [|exact HQ'].
  apply reads_create_writable; [by eapply grows_calm| |lia|rewrite Hl'; lia].
  pose proof (rs_aligned (w_region_size w) (idx * w_region_size w) Hrs) as Ha.
  by rewrite Z.div_mul in Ha by lia.
Qed.

(** The [Skip] a writer at [q] leaves behind: it fills the rest of the region. *)
Definition skip_entry (w : Writer) : Entry :=
  let q := w_next_hdr_pos w in
  MkEntry q (Header COMMITTED (HeaderType_u8 Skip) 0 (w_region_size w - q mod w_region_size w - 16) 0).

Lemma skip_next w wd es :
  writer_ok w wd es ->
  let q := w_next_hdr_pos w in
  let rs := w_region_size w in
  en_next (skip_entry w) = (q / rs + 1) * rs /\ q + 56 <= en_next (skip_entry w) /\
  0 <= rs - q mod rs - 16 < 2 ^ 32 /\ rs mod 8 = 0.
Proof.
  intros Hw q rs. pose proof (rs_pos _ (wk_rs _ _ _ Hw)) as Hrs. fold rs in Hrs.
  pose proof (writer_ok_next _ _ _ Hw) as Hpos. fold q in Hpos.
  pose proof (sg_room _ _ _ _ (wk_segment _ _ _ Hw)) as Hroom. fold q rs in Hroom.
  unfold ROLL_TOTAL, ROLL_TOTAL_V4 in Hroom.
  assert (H8 : rs mod 8 = 0).
  { destruct (wk_rs _ _ _ Hw) as [_ Hr]. fold rs in Hr. destruct page_size_ok as (k & Hk & Hps).
    rewrite Hps in Hr. apply Z.mod_divide in Hr as [j Hj]; [|lia]. rewrite Hj.
    apply Z.mod_divide; [lia|]. exists (j * 512 * k). lia. }
  pose proof (Z.div_mod q rs). pose proof (Z.mod_pos_bound q rs).
  assert (0 <= q / rs) by (apply Z.div_pos; lia).
  pose proof (wk_in_file _ _ _ Hw) as Hin. pose proof (wk_len _ _ _ Hw).
  unfold in_file, I64_MAX in *. fold q rs in Hin.
  assert (He : en_next (skip_entry w) = (q / rs + 1) * rs).
  { unfold en_next, skip_entry. cbn. fold q rs. unfold HEADER_SLOT, MESSAGE_HEADER_SIZE.
    replace (q + 16 + (rs - q mod rs - 16)) with ((q / rs + 1) * rs) by lia.
    apply align_up_id; [lia|]. rewrite Z.mul_mod, H8, Z.mul_0_r by lia. done. }
  rewrite He. split_and!; [done|nia|lia|lia|done].
Qed.

(** *** Leaving a region *)

(** A segment the writer may fill the rest of a region of. *)
Section leaving.
Context (w : Writer) (wd : world) (es : list Entry).
Hypothesis Hc : calm wd.
Hypothesis Hw : writer_ok w wd es.
Hypothesis Hmax : (w_next_hdr_pos w / w_region_size w + 2) * w_region_size w <= I64_MAX.

#[local] Notation e := (skip_entry w).
#[local] Notation f := (w_file w).
#[local] Notation rs := (w_region_size w).
#[local] Notation q := (w_next_hdr_pos w).
#[local] Notation q' := (en_next e).
#[local] Notation d := (data_of wd f).
#[local] Notation between := (interrupted f rs es e wd).

(** The header of the [Skip] before its commit, and the bytes with the next region's first slot laid,
    with that header written, with it committed and with the position moved. *)
#[local] Notation h := (Header 0 (HeaderType_u8 Skip) 0 (rs - q mod rs - 16) 0).
#[local] Notation d2 := (wr d q' (message_header_bytes preinstalled)).
#[local] Notation d3 := (wr d2 q (message_header_bytes h)).
#[local] Notation d4 := (put 1 d3 q COMMITTED).
#[local] Notation d5 := (put 8 d4 OFF_write_position (q' + 16)).

Lemma skip_place :
  (208 <= q < 2 ^ 63 - 16 /\ 0 <= q mod rs /\ q mod rs + 56 <= rs /\ 0 <= q / rs /\ q = q / rs * rs + q mod rs /\ 0 < rs < 2 ^ 32) /\
  (q' = (q / rs + 1) * rs /\ q + 56 <= q' /\ 0 <= rs - q mod rs - 16 < 2 ^ 32 /\ rs mod 8 = 0) /\
  q' / rs = q / rs + 1 /\ q' mod rs = 0 /\ q' mod 8 = 0 /\ 0 <= q' + 16 < 256 ^ Z.of_nat 8.
Proof.
  pose proof (rs_pos _ (wk_rs _ _ _ Hw)). pose proof (writer_ok_next _ _ _ Hw). pose proof (Z.mod_pos_bound q rs).
  pose proof (Z.div_mod q rs). pose proof (Z.div_pos q rs).
  pose proof (sg_room _ _ _ _ (wk_segment _ _ _ Hw)) as Hroom. unfold ROLL_TOTAL, ROLL_TOTAL_V4 in Hroom.
  destruct (skip_next w wd es Hw) as (Hn1 & Hn2 & Hn3 & Hn8). split; [split_and!; lia|]. split; [done|].
  rewrite Hn1. split_and!; [by apply Z.div_mul; lia|by apply Z.mod_mul; lia|..].
  - by rewrite Z.mul_mod, Hn8, Z.mul_0_r by lia.
  - lia.
  - change (256 ^ Z.of_nat 8) with 18446744073709551616. lia.
Qed.

Ltac place :=
  destruct skip_place as ((Hpos & Hqm & Hroom & Hqd & Hqe & Hrs') & (Hn1 & Hn2 & Hn3 & Hn8) & Hqd' & Hqm' & Hq8 & Hq64).

Lemma skip_end : en_pos e + 16 + mh_length (en_head e) = q'.
Proof. place. unfold skip_entry at 1 2. cbn [en_pos en_head mh_length]. lia. Qed.

(** [wd'] is [wd] with the file grown to hold the next region. *)
Record grown (wd' : world) : Prop := {
  gn_grows : grows f wd wd';
  gn_len : len_of wd' f = Z.max (w_file_len w) ((q / rs + 1 + 1) * rs)
}.

Lemma grown_frame wd1 wd2 : grown wd1 -> frame f wd1 wd2 -> grown wd2.
Proof.
  intros [Hg Hl] Hf. constructor; [eapply grows_trans; [exact Hg|by apply frame_grows]|by rewrite (fr_len _ _ _ Hf)].
Qed.

Lemma grown_calm wd' : grown wd' -> calm wd'.
Proof. intros [Hg _]. by eapply grows_calm. Qed.

Lemma grown_bounds wd' :
  grown wd' -> len_of wd' f <= I64_MAX /\ rs <= len_of wd' f /\ in_file rs (len_of wd' f) q /\ in_file rs (len_of wd' f) q'.
Proof.
  intros [Hg ->]. place. pose proof (wk_len _ _ _ Hw). pose proof (wk_file_len _ _ _ Hw) as Hfl.
  pose proof (writer_ok_rs_len _ _ _ Hw). unfold in_file. rewrite Hqd', Hfl. lia.
Qed.

Lemma grown_write wd' a bs : grown wd' -> grown (write_inode f a bs wd').
Proof. intros Hg. apply (grown_frame wd'); [done|]. auto with xch. Qed.

(** *** Its states *)

Lemma laying_is_between wd' :
  grown wd' -> untouched q d (data_of wd' f) -> same (q + 16) q' d (data_of wd' f) -> between wd'.
Proof.
  intros Hg Hu Hs. apply (untouched_interrupted f rs es e wd wd' (wk_segment _ _ _ Hw)); [apply Hg|by apply grown_bounds|done|].
  by rewrite skip_end.
Qed.

Lemma skip_slot_free : untouched q d d.
Proof. split; [done|]. apply (sg_slot _ _ _ _ (wk_segment _ _ _ Hw)). Qed.

Lemma laid_untouched : untouched q d d2 /\ untouched q d d3.
Proof.
  place. assert (H2 : untouched q d d2) by (apply untouched_wr; [apply skip_slot_free|lia]).
  split; [done|]. by apply untouched_header.
Qed.

Lemma laid_payload : same (q + 16) q' d d2 /\ same (q + 16) q' d d3.
Proof.
  place. assert (H2 : same (q + 16) q' d d2) by (apply same_wr; rewrite length_message_header_bytes; lia).
  split; [done|]. eapply same_trans; [exact H2|]. apply same_wr. rewrite length_message_header_bytes. lia.
Qed.

Lemma skip_committed : committed_at rs es e d d4.
Proof.
  place. assert (Hh : header_ok h) by (unfold header_ok; cbn; lia). pose proof skip_end as Hend. constructor.
  - apply (wk_segment _ _ _ Hw).
  - constructor; [change (0 <= q < 2 ^ 63); lia| |done|right; right; done|].
    + change (en_pos e) with q. rewrite (commit_head d3 q h); [done|]. by apply message_header_wr.
    + change (q mod rs + 16 + (rs - q mod rs - 16) <= rs). lia.
  - rewrite <- (message_header_same d3) by (apply same_put; lia).
    rewrite <- (message_header_same d2) by (apply same_wr; rewrite length_message_header_bytes; lia).
    apply message_header_wr, preinstalled_ok.
  - change (en_pos e) with q. eapply same_trans; [apply (proj2 laid_untouched)|]. apply same_put. lia.
  - rewrite Hend. change (en_pos e) with q. eapply same_trans; [apply (proj2 laid_payload)|]. apply same_put. lia.
Qed.

Lemma skipped_advancing : advancing es e d4 d5.
Proof.
  destruct (pair_at_rest skip_committed) as [_ Hn]. place.
  constructor; [apply (kept_head_put 8); [by left|apply kept_head_refl]|apply (same_put _ _ 8); right; done|].
  right. rewrite get_put_eq, get_put_ne, Hn by (right; done). split; [by apply Z.mod_small|].
  change (is_user e) with false. cbn iota. lia.
Qed.

Lemma skip_is_between wd' : grown wd' -> advancing es e d4 (data_of wd' f) -> between wd'.
Proof.
  intros Hg Ha. destruct (grown_bounds _ Hg) as (H1' & _ & _ & H2').
  by eapply (advancing_between skip_committed); [done|apply Hg|..].
Qed.

(** What the move leaves. *)
Definition moved_writer (held : list RegionMapping) : Writer :=
  set_next_hdr_pos q' (set_held held (set_current (Mapping f q' rs) (q / rs + 1)
    (set_w_file_len (Z.max (w_file_len w) ((q / rs + 1 + 1) * rs)) (set_pending None w)))).

Lemma moved_writer_ok held wd' :
  grown wd' -> data_of wd' f = d5 -> writer_ok (moved_writer held) wd' (es ++ [e]).
Proof.
  intros Hg Hd. destruct (grown_bounds _ Hg) as (H1' & H2' & _ & H3'). place.
  assert (Hwp : get 8 d5 OFF_write_position = q' + 16) by (rewrite get_put_eq; by apply Z.mod_small).
  constructor; try apply Hw; cbn -[en_next skip_entry]; try done.
  - unfold region_of. by rewrite Hqd', <- Hn1.
  - by rewrite (gn_len _ Hg).
  - destruct (wk_roll _ _ _ Hw) as [|Hroll]; [by left|right]. pose proof (gr_len _ _ _ (gn_grows _ Hg)). lia.
  - rewrite Hd. apply (advanced_segment skip_committed); [apply skipped_advancing|done| |done|].
    + rewrite get_put_ne, (proj2 (pair_at_rest skip_committed)), users_app by (right; done). change (users [e]) with 0. lia.
    + rewrite Hqm'. unfold ROLL_TOTAL, ROLL_TOTAL_V4. lia.
Qed.

(** *** The run *)

Lemma switch_region_run region idx s wd' (Q : res unit -> Writer -> world -> Prop) C :
  w_prefault s = None -> (forall held, Q (Ok tt) (set_held held (set_current region idx s)) wd') ->
  wp (switch_region region idx) s wd' Q C.
Proof.
  intros Hp HQ. unfold switch_region. apply wp_bind, wp_self. apply wp_bind, wp_modify. rewrite Hp.
  case_bool_decide; [apply wp_modify, HQ|apply wp_ret].
  specialize (HQ (w_held s)). by destruct s.
Qed.

(** What [roll_over_region] ends with. *)
Definition left_region (r : res unit) (w' : Writer) (wd' : world) : Prop :=
  r = Ok tt /\ writer_ok w' wd' (es ++ [e]) /\ w_pending_msg_size w' = None /\ w_next_hdr_pos w' = q' /\
  same_channel w w' /\ same 24 q d (data_of wd' f) /\ grows f wd wd' /\ kept_head d (data_of wd' f).

Lemma left_region_ok held wd' : grown wd' -> data_of wd' f = d5 -> left_region (Ok tt) (moved_writer held) wd'.
Proof.
  intros Hg Hd. destruct (committed_kept skip_committed d5 skipped_advancing) as (_ & Hh & _).
  split_and!; try done; [by apply moved_writer_ok| |apply Hg|by rewrite Hd].
  rewrite Hd. eapply same_trans; [eapply same_sub; [apply (ca_below _ _ _ _ _ skip_committed)|done|reflexivity]|].
  apply same_put. right. done.
Qed.

(** The two headers and the commit. *)
Lemma skip_run {A} (k : M Writer A) s wd1 Q :
  grown wd1 -> data_of wd1 f = d ->
  (forall wd', grown wd' -> data_of wd' f = d4 -> wp k s wd' Q between) ->
  wp (store_header (region_of f rs q') 0 preinstalled ;;
      match get_bytes_mut (region_of f rs q) (q mod rs) MESSAGE_HEADER_SIZE with
      | None => throw (err_other "roll_over_region: header bytes")
      | Some _ =>
          store_header (region_of f rs q) (q mod rs) (Header 0 (HeaderType_u8 Skip) 0 (u32 (rs - q mod rs - 16)) 0) ;;
          commit (region_of f rs q) (q mod rs) ;; k
      end) s wd1 Q between.
Proof.
  intros Hg1 Hd1 Hk. place. pose proof (wk_rs _ _ _ Hw) as Hrs.
  destruct (grown_bounds _ Hg1) as (_ & _ & _ & Hin1). rewrite (wrap_small 32) by lia. unfold store_header, commit, store_u8.
  replace (store (region_of f rs q') 0) with (store (S := Writer) (region_of f rs q') (q' mod rs)) by (by rewrite Hqm').
  assert (Hd2 : data_of (write_inode f q' (message_header_bytes preinstalled) wd1) f = d2) by (by rewrite data_of_write_eq, Hd1).
  apply wp_bind, wp_store_rec0; [done|by apply grown_calm|done|rewrite length_message_header_bytes; lia| |].
  { apply laying_is_between; [by apply grown_write|rewrite Hd2; apply laid_untouched|rewrite Hd2; apply laid_payload]. }
  set (wd2 := write_inode _ _ _ wd1) in *. assert (Hg2 : grown wd2) by (by apply grown_write). clearbody wd2.
  rewrite get_bytes_mut_Some by (cbn; unfold MESSAGE_HEADER_SIZE; lia).
  destruct (grown_bounds _ Hg2) as (_ & _ & Hin2 & _).
  assert (Hd3 : data_of (write_inode f q (message_header_bytes h) wd2) f = d3) by (by rewrite data_of_write_eq, Hd2).
  apply wp_bind, wp_store_rec0; [done|by apply grown_calm|done|rewrite length_message_header_bytes; lia| |].
  { apply laying_is_between; [by apply grown_write|rewrite Hd3; apply laid_untouched|rewrite Hd3; apply laid_payload]. }
  set (wd3 := write_inode _ _ _ wd2) in *. assert (Hg3 : grown wd3) by (by apply grown_write). clearbody wd3.
  destruct (grown_bounds _ Hg3) as (_ & _ & Hin3 & _).
  assert (Hd4 : data_of (write_inode f q (le_bytes 1 COMMITTED) wd3) f = d4) by (by rewrite data_of_write_eq, Hd3).
  apply wp_bind, wp_store_rec0; [done|by apply grown_calm|done|rewrite length_le_bytes; lia| |by apply Hk; [apply grown_write|]].
  apply skip_is_between; [by apply grown_write|]. rewrite Hd4. apply (committed_advancing skip_committed).
Qed.

Lemma roll_over_run : wp roll_over_region w wd left_region between.
Proof.
  place. pose proof (wk_rs _ _ _ Hw) as Hrs. unfold roll_over_region. apply wp_bind, wp_modify. apply wp_bind, wp_self.
  set (w0 := set_pending None w).
  change (w_next_hdr_pos w0) with q. change (w_region_size w0) with rs. change (w_current_region w0) with (w_current_region w).
  change HEADER_SLOT with 16. cbv zeta.
  replace (rs - q mod rs >=? 16) with true by (symmetry; rewrite Z.geb_leb; apply Z.leb_le; lia).
  unfold I64_MAX in Hmax. rewrite (wrap_small 64 (q + 16 + _)) by lia.
  replace (q + 16 + (rs - q mod rs - 16)) with q' by lia. rewrite Hqd'.
  apply wp_bind, region_at_spec; [done|done|apply Hw|apply Hw|lia|change (w_region_size w0) with rs; unfold I64_MAX; lia|].
  change (w_file w0) with f. change (w_region_size w0) with rs. change (w_file_len w0) with (w_file_len w).
  intros w1 wd1 -> Hg1 Hd1 Hl1. assert (Hgn1 : grown wd1) by by constructor.
  split; [apply laying_is_between; [done|rewrite Hd1; apply skip_slot_free|by rewrite Hd1]|].
  rewrite get_bytes_mut_Some by (cbn; unfold MESSAGE_HEADER_SIZE; lia).
  replace (Mapping f ((q / rs + 1) * rs) rs) with (region_of f rs q') by (unfold region_of; by rewrite Hqd').
  rewrite (wk_current _ _ _ Hw). apply skip_run; [done|by rewrite Hd1|]. intros wd4 Hg4 Hd4.
  replace (region_of f rs q') with (Mapping f q' rs) by (unfold region_of; by rewrite Hqd', <- Hn1).
  apply wp_bind, switch_region_run; [apply Hw|intros held]. apply wp_bind, wp_modify.
  unfold store_wp_local, store_u64. apply wp_bind, wp_self.
  cbn [w_channel_region set_next_hdr_pos set_held set_current set_w_file_len set_pending w0].
  rewrite (wk_channel _ _ _ Hw). destruct (grown_bounds _ Hg4) as (_ & Hrl & _).
  assert (Hd5 : data_of (write_inode f OFF_write_position (le_bytes 8 (q' + 16)) wd4) f = d5) by (by rewrite data_of_write_eq, Hd4).
  assert (Hg5 : grown (write_inode f OFF_write_position (le_bytes 8 (q' + 16)) wd4)) by (by apply grown_write).
  apply wp_store_head; [done|by apply grown_calm|done|done|done| |].
  - apply skip_is_between; [done|]. rewrite Hd5. apply skipped_advancing.
  - by apply left_region_ok.
Qed.

End leaving.

(** ** Reserving *)

(** The bytes a reservation of [n] needs after the slot: the record, padded, and a [Roll]. *)
Definition needed (n : Z) : Z := align_up (HEADER_SLOT + n) + ROLL_TOTAL.

Lemma needed_bounds n : 0 <= n < 2 ^ 32 -> n + 72 <= needed n < n + 80 /\ needed n mod 8 = 0.
Proof.
  intros. unfold needed, HEADER_SLOT, MESSAGE_HEADER_SIZE, ROLL_TOTAL, ROLL_TOTAL_V4.
  pose proof (align_up_bounds (16 + n)). split; [lia|zlia].
Qed.

(** The reservation fits where the writer is. *)
Definition fits (w : Writer) (n : Z) : Prop :=
  (w_file_roll_size w = 0 \/ w_next_hdr_pos w + needed n <= w_file_roll_size w) /\
  w_next_hdr_pos w mod w_region_size w + needed n <= w_region_size w.

(** The bytes before the slot [q] are the same in both worlds. *)
Definition kept (f q : Z) (wd wd' : world) : Prop := same 0 q (data_of wd f) (data_of wd' f).

Lemma segment_ok_same rs d d' es q :
  segment_ok rs d es q -> 208 <= q -> same 0 (q + 16) d d' -> segment_ok rs d' es q.
Proof.
  intros [H1 H2 H3 H4 H5 H6 H7] Hq Hs. constructor; try done.
  - rewrite <- (message_header_same d); [done|]. eapply same_sub; [exact Hs|lia..].
  - eapply chain_same; [|exact H2]. eapply same_sub; [exact Hs|done|lia].
  - rewrite <- (get_same 1 d); [done|]. eapply same_sub; [exact Hs|lia..].
  - rewrite <- (get_same 8 d); [done|]. eapply same_sub; [exact Hs|done|].
    unfold OFF_write_position, MESSAGE_HEADER_SIZE. lia.
  - rewrite <- (get_same 8 d); [done|]. eapply same_sub; [exact Hs|done|].
    unfold OFF_message_count, MESSAGE_HEADER_SIZE. lia.
Qed.

Lemma reserve_here w wd es n :
  quiet wd -> writer_ok w wd es -> 0 <= n < 2 ^ 32 -> fits w n ->
  wp (reserve_step n (align_up (HEADER_SLOT + n)) (needed n)) w wd
    (fun r w' wd' =>
       r = Ok (Some (Slice (w_current_region w)
                       (w_next_hdr_pos w mod w_region_size w + HEADER_SLOT) n)) /\
       w' = set_pending (Some n) w /\ writer_ok w' wd' es /\ reserved w' wd' n /\
       frame (w_file w) wd wd' /\ kept (w_file w) (w_next_hdr_pos w + 16 + n) wd wd')
    (fun wd' => segment_ok (w_region_size w) (data_of wd' (w_file w)) es (w_next_hdr_pos w)).
Proof.
  intros Hq Hw Hn [Hroll Hreg]. pose proof (needed_bounds n Hn) as [Hnb _].
  pose proof (wk_rs _ _ _ Hw) as Hrs. pose proof (rs_pos _ Hrs) as Hrs'.
  pose proof (writer_ok_next _ _ _ Hw) as Hpos. pose proof (wk_segment _ _ _ Hw) as Hseg.
  unfold needed in Hroll, Hreg, Hnb. unfold reserve_step, needed.
  unfold HEADER_SLOT, MESSAGE_HEADER_SIZE, ROLL_TOTAL, ROLL_TOTAL_V4 in *.
  set (q := w_next_hdr_pos w) in *. set (rs := w_region_size w) in *. set (f := w_file w) in *.
  set (a := align_up (16 + n)) in *.
  assert (Hqm : 0 <= q mod rs) by (apply Z.mod_pos_bound; lia).
  destruct (same_region rs q a) as [Hd Hm]; [lia..|].
  apply wp_bind, wp_self. fold q rs.
  assert (Hf : (w_file_roll_size w >? 0) && (u64 (q + (a + 56)) >? w_file_roll_size w) = false).
  { rewrite wrap_small by lia. apply andb_false_iff.
    destruct Hroll as [->|]; [by left|right]. rewrite Z.gtb_ltb. apply Z.ltb_ge. lia. }
  rewrite Hf. rewrite !(wrap_small 64) by lia.
  replace (q mod rs + (a + 56) >? rs) with false by (symmetry; rewrite Z.gtb_ltb; apply Z.ltb_ge; lia).
  rewrite (wk_current _ _ _ Hw). fold f rs q.
  rewrite get_bytes_mut_Some by (cbn; lia). rewrite get_bytes_mut_Some by (cbn; lia). cbn [ok_or].
  assert (Hsame : same 0 (q + a) (data_of wd f) (wr (data_of wd f) (q + a) (message_header_bytes preinstalled))).
  { apply same_wr. lia. }
  assert (Hs' : segment_ok rs (wr (data_of wd f) (q + a) (message_header_bytes preinstalled)) es q).
  { eapply segment_ok_same; [done|lia|]. eapply same_sub; [exact Hsame|lia..]. }
  unfold store_header. apply wp_bind, wp_store_rec; [done|done|apply Hw|lia|
    rewrite length_message_header_bytes; lia|by rewrite data_of_write_eq|].
  apply wp_bind, wp_modify. apply wp_bind, wp_lift, wp_ret.
  set (wd' := write_inode f _ _ wd).
  assert (Hd' : data_of wd' f = wr (data_of wd f) (q + a) (message_header_bytes preinstalled))
    by (unfold wd'; by rewrite data_of_write_eq).
  assert (Hfr : frame f wd wd') by (unfold wd'; auto with xch). clearbody wd'.
  split_and!; [done|done| | |done|].
  - constructor; cbn; fold f; rewrite ?(fr_len _ _ _ Hfr); try apply Hw. by rewrite Hd'.
  - constructor; [done|done|unfold HEADER_SLOT, MESSAGE_HEADER_SIZE, ROLL_TOTAL, ROLL_TOTAL_V4; cbn; fold q rs a; lia|].
    cbn. fold f q a. rewrite Hd'. apply message_header_wr, preinstalled_ok.
  - unfold kept. rewrite Hd'. eapply same_sub; [exact Hsame|lia|]. pose proof (align_up_bounds (16 + n)). lia.
Qed.

End reserve.
