(* ===== verification/PrepareFacts.v ===== *)
(** * Preparing a segment (src/lib.rs: prepare_segment_at, init_segment; src/v4.rs) *)

From S2P Require Import Prelude Bytes Crc32c Effects Region Channel V4 V4Facts Names Segment Chain RegionFacts SegmentFacts Helper Prefault Writer WriterInv.

#[local] Open Scope Z_scope.

(** ** The bytes *)

Definition name_ok (name : list Z) : Prop := length name = CHANNEL_NAME_MAX /\ Forall is_byte name.

(** A field of a structure written as a list of pieces. *)
Lemma get_wr_nth k d a ps n v x :
  ps !! k = Some (le_bytes n v) -> x = a + Z.of_nat (length (concat (take k ps))) ->
  0 <= v < 256 ^ Z.of_nat n -> get n (wr d a (concat ps)) x = v.
Proof.
  intros Hk Hx Hv. apply (get_wr_field n d a x v (concat (take k ps)) (concat (drop (Datatypes.S k) ps)));
    [|done|done].
  rewrite <- (take_drop_middle ps k (le_bytes n v)) at 1 by done. by rewrite concat_app.
Qed.

Lemma peek_wr_nth k d a ps n v x :
  ps !! k = Some v -> x = a + Z.of_nat (length (concat (take k ps))) -> n = length v ->
  Forall is_byte v -> peek (wr d a (concat ps)) x n = v.
Proof.
  intros Hk Hx Hn Hv. apply (peek_wr_field n d a x v (concat (take k ps)) (concat (drop (Datatypes.S k) ps)));
    [|done|done|done].
  rewrite <- (take_drop_middle ps k v) at 1 by done. by rewrite concat_app.
Qed.

Lemma channel_header_wr d base seq rs mtu name gen :
  0 <= base < 2 ^ 64 -> 0 <= seq < 2 ^ 64 -> name_ok name -> 0 <= gen < 2 ^ 64 ->
  channel_header_at (wr d 16 (channel_header_bytes base seq rs mtu name gen)) 0 =
    CHeader 0 0 base seq (u32 rs) (u32 mtu) 4 1 8 0 8 name 0 0 gen.
Proof.
  intros Hb Hs [Hl Hn] Hg.
  assert (H32 : forall x, 0 <= u32 x < 2 ^ 32) by (intros; apply wrap_range; lia).
  pose proof (H32 rs). pose proof (H32 mtu).
  set (ps := [le_bytes 8 0; le_bytes 8 0; le_bytes 8 base; le_bytes 8 seq; le_bytes 4 (u32 rs);
    le_bytes 4 (u32 mtu); le_bytes 2 FORMAT_VERSION; le_bytes 1 ENDIANNESS_LE;
    le_bytes 1 SYSTEM_HEADER_SIZE; le_bytes 4 USER_HEADER_KIND_DEFAULT; le_bytes 1 USER_HEADER_SIZE;
    name; le_bytes 1 0; zeros 2; le_bytes 4 0; zeros 16; le_bytes 8 gen]).
  replace (channel_header_bytes base seq rs mtu name gen) with (concat ps)
    by (unfold ps, channel_header_bytes; cbn [concat]; by rewrite app_nil_r).
  unfold channel_header_at.
  unfold CHANNEL_NAME_MAX in Hl |- *. unfold ps. clear ps.
  f_equal.
  - apply (get_wr_nth 0); [done|reflexivity|done].
  - apply (get_wr_nth 1); [done|reflexivity|done].
  - apply (get_wr_nth 2); [done|reflexivity|done].
  - apply (get_wr_nth 3); [done|reflexivity|done].
  - apply (get_wr_nth 4); [done|reflexivity|done].
  - apply (get_wr_nth 5); [done|reflexivity|done].
  - apply (get_wr_nth 6); [done|reflexivity|done].
  - apply (get_wr_nth 7); [done|reflexivity|done].
  - apply (get_wr_nth 8); [done|reflexivity|done].
  - apply (get_wr_nth 9); [done|reflexivity|done].
  - apply (get_wr_nth 10); [done|reflexivity|done].
  - apply (peek_wr_nth 11); [done|reflexivity|done|done].
  - apply (get_wr_nth 12); [done|cbn [take concat]; rewrite !length_app, Hl; reflexivity|done].
  - apply (get_wr_nth 14); [done|cbn [take concat]; rewrite !length_app, Hl; reflexivity|done].
  - apply (get_wr_nth 16); [done|cbn [take concat]; rewrite !length_app, Hl; reflexivity|done].
Qed.

Lemma channel_header_same d d' : same 16 144 d d' -> channel_header_at d 0 = channel_header_at d' 0.
Proof.
  intros Hs. unfold channel_header_at.
  f_equal; first [apply get_same|apply peek_same]; (eapply same_sub; [exact Hs|done..]).
Qed.

Lemma ext_at_same d d' : same 144 208 d d' -> ext_at d 144 = ext_at d' 144.
Proof.
  intros Hs. unfold ext_at.
  f_equal; first [apply get_same|apply peek_same]; (eapply same_sub; [exact Hs|done..]).
Qed.

(** What [prepare_segment_at] makes of a new file. *)
Record prepared_ok `{Env} (d : bytes) (seq rs mtu : Z) (name : list Z) (base gen : Z) (i : Identity) : Prop := {
  pr_channel : message_header d 0 = channel_record;
  pr_header : channel_header_at d 0 =
    CHeader INITIAL_WRITE_POSITION_V4 0 base seq (u32 rs) (u32 mtu) 4 1 8 0 8 name 0 0 gen;
  pr_ext : ext_at d EXT_FILE_OFFSET = init_prepared i;
  pr_slot : message_header d FIRST_RECORD = preinstalled
}.

Lemma channel_header_put_position d v h :
  channel_header_at d 0 = h -> 0 <= v < 2 ^ 64 ->
  channel_header_at (put 8 d OFF_write_position v) 0 =
    CHeader v (ch_message_count h) (ch_base_record_index h) (ch_channel_sequence h) (ch_region_size h)
      (ch_mtu h) (ch_format_version h) (ch_endianness h) (ch_system_header_size h)
      (ch_user_header_kind h) (ch_user_header_size h) (ch_channel_name h) (ch_wake_flags h)
      (ch_wake_word h) (ch_generation h).
Proof.
  intros <- Hv. set (d' := put 8 d OFF_write_position v).
  assert (Hs : same 24 144 d' d) by (apply same_sym, same_put; right; done).
  unfold channel_header_at. cbn [ch_message_count ch_base_record_index ch_channel_sequence ch_region_size
    ch_mtu ch_format_version ch_endianness ch_system_header_size ch_user_header_kind
    ch_user_header_size ch_channel_name ch_wake_flags ch_wake_word ch_generation].
  f_equal; [unfold d'; change (0 + OFF_write_position) with OFF_write_position; rewrite get_put_eq; by apply Z.mod_small|..];
    first [apply get_same|apply peek_same]; (eapply same_sub; [exact Hs|done..]).
Qed.

Lemma prepared_bytes `{Env} d seq rs mtu name base gen i :
  0 <= base < 2 ^ 64 -> 0 <= seq < 2 ^ 64 -> name_ok name -> 0 <= gen < 2 ^ 64 -> identity_ok i ->
  let d1 := wr d 0 (message_header_bytes channel_record) in
  let d2 := wr d1 16 (channel_header_bytes base seq rs mtu name gen) in
  let d3 := wr d2 EXT_FILE_OFFSET (ext_bytes (init_prepared i)) in
  let d4 := wr d3 FIRST_RECORD (message_header_bytes preinstalled) in
  prepared_ok (put 8 d4 OFF_write_position INITIAL_WRITE_POSITION_V4) seq rs mtu name base gen i.
Proof.
  intros Hb Hs Hn Hg Hi d1 d2 d3 d4.
  assert (Hlc : length (channel_header_bytes base seq rs mtu name gen) = 128%nat).
  { destruct Hn as [Hl _]. unfold channel_header_bytes. rewrite !length_app, Hl. reflexivity. }
  pose proof (init_prepared_ok i Hi) as Hext.
  assert (Hle : length (ext_bytes (init_prepared i)) = 64%nat).
  { destruct Hext as ((H1 & H2 & H3 & H4 & H5 & H6 & H7) & _). unfold ext_bytes. rewrite !length_app, H1, H2, H3, H4, H5, H6, H7, length_le_bytes. done. }
  assert (S1 : same 0 16 d1 (put 8 d4 OFF_write_position INITIAL_WRITE_POSITION_V4)).
  { unfold d4, d3, d2. repeat (eapply same_trans; [|apply same_wr; left; done]). done. }
  assert (S3 : same 24 208 d3 (put 8 d4 OFF_write_position INITIAL_WRITE_POSITION_V4)).
  { eapply same_trans; [|apply same_put; right; done]. unfold d4. apply same_wr. left. done. }
  constructor.
  - rewrite <- (message_header_same _ _ _ S1). by apply message_header_wr.
  - rewrite (channel_header_put_position d4 _ (CHeader 0 0 base seq (u32 rs) (u32 mtu) 4 1 8 0 8 name 0 0 gen));
      [done| |done].
    rewrite <- (channel_header_wr d1) by done. fold d2. symmetry. apply channel_header_same.
    unfold d4, d3. repeat (eapply same_trans; [|apply same_wr; left; done]). done.
  - rewrite <- (ext_at_same d3) by (eapply same_sub; [exact S3|done..]). by apply ext_at_wr.
  - rewrite <- (message_header_same d4) by (apply same_put; right; done). by apply message_header_wr.
Qed.

(** ** The run *)

(** The world with a new private file [ino] at [path]; nothing else differs. *)
Record private (path : string) (ino : Z) (w w' : world) : Prop := {
  pv_dir : w_dir w' = <[path := DFile ino]> (w_dir w);
  pv_next : w_next w' = ino + 1;
  pv_oracle : w_oracle w' = w_oracle w;
  pv_others : forall i, i <> ino -> inode_of w' i = inode_of w i
}.

Lemma private_write path ino w w' a bs : private path ino w w' -> private path ino w (write_inode ino a bs w').
Proof.
  intros [? ? ? Ho]. constructor; try done. intros i Hi. rewrite inode_of_write_ne by done. auto.
Qed.

Lemma private_resize path ino w w' len : private path ino w w' -> private path ino w (resize_inode ino len w').
Proof.
  intros [? ? ? Ho]. constructor; try done. intros i Hi. rewrite inode_of_resize_ne by done. auto.
Qed.

Lemma private_calm path ino w w' : private path ino w w' -> calm w -> calm w'.
Proof. unfold calm, quiet, healthy. intros [_ _ -> _]. done. Qed.

#[export] Hint Resolve private_write private_resize private_calm : xch.

(** A segment as [prepare_segment_at] leaves it: its length and its bytes. *)
Record prepared `{Env} (w : world) (ino len seq rs mtu : Z) (name : list Z) (base gen : Z) (i : Identity) : Prop := {
  pp_len : len_of w ino = len;
  pp_bytes : prepared_ok (data_of w ino) seq rs mtu name base gen i
}.

Section prepare.
Context `{EnvOk} {S : Type}.
Implicit Types (s : S).

Lemma wp_create_new path s w (Q : res Z -> S -> world -> Prop) (C : world -> Prop) :
  calm w -> w_dir w !! path = None ->
  (forall w', private path (w_next w) w w' -> len_of w' (w_next w) = 0 ->
     data_of w' (w_next w) = ∅ -> C w' /\ Q (Ok (w_next w)) s w') ->
  wp (create_new path) s w Q C.
Proof.
  intros Hc Hp HQ. unfold create_new.
  eapply wp_reads_bind; [by apply reads_syscall|].
  apply wp_bind, wp_ask. rewrite Hp. apply wp_bind, wp_ask.
  set (w' := set_next (w_next w + 1) (set_inodes (<[w_next w := empty_inode]> (w_inodes w))
               (set_dir (<[path := DFile (w_next w)]> (w_dir w)) w))). destruct (HQ w') as [HC HQ'].
  - constructor; try done. intros i Hi. unfold inode_of, w'. cbn. by rewrite lookup_insert_ne.
  - unfold len_of, inode_of, w'. cbn. by rewrite lookup_insert_eq.
  - unfold data_of, inode_of, w'. cbn. by rewrite lookup_insert_eq.
  - apply wp_bind, wp_emit; [done|]. by apply wp_ret.
Qed.

Lemma init_segment_run ino path seq rs len mtu name base gen i w0 s w (C : world -> Prop) (Q : res PreparedSegment -> S -> world -> Prop) :
  calm w -> rs_ok rs -> rs <= len <= I64_MAX ->
  0 <= base < 2 ^ 64 -> 0 <= seq < 2 ^ 64 -> name_ok name -> 0 <= gen < 2 ^ 64 -> identity_ok i ->
  private path ino w0 w -> len_of w ino = 0 ->
  (forall w', private path ino w0 w' -> C w') ->
  (forall w', private path ino w0 w' -> prepared w' ino len seq rs mtu name base gen i ->
     Q (Ok (PSegment ino (Mapping ino 0 rs) (Mapping ino 0 rs) 0 len FIRST_RECORD)) s w') ->
  wp (init_segment ino seq rs len mtu name base gen i) s w Q C.
Proof.
  intros Hc Hrs Hlen Hb Hs Hn Hg Hi Hpv Hl0 HC HQ. pose proof Hrs as [Hrs' _].
  assert (Hlc : length (channel_header_bytes base seq rs mtu name gen) = 128%nat).
  { destruct Hn as [Hl _]. unfold channel_header_bytes. rewrite !length_app, Hl. reflexivity. }
  assert (Hle : length (ext_bytes (init_prepared i)) = 64%nat).
  { destruct (init_prepared_ok i Hi) as ((H1 & H2 & H3 & H4 & H5 & H6 & H7) & _).
    unfold ext_bytes. rewrite !length_app, H1, H2, H3, H4, H5, H6, H7, length_le_bytes. done. }
  unfold init_segment. apply wp_bind, wp_attempt, wp_set_len; [done|lia|by auto 20 with xch|].
  set (w1 := resize_inode ino len w).
  assert (Hp1 : private path ino w0 w1) by (unfold w1; auto with xch).
  assert (Hc1 : calm w1) by done.
  assert (Hl1 : len_of w1 ino = len) by (unfold w1; by rewrite len_of_resize_eq).
  clearbody w1. assert (Ha : aligned 0 rs).
  { pose proof (rs_aligned rs 0 Hrs) as Ha. by rewrite Z.div_0_l in Ha by lia. }
  eapply wp_reads_bind; [apply reads_create_writable; [done|done|done|lia]|].
  unfold store_header.
  apply wp_bind, wp_store_head; [done|apply Hc1|lia|done|done|by auto 20 with xch|].
  apply wp_bind, wp_store_head; [done|apply Hc1|rewrite ?len_of_write; lia|done|by rewrite Hlc|by auto 20 with xch|].
  apply wp_bind, wp_store_head; [done|apply Hc1|rewrite ?len_of_write; lia|done|by rewrite Hle|by auto 20 with xch|].
  eapply wp_reads_bind; [apply reads_create_writable; [done|done|done|rewrite !len_of_write; lia]|].
  rewrite get_bytes_mut_Some by (cbn; unfold FIRST_RECORD, FIRST_RECORD_V4, MESSAGE_HEADER_SIZE, U32_MAX in *; lia).
  apply wp_bind, wp_store_head; [done|apply Hc1|rewrite ?len_of_write; lia|done|done|by auto 20 with xch|].
  unfold store_u64.
  apply wp_bind, wp_store_head; [done|apply Hc1|rewrite ?len_of_write; lia|done|done|by auto 20 with xch|].
  apply wp_ret. apply HQ; [auto 10 with xch|]. constructor; [by rewrite !len_of_write|].
  rewrite !data_of_write_eq. by apply prepared_bytes.
Qed.

Lemma prepare_run path seq rs frs len mtu name base gen i s w (C : world -> Prop) (Q : res PreparedSegment -> S -> world -> Prop) :
  calm w -> rs_ok rs -> preallocation_len rs frs = Ok len -> rs <= len <= I64_MAX ->
  0 <= base < 2 ^ 64 -> 0 <= seq < 2 ^ 64 -> name_ok name -> 0 <= gen < 2 ^ 64 -> identity_ok i ->
  w_dir w !! path = None -> 
  let ino := w_next w in
  (forall w', private path ino w w' -> C w') ->
  (forall w', private path ino w w' -> prepared w' ino len seq rs mtu name base gen i ->
     Q (Ok (PSegment ino (Mapping ino 0 rs) (Mapping ino 0 rs) 0 len FIRST_RECORD)) s w') ->
  wp (prepare_segment_at path seq rs frs mtu name base gen i) s w Q C.
Proof.
  intros Hc Hrs Hpl Hlen Hb Hs Hn Hg Hi Hp ino HC HQ. unfold prepare_segment_at.
  apply wp_bind, wp_lift. rewrite Hpl.
  apply wp_bind, wp_create_new; [done|done|]. intros w1 Hp1 Hl1 Hd1. split; [by apply HC|].
  apply wp_bind, wp_attempt. eapply init_segment_run; try done; [by eapply private_calm|].
  intros w' Hp' Hpr. apply wp_ret. by apply HQ.
Qed.

End prepare.
