(* ===== verification/RollFacts.v ===== *)
(** * Rolling to the next file (src/lib.rs: prepare_successor, roll_file; src/v4.rs) *)

From S2P Require Import Prelude Bytes Crc32c Effects Region Channel V4 V4Facts Names NamesFacts Segment Chain RegionFacts SegmentFacts Helper Prefault Writer WriterInv CommitFacts ReserveFacts PrepareFacts.

#[local] Open Scope Z_scope.

(** ** Names and instance IDs *)

Lemma append_not_self s c t : s +:+ String c t <> s.
Proof.
  induction s as [|a s IH]; [done|]. rewrite app_cons_s. intros [= Hs]. by apply IH.
Qed.

Lemma attempt_not_final base seq id : attempt_name base seq id <> channel_file_name base seq.
Proof. unfold attempt_name. apply append_not_self. Qed.

(** The world after the next draw from the random source. *)
Definition drawn (rest : list (list Z)) (w : world) : world := set_oracle (set_random rest (w_oracle w)) w.

Section naming.
Context `{EnvOk} {S : Type}.
Implicit Types (s : S) (w : world).

Lemma reads_channel_path base seq s w :
  w_dir w !! base <> Some DDir ->
  reads (make_channel_file_path base seq) s w (Ok (channel_file_name base seq)).
Proof.
  intros Hb. eapply reads_seq.
  - unfold is_dir. eapply reads_seq; [apply reads_ask|].
    apply reads_ret.
  - cbn beta. destruct (w_dir w !! base) as [[]|] eqn:E; try done.
Qed.

Lemma reads_attempt_path base seq id s w :
  w_dir w !! base <> Some DDir ->
  reads (make_attempt_path base seq id) s w (Ok (attempt_name base seq id)).
Proof. intros Hb. eapply reads_seq; [by apply reads_channel_path|]. done. Qed.

(** A request to a source that has a whole ID to give. *)
Lemma fill_random_run id rest s w :
  calm w -> o_random (w_oracle w) = id :: rest -> length id = 16%nat -> fill_random 16 s w = Outcome (Ok id) s (drawn rest w) [].
Proof.
  intros Hc Hr Hl. unfold fill_random. rewrite (reads_bind _ _ _ _ _ (reads_ask _ s w)), Hr, (proj2 Hc).
  assert (Eg : getrandom 16 s w = Outcome (Ok id) s (drawn rest w) []).
  { unfold getrandom. rewrite (reads_bind _ _ _ _ _ (reads_syscall s w Hc)). unfold bind, consume. rewrite Hr. cbn [o_res].
    by rewrite take_ge by (by rewrite Hl). }
  cbn [length Nat.add loop_with]. unfold fill_step at 1. cbn [length Nat.ltb Nat.leb Nat.sub].
  rewrite (bind_outcome _ _ _ _ (inl id) s (drawn rest w)).
  - destruct (length rest); cbn [loop_with]; (rewrite (bind_outcome _ _ _ _ (inr id) s (drawn rest w)); [done|]);
      unfold fill_step; by rewrite Hl.
  - unfold bind, attempt. by rewrite Eg.
Qed.

Lemma wp_fresh id rest s w (Q : res InstanceId -> S -> world -> Prop) C :
  calm w -> o_random (w_oracle w) = id :: rest -> id_ok id -> id <> InstanceId_NONE ->
  Q (Ok id) s (drawn rest w) -> wp InstanceId_fresh s w Q C.
Proof.
  intros Hc Hr [Hl _] Hid HQ. unfold InstanceId_fresh. apply wp_bind, wp_ask.
  pose proof (fill_random_run id rest s w Hc Hr Hl) as Hf.
  assert (El : forall n, loop (Datatypes.S n) (bytes <- fill_random 16 ;; ret (if bool_decide (bytes <> zeros 16) then Some bytes else None)) s w
    = Outcome (Ok id) s (drawn rest w) []).
  { intros n. cbn [loop]. rewrite (bind_outcome _ _ _ _ (Some id) s (drawn rest w)); [done|].
    rewrite (bind_outcome _ _ _ _ _ _ _ Hf). by rewrite bool_decide_eq_true_2. }
  unfold wp. rewrite El. by split; [|constructor].
Qed.

Lemma drawn_calm rest w : calm w -> calm (drawn rest w).
Proof. done. Qed.

(** [renameat2] of a private file to a final name that is free. *)
Lemma wp_install from to ino w0 s w (Q : res unit -> S -> world -> Prop) (C : world -> Prop) :
  calm w -> private from ino w0 w -> from <> to -> w_dir w0 !! from = None -> w_dir w0 !! to = None ->
  (forall w', private to ino w0 w' -> (forall i, inode_of w' i = inode_of w i) -> C w' /\ Q (Ok tt) s w') ->
  wp (install_no_replace from to) s w Q C.
Proof.
  intros Hc Hp Hne Hf Ht HQ. unfold install_no_replace. apply wp_bind, wp_attempt.
  unfold renameat2_noreplace. eapply wp_reads_bind; [by apply reads_syscall|].
  apply wp_bind, wp_ask. apply wp_bind, wp_ask.
  rewrite (pv_dir _ _ _ _ Hp), lookup_insert_eq, lookup_insert_ne, Ht by done.
  set (w' := set_dir (<[to := DFile ino]> (delete from (w_dir w))) w).
  destruct (HQ w') as [HC HQ'].
  - destruct Hp as [Hd Hn Ho Hot]. constructor; try done.
    unfold w'. cbn. rewrite Hd. f_equal. by rewrite delete_insert_id.
  - done.
  - apply wp_emit; [done|]. by apply wp_ret.
Qed.

End naming.

(** ** The successor *)

(** What a roll needs of the world: the writer's file is the named, published segment of its
    sequence, the random source has an ID to give, and the names the successor takes are free. *)
Record can_roll `{Env} (w : Writer) (wd : world) (id : InstanceId) (rest : list (list Z)) (len : Z) : Prop := {
  cr_sequence : 0 <= w_file_sequence w < U64_MAX;
  cr_instance : id_ok (w_instance w) /\ w_instance w <> InstanceId_NONE;
  cr_name : name_ok (w_channel_name w);
  cr_fresh : w_file w < w_next wd;
  cr_base : w_dir wd !! w_base_path w <> Some DDir;
  cr_random : o_random (w_oracle wd) = id :: rest;
  cr_id : id_ok id /\ id <> InstanceId_NONE;
  cr_final : w_dir wd !! channel_file_name (w_base_path w) (w_file_sequence w + 1) = None;
  cr_attempt : w_dir wd !! attempt_name (w_base_path w) (w_file_sequence w + 1) id = None;
  cr_len : preallocation_len (w_region_size w) (w_file_roll_size w) = Ok len;
  cr_roll_size : 0 <= w_file_roll_size w <= U64_MAX;
  cr_indices : get 8 (data_of wd (w_file w)) OFF_base_record_index
               + get 8 (data_of wd (w_file w)) OFF_message_count <= U64_MAX
}.

Section successor.
Context `{EnvOk}.

Definition successor_identity (w : Writer) (id : InstanceId) : Identity :=
  Identity_successor id (w_instance w) (w_file_sequence w).

Lemma successor_identity_ok w wd id rest len :
  can_roll w wd id rest len -> identity_ok (successor_identity w id).
Proof.
  intros Hc. destruct (cr_sequence _ _ _ _ _ Hc). unfold U64_MAX in *.
  split_and!; cbn; [apply Hc..|lia|lia].
Qed.

Lemma prepare_successor_run w wd id rest len gen (C : world -> Prop) (Q : res (Identity * PreparedSegment) -> Writer -> world -> Prop) :
  calm wd -> rs_ok (w_region_size w) -> w_file_roll_size w = 0 \/ 2 * w_region_size w <= w_file_roll_size w ->
  can_roll w wd id rest len -> 0 <= gen < 2 ^ 64 ->
  let base := w_base_path w in
  let seq := w_file_sequence w + 1 in
  let ino := w_next wd in
  let rs := w_region_size w in
  let i := successor_identity w id in
  (forall path wd', path = attempt_name base seq id \/ path = channel_file_name base seq ->
     private path ino (drawn rest wd) wd' -> C wd') ->
  (forall wd', private (channel_file_name base seq) ino (drawn rest wd) wd' ->
     prepared wd' ino len seq rs (w_mtu w) (w_channel_name w) 0 gen i ->
     Q (Ok (i, PSegment ino (Mapping ino 0 rs) (Mapping ino 0 rs) 0 len FIRST_RECORD)) w wd') ->
  wp (prepare_successor seq gen) w wd Q C.
Proof.
  intros Hc Hrs Hfrs Hr Hg base seq ino rs i HC HQ.
  pose proof (cr_base _ _ _ _ _ Hr) as Hbase. fold base in Hbase.
  destruct (cr_sequence _ _ _ _ _ Hr) as [Hs1 Hs2]. unfold U64_MAX in Hs2.
  destruct (preallocation_len_Ok rs (w_file_roll_size w) len) as [Hlen _];
    [pose proof (proj1 Hrs) as Hr1; fold rs in Hr1; lia|apply Hr|done|apply Hr|].
  unfold prepare_successor. apply wp_bind, wp_self. fold base.
  eapply wp_reads_bind; [by apply reads_channel_path|].
  eapply (wp_reads_bind _ _ _ _ false).
  { eapply reads_seq; [by apply reads_syscall|]. eapply reads_seq; [apply reads_ask|].
    unfold seq, base. by rewrite (cr_final _ _ _ _ _ Hr). }
  apply wp_bind, (wp_fresh id rest); [done|apply Hr|apply Hr|apply Hr|].
  eapply wp_reads_bind; [by apply reads_attempt_path|].
  fold (successor_identity w id). fold i. change (instance i) with id.
  apply wp_bind. eapply prepare_run;
    [done|done|apply Hr|done|done|unfold seq; lia|apply Hr|done|by eapply successor_identity_ok|apply Hr|..].
  - intros wd' Hp. eapply HC; [by left|exact Hp].
  - intros wd' Hp Hpr. apply wp_bind, wp_attempt. eapply wp_install;
      [by eapply private_calm|exact Hp|apply attempt_not_final|apply Hr|apply Hr|].
    intros wd2 Hp2 Hi2. split; [eapply HC; [by right|exact Hp2]|].
    apply wp_ret. apply HQ; [done|]. destruct Hpr as [Hl Hb].
    constructor; unfold len_of, data_of in *; by rewrite Hi2.
Qed.

End successor.

(** ** The bytes of a roll *)

(** A committed [Roll] at [q] with the body of [edge]. *)
Definition roll_at `{Env} (d : bytes) (q : Z) (edge : RollEdge) : Prop :=
  message_header d q = Header COMMITTED (HeaderType_u8 Roll) 0 ROLL_PAYLOAD_V4 0 /\
  peek d (q + HEADER_SLOT) 40 = RollEdge_encode edge.

Section bytes.
Context `{Env}.

Lemma published_identity d i :
  ext_at d EXT_FILE_OFFSET = init_prepared i -> identity_wf i ->
  ext_identity (ext_at (put 1 d OFF_publication_state PUBLISHED) EXT_FILE_OFFSET) = Ok i.
Proof.
  intros He Hwf.
  assert (He2 : ext_at (put 1 d OFF_publication_state PUBLISHED) EXT_FILE_OFFSET =
    let e := init_prepared i in Ext (file_instance_id e) (predecessor_instance_id e)
      (ext_predecessor_sequence e) (reserved0 e) PUBLISHED (reserved1 e) (identity_crc32c e) (reserved2 e)).
  { rewrite <- He. unfold ext_at, put; cbn -[EXT_FILE_OFFSET OFF_publication_state PUBLISHED].
    f_equal; try (apply peek_wr_out; rewrite length_le_bytes; unfold OFF_publication_state; lia).
    change (EXT_FILE_OFFSET + 48) with OFF_publication_state. apply get_put_eq. }
  rewrite He2. by apply (ext_identity_init i).
Qed.

(** The successor's bytes after steps 3 of a roll: base stamped, wake flag set, published. *)
Definition stamped (d : bytes) (base flags : Z) : bytes :=
  put 1 (put 1 (put 8 d OFF_base_record_index base) OFF_wake_flags flags) OFF_publication_state PUBLISHED.

Lemma stamped_same lo hi d base flags :
  hi <= 32 \/ (40 <= lo /\ hi <= 113) \/ (114 <= lo /\ hi <= 192) \/ 193 <= lo ->
  same lo hi d (stamped d base flags).
Proof.
  intros Hl. unfold stamped, OFF_publication_state, OFF_wake_flags, OFF_base_record_index, EXT_FILE_OFFSET,
    MESSAGE_HEADER_SIZE.
  eapply same_trans; [|apply same_put; lia]. eapply same_trans; apply same_put; lia.
Qed.

(** A published, empty successor as the writer and the readers use it. *)
Record successor_bytes (d : bytes) (rs seq gen base : Z) (i : Identity) : Prop := {
  sb_segment : segment_ok rs d [] FIRST_RECORD;
  sb_identity : ext_identity (ext_at d EXT_FILE_OFFSET) = Ok i;
  sb_published : get 1 d OFF_publication_state = PUBLISHED;
  sb_base : get 8 d OFF_base_record_index = base;
  sb_sequence : get 8 d OFF_channel_sequence = seq;
  sb_region_size : get 4 d OFF_region_size = rs;
  sb_generation : get 8 d OFF_generation = gen;
  sb_resumable : resumable d rs seq i
}.

(** [d'] is the prepared segment [d] once its base is [base] and it is published; its wake flag may
    be set. *)
Record made_public (d d' : bytes) (base : Z) : Prop := {
  mp_same : forall lo hi, hi <= 32 \/ (40 <= lo /\ hi <= 113) \/ (114 <= lo /\ hi <= 192) \/ 193 <= lo -> same lo hi d d';
  mp_ext : exists d0, same 144 208 d d0 /\ same 144 208 (put 1 d0 OFF_publication_state PUBLISHED) d';
  mp_state : get 1 d' OFF_publication_state = PUBLISHED;
  mp_base : get 8 d' OFF_base_record_index = base
}.

Lemma stamped_public d base flags : 0 <= base < 2 ^ 64 -> made_public d (stamped d base flags) base.
Proof.
  intros Hb. constructor; unfold stamped.
  - intros lo hi Hl. by apply stamped_same.
  - eexists. split; [|done]. eapply same_trans; apply same_put; right; done.
  - by rewrite get_put_eq.
  - rewrite !get_put_ne by (left; done). rewrite get_put_eq. by apply Z.mod_small.
Qed.

(** A channel's first segment is made with its base. *)
Lemma fresh_public d base flags :
  get 8 d OFF_base_record_index = base ->
  made_public d (put 1 (put 1 d OFF_publication_state PUBLISHED) OFF_wake_flags flags) base.
Proof.
  intros Hb. constructor.
  - intros lo hi Hl. unfold OFF_publication_state, OFF_wake_flags, EXT_FILE_OFFSET, MESSAGE_HEADER_SIZE.
    eapply same_trans; apply same_put; lia.
  - exists d. split; [done|]. apply same_put. right. done.
  - rewrite get_put_ne by (right; done). by rewrite get_put_eq.
  - by rewrite !get_put_ne by (left; done).
Qed.

Lemma public_ok d d' seq rs mtu name base0 gen base i :
  rs_ok rs -> prepared_ok d seq rs mtu name base0 gen i -> identity_wf i -> made_public d d' base ->
  successor_bytes d' rs seq gen base i.
Proof.
  intros Hrs [Hch Hhdr Hext Hslot] Hwf [Hsame (d0 & Hd0 & Hpext) Hpub Hbase]. pose proof (rs_pos _ Hrs) as Hrs'. destruct Hrs as [Hrs _].
  unfold channel_header_at in Hhdr. injection Hhdr as Hp Hc _ Hs Hr _ Hf1 Hf2 Hf3 Hf4 Hf5 _ _ _ Hg.
  assert (Hget : forall n a v, get n d (0 + a) = v -> a + Z.of_nat n <= 32 \/ (40 <= a /\ a + Z.of_nat n <= 113)
    \/ (114 <= a /\ a + Z.of_nat n <= 192) -> get n d' a = v).
  { intros n a v <- Ha. symmetry. apply get_same, Hsame. lia. }
  assert (Hchan : message_header d' 0 = channel_record).
  { rewrite <- (message_header_same d); [done|]. apply Hsame. lia. }
  assert (Hid : ext_identity (ext_at d' EXT_FILE_OFFSET) = Ok i).
  { change EXT_FILE_OFFSET with 144. rewrite <- (ext_at_same _ _ Hpext). apply published_identity; [|done].
    change EXT_FILE_OFFSET with 144. by rewrite <- (ext_at_same _ _ Hd0). }
  assert (Hrsz : get 4 d' OFF_region_size = rs).
  { apply Hget; [|right; left; done]. rewrite Hr. apply wrap_small. lia. }
  assert (Hsq : get 8 d' OFF_channel_sequence = seq).
  { apply Hget; [done|right; left; done]. }
  constructor; [|done|done| |done|done| |].
  - constructor; [done| | |by apply Hget; [done|left]|by apply Hget; [done|left]|done|].
    + constructor.
    + rewrite get_committed, <- (message_header_same d), Hslot; [done|]. apply Hsame. right; right; right. done.
    + rewrite Z.mod_small by (unfold FIRST_RECORD, FIRST_RECORD_V4; lia).
      unfold FIRST_RECORD, FIRST_RECORD_V4, ROLL_TOTAL, ROLL_TOTAL_V4. lia.
  - done.
  - apply Hget; [done|right; right; done].
  - constructor; try done. unfold validate_channel_header, channel_header_at.
    cbn [ch_format_version ch_endianness ch_system_header_size ch_user_header_size ch_user_header_kind
      ch_region_size ch_channel_sequence]. rewrite !Z.add_0_l, Hrsz, Hsq.
    rewrite (Hget 2%nat OFF_format_version 4 Hf1), (Hget 1%nat OFF_endianness 1 Hf2), (Hget 1%nat OFF_system_header_size 8 Hf3),
      (Hget 4%nat OFF_user_header_kind 0 Hf4), (Hget 1%nat OFF_user_header_size 8 Hf5) by (right; left; done).
    by rewrite !Z.eqb_refl.
Qed.

Lemma stamped_ok d seq rs mtu name gen base i flags :
  rs_ok rs -> prepared_ok d seq rs mtu name 0 gen i -> identity_wf i -> 0 <= base < 2 ^ 64 ->
  successor_bytes (stamped d base flags) rs seq gen base i.
Proof. intros. eapply public_ok; [done..|]. by apply stamped_public. Qed.

(** The staged [Roll]: its body, then its header, not committed. *)
Definition staged (d : bytes) (q : Z) (edge : RollEdge) : bytes :=
  wr (wr d (q + HEADER_SLOT) (RollEdge_encode edge)) q
    (message_header_bytes (Header 0 (HeaderType_u8 Roll) 0 ROLL_PAYLOAD_V4 0)).

Lemma staged_roll d q edge :
  edge_ok edge -> roll_at (put 1 (staged d q edge) q COMMITTED) q edge.
Proof.
  intros He. pose proof (length_RollEdge_encode edge He) as Hl. split.
  - rewrite (commit_head _ q (Header 0 (HeaderType_u8 Roll) 0 ROLL_PAYLOAD_V4 0)); [done|].
    apply message_header_wr. done.
  - unfold staged. rewrite (peek_same _ (wr d (q + HEADER_SLOT) (RollEdge_encode edge))).
    + rewrite <- Hl. apply peek_wr_eq. by apply RollEdge_encode_byte.
    + apply same_sym. unfold HEADER_SLOT, MESSAGE_HEADER_SIZE.
      eapply same_trans; [|apply same_put; lia]. apply same_wr. rewrite length_message_header_bytes. lia.
Qed.

Lemma staged_untouched d q edge :
  get 1 d q = NOT_COMMITTED -> untouched q d (staged d q edge).
Proof.
  intros Hd. unfold staged. apply untouched_header; [|done]. apply untouched_wr; [by split|].
  unfold HEADER_SLOT, MESSAGE_HEADER_SIZE. lia.
Qed.

End bytes.

(** ** The states of a roll *)

(** The edge [roll_file] puts in its [Roll], and the generation it carries over. *)
Definition edge_of (w : Writer) (wd : world) (id : InstanceId) : RollEdge :=
  Edge (w_file_sequence w + 1) id
    (get 8 (data_of wd (w_file w)) OFF_base_record_index + get 8 (data_of wd (w_file w)) OFF_message_count).
Definition generation_of (w : Writer) (wd : world) : Z := get 8 (data_of wd (w_file w)) OFF_generation.

(** The name of the next sequence holds a published, empty segment: the one [edge] names, starting
    at the record [edge] says. *)
Definition leads_to `{Env} (w : Writer) (gen : Z) (edge : RollEdge) (wd : world) : Prop :=
  exists ino i,
    w_dir wd !! channel_file_name (w_base_path w) (w_file_sequence w + 1) = Some (DFile ino) /\
    successor_bytes (data_of wd ino) (w_region_size w) (w_file_sequence w + 1) gen
      (next_base_record_index edge) i /\
    RollEdge_names edge (w_file_sequence w) (w_instance w) i = true /\
    w_region_size w <= len_of wd ino <= I64_MAX /\ ino < w_next wd.

(** The states of the old segment while it is rolled: its records stay, and once its [Roll] is
    committed the successor is there. *)
Definition roll_safe `{Env} (w : Writer) (es : list Entry) (gen : Z) (edge : RollEdge) (wd : world) : Prop :=
  let d := data_of wd (w_file w) in
  let q := w_next_hdr_pos w in
  chain (w_region_size w) d FIRST_RECORD es q /\ get 8 d OFF_message_count = users es /\
  ((get 1 d q = NOT_COMMITTED /\ get 8 d OFF_write_position = q + HEADER_SLOT) \/
   (roll_at d q edge /\ leads_to w gen edge wd /\
    (get 8 d OFF_write_position = q + HEADER_SLOT \/
     get 8 d OFF_write_position = q + ROLL_TOTAL + HEADER_SLOT))).

(** What a roll leaves alone: the files there were, but for the old segment's slot and advisory
    pair, and the names of the segments so far that retention keeps. *)
Record roll_frame (w : Writer) (wd wd' : world) : Prop := {
  rf_others : forall i, i < w_next wd -> i <> w_file w -> inode_of wd' i = inode_of wd i;
  rf_head : kept_head (data_of wd (w_file w)) (data_of wd' (w_file w));
  rf_records : same FIRST_RECORD (w_next_hdr_pos w) (data_of wd (w_file w)) (data_of wd' (w_file w));
  rf_len : len_of wd' (w_file w) = len_of wd (w_file w);
  rf_dir : forall k, 0 <= k <= w_file_sequence w ->
    match w_keep_files w with Some n => k <> w_file_sequence w + 1 - n | None => True end ->
    w_dir wd' !! channel_file_name (w_base_path w) k = w_dir wd !! channel_file_name (w_base_path w) k;
  rf_base : w_dir wd !! w_base_path w <> Some DDir -> w_dir wd' !! w_base_path w <> Some DDir;
  rf_next : w_next wd <= w_next wd';
  rf_oracle : calm wd -> calm wd'
}.

(** Worlds that differ in the bytes of two files. *)
Record frame2 (f g : Z) (w w' : world) : Prop := {
  f2_dir : w_dir w' = w_dir w;
  f2_next : w_next w' = w_next w;
  f2_oracle : w_oracle w' = w_oracle w;
  f2_others : forall i, i <> f -> i <> g -> inode_of w' i = inode_of w i;
  f2_len : forall i, len_of w' i = len_of w i
}.

Lemma frame2_refl f g w : frame2 f g w w.
Proof. by constructor. Qed.

Lemma frame2_write f g w w' i a bs :
  frame2 f g w w' -> i = f \/ i = g -> frame2 f g w (write_inode i a bs w').
Proof.
  intros [? ? ? Ho Hl] Hi. constructor; try done.
  - intros j Hj Hj'. rewrite inode_of_write_ne by (destruct Hi; congruence). auto.
  - intros j. by rewrite len_of_write.
Qed.

Lemma frame2_calm f g w w' : frame2 f g w w' -> calm w -> calm w'.
Proof. unfold calm, quiet, healthy. intros [_ _ -> _ _]. done. Qed.

Section publish.
Context `{EnvOk}.
Context (w : Writer) (es : list Entry) (gen : Z) (edge : RollEdge) (i : Identity) (ino : Z) (w1 : world).
Notation f := (w_file w).
Notation q := (w_next_hdr_pos w).
Notation rs := (w_region_size w).
Notation final := (channel_file_name (w_base_path w) (w_file_sequence w + 1)).

Hypothesis Hok : writer_ok w w1 es.
Hypothesis Hcalm : calm w1.
Hypothesis Hne : ino <> f.
Hypothesis Hdir : w_dir w1 !! final = Some (DFile ino).
Hypothesis Hlen : rs <= len_of w1 ino <= I64_MAX.
Hypothesis Hino : ino < w_next w1.
Hypothesis Hprep : prepared_ok (data_of w1 ino) (w_file_sequence w + 1) rs (w_mtu w) (w_channel_name w) 0 gen i.
Hypothesis Hwf : identity_wf i.
Hypothesis Hedge : edge_ok edge.
Hypothesis Hnames : RollEdge_names edge (w_file_sequence w) (w_instance w) i = true.

Lemma slot_room : 0 <= q mod rs /\ q mod rs + 56 <= rs /\ 208 <= q < 2 ^ 63 - 16.
Proof.
  pose proof (rs_pos _ (wk_rs _ _ _ Hok)). pose proof (writer_ok_next _ _ _ Hok).
  pose proof (sg_room _ _ _ _ (wk_segment _ _ _ Hok)) as Hr. unfold ROLL_TOTAL, ROLL_TOTAL_V4 in Hr.
  split_and!; [apply Z.mod_pos_bound; lia|lia|lia|lia].
Qed.

(** The worlds of the roll once the successor is installed. *)
Definition rolling (wd : world) : Prop :=
  roll_safe w es gen edge wd /\ frame2 f ino w1 wd /\ kept_head (data_of w1 f) (data_of wd f) /\
  same FIRST_RECORD q (data_of w1 f) (data_of wd f).

Lemma before_commit wd :
  frame2 f ino w1 wd -> untouched q (data_of w1 f) (data_of wd f) -> rolling wd.
Proof.
  intros Hf2 [Hs Hc]. destruct slot_room as (_ & _ & Hq2).
  split; [|split_and!; [done|by apply (kept_head_below q); [|lia]|eapply same_sub; [exact Hs|done|lia]]]. destruct (wk_segment _ _ _ Hok) as [_ Hch _ Hp Hn _ _].
  pose proof (chain_start_le _ _ _ _ Hch). unfold roll_safe.
  assert (Ho : forall n a, 0 <= a -> a + Z.of_nat n <= q -> get n (data_of wd f) a = get n (data_of w1 f) a).
  { intros n a ??. symmetry. apply get_same. eapply same_sub; [exact Hs|lia..]. }
  split_and!.
  - eapply chain_same; [|exact Hch]. eapply same_sub; [exact Hs|done|lia].
  - rewrite Ho by (unfold OFF_message_count, MESSAGE_HEADER_SIZE; lia). done.
  - left. split; [done|]. rewrite Ho by (unfold OFF_write_position, MESSAGE_HEADER_SIZE; lia). done.
Qed.

Lemma after_commit wd flags :
  frame2 f ino w1 wd -> data_of wd ino = stamped (data_of w1 ino) (next_base_record_index edge) flags ->
  same 24 32 (data_of w1 f) (data_of wd f) -> same FIRST_RECORD q (data_of w1 f) (data_of wd f) ->
  kept_head (data_of w1 f) (data_of wd f) -> roll_at (data_of wd f) q edge ->
  get 8 (data_of wd f) OFF_write_position = q + HEADER_SLOT \/
  get 8 (data_of wd f) OFF_write_position = q + ROLL_TOTAL + HEADER_SLOT ->
  rolling wd.
Proof.
  intros Hf Hd Hs Hs' Hk Hr Hp. split; [|by split_and!]. destruct (wk_segment _ _ _ Hok) as [_ Hch _ _ Hn _ _].
  unfold roll_safe. split_and!.
  - by eapply chain_same.
  - by rewrite <- (get_same 8 (data_of w1 f)).
  - right. split_and!; [done| |done]. exists ino, i. split_and!.
    + by rewrite (f2_dir _ _ _ _ Hf).
    + rewrite Hd. eapply stamped_ok; [apply Hok|exact Hprep|done|]. apply Hedge.
    + done.
    + rewrite (f2_len _ _ _ _ Hf). apply Hlen.
    + rewrite (f2_len _ _ _ _ Hf). apply Hlen.
    + by rewrite (f2_next _ _ _ _ Hf).
Qed.

Lemma stage_roll_run (Q : res unit -> Writer -> world -> Prop) s :
  w_current_region s = w_current_region w ->
  (forall wd, frame2 f ino w1 wd -> data_of wd f = staged (data_of w1 f) q edge ->
     data_of wd ino = data_of w1 ino -> Q (Ok tt) s wd) ->
  wp (stage_roll (q mod rs) edge) s w1 Q rolling.
Proof.
  intros Hcur HQ. destruct slot_room as (Hq0 & Hq1 & Hq2). pose proof (wk_rs _ _ _ Hok) as Hrs.
  pose proof (rs_pos _ Hrs). pose proof (length_RollEdge_encode edge Hedge) as Hl.
  unfold stage_roll. apply wp_bind, wp_self. rewrite Hcur, (wk_current _ _ _ Hok).
  rewrite get_bytes_mut_Some by (cbn; unfold ROLL_TOTAL, ROLL_TOTAL_V4; lia).
  assert (Hunt : untouched q (data_of w1 f) (data_of w1 f)).
  { split; [done|]. apply (wk_segment _ _ _ Hok). }
  apply wp_bind, wp_store_rec; [done|apply Hcalm|apply Hok|done|rewrite Hl; unfold HEADER_SLOT, MESSAGE_HEADER_SIZE; lia| |].
  { apply before_commit; [apply frame2_write; [apply frame2_refl|by left]|]. rewrite data_of_write_eq. apply untouched_wr; [done|].
    unfold HEADER_SLOT, MESSAGE_HEADER_SIZE. lia. }
  unfold store_header. apply wp_store_rec0; [done|apply Hcalm|rewrite len_of_write; apply Hok
    |rewrite length_message_header_bytes; lia| |].
  { apply before_commit; [apply frame2_write; [apply frame2_write; [apply frame2_refl|by left]|by left]|].
    rewrite !data_of_write_eq. fold (staged (data_of w1 f) q edge).
    apply staged_untouched, Hunt. }
  apply HQ.
  - apply frame2_write; [|by left]. apply frame2_write; [apply frame2_refl|by left].
  - by rewrite !data_of_write_eq.
  - by rewrite !data_of_write_ne.
Qed.

(** *** The publication *)

(** A store in the successor's first page. *)
Lemma successor_write {A} (op : M Writer A) (k : A -> M Writer unit) s wd (Q : res unit -> Writer -> world -> Prop) a off bs :
  (forall (P : res A -> Writer -> world -> Prop) C, calm wd -> rs <= len_of wd ino ->
     C (write_inode ino off bs wd) -> P (Ok a) s (write_inode ino off bs wd) -> wp op s wd P C) ->
  frame2 f ino w1 wd -> data_of wd f = staged (data_of w1 f) q edge ->
  (forall wd', frame2 f ino w1 wd' -> data_of wd' f = staged (data_of w1 f) q edge ->
     data_of wd' ino = wr (data_of wd ino) off bs -> wp (k a) s wd' Q rolling) ->
  wp (bind op k) s wd Q rolling.
Proof.
  intros Hop Hf Hd Hk. assert (Hf' : frame2 f ino w1 (write_inode ino off bs wd)) by (apply frame2_write; [done|by right]).
  assert (Hd' : data_of (write_inode ino off bs wd) f = staged (data_of w1 f) q edge) by (by rewrite data_of_write_ne).
  apply wp_bind, Hop; [by eapply frame2_calm|rewrite (f2_len _ _ _ _ Hf); apply Hlen| |].
  - apply before_commit; [done|]. rewrite Hd'. apply staged_untouched. apply (wk_segment _ _ _ Hok).
  - apply Hk; [done|done|by rewrite data_of_write_eq].
Qed.

Lemma successor_store off bs s wd P C :
  0 <= off -> off + Z.of_nat (length bs) <= 4096 -> calm wd -> rs <= len_of wd ino ->
  C (write_inode ino off bs wd) -> P (Ok tt) s (write_inode ino off bs wd) ->
  wp (store (S := Writer) (Mapping ino 0 rs) off bs) s wd P C.
Proof. intros ?? Hc Hl ??. apply wp_store_head; [apply (wk_rs _ _ _ Hok)|apply Hc|done..]. Qed.

Lemma successor_flag wake s wd :
  exists old v, forall (P : res unit -> Writer -> world -> Prop) C, calm wd -> rs <= len_of wd ino ->
    C (write_inode ino OFF_wake_flags (le_bytes 1 v) wd) -> P (Ok old) s (write_inode ino OFF_wake_flags (le_bytes 1 v) wd) ->
    wp (set_wake_flag (Mapping ino 0 rs) wake) s wd P C.
Proof.
  exists tt. unfold set_wake_flag, fetch_or_u8, fetch_and_u8.
  destruct wake; eexists; intros P C Hc Hl HC HP;
    (apply wp_bind, wp_update_head; [apply (wk_rs _ _ _ Hok)|apply Hc|done|done|done|exact HC|by apply wp_ret]).
Qed.

(** The successor is stamped and published. *)
Lemma stamp_run (k : M Writer unit) wake s wd (Q : res unit -> Writer -> world -> Prop) :
  frame2 f ino w1 wd -> data_of wd f = staged (data_of w1 f) q edge -> data_of wd ino = data_of w1 ino ->
  (forall wd' flags, frame2 f ino w1 wd' -> data_of wd' f = staged (data_of w1 f) q edge ->
     data_of wd' ino = stamped (data_of w1 ino) (next_base_record_index edge) flags -> wp k s wd' Q rolling) ->
  wp (store_u64 (Mapping ino 0 rs) OFF_base_record_index (next_base_record_index edge) ;;
      set_wake_flag (Mapping ino 0 rs) wake ;; publish (Mapping ino 0 rs) ;; k) s wd Q rolling.
Proof.
  intros Hf Hdf Hdi Hk. unfold store_u64, publish, store_u8.
  eapply successor_write; [intros P C; by apply successor_store|done|done|intros wd2 Hf2 H2f H2i].
  destruct (successor_flag wake s wd2) as ([] & v & Hflag).
  eapply successor_write; [exact Hflag|done|done|intros wd3 Hf3 H3f H3i].
  eapply successor_write; [intros P C; by apply successor_store|done|done|intros wd4 Hf4 H4f H4i].
  apply (Hk wd4 v); [done|done|]. rewrite H4i, H3i, H2i, Hdi. done.
Qed.

(** *** The commit of the [Roll] *)

#[local] Notation d5 := (put 1 (staged (data_of w1 f) q edge) q COMMITTED).
#[local] Notation d6 := (put 8 d5 OFF_write_position (q + ROLL_TOTAL + HEADER_SLOT)).
#[local] Notation stamped_with wd' flags := (data_of wd' ino = stamped (data_of w1 ino) (next_base_record_index edge) flags).

Lemma rolled_below : same 0 q (data_of w1 f) d5.
Proof.
  eapply same_trans; [apply staged_untouched, (wk_segment _ _ _ Hok)|]. apply same_put. lia.
Qed.

Lemma rolled_position : get 8 d5 OFF_write_position = q + HEADER_SLOT.
Proof.
  destruct slot_room as (_ & _ & Hq2). rewrite <- (get_same 8 (data_of w1 f)); [apply (wk_segment _ _ _ Hok)|].
  eapply same_sub; [exact rolled_below|done|]. unfold OFF_write_position, MESSAGE_HEADER_SIZE. lia.
Qed.

(** [d'] is the old segment at the end of the roll, but for the wake word. *)
Record roll_ended (d' : bytes) : Prop := {
  re_pair : same 16 32 d6 d';
  re_records : same 208 (q + 56) d6 d';
  re_head : kept_head d6 d'
}.

Lemma roll_ended_refl : roll_ended d6.
Proof. constructor; [done|done|apply kept_head_refl]. Qed.

Lemma roll_ended_woken v : roll_ended (put 4 d6 OFF_wake_word v).
Proof.
  constructor; [apply (same_put _ _ 4); left; done|apply (same_put _ _ 4); right; done|].
  apply (kept_head_put 4); [by right|apply kept_head_refl].
Qed.

Lemma roll_ended_facts d' :
  roll_ended d' ->
  roll_at d' q edge /\ same 24 32 (data_of w1 f) d' /\ same FIRST_RECORD q (data_of w1 f) d' /\
  kept_head (data_of w1 f) d' /\ get 8 d' OFF_write_position = q + ROLL_TOTAL + HEADER_SLOT.
Proof.
  intros [Ha Hb Hk]. destruct slot_room as (Hq0 & Hq1 & Hq2). pose proof rolled_below as Hs5.
  assert (Hs6 : same 24 (q + 56) d5 d6) by (apply same_put; right; done).
  assert (H208 : same 208 (q + 56) d5 d') by (eapply same_trans; [eapply same_sub; [exact Hs6|lia..]|exact Hb]).
  destruct (staged_roll (data_of w1 f) q edge Hedge) as [Hh Hbody]. split_and!.
  - split.
    + rewrite <- Hh. symmetry. apply message_header_same. eapply same_sub; [exact H208|lia..].
    + rewrite <- Hbody. symmetry. apply peek_same.
      eapply same_sub; [exact H208|unfold HEADER_SLOT, MESSAGE_HEADER_SIZE; lia..].
  - eapply same_trans; [eapply same_sub; [exact Hs5|lia..]|].
    eapply same_trans; [eapply same_sub; [exact Hs6|lia..]|]. eapply same_sub; [exact Ha|lia..].
  - eapply same_trans; [eapply same_sub; [exact Hs5|done|lia]|]. eapply same_sub; [exact H208|done|lia].
  - eapply kept_head_trans; [by apply (kept_head_below q _ _ Hs5); lia|]. eapply kept_head_trans; [|exact Hk].
    apply (kept_head_put 8); [by left|apply kept_head_refl].
  - rewrite <- (get_same 8 d6 d') by (eapply same_sub; [exact Ha|done..]). rewrite get_put_eq. apply Z.mod_small.
    change (256 ^ Z.of_nat 8) with 18446744073709551616. unfold ROLL_TOTAL, ROLL_TOTAL_V4, HEADER_SLOT, MESSAGE_HEADER_SIZE. lia.
Qed.

Lemma ended_rolling wd flags :
  frame2 f ino w1 wd -> stamped_with wd flags -> roll_ended (data_of wd f) -> rolling wd.
Proof.
  intros Hf Hi He. destruct (roll_ended_facts _ He) as (? & ? & ? & ? & ?).
  eapply after_commit; [exact Hf|exact Hi|done|done|done|done|by right].
Qed.

Lemma roll_commit_run (k : M Writer unit) s wd flags (Q : res unit -> Writer -> world -> Prop) :
  frame2 f ino w1 wd -> data_of wd f = staged (data_of w1 f) q edge -> stamped_with wd flags ->
  (forall wd', frame2 f ino w1 wd' -> data_of wd' f = d5 -> stamped_with wd' flags -> wp k s wd' Q rolling) ->
  wp (commit (region_of f rs q) (q mod rs) ;; k) s wd Q rolling.
Proof.
  intros Hf Hdf Hdi Hk. destruct slot_room as (Hq0 & Hq1 & Hq2). pose proof rolled_below as Hs5.
  pose proof (frame2_calm _ _ _ _ Hf Hcalm) as Hc. unfold commit, store_u8.
  set (wd' := write_inode f q (le_bytes 1 COMMITTED) wd).
  assert (Hf' : frame2 f ino w1 wd') by (apply frame2_write; [done|by left]).
  assert (Hdf' : data_of wd' f = d5) by (unfold wd'; by rewrite data_of_write_eq, Hdf).
  assert (Hdi' : stamped_with wd' flags) by (unfold wd'; by rewrite data_of_write_ne).
  apply wp_bind, wp_store_rec0; [apply (wk_rs _ _ _ Hok)|apply Hc|rewrite (f2_len _ _ _ _ Hf); apply Hok|rewrite length_le_bytes; lia| |by apply Hk].
  fold wd'. eapply after_commit; [exact Hf'|exact Hdi'|..]; rewrite Hdf'.
  - eapply same_sub; [exact Hs5|lia..].
  - eapply same_sub; [exact Hs5|done|lia].
  - by apply (kept_head_below q); [|lia].
  - by apply staged_roll.
  - left. apply rolled_position.
Qed.

Lemma ended_run wake s wd flags (Q : res unit -> Writer -> world -> Prop) :
  w_channel_region s = w_channel_region w -> frame2 f ino w1 wd -> data_of wd f = d5 -> stamped_with wd flags ->
  (forall wd', frame2 f ino w1 wd' -> stamped_with wd' flags -> roll_ended (data_of wd' f) -> Q (Ok tt) s wd') ->
  wp (store_wp_local (q + ROLL_TOTAL + HEADER_SLOT) ;; when wake (wake_all (w_channel_region w))) s wd Q rolling.
Proof.
  intros Hch Hf Hdf Hdi HQ. pose proof (wk_rs _ _ _ Hok) as Hrs. pose proof (writer_ok_rs_len _ _ _ Hok) as Hrl.
  set (wd6 := write_inode f OFF_write_position (le_bytes 8 (q + ROLL_TOTAL + HEADER_SLOT)) wd).
  assert (Hf6 : frame2 f ino w1 wd6) by (apply frame2_write; [done|by left]).
  assert (Hd6 : data_of wd6 f = d6) by (unfold wd6; by rewrite data_of_write_eq, Hdf).
  assert (Hi6 : stamped_with wd6 flags) by (unfold wd6; by rewrite data_of_write_ne).
  assert (He6 : roll_ended (data_of wd6 f)) by (rewrite Hd6; apply roll_ended_refl).
  unfold store_wp_local, store_u64. apply wp_bind, wp_bind, wp_self. rewrite Hch, (wk_channel _ _ _ Hok).
  apply wp_store_head; [done|apply (frame2_calm _ _ _ _ Hf Hcalm)|by rewrite (f2_len _ _ _ _ Hf)|done|done|by eapply ended_rolling|].
  fold wd6. clearbody wd6. destruct wake; cbn [when]; [|by apply wp_ret, HQ].
  unfold wake_all, fetch_add_u32.
  assert (Hcall : forall wd', frame2 f ino w1 wd' -> stamped_with wd' flags -> roll_ended (data_of wd' f) ->
    wp (when SUPPORTED (interfere ;; emit (add_call (KWake f OFF_wake_word)))) s wd' Q rolling).
  { intros wd' Hf' Hi' He'. unfold when. destruct SUPPORTED; [|by apply wp_ret, HQ].
    apply wp_bind, wp_interfere_quiet; [apply (frame2_calm _ _ _ _ Hf' Hcalm)|].
    assert (Hf2 : frame2 f ino w1 (add_call (KWake f OFF_wake_word) wd')) by (destruct Hf'; by constructor).
    apply wp_emit; [by eapply ended_rolling|by apply HQ]. }
  set (wd7 := write_inode f OFF_wake_word (le_bytes 4 (get 4 d6 OFF_wake_word + 1)) wd6).
  assert (Hf7 : frame2 f ino w1 wd7) by (apply frame2_write; [done|by left]).
  assert (Hi7 : stamped_with wd7 flags) by (unfold wd7; by rewrite data_of_write_ne).
  assert (He7 : roll_ended (data_of wd7 f)) by (unfold wd7; rewrite data_of_write_eq, Hd6; apply roll_ended_woken).
  apply wp_bind, wp_update_head; [done|apply (frame2_calm _ _ _ _ Hf6 Hcalm)|by rewrite (f2_len _ _ _ _ Hf6)|done|done| |];
    rewrite Hd6; fold wd7; [by eapply ended_rolling|by apply Hcall].
Qed.

Lemma publish_roll_run (Q : res unit -> Writer -> world -> Prop) s wd :
  frame2 f ino w1 wd -> data_of wd f = staged (data_of w1 f) q edge -> data_of wd ino = data_of w1 ino ->
  w_region_size s = rs -> w_current_region s = w_current_region w ->
  w_channel_region s = w_channel_region w ->
  (forall wd' flags, frame2 f ino w1 wd' ->
     data_of wd' ino = stamped (data_of w1 ino) (next_base_record_index edge) flags ->
     roll_safe w es gen edge wd' -> roll_at (data_of wd' f) q edge ->
     same FIRST_RECORD q (data_of w1 f) (data_of wd' f) -> kept_head (data_of w1 f) (data_of wd' f) ->
     get 8 (data_of wd' f) OFF_write_position = q + ROLL_TOTAL + HEADER_SLOT ->
     Q (Ok tt) s wd') ->
  wp (publish_roll q (Mapping ino 0 rs) edge) s wd Q rolling.
Proof.
  intros Hf Hdf Hdi Hsrs Hscur Hsch HQ. unfold publish_roll. apply wp_bind, wp_self.
  rewrite Hsrs, Hscur, (wk_current _ _ _ Hok). apply stamp_run; [done..|intros wd4 flags Hf4 H4f H4i].
  apply (roll_commit_run _ _ _ flags); [done..|intros wd5 Hf5 H5f H5i].
  rewrite Hsch. apply (ended_run _ _ _ flags); [done..|intros wd7 Hf7 H7i He7].
  destruct (roll_ended_facts _ He7) as (? & ? & ? & ? & ?). eapply HQ; [done|exact H7i|by apply (ended_rolling wd7 flags)|done..].
Qed.

End publish.

(** ** Retention and the whole roll *)

(** The directory once retention has dropped what [keep_files] says. *)
Definition pruned (w : Writer) (next_seq : Z) (dir : gmap string dirent) : gmap string dirent :=
  match w_keep_files w with
  | Some n =>
      if next_seq >=? n then
        match dir !! channel_file_name (w_base_path w) (next_seq - n) with
        | Some (DFile _) => base.delete (channel_file_name (w_base_path w) (next_seq - n)) dir
        | _ => dir
        end
      else dir
  | None => dir
  end.

Definition keep_ok (w : Writer) : Prop := match w_keep_files w with Some n => 1 <= n | None => True end.

Section roll.
Context `{EnvOk}.

Lemma pruned_lookup w next dir :
  keep_ok w -> 0 <= next <= U64_MAX ->
  pruned w next dir !! channel_file_name (w_base_path w) next = dir !! channel_file_name (w_base_path w) next.
Proof.
  intros Hk Hn. unfold pruned, keep_ok in *. destruct (w_keep_files w) as [n|]; [|done].
  destruct (Z.geb_spec next n); [|done]. destruct (dir !! _) as [[]|] eqn:E; try done.
  apply lookup_delete_ne. intros Heq. apply channel_file_name_inj in Heq; lia.
Qed.

Lemma retention_run w next wd (Q : res unit -> Writer -> world -> Prop) (C : world -> Prop) :
  calm wd -> w_prefault w = None -> w_dir wd !! w_base_path w <> Some DDir ->
  (forall wd', w_dir wd' = pruned w next (w_dir wd) -> w_inodes wd' = w_inodes wd ->
     w_next wd' = w_next wd -> w_oracle wd' = w_oracle wd -> C wd' /\ Q (Ok tt) w wd') ->
  wp (match w_keep_files w with
      | Some n => if next >=? n then prune (next - n) else ret tt
      | None => ret tt
      end) w wd Q C.
Proof.
  intros Hc Hp Hb HQ. unfold pruned in HQ. destruct (w_keep_files w) as [n|]; [|apply wp_ret; by apply HQ].
  destruct (next >=? n); [|apply wp_ret; by apply HQ].
  unfold prune. apply wp_bind, wp_self. rewrite Hp.
  eapply (wp_reads_bind _ _ _ _ (Some (channel_file_name (w_base_path w) (next - n)))).
  { unfold ok. eapply reads_seq; [apply reads_attempt_ok; by apply reads_channel_path|]. done. }
  cbv beta iota. unfold ignore. apply wp_bind, wp_attempt. unfold remove_file.
  eapply wp_reads_bind; [by apply reads_syscall|]. apply wp_bind, wp_ask.
  destruct (w_dir wd !! channel_file_name (w_base_path w) (next - n)) as [[j|]|] eqn:E.
  - apply wp_emit; [|apply wp_ret]; by apply HQ.
  - apply wp_lift, wp_ret. by apply HQ.
  - apply wp_lift, wp_ret. by apply HQ.
Qed.

Lemma roll_frame_pruned w wd w3 W :
  keep_ok w -> 0 <= w_file_sequence w < U64_MAX -> roll_frame w wd w3 ->
  w_inodes W = w_inodes w3 -> w_dir W = pruned w (w_file_sequence w + 1) (w_dir w3) ->
  w_next W = w_next w3 -> w_oracle W = w_oracle w3 -> roll_frame w wd W.
Proof.
  intros Hk Hs [F1 F2 F3 F4 F5 F6 F7 F8] Hi Hd Hn Ho. unfold data_of, len_of, inode_of in *.
  constructor; unfold data_of, len_of, inode_of; rewrite ?Hi, ?Hn; try done.
  - intros k Hk1 Hk2. rewrite <- F5 by done. rewrite Hd. unfold pruned. unfold keep_ok in Hk.
    destruct (w_keep_files w) as [n|]; [|done]. destruct (Z.geb_spec (w_file_sequence w + 1) n) as [Hn'|Hn']; [|done].
    destruct (w_dir w3 !! channel_file_name (w_base_path w) (w_file_sequence w + 1 - n)) as [[j|]|]; [|done|done].
    apply lookup_delete_ne. intros Heq. unfold U64_MAX in *. apply channel_file_name_inj in Heq; unfold U64_MAX; lia.
  - intros Hb. rewrite Hd. unfold pruned. specialize (F6 Hb). destruct (w_keep_files w) as [n|]; [|done].
    destruct (w_file_sequence w + 1 >=? n); [|done].
    destruct (w_dir w3 !! channel_file_name (w_base_path w) (w_file_sequence w + 1 - n)) as [[j|]|]; [|done|done].
    destruct (decide (channel_file_name (w_base_path w) (w_file_sequence w + 1 - n) = w_base_path w)) as [E|E];
      [rewrite E; by rewrite lookup_delete_eq|by rewrite lookup_delete_ne].
  - unfold calm, quiet, healthy. rewrite Ho. done.
Qed.

(** The writer in its new file. *)
Definition rolled_writer (w : Writer) (id : InstanceId) (ino len : Z) : Writer :=
  let rs := w_region_size w in
  set_held [] (switch_file (w_file_sequence w + 1) id ino (Mapping ino 0 rs) (Mapping ino 0 rs) 0 len
                 FIRST_RECORD (set_pending None w)).

(** What a finished roll leaves: the old segment ended by its [Roll], and the new one empty, next in
    the numbering, in the directory under its name. *)
Record rolled_ok (w : Writer) (wd : world) (es : list Entry) (id : InstanceId) (len : Z)
    (w' : Writer) (wd' : world) : Prop := {
  ro_writer : w' = rolled_writer w id (w_next wd) len;
  ro_ok : writer_ok w' wd' [];
  ro_new : exists i,
    successor_bytes (data_of wd' (w_next wd)) (w_region_size w) (w_file_sequence w + 1)
      (generation_of w wd) (next_base_record_index (edge_of w wd id)) i /\
    instance i = id /\ predecessor i = w_instance w /\ predecessor_sequence i = w_file_sequence w;
  ro_safe : roll_safe w es (generation_of w wd) (edge_of w wd id) wd';
  ro_roll : roll_at (data_of wd' (w_file w)) (w_next_hdr_pos w) (edge_of w wd id);
  ro_position : get 8 (data_of wd' (w_file w)) OFF_write_position = w_next_hdr_pos w + ROLL_TOTAL + HEADER_SLOT;
  ro_records : same FIRST_RECORD (w_next_hdr_pos w) (data_of wd (w_file w)) (data_of wd' (w_file w));
  ro_dir : w_dir wd' = pruned w (w_file_sequence w + 1)
             (<[channel_file_name (w_base_path w) (w_file_sequence w + 1) := DFile (w_next wd)]> (w_dir wd));
  ro_frame : roll_frame w wd wd';
  ro_length : len_of wd' (w_next wd) = len;
  ro_calm : calm wd'
}.

Lemma edge_of_ok w wd id rest len : can_roll w wd id rest len -> edge_ok (edge_of w wd id).
Proof.
  intros Hr. destruct (cr_sequence _ _ _ _ _ Hr). pose proof (cr_indices _ _ _ _ _ Hr).
  pose proof (get_range 8 (data_of wd (w_file w)) OFF_base_record_index).
  pose proof (get_range 8 (data_of wd (w_file w)) OFF_message_count).
  unfold U64_MAX in *. split_and!; cbn [edge_of next_sequence next_instance next_base_record_index];
    [lia|lia|apply Hr|lia|lia].
Qed.

Lemma edge_names w wd id rest len :
  can_roll w wd id rest len ->
  RollEdge_names (edge_of w wd id) (w_file_sequence w) (w_instance w) (successor_identity w id) = true.
Proof.
  intros Hr. destruct (cr_sequence _ _ _ _ _ Hr). unfold RollEdge_names. cbn.
  rewrite !bool_decide_eq_true_2, Z.eqb_refl by done. rewrite bool_decide_eq_true_2; [done|].
  symmetry. apply checked_add_Some. lia.
Qed.

Lemma successor_identity_wf w wd id rest len :
  can_roll w wd id rest len -> identity_wf (successor_identity w id).
Proof.
  intros Hr. pose proof (successor_identity_ok _ _ _ _ _ Hr). destruct (cr_sequence _ _ _ _ _ Hr).
  destruct (cr_instance _ _ _ _ _ Hr) as [_ Hi]. destruct (cr_id _ _ _ _ _ Hr) as [_ Hn].
  split_and!; [done|done|]. cbn. split; [done|lia].
Qed.

Lemma rolled_writer_ok w wd es id rest len wd' i :
  writer_ok w wd es -> can_roll w wd id rest len ->
  successor_bytes (data_of wd' (w_next wd)) (w_region_size w) (w_file_sequence w + 1)
    (generation_of w wd) (next_base_record_index (edge_of w wd id)) i ->
  len_of wd' (w_next wd) = len ->
  writer_ok (rolled_writer w id (w_next wd) len) wd' [].
Proof.
  intros Hw Hr Hb Hl. pose proof (wk_rs _ _ _ Hw) as Hrs. pose proof (proj1 Hrs) as Hr1.
  assert (Hd : FIRST_RECORD / w_region_size w = 0).
  { unfold FIRST_RECORD, FIRST_RECORD_V4. apply Z.div_small. lia. }
  assert (Hroll : w_file_roll_size w = 0 \/ 2 * w_region_size w <= w_file_roll_size w).
  { destruct (wk_roll _ _ _ Hw) as [|[? _]]; auto. }
  destruct (preallocation_len_Ok (w_region_size w) (w_file_roll_size w) len) as [Hlen Hfl];
    [lia|apply Hr|done|apply Hr|].
  constructor; cbn; try apply Hw; try done.
  - unfold region_of. by rewrite Hd.
  - unfold in_file. rewrite Hd, Hl. lia.
  - rewrite Hl. lia.
  - rewrite Hl. destruct Hroll; [by left|right]. lia.
  - apply Hb.
Qed.

(** *** The whole roll *)

Section whole.
Context (w : Writer) (wd : world) (es : list Entry) (id : InstanceId) (rest : list (list Z)) (len : Z).
Hypothesis Hc : calm wd.
Hypothesis Hw : writer_ok w wd es.
Hypothesis Hr : can_roll w wd id rest len.
Hypothesis Hk : keep_ok w.

#[local] Notation f := (w_file w).
#[local] Notation q := (w_next_hdr_pos w).
#[local] Notation rs := (w_region_size w).
#[local] Notation ino := (w_next wd).
#[local] Notation edge := (edge_of w wd id).
#[local] Notation gen := (generation_of w wd).
#[local] Notation next := (w_file_sequence w + 1).
#[local] Notation final := (channel_file_name (w_base_path w) next).
#[local] Notation attempt := (attempt_name (w_base_path w) next id).
#[local] Notation wp0 := (set_pending None w).
#[local] Notation between := (fun W => roll_safe w es gen edge W /\ roll_frame w wd W).

Lemma roll_numbers :
  0 < rs < 2 ^ 32 /\ 0 <= w_file_sequence w < U64_MAX /\ ino <> f /\ q mod rs + ROLL_TOTAL <= rs /\ rs <= len <= I64_MAX /\
  (w_file_roll_size w = 0 \/ 2 * rs <= w_file_roll_size w).
Proof.
  pose proof (wk_rs _ _ _ Hw) as Hrs. pose proof (rs_pos _ Hrs). pose proof (cr_fresh _ _ _ _ _ Hr). pose proof (proj1 Hrs).
  assert (Hroll : w_file_roll_size w = 0 \/ 2 * rs <= w_file_roll_size w) by (destruct (wk_roll _ _ _ Hw) as [|[? _]]; auto).
  destruct (preallocation_len_Ok rs (w_file_roll_size w) len) as [Hlen _]; [lia|apply Hr|done|apply Hr|].
  split; [done|]. split; [apply Hr|]. split; [lia|]. split; [apply (sg_room _ _ _ _ (wk_segment _ _ _ Hw))|]. by split.
Qed.

(** Up to the installation only the successor's file, under one of its names, is new. *)
Lemma private_frame path W :
  path = attempt \/ path = final -> private path ino (drawn rest wd) W -> roll_frame w wd W.
Proof.
  intros Hpath Hp. destruct roll_numbers as (_ & Hseq & Hne & _).
  assert (HW : inode_of W f = inode_of wd f) by (by rewrite (pv_others _ _ _ _ Hp)).
  assert (Hnames : forall k, 0 <= k <= w_file_sequence w -> channel_file_name (w_base_path w) k <> path).
  { intros k Hk'. destruct Hpath as [->| ->]; [apply not_eq_sym, attempt_name_not_file; lia|].
    intros Heq%channel_file_name_inj; unfold U64_MAX in *; lia. }
  constructor; unfold data_of, len_of; rewrite ?HW; try done.
  - intros j Hj _. apply (pv_others _ _ _ _ Hp). lia.
  - intros k Hk' _. rewrite (pv_dir _ _ _ _ Hp), lookup_insert_ne; [done|]. apply not_eq_sym. by apply Hnames.
  - intros Hb. rewrite (pv_dir _ _ _ _ Hp). destruct (decide (path = w_base_path w)) as [->|];
      [by rewrite lookup_insert_eq|by rewrite lookup_insert_ne].
  - rewrite (pv_next _ _ _ _ Hp). cbn. lia.
  - unfold calm, quiet, healthy. by rewrite (pv_oracle _ _ _ _ Hp).
Qed.

Lemma private_between path W :
  path = attempt \/ path = final -> private path ino (drawn rest wd) W -> between W.
Proof.
  intros Hpath Hp. destruct roll_numbers as (_ & _ & Hne & _). split; [|by eapply private_frame].
  assert (HW : inode_of W f = inode_of wd f) by (by rewrite (pv_others _ _ _ _ Hp)).
  pose proof (wk_segment _ _ _ Hw) as Hseg. unfold roll_safe, data_of in *. rewrite HW. destruct Hseg.
  split_and!; [done|done|]. left. by split.
Qed.

(** From there on the old segment and the successor change in place. *)
Lemma rolling_between w1 W :
  private final ino (drawn rest wd) w1 -> rolling w es gen edge ino w1 W -> between W.
Proof.
  intros Hp1 (Hsf & Hf2 & Hkh & Hrec). split; [done|].
  destruct (private_frame final w1 (or_intror eq_refl) Hp1), Hf2. constructor.
  - intros j Hj Hjf. rewrite f2_others0; [by apply rf_others0|done|lia].
  - by eapply kept_head_trans.
  - by eapply same_trans.
  - by rewrite f2_len0.
  - intros k Hk1 Hk2. rewrite f2_dir0. by apply rf_dir0.
  - rewrite f2_dir0. done.
  - lia.
  - unfold calm, quiet, healthy in *. rewrite f2_oracle0. done.
Qed.

(** Retention keeps the successor. *)
Lemma pruned_between w3 W :
  between w3 -> w_inodes W = w_inodes w3 -> w_dir W = pruned w next (w_dir w3) ->
  w_next W = w_next w3 -> w_oracle W = w_oracle w3 -> between W.
Proof.
  intros [Hsafe Hframe] Hi Hd Hn Ho. destruct roll_numbers as (_ & Hseq & _).
  split; [|by eapply roll_frame_pruned].
  unfold roll_safe in *. unfold data_of, inode_of in *. rewrite Hi.
  destruct Hsafe as (? & ? & Hs). split_and!; [done|done|]. destruct Hs as [|(? & Hl & ?)]; [by left|right].
  split_and!; [done| |done]. destruct Hl as (j & k & Hj & Hb & Hjn). exists j, k.
  unfold len_of, data_of, inode_of in *. rewrite Hi, Hd, Hn, pruned_lookup by (done || lia). done.
Qed.

(** The checks, the numbers of the old file, and a successor prepared here. *)
Lemma roll_begin (k : Z -> Identity -> PreparedSegment -> option Z -> RollEdge -> M Writer unit) (Q : res unit -> Writer -> world -> Prop) :
  (forall w1, private final ino (drawn rest wd) w1 ->
     prepared w1 ino len next rs (w_mtu w) (w_channel_name w) 0 gen (successor_identity w id) ->
     wp (k next (successor_identity w id) (PSegment ino (Mapping ino 0 rs) (Mapping ino 0 rs) 0 len FIRST_RECORD) None edge) wp0 w1 Q between) ->
  wp (old_base <- load_base_record_index (Mapping f 0 rs) ;;
      old_count <- load_message_count (Mapping f 0 rs) ;;
      generation <- load_generation (Mapping f 0 rs) ;;
      next_seq <- lift (ok_or (checked_add (w_file_sequence w) 1) (err_invalid_input "file sequence exhausted")) ;;
      let* (identity, prepared, worker) := take_successor next_seq generation in
      edge <- lift (RollEdge_after (w_file_sequence w) old_base old_count (instance identity)) ;;
      k next_seq identity prepared worker edge) wp0 wd Q between.
Proof.
  intros HQ. destruct roll_numbers as (_ & Hseq & _ & _ & _ & Hroll). pose proof (wk_rs _ _ _ Hw) as Hrs.
  pose proof (writer_ok_rs_len _ _ _ Hw) as Hrl.
  unfold load_base_record_index, load_message_count, load_generation, load_u64.
  do 3 (eapply wp_reads_bind; [apply reads_head; [done|apply Hc|done|done|done]|]).
  apply wp_bind, wp_lift. rewrite (proj2 (checked_add_Some (w_file_sequence w) 1 next)) by lia. cbn [ok_or].
  apply wp_bind. unfold take_successor. apply wp_bind, wp_self.
  eapply wp_reads_bind; [by apply reads_on_prefault, Hw|].
  eapply wp_reads_bind; [by apply reads_on_prefault, Hw|].
  apply wp_bind. change (w_file_sequence w) with (w_file_sequence wp0) at 1.
  assert (Hr0 : can_roll wp0 wd id rest len) by (constructor; apply Hr).
  eapply prepare_successor_run; [done|done|done|exact Hr0|apply (get_range 8)|..].
  { intros path W Hpath Hp. by apply (private_between path). }
  intros w1 Hp1 Hpr. apply wp_ret. apply wp_bind, wp_lift. unfold RollEdge_after. cbn [fst snd].
  rewrite (proj2 (checked_add_Some (w_file_sequence w) 1 next)) by (split; [reflexivity|lia]).
  rewrite (proj2 (checked_add_Some _ _ _)) by (split; [reflexivity|apply Hr]).
  exact (HQ w1 Hp1 Hpr).
Qed.

(** The switch to the successor, and retention. *)
Lemma enter_successor_run w3 :
  between w3 -> w_dir w3 = <[final := DFile ino]> (w_dir wd) ->
  successor_bytes (data_of w3 ino) rs next gen (next_base_record_index edge) (successor_identity w id) ->
  roll_at (data_of w3 f) q edge -> get 8 (data_of w3 f) OFF_write_position = q + ROLL_TOTAL + HEADER_SLOT ->
  len_of w3 ino = len ->
  wp (enter_successor next (successor_identity w id) (PSegment ino (Mapping ino 0 rs) (Mapping ino 0 rs) 0 len FIRST_RECORD) None) wp0 w3
    (fun r w' wd' => r = Ok tt /\ rolled_ok w wd es id len w' wd') between.
Proof.
  intros Hb Hdir Hsb Hroll Hpos Hlen. unfold enter_successor. apply wp_bind, wp_self. apply wp_bind, wp_modify.
  change (w_prefault wp0) with (w_prefault w). rewrite (wk_prefault _ _ _ Hw).
  apply wp_bind, wp_modify. apply wp_bind, wp_self.
  cbn [ps_file ps_channel_region ps_current_region ps_region_index ps_file_len ps_next_hdr].
  change (instance (successor_identity w id)) with id.
  match goal with |- context [set_held [] ?x] => change (set_held [] x) with (rolled_writer w id ino len) end.
  change (w_deferred_prune (rolled_writer w id ino len)) with (w_deferred_prune w).
  rewrite (wk_deferred _ _ _ Hw). apply wp_bind, wp_ret.
  apply retention_run; [by apply Hb|apply Hw|rewrite Hdir|].
  { cbn. destruct (decide (w_base_path w = final)) as [<-|]; [by rewrite lookup_insert_eq|].
    rewrite lookup_insert_ne by done. apply Hr. }
  intros w4 Hd4 Hi4 Hn4 Ho4. change (pruned (rolled_writer w id ino len)) with (pruned w) in Hd4.
  assert (H4 : forall j, data_of w4 j = data_of w3 j) by (intros; unfold data_of, inode_of; by rewrite Hi4).
  assert (Hl4 : len_of w4 ino = len) by (rewrite <- Hlen; unfold len_of, inode_of; by rewrite Hi4).
  pose proof (pruned_between w3 w4 Hb Hi4 Hd4 Hn4 Ho4) as Hb4.
  split; [done|]. split; [done|]. rewrite <- H4 in Hsb, Hroll, Hpos. constructor; try done; try apply Hb4.
  - by eapply rolled_writer_ok.
  - exists (successor_identity w id). by split_and!.
  - by rewrite Hd4, Hdir.
  - done.
Qed.

Lemma roll_file_run : wp roll_file w wd (fun r w' wd' => r = Ok tt /\ rolled_ok w wd es id len w' wd') between.
Proof.
  destruct roll_numbers as (Hrs' & Hseq & Hne & Hroom & Hlen & _). unfold roll_file. apply wp_bind, wp_modify. apply wp_bind, wp_self.
  cbn [w_file_sequence w_next_hdr_pos w_region_size w_channel_region set_pending].
  unfold div_guard. replace (rs =? 0) with false by (symmetry; apply Z.eqb_neq; lia). apply wp_bind, wp_ret.
  replace (rs - q mod rs <? ROLL_TOTAL) with false by (symmetry; apply Z.ltb_ge; lia).
  rewrite (wk_channel _ _ _ Hw).
  apply (roll_begin (fun next_seq identity prepared worker edge =>
    stage_roll (q mod rs) edge ;; publish_roll q (ps_channel_region prepared) edge ;;
    enter_successor next_seq identity prepared worker)).
  intros w1 Hp1 [Hpl Hpb].
  assert (Hf1 : inode_of w1 f = inode_of wd f) by (by rewrite (pv_others _ _ _ _ Hp1)).
  pose proof (writer_ok_same _ _ w1 _ Hw Hf1) as Hw1. pose proof (private_calm _ _ _ _ Hp1 Hc) as Hc1.
  pose proof (edge_of_ok _ _ _ _ _ Hr) as Hedge. pose proof (successor_identity_wf _ _ _ _ _ Hr) as Hwf.
  pose proof (edge_names _ _ _ _ _ Hr) as Hnames.
  assert (Hdir1 : w_dir w1 !! final = Some (DFile ino)) by (rewrite (pv_dir _ _ _ _ Hp1); by rewrite lookup_insert_eq).
  assert (Hino1 : ino < w_next w1) by (rewrite (pv_next _ _ _ _ Hp1); cbn; lia).
  assert (Hbetween : forall W, rolling w es gen edge ino w1 W -> between W) by (intros W; by apply rolling_between).
  apply wp_bind. eapply wp_mono; [eapply (stage_roll_run w es gen edge ino w1) with
    (Q := fun r s w2 => r = Ok tt /\ s = wp0 /\ frame2 f ino w1 w2 /\ data_of w2 f = staged (data_of w1 f) q edge /\
       data_of w2 ino = data_of w1 ino); try done|cbv beta|exact Hbetween].
  intros r s' w2 (-> & -> & Hf2 & H2f & H2i). apply wp_bind. cbn [ps_channel_region].
  eapply wp_mono; [eapply (publish_roll_run w es gen edge (successor_identity w id) ino w1) with
    (Q := fun r s w3 => r = Ok tt /\ s = wp0 /\ frame2 f ino w1 w3 /\ (exists flags,
       data_of w3 ino = stamped (data_of w1 ino) (next_base_record_index edge) flags) /\
       rolling w es gen edge ino w1 w3 /\ roll_at (data_of w3 f) q edge /\
       get 8 (data_of w3 f) OFF_write_position = q + ROLL_TOTAL + HEADER_SLOT); try done; [by rewrite Hpl|]|cbv beta|exact Hbetween].
  { intros w3 flags H31 H32 H33 H34 H35 H36 H37. repeat (split; [first [done|by exists flags|by split_and!]|]). done. }
  intros r s' w3 (-> & -> & Hf3 & (flags & H3i) & Hrolling3 & Hroll3 & Hpos3).
  apply enter_successor_run; [by apply Hbetween| | |done|done|by rewrite (f2_len _ _ _ _ Hf3)].
  - by rewrite (f2_dir _ _ _ _ Hf3), (pv_dir _ _ _ _ Hp1).
  - rewrite H3i. eapply stamped_ok; [apply Hw|exact Hpb|done|apply Hedge].
Qed.

End whole.

End roll.
