(* ===== verification/Handshake.v ===== *)
(** * The claim and the installation in flight

    The writer and its helper thread agree without a lock on who installs the next segment, and
    retention never removes a segment that the helper may still install.  Each step here is one
    access to the shared atomics, one rename or one unlink; the two threads interleave freely.
    [prepare_segment] is then taken apart into its accesses, each of which is such a step. *)

From Stdlib Require Import String.
From S2P Require Import Prelude Bytes Effects Region Channel V4 Names NamesFacts Segment Helper Prefault RegionFacts PopulateFacts SegmentFacts WriterInv PrepareFacts RollFacts.

#[local] Open Scope list_scope.
#[local] Open Scope Z_scope.

(** ** The state *)

(** Where the helper is in [prepare_segment]. *)
Inductive Pc :=
  | Idle
  | Passing (sequence : Z)                (* the segment held ready was seen to be one the writer passed *)
  | Announced (sequence : Z)                  (* [in_flight] is stored *)
  | Installing (sequence : Z)                 (* [claimed] was loaded, and is below *)
  | Ended (sequence : Z) (installed : bool)   (* [install_ahead] returned *)
  | Cleared (sequence : Z) (installed : bool) (* [in_flight] is [NONE] again *)
  | Offering (sequence : Z)                   (* [claimed] was loaded again, and is below *)
  | Gone.                                     (* an error or a panic ended the thread *)

(** Where the writer is in [prune]: [Looking k] once it has seen that the thread has not stopped, and
    before it loads [in_flight], to know whether the thread may be installing [k]. *)
Inductive Wc := Steady | Looking (k : Z).

Record Shake := MkShake {
  k_pc : Pc;
  k_wc : Wc;
  k_stopped : bool;
  k_claimed : Z;
  k_in_flight : Z;
  k_ready : option Z;
  k_sequence : Z;        (* the writer's segment *)
  k_names : gset Z;      (* the segments with their final name in the directory *)
  k_deferred : list Z;   (* to prune later: the helper may be installing them *)
  k_doomed : gset Z;     (* given to be unlinked *)
  k_removed : gset Z     (* unlinked *)
}.

(** ** The helper: [prepare_segment] *)

Inductive helper_step : Shake -> Shake -> Prop :=
  | h_see v b c f r q n d x u :
      r <= c ->
      helper_step (MkShake Idle v b c f (Some r) q n d x u) (MkShake (Passing r) v b c f (Some r) q n d x u)
  | h_passed k v b c f r q n d x u :
      helper_step (MkShake (Passing k) v b c f r q n d x u) (MkShake Idle v b c f None q n d x u)
  | h_announce s v b c f r q n d x u :
      helper_step (MkShake Idle v b c f r q n d x u) (MkShake (Announced s) v b c s r q n d x u)
  | h_refuse s v b c f r q n d x u :
      s <= c ->
      helper_step (MkShake (Announced s) v b c f r q n d x u) (MkShake (Ended s false) v b c f r q n d x u)
  | h_pass s v b c f r q n d x u :
      c < s ->
      helper_step (MkShake (Announced s) v b c f r q n d x u) (MkShake (Installing s) v b c f r q n d x u)
  | h_install s ok v b c f r q n d x u :
      s ∉ n ->
      helper_step (MkShake (Installing s) v b c f r q n d x u) (MkShake (Ended s ok) v b c f r q ({[s]} ∪ n) d x u)
  | h_not_installed s v b c f r q n d x u :
      helper_step (MkShake (Installing s) v b c f r q n d x u) (MkShake (Ended s false) v b c f r q n d x u)
  | h_clear s ok v b c f r q n d x u :
      helper_step (MkShake (Ended s ok) v b c f r q n d x u) (MkShake (Cleared s ok) v b c NONE r q n d x u)
  | h_test s v b c f r q n d x u :
      c < s ->
      helper_step (MkShake (Cleared s true) v b c f r q n d x u) (MkShake (Offering s) v b c f r q n d x u)
  | h_offer s v b c f r q n d x u :
      helper_step (MkShake (Offering s) v b c f r q n d x u) (MkShake Idle v b c f (Some s) q n d x u)
  | h_keep s ok v b c f r q n d x u :
      ok = false \/ s <= c ->
      helper_step (MkShake (Cleared s ok) v b c f r q n d x u) (MkShake Idle v b c f r q n d x u)
  | h_end pc v b c f r q n d x u :
      helper_step (MkShake pc v b c f r q n d x u) (MkShake Gone v b c f r q n d x u)
  | h_stopped v b c f r q n d x u :
      helper_step (MkShake Gone v b c f r q n d x u) (MkShake Gone v true c f r q n d x u).

(** ** The writer: claiming, taking or making the successor, rolling, pruning

    [w_look], [w_defer], [w_doom] and [w_doom_stopped] are [prune] and the two loads of [installing]. *)

Inductive writer_step : Shake -> Shake -> Prop :=
  | w_claim pc b c f r q n d x u :
      writer_step (MkShake pc Steady b c f r q n d x u) (MkShake pc Steady b (q + 1) f r q n d x u)
  | w_take pc b c f q n d x u :
      c = q + 1 ->
      writer_step (MkShake pc Steady b c f (Some (q + 1)) q n d x u) (MkShake pc Steady b c f None q n d x u)
  | w_make pc b c f r q n d x u :
      c = q + 1 -> q + 1 ∉ n ->
      writer_step (MkShake pc Steady b c f r q n d x u) (MkShake pc Steady b c f r q ({[q + 1]} ∪ n) d x u)
  | w_roll pc b c f r q n d x u :
      c = q + 1 -> q + 1 ∈ n ->
      writer_step (MkShake pc Steady b c f r q n d x u) (MkShake pc Steady b c f r (q + 1) n d x u)
  | w_look k pc c f r q n d x u :
      k < q ->
      writer_step (MkShake pc Steady false c f r q n d x u) (MkShake pc (Looking k) false c f r q n d x u)
  | w_defer k pc b c r q n d x u :
      writer_step (MkShake pc (Looking k) b c k r q n d x u) (MkShake pc Steady b c k r q n (d ++ [k]) x u)
  | w_retry k pc b c f r q n d x u :
      writer_step (MkShake pc Steady b c f r q n (k :: d) x u) (MkShake pc Steady b c f r q n d x u)
  | w_doom k pc b c f r q n d x u :
      f <> k ->
      writer_step (MkShake pc (Looking k) b c f r q n d x u) (MkShake pc Steady b c f r q n d ({[k]} ∪ x) u)
  | w_doom_stopped k pc c f r q n d x u :
      k < q ->
      writer_step (MkShake pc Steady true c f r q n d x u) (MkShake pc Steady true c f r q n d ({[k]} ∪ x) u).

(** An unlink, by either thread. *)
Inductive unlink_step : Shake -> Shake -> Prop :=
  | u_unlink k pc v b c f r q n d x u :
      k ∈ x ->
      unlink_step (MkShake pc v b c f r q n d x u) (MkShake pc v b c f r q (n ∖ {[k]}) d (x ∖ {[k]}) ({[k]} ∪ u)).

Definition shake_step (a b : Shake) : Prop := helper_step a b \/ writer_step a b \/ unlink_step a b.

(** A writer with a helper that has just started, in segment [q]. *)
Definition start (q : Z) (n : gset Z) : Shake := MkShake Idle Steady false q NONE None q n [] ∅ ∅.

(** ** What holds throughout *)

Definition announced (pc : Pc) : option Z :=
  match pc with Announced s | Installing s | Ended s _ => Some s | _ => None end.

Record shake_ok (a : Shake) : Prop := {
  so_claimed : k_sequence a <= k_claimed a <= k_sequence a + 1;
  so_in_flight : forall s, announced (k_pc a) = Some s -> k_in_flight a = s;
  so_stopped : k_stopped a = true -> k_pc a = Gone;
  so_dropped : forall k, k ∈ k_doomed a \/ k ∈ k_removed a -> k < k_sequence a /\ k_pc a <> Installing k;
  so_removed : forall k, k ∈ k_removed a -> k ∉ k_names a;
  so_looking : forall k, k_wc a = Looking k -> k < k_sequence a
}.

Lemma start_ok q n : shake_ok (start q n).
Proof.
  constructor; cbn; [lia|done|done| | |done].
  - by intros k [Hk|Hk]; apply elem_of_empty in Hk.
  - by intros k Hk%elem_of_empty.
Qed.

Lemma helper_step_ok a b : helper_step a b -> shake_ok a -> shake_ok b.
Proof.
  intros Hs [H1 H2 H3 H4 H5 H6].
  destruct Hs; cbn in *; constructor; cbn in *;
    try exact H1; try exact H3; try exact H4; try exact H5; try exact H6; try (intros; simplify_eq; by auto);
    try (intros E; by specialize (H3 E)); try (intros j Hj; by destruct (H4 j Hj)).
  - intros j Hj. destruct (H4 j Hj). split; [done|]. intros [= ->]. lia.
  - intros j Hj [->%elem_of_singleton|Hn]%elem_of_union; [|by eapply H5].
    destruct (H4 s) as [_ Hne]; [by right|]. by apply Hne.
Qed.

(** What is doomed is behind the writer, and the helper is not about to install it. *)
Lemma doomed_ok (pc : Pc) (q k : Z) (x u : gset Z) :
  (forall j, j ∈ x \/ j ∈ u -> j < q /\ pc <> Installing j) -> k < q -> pc <> Installing k ->
  forall j, j ∈ ({[k]} ∪ x : gset Z) \/ j ∈ u -> j < q /\ pc <> Installing j.
Proof.
  intros Ho Hk Hpc j [[->%elem_of_singleton|Hj]%elem_of_union|Hj]; [done|by apply Ho; left|by apply Ho; right].
Qed.

Lemma writer_step_ok a b : writer_step a b -> shake_ok a -> shake_ok b.
Proof.
  intros Hs [H1 H2 H3 H4 H5 H6].
  destruct Hs; cbn in *; constructor; cbn in *;
    try exact H2; try exact H3; try exact H4; try exact H5; try exact H1; try exact H6; try done; try lia.
  - intros j Hj [->%elem_of_singleton|Hn]%elem_of_union; [|by eapply H5].
    destruct (H4 (q + 1)) as [Hlt _]; [by right|lia].
  - intros j Hj. destruct (H4 j Hj). split; [lia|done].
  - by intros j [= <-].
  - apply doomed_ok; [done|by apply H6|]. intros ->. by specialize (H2 k eq_refl).
  - apply doomed_ok; [done..|]. by rewrite H3.
Qed.

Lemma unlink_step_ok a b : unlink_step a b -> shake_ok a -> shake_ok b.
Proof.
  intros Hs [H1 H2 H3 H4 H5 H6]. destruct Hs; cbn in *; constructor; cbn in *; try done.
  - intros j [[Hj _]%elem_of_difference|[->%elem_of_singleton|Hj]%elem_of_union]; apply H4; auto.
  - intros j [->%elem_of_singleton|Hj]%elem_of_union [Hn Hne]%elem_of_difference.
    + by apply Hne, elem_of_singleton.
    + by eapply H5.
Qed.

Lemma shake_step_ok a b : shake_step a b -> shake_ok a -> shake_ok b.
Proof. intros [Hs|[Hs|Hs]]; eauto using helper_step_ok, writer_step_ok, unlink_step_ok. Qed.

Lemma reachable_ok a b : rtc shake_step a b -> shake_ok a -> shake_ok b.
Proof. induction 1; eauto using shake_step_ok. Qed.

(** ** The code follows the steps *)

(** The segments whose final names are in the directory. *)
Definition segment_named (base name : string) : option Z :=
  match sequence_of base name with
  | Some k => if String.eqb name (channel_file_name base k) then Some k else None
  | None => None
  end.

Definition names_of (wd : world) (base : string) : gset Z :=
  list_to_set (omap (segment_named base) (elements (dom (w_dir wd)))).

(** What the shared state and the directory say; the rest is the writer's own. *)
Definition shake_of (p : Shared) (wd : world) (pc : Pc) (v : Wc) (q : Z) (d : list Z) (x u : gset Z) : Shake :=
  MkShake pc v (Failure_stopped (p_failure p)) (p_claimed p) (p_in_flight p) (ns_sequence <$> p_ready p) q
    (names_of wd (p_base_path p)) d x u.

Lemma elem_of_names wd base k :
  k ∈ names_of wd base <-> sequence_of base (channel_file_name base k) = Some k /\ is_Some (w_dir wd !! channel_file_name base k).
Proof.
  unfold names_of. rewrite elem_of_list_to_set, list_elem_of_omap. split.
  - intros (name & Hn & Hk). unfold segment_named in Hk. destruct (sequence_of base name) as [j|] eqn:Ej; [|done].
    destruct (String.eqb_spec name (channel_file_name base j)) as [->|]; [|done]. injection Hk as ->. split; [done|].
    by apply elem_of_dom, elem_of_elements.
  - intros [Hs Hn]. exists (channel_file_name base k). split; [by apply elem_of_elements, elem_of_dom|].
    unfold segment_named. by rewrite Hs, String.eqb_refl.
Qed.

(** Names that are not segments' do not count. *)
Lemma names_of_same wd wd' base :
  (forall name, sequence_of base name <> None -> w_dir wd' !! name = w_dir wd !! name) -> names_of wd' base = names_of wd base.
Proof.
  intros Hd. apply set_eq. intros k. rewrite !elem_of_names. split; intros [Hs Hn]; (split; [done|]);
    [rewrite <- Hd|rewrite Hd]; done || by rewrite Hs.
Qed.

Lemma names_of_install wd wd' base s e :
  0 <= s <= U64_MAX ->
  (forall name, sequence_of base name <> None -> w_dir wd' !! name = <[channel_file_name base s := e]> (w_dir wd) !! name) ->
  names_of wd' base = {[s]} ∪ names_of wd base.
Proof.
  intros Hs Hd. apply set_eq. intros k. rewrite elem_of_union, elem_of_singleton, !elem_of_names.
  destruct (decide (k = s)) as [->|Hne].
  - rewrite Hd, lookup_insert_eq by (by rewrite sequence_of_channel_file_name). rewrite sequence_of_channel_file_name by done. split; [by left|by eauto].
  - split.
    + intros [Hk Hn]. right. split; [done|]. rewrite Hd in Hn by (by rewrite Hk).
      rewrite lookup_insert_ne in Hn; [done|]. intros E. rewrite <- E in Hk. rewrite sequence_of_channel_file_name in Hk by done. congruence.
    + intros [->|[Hk Hn]]; [done|]. split; [done|]. rewrite Hd by (by rewrite Hk).
      rewrite lookup_insert_ne; [done|]. intros E. rewrite <- E in Hk. rewrite sequence_of_channel_file_name in Hk by done. congruence.
Qed.

(** What the helper needs to make the segment [s]: a spec the builder accepted, and an ID. *)
Record can_prepare `{Env} (spec : SegmentSpec) (p : Shared) (wd : world) (s : Z) (parent : InstanceId) (ahead : Z)
    (id : InstanceId) (rest : list (list Z)) (len : Z) : Prop := {
  cp_base : sp_base_path spec = p_base_path p /\ w_dir wd !! p_base_path p <> Some DDir;
  cp_rs : rs_ok (p_region_size p);
  cp_len : preallocation_len (p_region_size p) (sp_file_roll_size spec) = Ok len /\ p_region_size p <= len <= I64_MAX;
  cp_sequence : 1 <= s < U64_MAX;
  cp_name : name_ok (sp_channel_name spec);
  cp_generation : 0 <= sp_generation spec < 2 ^ 64;
  cp_parent : id_ok parent;
  cp_random : o_random (w_oracle wd) = id :: rest;
  cp_id : id_ok id /\ id <> InstanceId_NONE;
  cp_attempt : w_dir wd !! attempt_name (p_base_path p) s id = None;
  cp_ahead : 0 <= ahead
}.

(** The accesses [prepare_segment] makes, in the code's order, with what it keeps between them. *)
Inductive Stage :=
  | AtStart
  | AtPassed (n : Z)                  (* the segment held ready is [n], and the writer has passed it *)
  | AtChecks
  | AtAnnounce (parent : InstanceId)
  | AtCheck (parent : InstanceId)
  | AtInstall (parent : InstanceId)
  | AtClear (installed : option (Identity * PreparedSegment * Z) + io_error)
  | AtResult (installed : option (Identity * PreparedSegment * Z) + io_error)
  | AtOffer (identity : Identity) (segment : PreparedSegment) (worker : Z)
  | AtEnd.

Definition stage `{Env} (spec : SegmentSpec) (sequence ahead : Z) (g : Stage) : M Shared Stage :=
  match g with
  | AtStart =>
      p <- self ;;
      if p_ready_sequence p =? sequence then ret AtEnd
      else
        match p_ready p with
        | Some n => if ns_sequence n <=? p_claimed p then ret (AtPassed (ns_sequence n)) else ret AtChecks
        | None => ret AtChecks
        end
  | AtPassed _ => modify (with_ready None NONE) ;; ret AtChecks
  | AtChecks =>
      p <- self ;;
      if bool_decide (p_refused p = Some sequence)
         || (match p_ready p with Some n => ns_sequence n =? sequence | None => false end) then ret AtEnd
      else if negb (hs_sequence (p_segment p) + 1 =? sequence) then ret AtEnd
      else ret (AtAnnounce (hs_instance (p_segment p)))
  | AtAnnounce parent => modify (with_in_flight sequence) ;; ret (AtCheck parent)
  | AtCheck parent =>
      p <- self ;;
      if p_claimed p >=? sequence then ret (AtClear (inl None)) else ret (AtInstall parent)
  | AtInstall parent => installed <- attempt (install_ahead spec sequence parent ahead) ;; ret (AtClear installed)
  | AtClear installed => modify (with_in_flight NONE) ;; ret (AtResult installed)
  | AtResult (inr e) => throw e
  | AtResult (inl None) => ret AtEnd
  | AtResult (inl (Some (identity, segment, worker))) =>
      p <- self ;;
      if p_claimed p <? sequence then ret (AtOffer identity segment worker) else ret AtEnd
  | AtOffer identity segment worker =>
      modify (with_ready (Some (MkNextSegment sequence identity segment worker)) sequence) ;; ret AtEnd
  | AtEnd => ret AtEnd
  end.

(** All of them, one after the other. *)
Definition STAGES : nat := 9.

Definition run_stages `{Env} (spec : SegmentSpec) (sequence ahead : Z) : M Shared unit :=
  loop_with STAGES (fun g =>
    g <- stage spec sequence ahead g ;;
    ret (match g with AtEnd => inr tt | _ => inl g end)) AtStart.

(** Where the helper is before each of them. *)
Definition is_installed (r : option (Identity * PreparedSegment * Z) + io_error) : bool :=
  match r with inl (Some _) => true | _ => false end.

Definition pc_of (sequence : Z) (g : Stage) : Pc :=
  match g with
  | AtStart | AtChecks | AtAnnounce _ | AtEnd => Idle
  | AtPassed n => Passing n
  | AtCheck _ => Announced sequence
  | AtInstall _ => Installing sequence
  | AtClear r => Ended sequence (is_installed r)
  | AtResult r => Cleared sequence (is_installed r)
  | AtOffer _ _ _ => Offering sequence
  end.

(** And after one that gave [r]. *)
Definition pc_after (sequence : Z) (r : res Stage) : Pc :=
  match r with Ok g => pc_of sequence g | _ => Gone end.

Section follows.
Context `{EnvOk}.
Implicit Types (p : Shared) (spec : SegmentSpec).

(** *** [prepare_segment] is its stages *)

Definition stages `{Env} spec (sequence ahead : Z) (n : nat) (g : Stage) : M Shared unit :=
  loop_with n (fun g => g <- stage spec sequence ahead g ;; ret (match g with AtEnd => inr tt | _ => inl g end)) g.

Lemma stages_go spec s ahead n g p wd g' p' wd' tr :
  stage spec s ahead g p wd = Outcome (Ok g') p' wd' tr -> g' <> AtEnd ->
  stages spec s ahead (S n) g p wd =
    let o := stages spec s ahead n g' p' wd' in Outcome (o_res o) (o_self o) (o_world o) (tr ++ o_trace o).
Proof.
  intros E Hg. unfold stages. cbn [loop_with]. unfold bind at 1 2. rewrite E. cbn [o_res o_self o_world o_trace ret].
  rewrite app_nil_r. by destruct g'.
Qed.

Lemma stages_next spec s ahead n g p wd g' p' wd' :
  stage spec s ahead g p wd = Outcome (Ok g') p' wd' [] -> g' <> AtEnd ->
  stages spec s ahead (S n) g p wd = stages spec s ahead n g' p' wd'.
Proof. intros E Hg. rewrite (stages_go _ _ _ _ _ _ _ _ _ _ _ E Hg). cbn [app]. by destruct (stages _ _ _ _ _ _ _). Qed.

Lemma stages_done spec s ahead n g p wd p' wd' :
  stage spec s ahead g p wd = Outcome (Ok AtEnd) p' wd' [] -> stages spec s ahead (S n) g p wd = Outcome (Ok tt) p' wd' [].
Proof. intros E. unfold stages. cbn [loop_with]. unfold bind at 1 2. by rewrite E. Qed.

Lemma stages_err spec s ahead n g p wd e p' wd' tr :
  stage spec s ahead g p wd = Outcome (Err e) p' wd' tr -> stages spec s ahead (S n) g p wd = Outcome (Err e) p' wd' tr.
Proof. intros E. unfold stages. cbn [loop_with]. unfold bind at 1 2. by rewrite E. Qed.

Lemma stages_die spec s ahead n g p wd y p' wd' tr :
  stage spec s ahead g p wd = Outcome (Die y) p' wd' tr -> stages spec s ahead (S n) g p wd = Outcome (Die y) p' wd' tr.
Proof. intros E. unfold stages. cbn [loop_with]. unfold bind at 1 2. by rewrite E. Qed.

(** What follows [install_ahead]. *)
Lemma clear_stages spec s ahead n r p wd :
  stages spec s ahead (S (S (S n))) (AtClear r) p wd =
    (modify (with_in_flight NONE) ;;
     match r with
     | inr e => throw e
     | inl None => ret tt
     | inl (Some (identity, segment, worker)) =>
         p1 <- self ;;
         if p_claimed p1 <? s then modify (with_ready (Some (MkNextSegment s identity segment worker)) s) else ret tt
     end) p wd.
Proof.
  rewrite (stages_next _ _ _ _ _ _ _ (AtResult r) (with_in_flight NONE p) wd) by done. rewrite bind_modify.
  destruct r as [[[[i seg] wk]|]|e]; [|by erewrite stages_done|by erewrite stages_err].
  rewrite (reads_bind _ _ _ _ _ (reads_self _ _)). destruct (p_claimed (with_in_flight NONE p) <? s) eqn:El.
  - rewrite (stages_next _ _ _ _ _ _ _ (AtOffer i seg wk) (with_in_flight NONE p) wd);
      [by erewrite stages_done|unfold stage; rewrite (reads_bind _ _ _ _ _ (reads_self _ _)); by rewrite El|done].
  - erewrite stages_done; [done|]. unfold stage. rewrite (reads_bind _ _ _ _ _ (reads_self _ _)). by rewrite El.
Qed.

Lemma announce_stages spec s ahead n parent p wd :
  stages spec s ahead (S (S (S (S (S (S n)))))) (AtAnnounce parent) p wd =
    (modify (with_in_flight s) ;;
     p1 <- self ;;
     installed <- attempt (if p_claimed p1 >=? s then ret None else install_ahead spec s parent ahead) ;;
     modify (with_in_flight NONE) ;;
     match installed with
     | inr e => throw e
     | inl None => ret tt
     | inl (Some (identity, segment, worker)) =>
         p1 <- self ;;
         if p_claimed p1 <? s then modify (with_ready (Some (MkNextSegment s identity segment worker)) s) else ret tt
     end) p wd.
Proof.
  rewrite (stages_next _ _ _ _ _ _ _ (AtCheck parent) (with_in_flight s p) wd) by done. rewrite bind_modify.
  rewrite (reads_bind _ _ _ _ _ (reads_self _ _)). set (p1 := with_in_flight s p). destruct (p_claimed p1 >=? s) eqn:Ec.
  - rewrite (stages_next _ _ _ _ _ _ _ (AtClear (inl None)) p1 wd);
      [|unfold stage; rewrite (reads_bind _ _ _ _ _ (reads_self _ _)); by rewrite Ec|done].
    rewrite (reads_bind _ _ _ _ _ (reads_attempt_ok _ _ _ _ (reads_ret _ _ _))).
    rewrite (stages_next _ _ _ _ _ _ _ (AtResult (inl None)) (with_in_flight NONE p1) wd) by done. by erewrite stages_done.
  - rewrite (stages_next _ _ _ _ _ _ _ (AtInstall parent) p1 wd);
      [|unfold stage; rewrite (reads_bind _ _ _ _ _ (reads_self _ _)); by rewrite Ec|done].
    unfold bind at 1. destruct (attempt (install_ahead spec s parent ahead) p1 wd) as [r p2 wd2 tr] eqn:E.
    assert (Es : forall r', o_res (attempt (install_ahead spec s parent ahead) p1 wd) = Ok r' ->
      stage spec s ahead (AtInstall parent) p1 wd = Outcome (Ok (AtClear r')) p2 wd2 tr).
    { intros r'. rewrite E. cbn [o_res]. intros ->. cbn [stage]. unfold bind. rewrite E. cbn. by rewrite app_nil_r. }
    rewrite E in Es. cbn [o_res o_self o_world o_trace] in *. destruct r as [r|e|y].
    + rewrite (stages_go _ _ _ _ _ _ _ _ _ _ _ (Es r eq_refl)) by done. cbv zeta. by rewrite clear_stages.
    + apply stages_err. cbn [stage]. unfold bind. by rewrite E.
    + apply stages_die. cbn [stage]. unfold bind. by rewrite E.
Qed.

Lemma checks_stages spec s ahead n p wd :
  stages spec s ahead (S (S (S (S (S (S (S n))))))) AtChecks p wd =
    (p1 <- self ;;
     if bool_decide (p_refused p1 = Some s)
        || (match p_ready p1 with Some n => ns_sequence n =? s | None => false end) then ret tt
     else if negb (hs_sequence (p_segment p1) + 1 =? s) then ret tt
     else
       let parent := hs_instance (p_segment p1) in
       modify (with_in_flight s) ;;
       p1 <- self ;;
       installed <- attempt (if p_claimed p1 >=? s then ret None else install_ahead spec s parent ahead) ;;
       modify (with_in_flight NONE) ;;
       match installed with
       | inr e => throw e
       | inl None => ret tt
       | inl (Some (identity, segment, worker)) =>
           p1 <- self ;;
           if p_claimed p1 <? s then modify (with_ready (Some (MkNextSegment s identity segment worker)) s) else ret tt
       end) p wd.
Proof.
  rewrite (reads_bind _ _ _ _ _ (reads_self _ _)).
  destruct (_ || _) eqn:E1; [|destruct (negb _) eqn:E2].
  - apply stages_done. unfold stage. rewrite (reads_bind _ _ _ _ _ (reads_self _ _)). by rewrite E1.
  - apply stages_done. unfold stage. rewrite (reads_bind _ _ _ _ _ (reads_self _ _)). by rewrite E1, E2.
  - rewrite (stages_next _ _ _ _ _ _ _ (AtAnnounce (hs_instance (p_segment p))) p wd); [apply announce_stages| |done].
    unfold stage. rewrite (reads_bind _ _ _ _ _ (reads_self _ _)). by rewrite E1, E2.
Qed.

(** [prepare_segment] makes these accesses, in this order, whatever it meets. *)
Lemma prepare_segment_stages spec sequence ahead p wd :
  prepare_segment spec sequence ahead p wd = run_stages spec sequence ahead p wd.
Proof.
  change (run_stages spec sequence ahead) with (stages spec sequence ahead 9 AtStart).
  unfold prepare_segment. rewrite (reads_bind _ _ _ _ _ (reads_self _ _)).
  destruct (p_ready_sequence p =? sequence) eqn:Er.
  { symmetry. apply stages_done. unfold stage. rewrite (reads_bind _ _ _ _ _ (reads_self _ _)). by rewrite Er. }
  assert (Es : forall g, stage spec sequence ahead AtStart p wd = g ->
    match p_ready p with Some n => if ns_sequence n <=? p_claimed p then ret (AtPassed (ns_sequence n)) else ret AtChecks
    | None => ret AtChecks end p wd = g).
  { intros g <-. unfold stage. rewrite (reads_bind _ _ _ _ _ (reads_self _ _)). by rewrite Er. }
  destruct (p_ready p) as [n|] eqn:En; [destruct (_ <=? _) eqn:El|].
  - rewrite (stages_next _ _ _ _ _ _ _ (AtPassed (ns_sequence n)) p wd) by (done || by rewrite <- (Es _ eq_refl)).
    rewrite (stages_next _ _ _ _ _ _ _ AtChecks (with_ready None NONE p) wd) by done. rewrite checks_stages. by rewrite bind_modify.
  - rewrite (stages_next _ _ _ _ _ _ _ AtChecks p wd) by (done || by rewrite <- (Es _ eq_refl)). rewrite checks_stages.
    by rewrite (reads_bind _ _ _ _ _ (reads_ret _ _ _)).
  - rewrite (stages_next _ _ _ _ _ _ _ AtChecks p wd) by (done || by rewrite <- (Es _ eq_refl)). rewrite checks_stages.
    by rewrite (reads_bind _ _ _ _ _ (reads_ret _ _ _)).
Qed.

(** *** Each stage is a step *)

(** A name that is taken is not installed over. *)
Lemma wp_install_taken {S} from to s wd x (Q : res unit -> S -> world -> Prop) C :
  calm wd -> w_dir wd !! from = Some x -> is_Some (w_dir wd !! to) -> Q (Err e_exists) s wd ->
  wp (install_no_replace from to) s wd Q C.
Proof.
  intros Hc Hf [y Ht] HQ. unfold install_no_replace. apply wp_bind, wp_attempt.
  eapply wp_reads_bind; [by apply reads_syscall|]. apply wp_bind, wp_ask. apply wp_bind, wp_ask.
  rewrite Hf, Ht. apply wp_lift. cbn. by apply wp_lift.
Qed.

(** Populating in a calm world. *)
Lemma wp_populate {S} m off len (s : S) wd (Q : res unit -> S -> world -> Prop) C :
  calm wd -> C (asked m off len wd) -> Q (Ok tt) s (asked m off len wd) -> wp (populate m off len) s wd Q C.
Proof.
  intros Hc HC HQ. unfold populate, asked, when in *. destruct SUPPORTED; [|by apply wp_ret].
  eapply wp_reads_bind; [by apply reads_syscall|]. by apply wp_emit.
Qed.

Lemma asked_calm m off len wd : calm wd -> calm (asked m off len wd).
Proof. unfold asked. by destruct SUPPORTED. Qed.

Lemma private_asked path ino wd wd' m off len : private path ino wd wd' -> private path ino wd (asked m off len wd').
Proof. unfold asked. intros [???]. by destruct SUPPORTED; constructor. Qed.

Lemma install_ahead_run spec p wd s parent ahead id rest len (Q : res (option (Identity * PreparedSegment * Z)) -> Shared -> world -> Prop) :
  calm wd -> can_prepare spec p wd s parent ahead id rest len ->
  let base := p_base_path p in
  let with_s wd' := names_of wd' base = {[s]} ∪ names_of wd base in
  let same wd' := names_of wd' base = names_of wd base in
  (forall i seg wk wd', s ∉ names_of wd base -> calm wd' -> with_s wd' -> Q (Ok (Some (i, seg, wk))) p wd') ->
  (forall wd', s ∈ names_of wd base -> calm wd' -> same wd' -> Q (Ok None) p wd') ->
  wp (install_ahead spec s parent ahead) p wd Q (fun wd' => same wd' \/ with_s wd').
Proof.
  intros Hc [[Eb Hd] Hrs [Hlen Hl] Hs Hname Hgen Hpar Hrand [Hid Hid0] Hatt Hah] base with_s same HQ1 HQ2. unfold U64_MAX in Hs.
  unfold install_ahead. apply wp_bind, wp_self. apply wp_bind, (wp_fresh id rest); [done..|]. rewrite Eb. fold base.
  eapply wp_reads_bind; [by apply reads_attempt_path|]. eapply wp_reads_bind; [by apply reads_channel_path|].
  cbn [Identity_successor instance].
  set (i := Identity_successor id parent (s - 1)).
  assert (Hi : identity_ok i) by (split_and!; cbn; [done|done|lia|lia]).
  assert (Hapart : forall name, sequence_of base name <> None -> name <> attempt_name base s id).
  { intros name Hn ->. by rewrite sequence_of_attempt_name in Hn. }
  set (drawn_wd := drawn rest wd) in *.
  assert (Hsame : forall wd', private (attempt_name base s id) (w_next wd) drawn_wd wd' -> same wd').
  { intros wd' Hp. apply names_of_same. intros name Hn. rewrite (pv_dir _ _ _ _ Hp), lookup_insert_ne; [done|].
    apply not_eq_sym. by apply Hapart. }
  apply wp_bind, wp_attempt. eapply prepare_run; [done|done|exact Hlen|done|done|lia|done|done|exact Hi|exact Hatt| |].
  { intros w1 Hp1. left. by apply Hsame. }
  intros w1 Hp1 _. pose proof (private_calm _ _ _ _ Hp1 Hc) as Hc1. change (w_next drawn_wd) with (w_next wd) in *.
  apply wp_bind, wp_attempt. cbn [ps_current_region]. set (call := Mapping (w_next wd) 0 (p_region_size p)).
  pose proof (private_asked _ _ _ _ call 0 (Z.min ahead (p_region_size p)) Hp1) as Hp2.
  apply wp_populate; [done|left; by apply Hsame|]. set (w2 := asked _ _ _ w1) in *.
  pose proof (private_calm _ _ _ _ Hp2 Hc) as Hc2. apply wp_bind, wp_attempt.
  destruct (w_dir wd !! channel_file_name base s) as [e|] eqn:Ef.
  - eapply wp_install_taken; [done|by rewrite (pv_dir _ _ _ _ Hp2), lookup_insert_eq| |].
    { rewrite (pv_dir _ _ _ _ Hp2), lookup_insert_ne; [change (w_dir drawn_wd) with (w_dir wd); by rewrite Ef|].
      apply not_eq_sym. apply Hapart. by rewrite sequence_of_channel_file_name by (unfold U64_MAX; lia). }
    cbn [kind e_exists]. rewrite bool_decide_eq_true_2 by done. apply wp_bind. unfold ignore. apply wp_bind, wp_attempt.
    eapply wp_reads_bind; [by apply reads_syscall|]. apply wp_bind, wp_ask. rewrite (pv_dir _ _ _ _ Hp2), lookup_insert_eq.
    set (w3 := set_dir (delete (attempt_name base s id) (w_dir w2)) w2). assert (Hw3 : same w3).
    { apply names_of_same. intros name Hn. unfold w3. cbn. rewrite (pv_dir _ _ _ _ Hp2), lookup_delete_ne, lookup_insert_ne
        by (apply not_eq_sym; by apply Hapart). done. }
    apply wp_emit; [by left|]. apply wp_ret, wp_ret, HQ2; [|done|done].
    apply elem_of_names. rewrite sequence_of_channel_file_name by (unfold U64_MAX; lia). by rewrite Ef.
  - eapply wp_install; [done|exact Hp2|apply attempt_not_final|done|done|].
    intros w3 Hp3 _. pose proof (private_calm _ _ _ _ Hp3 Hc) as Hc3. assert (Hw3 : with_s w3).
    { apply (names_of_install wd w3 base s (DFile (w_next wd))); [unfold U64_MAX; lia|].
      intros name _. by rewrite (pv_dir _ _ _ _ Hp3). }
    split; [by right|]. cbn beta iota.
    apply wp_bind, wp_bind. eapply wp_reads; [by apply reads_syscall|]. cbn beta iota. apply wp_ret, wp_ret, HQ1; [|done|done].
    intros [_ [y Hy]]%elem_of_names. congruence.
Qed.

(** What a stage may need to find: for [install_ahead], what it takes to make the segment. *)
Definition prepared_for spec p wd s ahead (g : Stage) : Prop :=
  match g with AtInstall parent => exists id rest len, can_prepare spec p wd s parent ahead id rest len | _ => True end.

(** From any state of the two threads, a stage is the step of the handshake its place stands for. *)
Lemma stage_step spec p wd s ahead g v q d x u :
  calm wd -> prepared_for spec p wd s ahead g ->
  wp (stage spec s ahead g) p wd (fun r p' wd' =>
    let a := shake_of p wd (pc_of s g) v q d x u in
    let b := shake_of p' wd' (pc_after s r) v q d x u in
    calm wd' /\ (a = b \/ helper_step a b)) (fun wd' =>
    names_of wd' (p_base_path p) = names_of wd (p_base_path p) \/
    names_of wd' (p_base_path p) = {[s]} ∪ names_of wd (p_base_path p)).
Proof.
  intros Hc Hg. cbv zeta. destruct g as [|n| |parent|parent|parent|r|r|i seg wk|]; cbn [stage pc_of].
  - apply wp_bind, wp_self. destruct (_ =? _); [apply wp_ret; split; [done|by left]|].
    destruct (p_ready p) as [n|] eqn:En; [|apply wp_ret; split; [done|by left]].
    destruct (Z.leb_spec (ns_sequence n) (p_claimed p)); apply wp_ret; (split; [done|]); [right|by left].
    unfold shake_of. rewrite En. cbn. by apply h_see.
  - apply wp_bind, wp_modify, wp_ret. split; [done|]. right. apply h_passed.
  - apply wp_bind, wp_self. destruct (_ || _); [|destruct (negb _)]; apply wp_ret; (split; [done|by left]).
  - apply wp_bind, wp_modify, wp_ret. split; [done|]. right. apply h_announce.
  - apply wp_bind, wp_self. rewrite Z.geb_leb. destruct (Z.leb_spec s (p_claimed p)); apply wp_ret; (split; [done|]); right;
      [by apply h_refuse|by apply h_pass].
  - destruct Hg as (id & rest & len & Hg). apply wp_bind, wp_attempt. eapply (install_ahead_run spec p wd s parent ahead id rest len); [done|done| |].
    + intros i seg wk wd' Hfree Hc' Hn. apply wp_ret. split; [done|]. right. unfold shake_of. rewrite Hn. by apply h_install.
    + intros wd' _ Hc' Hn. apply wp_ret. split; [done|]. right. unfold shake_of. rewrite Hn. apply h_not_installed.
  - apply wp_bind, wp_modify, wp_ret. split; [done|]. right. apply h_clear.
  - destruct r as [[[[i seg] wk]|]|e].
    + apply wp_bind, wp_self. destruct (Z.ltb_spec (p_claimed p) s); apply wp_ret; (split; [done|]); right; [by apply h_test|].
      apply h_keep. right. lia.
    + apply wp_ret. split; [done|]. right. apply h_keep. by left.
    + apply wp_lift. split; [done|]. right. apply h_end.
  - apply wp_bind, wp_modify, wp_ret. split; [done|]. right. apply h_offer.
  - apply wp_ret. split; [done|by left].
Qed.

(** Nobody interfering, the segment after the helper's is made and offered. *)
Lemma prepare_segment_offers spec p wd s ahead id rest len :
  calm wd -> can_prepare spec p wd s (hs_instance (p_segment p)) ahead id rest len ->
  hs_sequence (p_segment p) + 1 = s -> p_claimed p < s -> p_ready_sequence p <> s -> p_refused p <> Some s ->
  (forall n, p_ready p = Some n -> ns_sequence n <= p_claimed p) -> s ∉ names_of wd (p_base_path p) ->
  wp (prepare_segment spec s ahead) p wd (fun r p' wd' =>
    r = Ok tt /\ ns_sequence <$> p_ready p' = Some s /\ p_ready_sequence p' = s /\ p_in_flight p' = NONE /\
    names_of wd' (p_base_path p) = {[s]} ∪ names_of wd (p_base_path p)) (fun _ => True).
Proof.
  intros Hc Hcan Hseg Hcl Hrs Href Hrd Hfree. unfold prepare_segment. apply wp_bind, wp_self.
  rewrite (proj2 (Z.eqb_neq _ _) Hrs). apply wp_bind.
  apply (wp_mono _ _ _ (fun r p1 wd' => r = Ok tt /\ wd' = wd /\ p_segment p1 = p_segment p /\ p_refused p1 = p_refused p /\
    p_claimed p1 = p_claimed p /\ p_base_path p1 = p_base_path p /\ p_region_size p1 = p_region_size p /\ p_ready p1 = None) _ (fun _ => True)); [| |done].
  { destruct (p_ready p) as [n|] eqn:Er; [|by apply wp_ret]. rewrite (proj2 (Z.leb_le _ _) (Hrd n eq_refl)). by apply wp_modify. }
  intros r p1 wd' (-> & -> & E1 & E2 & E3 & E4 & E5 & E6). apply wp_bind, wp_self. rewrite E1, E2, E6, bool_decide_eq_false_2 by done.
  rewrite Hseg, Z.eqb_refl. cbn [orb negb]. cbv zeta. apply wp_bind, wp_modify, wp_bind, wp_self.
  set (p2 := with_in_flight s p1). change (p_claimed p2) with (p_claimed p1). rewrite E3, Z.geb_leb, (proj2 (Z.leb_gt _ _) Hcl).
  apply wp_bind, wp_attempt. eapply wp_mono; [eapply (install_ahead_run spec p2 wd s _ ahead id rest len); [done| | |]|intros ??? HQ; exact HQ|done].
  - destruct Hcan. constructor; try done; cbn; by rewrite ?E4, ?E5.
  - intros i seg wk wd' _ Hc' Hn. apply wp_bind, wp_modify, wp_bind, wp_self. change (p_claimed (with_in_flight NONE p2)) with (p_claimed p1).
    rewrite E3, (proj2 (Z.ltb_lt _ _) Hcl). apply wp_modify. split_and!; [done..|]. change (p_base_path p2) with (p_base_path p1) in Hn.
    by rewrite E4 in Hn.
  - intros wd' Hin _ _. change (p_base_path p2) with (p_base_path p1) in Hin. by rewrite E4 in Hin.
Qed.

End follows.
