(* ===== verification/RecoverFacts.v ===== *)
(** * Resuming an existing segment (src/lib.rs: open_file)

    Whatever world an interrupted append leaves, [open_file] resumes at the end of the records a
    reader finds there, and repairs the advisory pair. *)

From S2P Require Import Prelude Bytes Effects Region Channel V4 Names Segment Helper Prefault Writer Chain RegionFacts SegmentFacts WriterInv CommitFacts ReserveFacts.

#[local] Open Scope Z_scope.

Lemma peek_same_at d d' a n lo hi :
  same lo hi d d' -> lo <= a -> a + Z.of_nat n <= hi -> peek d a n = peek d' a n.
Proof. intros. apply peek_same. by eapply same_sub. Qed.

Lemma get_same_at n d d' a lo hi : same lo hi d d' -> lo <= a -> a + Z.of_nat n <= hi -> get n d a = get n d' a.
Proof. intros. apply get_same. by eapply same_sub. Qed.

(** Appending leaves the header as resumable as it was. *)
Lemma resumable_kept `{Env} d d' rs seq i : kept_head d d' -> resumable d rs seq i -> resumable d' rs seq i.
Proof.
  intros (H0 & H1 & H2) [R1 R2 R3 R4]. constructor.
  - rewrite <- R1. symmetry. by apply message_header_same.
  - rewrite <- R2.
    assert (Hg : forall n a, 32 <= a -> a + Z.of_nat n <= OFF_wake_word -> get n d' a = get n d a).
    { intros n a ??. symmetry. by apply (get_same_at _ _ _ _ _ _ H1). }
    unfold validate_channel_header, channel_header_at. cbn [ch_format_version
      ch_endianness ch_system_header_size ch_user_header_size ch_user_header_kind ch_region_size ch_channel_sequence].
    by rewrite !Hg by done.
  - rewrite <- R3. unfold ext_at.
    assert (Hp : forall n a, 120 <= a -> a + Z.of_nat n <= 208 -> peek d' a n = peek d a n).
    { intros n a ??. symmetry. by apply (peek_same_at _ _ _ _ _ _ H2). }
    assert (Hg : forall n a, 120 <= a -> a + Z.of_nat n <= 208 -> get n d' a = get n d a).
    { intros n a ??. symmetry. by apply (get_same_at _ _ _ _ _ _ H2). }
    by rewrite !Hp, !Hg by done.
  - rewrite <- R4. symmetry. by apply (get_same_at _ _ _ _ _ _ H2).
Qed.

Lemma published_state b : b = PUBLISHED -> state_of b = Ok Published.
Proof. by intros ->. Qed.

Section reads.
Context `{EnvOk} {S : Type}.
Implicit Types (s : S) (w : world).

(** The checks every open makes of a segment's page 0. *)
Lemma reads_prefix f rs n seq i s w :
  rs_ok rs -> quiet w -> rs <= len_of w f -> resumable (data_of w f) n seq i ->
  reads (validate_v4_prefix (Mapping f 0 rs)) s w (Ok i) /\
  reads (is_published (Mapping f 0 rs)) s w (Ok true) /\
  reads (load_channel_header (Mapping f 0 rs)) s w (Ok (channel_header_at (data_of w f) 0)).
Proof.
  intros Hrs Hq Hl [R1 R2 R3 R4]. split_and!.
  - unfold validate_v4_prefix. eapply reads_seq; [by apply (reads_head _ _ 4 4 (get 4))|].
    assert (Hlen : get 4 (data_of w f) 4 = CHANNEL_PAYLOAD_V4).
    { change (get 4 (data_of w f) 4) with (mh_length (message_header (data_of w f) 0)). by rewrite R1. }
    rewrite Hlen. eapply reads_seq; [by apply (reads_head _ _ EXT_FILE_OFFSET 64 ext_at)|].
    by apply reads_lift_eq.
  - unfold is_published, load_state.
    eapply reads_seq; [eapply reads_seq; [by apply (reads_head _ _ OFF_publication_state 1 (get 1))|]|].
    { by apply reads_lift_eq, published_state. }
    apply reads_ret.
  - by apply (reads_head _ _ 0 144 channel_header_at).
Qed.

Lemma reads_open path f s w : calm w -> w_dir w !! path = Some (DFile f) -> reads (open path) s w (Ok f).
Proof.
  intros Hc Hd. eapply reads_seq; [by apply reads_syscall|]. eapply reads_seq; [apply reads_ask|].
  rewrite Hd. apply reads_ret.
Qed.

(** A slot that holds the header the writer lays in advance. *)
Lemma reads_verify f rs p s w :
  rs_ok rs -> quiet w -> in_file rs (len_of w f) p -> p mod rs + 16 <= rs ->
  message_header (data_of w f) p = preinstalled ->
  reads (verify_preinstall_signature (region_of f rs p) (p mod rs)) s w (Ok tt).
Proof.
  intros Hrs Hq Hin Hr Hp. unfold verify_preinstall_signature.
  eapply (reads_seq _ _ _ _ false).
  { pose proof (reads_is_committed f rs p s w Hrs Hq Hin Hr) as Hc. by rewrite get_committed, Hp in Hc. }
  eapply reads_seq; [|].
  { unfold load_header. replace (p mod rs) with (p mod rs + 0) by lia.
    apply (reads_view_at f rs p 0 16 message_header s w); [done..|lia]. }
  rewrite Z.add_0_r, Hp. done.
Qed.

End reads.

Lemma elem_of_app_last {A} (xs : list A) x : x ∈ xs ++ [x].
Proof. apply elem_of_app. right. by apply list_elem_of_singleton. Qed.

(** ** Where a writer may have been *)

(** [e] is a record the writer appends: in one region, or a [Skip] that fills the rest of one. *)
Record next_ok (rs : Z) (e : Entry) : Prop := {
  nx_aligned : en_pos e mod 8 = 0;
  nx_room : en_pos e mod rs + ROLL_TOTAL <= rs;
  nx_next_room : en_next e mod rs + ROLL_TOTAL <= rs;
  nx_kind : (type_of e = User /\ en_next e / rs = en_pos e / rs) \/
            (type_of e = Skip /\ en_next e = (en_pos e / rs + 1) * rs)
}.

Lemma region_advance rs p k : 0 < rs -> (p + k) / rs = p / rs -> (p + k) mod rs = p mod rs + k.
Proof. intros Hrs Hd. rewrite !Z.mod_eq, Hd by lia. lia. Qed.

Lemma en_next_advance rs d e :
  entry_at rs d e -> en_pos e mod 8 = 0 -> en_next e < 2 ^ 63 ->
  en_next e = en_pos e + (HEADER_SLOT + align_up (mh_length (en_head e))).
Proof.
  intros He Ha Hn. pose proof (entry_length_nonneg _ _ _ He). pose proof (ea_pos _ _ _ He).
  destruct (en_next_bounds rs d e He) as [Hb _].
  unfold en_next in *. change HEADER_SLOT with 16 in *.
  rewrite <- (Z.add_assoc _ 16), align_up_add by lia. rewrite (align_up_add 16) by first [done|lia]. done.
Qed.

Section resume.
Context `{EnvOk} {S : Type}.
Implicit Types (s : S) (w : world).
Context (f rs : Z) (Hrs : rs_ok rs).

Lemma reads_resume_clean q len s w :
  quiet w -> in_file rs (len_of w f) q -> q mod rs + ROLL_TOTAL <= rs ->
  get 1 (data_of w f) q = NOT_COMMITTED ->
  reads (resume_at f rs len q (q / rs) (Mapping f 0 rs) (region_of f rs q)) s w
    (Ok (PSegment f (Mapping f 0 rs) (region_of f rs q) (q / rs) len q)).
Proof.
  intros Hq Hin Hroom Hslot. unfold resume_at. change ROLL_TOTAL with 56 in Hroom.
  eapply (reads_seq _ _ _ _ false).
  { pose proof (reads_is_committed f rs q s w Hrs Hq Hin ltac:(lia)) as Hc. by rewrite Hslot in Hc. }
  apply reads_ret.
Qed.

Lemma reads_recover_slot e len s w :
  calm w -> entry_at rs (data_of w f) e -> next_ok rs e -> in_file rs (len_of w f) (en_next e) ->
  len = len_of w f -> len < 2 ^ 63 ->
  message_header (data_of w f) (en_next e) = preinstalled ->
  reads (recover_slot f rs len (en_pos e) (en_pos e / rs) (region_of f rs (en_pos e))) s w
    (Ok (en_next e, en_next e / rs, region_of f rs (en_next e))).
Proof.
  intros Hc He [Ha Hroom Hnroom Hkind] Hin -> Hmax Hpre. change ROLL_TOTAL with 56 in *.
  pose proof (rs_pos _ Hrs) as Hrp. pose proof (entry_length_nonneg _ _ _ He) as Hl.
  pose proof (ea_pos _ _ _ He) as Hp. destruct (en_next_bounds _ _ _ He) as [Hb Hb8]. change HEADER_SLOT with 16 in Hb.
  assert (Hn63 : en_next e < 2 ^ 63).
  { unfold in_file in Hin. pose proof (Z.div_mod (en_next e) rs). pose proof (Z.mod_pos_bound (en_next e) rs). nia. }
  pose proof (en_next_advance rs _ e He Ha Hn63) as Hadv. change HEADER_SLOT with 16 in Hadv.
  pose proof (in_file_le rs _ (en_pos e) (en_next e) Hrs ltac:(lia) Hin) as Hinp.
  pose proof (Z.div_pos (en_pos e) rs ltac:(lia) ltac:(lia)).
  unfold recover_slot.
  eapply (reads_seq _ _ _ _ (type_of e)).
  { pose proof (reads_parsed_header_type f rs (en_pos e) s w Hrs (proj1 Hc) Hinp ltac:(lia)) as Ht.
    by rewrite (proj1 (entry_type rs _ e He)) in Ht. }
  eapply (reads_seq _ _ _ _ (mh_length (en_head e))).
  { rewrite <- (entry_length rs _ e He). apply reads_load_length; [done|apply Hc|done|lia]. }
  change HEADER_SLOT with 16. set (adv := 16 + align_up (mh_length (en_head e))) in *.
  pose proof (reads_verify f rs (en_next e) s w Hrs (proj1 Hc) Hin ltac:(lia) Hpre) as Hv.
  destruct Hkind as [[-> Hd]|[-> Hn]].
  - rewrite Hadv in Hd. pose proof (region_advance rs _ _ (proj1 Hrp) Hd) as Hm.
    rewrite <- Hadv in Hd, Hm.
    replace (en_pos e mod rs + adv + 16 >? rs) with false
      by (symmetry; rewrite Z.gtb_ltb; apply Z.ltb_ge; rewrite <- Hm; lia).
    rewrite (region_of_eq f rs _ _ Hd), Hm in Hv.
    eapply reads_seq; [exact Hv|]. rewrite <- Hadv, Hd, (region_of_eq f rs _ _ Hd). apply reads_ret.
  - pose proof (Z.div_mod (en_pos e) rs ltac:(lia)) as Hdm.
    replace (en_pos e mod rs + adv =? rs) with true by (symmetry; apply Z.eqb_eq; lia). cbn [negb].
    assert (Hd : en_next e / rs = en_pos e / rs + 1) by (rewrite Hn; by apply Z.div_mul; lia).
    assert (Hm : en_next e mod rs = 0) by (rewrite Hn; by apply Z.mod_mul; lia).
    assert (Hio := Hin). unfold in_file in Hio. rewrite Hd in Hio.
    rewrite !wrap_small by nia.
    replace ((en_pos e / rs + 1 + 1) * rs >? len_of w f) with false
      by (symmetry; rewrite Z.gtb_ltb; apply Z.ltb_ge; lia).
    eapply reads_seq.
    { rewrite <- Hd. apply reads_create_writable; [done|by apply rs_aligned|nia|nia]. }
    fold (region_of f rs (en_next e)). rewrite Hm in Hv.
    eapply reads_seq; [exact Hv|]. rewrite <- Hadv, <- Hd. apply reads_ret.
Qed.

(** The chain of a segment, from its [Channel] record on. *)
Lemma chain_from_start d es q :
  message_header d 0 = channel_record -> chain rs d FIRST_RECORD es q ->
  exists e0, is_user e0 = false /\ chain rs d 0 (e0 :: es) q.
Proof.
  intros Hh Hch. exists (MkEntry 0 channel_record). split; [done|].
  apply (chain_cons rs d (MkEntry 0 channel_record)); [|exact Hch].
  pose proof (proj1 Hrs). constructor; [done|done|done|by left|].
  cbn. rewrite Z.mod_0_l by lia. change (208 <= rs). lia.
Qed.

(** The advisory pair, rewritten. *)
Lemma repair_run d es e s wd :
  calm wd -> data_of wd f = d -> rs <= len_of wd f -> message_header d 0 = channel_record ->
  sees rs d (es ++ [e]) (en_next e) -> message_header d (en_next e) = preinstalled ->
  get 8 d OFF_write_position = en_pos e + HEADER_SLOT -> 208 <= en_next e < 2 ^ 63 ->
  users (es ++ [e]) < 2 ^ 63 ->
  wp (with_ch_mut f rs (fun ch =>
        store_u64 ch OFF_message_count (users (es ++ [e])) ;;
        store_u64 ch OFF_write_position (en_next e + HEADER_SLOT))) s wd
    (fun r s' wd' => r = Ok tt /\ s' = s /\ frame f wd wd' /\ kept_head d (data_of wd' f) /\
       same FIRST_RECORD (en_next e + 16) d (data_of wd' f) /\
       get 8 (data_of wd' f) OFF_message_count = users (es ++ [e]) /\
       get 8 (data_of wd' f) OFF_write_position = en_next e + HEADER_SLOT)
    (fun wd' => appending rs (data_of wd' f) es e /\ kept_head d (data_of wd' f) /\ frame f wd wd' /\
       same FIRST_RECORD (en_next e + 16) d (data_of wd' f)).
Proof.
  intros Hc Hd Hl Hh Hsees Hpre Hpos Hn Hu. pose proof (users_nonneg (es ++ [e])) as Hu0.
  assert (Husers : users (es ++ [e]) = users es + (if is_user e then 1 else 0)).
  { rewrite users_app, (users_cons e []). change (users []) with 0. lia. }
  set (d1 := put 8 d OFF_message_count (users (es ++ [e]))).
  set (d2 := put 8 d1 OFF_write_position (en_next e + HEADER_SLOT)).
  assert (Hs1 : forall lo hi, 32 <= lo \/ hi <= 16 -> same lo hi d d1).
  { intros. apply same_put. change OFF_message_count with 24. lia. }
  assert (Hs2 : forall lo hi, 32 <= lo \/ hi <= 16 -> same lo hi d d2).
  { intros. eapply same_trans; [by apply Hs1|]. apply same_put. change OFF_write_position with 16. lia. }
  assert (Hk1 : kept_head d d1) by (apply (kept_head_put 8); [by left|apply kept_head_refl]).
  assert (Hk2 : kept_head d d2) by (apply (kept_head_put 8); [by left|done]).
  assert (Hc1 : get 8 d1 OFF_message_count = users (es ++ [e])).
  { unfold d1. rewrite get_put_eq. apply Z.mod_small. cbn. lia. }
  assert (Hp1 : get 8 d1 OFF_write_position = en_pos e + HEADER_SLOT).
  { unfold d1. rewrite get_put_ne by (left; done). done. }
  assert (Hc2 : get 8 d2 OFF_message_count = users (es ++ [e])).
  { unfold d2. by rewrite get_put_ne by (right; done). }
  assert (Hp2 : get 8 d2 OFF_write_position = en_next e + HEADER_SLOT).
  { unfold d2. rewrite get_put_eq. apply Z.mod_small. change HEADER_SLOT with 16. cbn. lia. }
  assert (Happ : forall d', same 0 16 d d' -> same 208 (en_next e + 16) d d' ->
    get 8 d' OFF_message_count = users (es ++ [e]) ->
    get 8 d' OFF_write_position = en_pos e + HEADER_SLOT \/
    get 8 d' OFF_write_position = en_next e + HEADER_SLOT -> appending rs d' es e).
  { intros d' A0 A1 A2 A3. split; [by rewrite <- (message_header_same d)|]. right. rewrite A2, Husers. split_and!.
    - eapply sees_same; [exact Hsees|]. eapply same_sub; [exact A1|done|lia].
    - rewrite <- (message_header_same d); [done|]. eapply same_sub; [exact A1|lia..].
    - destruct A3; [left|right]; auto. }
  unfold with_ch_mut. eapply wp_reads_bind.
  { apply reads_create_writable; [done| |done|by rewrite Z.add_0_l].
    split_and!; [apply (rs_pos _ Hrs)|apply Hrs|apply Z.mod_0_l; pose proof page_size_pos; lia]. }
  unfold store_u64. apply wp_bind, wp_store_head; [done|apply Hc|done|done|done| |];
    set (w1 := write_inode f _ _ wd);
    assert (Hd1 : data_of w1 f = d1) by (unfold w1; by rewrite data_of_write_eq, Hd);
    assert (Hf1 : frame f wd w1) by (unfold w1; auto with xch); clearbody w1.
  { split_and!; [|by rewrite Hd1|done|rewrite Hd1; apply Hs1; by left].
    rewrite Hd1. apply Happ; auto; apply Hs1; [by right|by left]. }
  apply wp_store_head; [done|by eapply frame_quiet; [|apply Hc]|by rewrite (fr_len _ _ _ Hf1)|done|done| |];
    set (w2 := write_inode f _ _ w1);
    assert (Hd2 : data_of w2 f = d2) by (unfold w2; by rewrite data_of_write_eq, Hd1);
    assert (Hf2 : frame f wd w2) by (unfold w2; auto with xch); clearbody w2.
  { split_and!; [|by rewrite Hd2|done|rewrite Hd2; apply Hs2; by left].
    rewrite Hd2. apply Happ; auto; apply Hs2; [by right|by left]. }
  rewrite Hd2. split_and!; try done. apply Hs2. by left.
Qed.

(** What a resumed writer finds: the records [es] and the slot [q] after them. *)
Definition resumed (wd : world) (es : list Entry) (q : Z) (r : res PreparedSegment) (wd' : world) : Prop :=
  r = Ok (PSegment f (Mapping f 0 rs) (region_of f rs q) (q / rs) (len_of wd f) q) /\
  segment_ok rs (data_of wd' f) es q /\ frame f wd wd' /\ kept_head (data_of wd f) (data_of wd' f) /\
  messages (data_of wd' f) es = messages (data_of wd f) es.

Definition repairing (es : list Entry) (e : Entry) (wd wd' : world) : Prop :=
  appending rs (data_of wd' f) es e /\ kept_head (data_of wd f) (data_of wd' f) /\ frame f wd wd' /\
  in_file rs (len_of wd' f) (en_next e) /\ kept_records e (data_of wd f) (data_of wd' f).

Lemma resume_run es e s wd :
  calm wd -> next_ok rs e -> in_file rs (len_of wd f) (en_next e) -> len_of wd f < 2 ^ 63 ->
  message_header (data_of wd f) 0 = channel_record ->
  sees rs (data_of wd f) (es ++ [e]) (en_next e) -> message_header (data_of wd f) (en_next e) = preinstalled ->
  get 8 (data_of wd f) OFF_write_position = en_pos e + HEADER_SLOT ->
  wp (resume_at f rs (len_of wd f) (en_pos e) (en_pos e / rs) (Mapping f 0 rs) (region_of f rs (en_pos e))) s wd
    (fun r _ wd' => resumed wd (es ++ [e]) (en_next e) r wd') (repairing es e wd).
Proof.
  intros Hc Hnx Hin Hmax Hh [Hch Hslot] Hpre Hpos. pose proof (rs_pos _ Hrs) as Hrp.
  assert (He : entry_at rs (data_of wd f) e) by (eapply chain_entry; [exact Hch|by apply elem_of_app_last]).
  pose proof (entry_length_nonneg _ _ _ He). pose proof (ea_pos _ _ _ He) as Hp.
  destruct (en_next_bounds _ _ _ He) as [Hb Hb8]. change HEADER_SLOT with 16 in Hb.
  pose proof (nx_room _ _ Hnx) as Hroom. pose proof (nx_next_room _ _ Hnx) as Hnroom. change ROLL_TOTAL with 56 in *.
  pose proof (in_file_le rs _ (en_pos e) (en_next e) Hrs ltac:(lia) Hin) as Hinp.
  pose proof (chain_start_le _ _ _ _ Hch) as Hq.
  destruct (chain_pos_bound _ _ _ _ _ e Hch) as [Hpe _]; [by apply elem_of_app_last|].
  pose proof (Z.div_mod (en_next e) rs ltac:(lia)). pose proof (Z.mod_pos_bound (en_next e) rs ltac:(lia)).
  assert (Hn63 : en_next e < 2 ^ 63) by (unfold in_file in Hin; nia).
  assert (Hrl : rs <= len_of wd f).
  { unfold in_file in Hin. pose proof (Z.div_pos (en_next e) rs ltac:(lia) ltac:(lia)). nia. }
  unfold resume_at. eapply wp_reads_bind.
  { pose proof (reads_is_committed f rs (en_pos e) s wd Hrs (proj1 Hc) Hinp ltac:(lia)) as Hcm.
    by rewrite (entry_committed rs _ e He) in Hcm. }
  eapply wp_reads_bind; [by apply reads_recover_slot|].
  destruct (chain_from_start _ _ _ Hh Hch) as (e0 & He0 & Hch0).
  eapply wp_reads_bind.
  { unfold walk_segment. eapply (walk_to_end f rs _ (data_of wd f) 0 (e0 :: es ++ [e]) (en_next e)); try done; [lia|].
    apply passes_never. }
  cbn [we_pos we_users]. rewrite Z.eqb_refl. cbn [negb].
  rewrite (users_cons e0), He0, Z.add_0_l.
  apply wp_bind. eapply wp_mono.
  { apply (repair_run (data_of wd f) es e); try done.
    pose proof (users_le (es ++ [e])). pose proof (chain_length _ _ _ _ _ Hch).
    unfold FIRST_RECORD, FIRST_RECORD_V4 in *. lia. }
  2: { intros wd' (? & ? & Hfr & Hs). split_and!; [done..| |].
       - by rewrite (fr_len _ _ _ Hfr).
       - apply (kept_records_below e _ _ _ Hs); first [exact Hpe|lia]. }
  intros r s' wd' (-> & -> & Hfr & Hk & Hs & Hcnt & Hwp). apply wp_ret.
  split; [done|]. split_and!; [|done|done|symmetry; eapply messages_same; [|exact Hch]; eapply same_sub; [exact Hs|done|lia]].
  constructor; try done.
  - rewrite <- Hh. symmetry. apply message_header_same. apply Hk.
  - eapply chain_same; [|exact Hch]. eapply same_sub; [exact Hs|done|lia].
  - rewrite <- (get_same 1 (data_of wd f)); [done|]. eapply same_sub; [exact Hs|unfold FIRST_RECORD, FIRST_RECORD_V4; lia|lia].
Qed.

(** [open_file] up to the slot it resumes at. *)
Lemma open_existing_prefix path frs len seq i p s wd (Q : res PreparedSegment -> S -> world -> Prop) C :
  calm wd -> w_dir wd !! path = Some (DFile f) -> preallocation_len rs frs = Ok len -> len <= len_of wd f ->
  len_of wd f < 2 ^ 63 -> resumable (data_of wd f) rs seq i ->
  get 8 (data_of wd f) OFF_write_position = p + HEADER_SLOT -> 0 <= p -> in_file rs (len_of wd f) p ->
  wp (resume_at f rs (len_of wd f) p (p / rs) (Mapping f 0 rs) (region_of f rs p)) s wd Q C ->
  wp (open_existing path seq rs frs) s wd Q C.
Proof.
  intros Hc Hdir Hlen Hll Hmax Hr Hpos Hp Hin HQ. pose proof (rs_pos _ Hrs) as Hrp.
  pose proof (Z.div_pos p rs Hp (proj1 Hrp)) as Hdp. unfold in_file in Hin.
  assert (Hrl : rs <= len_of wd f) by nia.
  destruct (reads_prefix f rs rs seq i s wd Hrs (proj1 Hc) Hrl Hr) as (Hv & Hpub & Hch).
  unfold open_existing. eapply wp_reads_bind; [by apply reads_open|].
  eapply wp_reads_bind; [by apply reads_lift_eq|].
  eapply wp_reads_bind.
  { apply reads_create_writable; [done| |done|by rewrite Z.add_0_l].
    split_and!; [lia|apply Hrs|apply Z.mod_0_l; pose proof page_size_pos; lia]. }
  eapply wp_reads_bind; [exact Hch|]. eapply wp_reads_bind; [by apply reads_lift_eq, Hr|].
  eapply wp_reads_bind; [exact Hv|]. eapply wp_reads_bind; [exact Hpub|].
  eapply wp_reads_bind; [apply reads_ret|].
  eapply wp_reads_bind; [by apply (reads_head f rs OFF_write_position 8 (get 8)); try apply Hc|].
  rewrite Hpos. replace (saturating_sub (p + HEADER_SLOT) HEADER_SLOT) with p
    by (unfold saturating_sub; lia).
  unfold div_guard. replace (rs =? 0) with false by (symmetry; apply Z.eqb_neq; lia).
  eapply wp_reads_bind; [apply reads_ret|]. eapply wp_reads_bind; [by apply reads_metadata_len|].
  rewrite (wrap_small 64 ((p / rs + 1) * rs)), (wrap_small 64 (p / rs * rs)) by nia.
  replace (Z.max _ len >? len_of wd f) with false by (symmetry; rewrite Z.gtb_ltb; apply Z.ltb_ge; lia).
  eapply wp_reads_bind; [apply reads_ret|].
  eapply wp_reads_bind; [|exact HQ].
  apply reads_create_writable; [done|by apply rs_aligned|lia|lia].
Qed.

Lemma resume_clean path frs len seq i es q s wd (Q : res PreparedSegment -> S -> world -> Prop) C :
  calm wd -> w_dir wd !! path = Some (DFile f) -> preallocation_len rs frs = Ok len -> len <= len_of wd f ->
  len_of wd f < 2 ^ 63 -> resumable (data_of wd f) rs seq i -> in_file rs (len_of wd f) q ->
  segment_ok rs (data_of wd f) es q ->
  (forall r, resumed wd es q r wd -> Q r s wd) -> wp (open_existing path seq rs frs) s wd Q C.
Proof.
  intros Hc Hdir Hlen Hll Hmax Hr Hin Hs HQ. pose proof (chain_start_le _ _ _ _ (sg_chain _ _ _ _ Hs)).
  eapply (open_existing_prefix path frs len seq i q); try done; [apply Hs|lia|].
  eapply wp_reads; [apply reads_resume_clean; first [apply Hc|apply Hs|done]|].
  apply HQ. by split_and!.
Qed.

(** Reopening any world an interrupted append left. *)
Lemma open_interrupted path frs len seq i es e s wd :
  calm wd -> w_dir wd !! path = Some (DFile f) -> preallocation_len rs frs = Ok len -> len <= len_of wd f ->
  len_of wd f < 2 ^ 63 -> resumable (data_of wd f) rs seq i ->
  appending rs (data_of wd f) es e -> next_ok rs e -> in_file rs (len_of wd f) (en_pos e) ->
  get 1 (data_of wd f) (en_pos e) = NOT_COMMITTED \/ in_file rs (len_of wd f) (en_next e) ->
  wp (open_existing path seq rs frs) s wd
    (fun r _ wd' => exists es' q', ((es', q') = (es, en_pos e) \/ (es', q') = (es ++ [e], en_next e)) /\
       sees rs (data_of wd f) es' q' /\ resumed wd es' q' r wd')
    (repairing es e wd).
Proof.
  intros Hc Hdir Hlen Hll Hmax Hr [Hh Happ] Hnx Hin Hnext.
  destruct Happ as [(Hsees & Hpos & Hcnt)|(Hsees & Hpre & Hpair)].
  { eapply (resume_clean path frs len seq i es (en_pos e)); try done.
    - constructor; [done|apply Hsees|apply Hsees|done|done|apply Hnx|apply Hnx].
    - intros r Hres. exists es, (en_pos e). split; [by left|]. done. }
  pose proof (chain_start_le _ _ _ _ (proj1 Hsees)) as Hq.
  assert (He : entry_at rs (data_of wd f) e) by (eapply chain_entry; [exact (proj1 Hsees)|by apply elem_of_app_last]).
  destruct Hnext as [Hn|Hnin]; [exfalso; pose proof (entry_committed rs _ e He) as Hec; by rewrite Hn in Hec|].
  assert (Hok : segment_ok rs (data_of wd f) (es ++ [e]) (en_next e) ->
    wp (open_existing path seq rs frs) s wd
      (fun r _ wd' => exists es' q', ((es', q') = (es, en_pos e) \/ (es', q') = (es ++ [e], en_next e)) /\
         sees rs (data_of wd f) es' q' /\ resumed wd es' q' r wd') (repairing es e wd)).
  { intros Hs. eapply (resume_clean path frs len seq i (es ++ [e]) (en_next e)); try done.
    intros r Hres. exists (es ++ [e]), (en_next e). split; [by right|]. done. }
  destruct Hpair as [[Hpos _]|[Hpos Hcnt]].
  - eapply (open_existing_prefix path frs len seq i (en_pos e)); try done; [apply (ea_pos _ _ _ He)|].
    eapply wp_mono; [by apply resume_run| |done].
    intros r s' wd' Hres. exists (es ++ [e]), (en_next e). split; [by right|]. done.
  - apply Hok. constructor; [done|apply Hsees|apply Hsees|done| |apply (en_next_bounds _ _ _ He)|apply Hnx].
    rewrite Hcnt, users_app, (users_cons e []). change (users []) with 0. lia.
Qed.

End resume.

(** ** The writer's records are ones recovery knows *)

Lemma new_entry_next_ok `{EnvOk} w wd es n mt len meta :
  writer_ok w wd es -> reserved w wd n -> 0 <= len <= n ->
  next_ok (w_region_size w) (new_entry w mt len meta).
Proof.
  intros Hw Hr Hl. destruct (next_slot w wd es n mt len meta Hw Hr Hl) as (_ & _ & Hd & _ & Hroom & _).
  pose proof (wk_segment _ _ _ Hw) as Hs. constructor; [apply Hs|apply Hs|exact Hroom|by left].
Qed.

Lemma skip_next_ok `{EnvOk} w wd es : writer_ok w wd es -> next_ok (w_region_size w) (skip_entry w).
Proof.
  intros Hw. destruct (skip_next w wd es Hw) as (Hn & _). pose proof (wk_segment _ _ _ Hw) as Hs.
  pose proof (rs_pos _ (wk_rs _ _ _ Hw)). pose proof (proj1 (wk_rs _ _ _ Hw)).
  constructor; [apply Hs|apply Hs| |by right].
  rewrite Hn, Z.mod_mul by lia. change ROLL_TOTAL with 56. lia.
Qed.

(** What reopening needs to know of the writer's file: its name, its length and its header. *)
Record reopenable `{Env} (w : Writer) (wd : world) (path : string) (seq : Z) : Prop := {
  rp_dir : w_dir wd !! path = Some (DFile (w_file w));
  rp_len : exists len, preallocation_len (w_region_size w) (w_file_roll_size w) = Ok len /\
                       len <= len_of wd (w_file w);
  rp_header : exists i, resumable (data_of wd (w_file w)) (w_region_size w) seq i
}.

(** Reopening [wd] finds the records [es'], up to [q'], that its readers find. *)
Definition reopens `{Env} (w : Writer) (path : string) (seq : Z) (es' : list Entry) (q' : Z) (wd : world) : Prop :=
  let rs := w_region_size w in
  let o := open_existing path seq rs (w_file_roll_size w) tt wd in
  sees rs (data_of wd (w_file w)) es' q' /\ resumed (w_file w) rs wd es' q' (o_res o) (o_world o).

Lemma reopen_interrupted `{EnvOk} w wd es e path seq wd1 :
  calm wd -> writer_ok w wd es -> reopenable w wd path seq -> next_ok (w_region_size w) e ->
  en_pos e = w_next_hdr_pos w -> interrupted (w_file w) (w_region_size w) es e wd wd1 ->
  (reopens w path seq es (en_pos e) wd1 \/ reopens w path seq (es ++ [e]) (en_next e) wd1) /\
  Forall (repairing (w_file w) (w_region_size w) es e wd1)
    (o_trace (open_existing path seq (w_region_size w) (w_file_roll_size w) tt wd1)).
Proof.
  intros Hc Hw [Hdir (len & Hlen & Hll) (i & Hr)] Hnx He [Happ Hk Hg _ Hmax Hn]. unfold I64_MAX in Hmax.
  pose proof (gr_len _ _ _ Hg) as Hgl. pose proof (wk_rs _ _ _ Hw) as Hrs.
  destruct (open_interrupted (w_file w) (w_region_size w) Hrs path (w_file_roll_size w) len seq i es e tt wd1)
    as [(es' & q' & [[= -> ->]|[= -> ->]] & Hsees & Hres) Htr]; try done.
  - by eapply grows_calm.
  - by rewrite (gr_dir _ _ _ Hg).
  - lia.
  - lia.
  - by eapply resumable_kept.
  - rewrite He. pose proof (wk_in_file _ _ _ Hw) as Hin. unfold in_file in *. lia.
  - split; [by left|done].
  - split; [by right|done].
Qed.

(** A recovery that was itself interrupted: its worlds are again worlds of the same append. *)
Lemma repairing_interrupted f rs es e wd wd1 wd2 :
  interrupted f rs es e wd wd1 -> repairing f rs es e wd1 wd2 -> interrupted f rs es e wd wd2.
Proof.
  intros [_ Hk1 Hg1 Hr1 Hl1 _] (Ha & Hk & Hf & Hin & Hr).
  constructor; [done|by eapply kept_head_trans| |by eapply kept_records_trans| |by right].
  - eapply grows_trans; [done|by apply frame_grows].
  - by rewrite (fr_len _ _ _ Hf).
Qed.

(** Both: a world left by an interrupted append is recovered, and so is one left by interrupting that
    recovery. *)
Definition recoverable `{Env} (w : Writer) (path : string) (seq : Z) (es : list Entry) (e : Entry) (wd1 : world) : Prop :=
  let reopened wd := reopens w path seq es (en_pos e) wd \/ reopens w path seq (es ++ [e]) (en_next e) wd in
  reopened wd1 /\
  Forall reopened (o_trace (open_existing path seq (w_region_size w) (w_file_roll_size w) tt wd1)).

Lemma interrupted_recoverable `{EnvOk} w wd es e path seq wd1 :
  calm wd -> writer_ok w wd es -> reopenable w wd path seq -> next_ok (w_region_size w) e ->
  en_pos e = w_next_hdr_pos w -> interrupted (w_file w) (w_region_size w) es e wd wd1 ->
  recoverable w path seq es e wd1.
Proof.
  intros Hc Hw Hr Hnx He Hi.
  destruct (reopen_interrupted w wd es e path seq wd1 Hc Hw Hr Hnx He Hi) as [H1 H2]. split; [done|].
  eapply Forall_impl; [exact H2|]. intros wd2 Hrep.
  apply (reopen_interrupted w wd es e path seq wd2); try done. by eapply repairing_interrupted.
Qed.
