(* ===== verification/ReaderFacts.v ===== *)
(** * Reading a segment (src/lib.rs: Reader)

    A reader without a helper on a calm world: where it stands on the chain of its segment, and that
    every read path delivers the user records of that chain in order. *)

From S2P Require Import Prelude Bytes Effects Region Channel V4 Names Segment Helper MapAhead Reader Chain RegionFacts SegmentFacts.

#[local] Open Scope Z_scope.

(** ** Runs that leave the world alone *)

(** [m] changes [s] to [s'], not the world, and gives [r]. *)
Definition runs {S A} (m : M S A) (s : S) (w : world) (r : res A) (s' : S) : Prop :=
  m s w = Outcome r s' w [].

Section runs.
Context {S : Type}.
Implicit Types (s : S) (w : world).

Lemma runs_reads {A} (m : M S A) s w r : reads m s w r -> runs m s w r s.
Proof. done. Qed.

Lemma runs_seq {A B} (m : M S A) (k : A -> M S B) s s1 w a r s2 :
  runs m s w (Ok a) s1 -> runs (k a) s1 w r s2 -> runs (bind m k) s w r s2.
Proof. unfold runs, bind. intros -> E. cbn. by rewrite E. Qed.

Lemma runs_seq_err {A B} (m : M S A) (k : A -> M S B) s s1 w e :
  runs m s w (Err e) s1 -> runs (bind m k) s w (Err e) s1.
Proof. unfold runs, bind. by intros ->. Qed.

Lemma runs_modify f s w : runs (modify f) s w (Ok tt) (f s).
Proof. done. Qed.

Lemma runs_self s w : runs self s w (Ok s) s.
Proof. done. Qed.

Lemma runs_ret {A} (a : A) s w : runs (ret a) s w (Ok a) s.
Proof. done. Qed.

Lemma runs_loop_go {A} n (body : M S (option A)) s s1 w r s2 :
  runs body s w (Ok None) s1 -> runs (loop n body) s1 w r s2 -> runs (loop (Datatypes.S n) body) s w r s2.
Proof. intros. cbn [loop]. by eapply runs_seq. Qed.

Lemma runs_loop_end {A} n (body : M S (option A)) s s1 w a :
  runs body s w (Ok (Some a)) s1 -> runs (loop (Datatypes.S n) body) s w (Ok a) s1.
Proof. intros. cbn [loop]. by eapply runs_seq. Qed.

Lemma runs_loop_with_go {V A} n (body : V -> M S (V + A)) v v' s s1 w r s2 :
  runs (body v) s w (Ok (inl v')) s1 -> runs (loop_with n body v') s1 w r s2 ->
  runs (loop_with (Datatypes.S n) body v) s w r s2.
Proof. intros. cbn [loop_with]. by eapply runs_seq. Qed.

Lemma runs_loop_with_end {V A} n (body : V -> M S (V + A)) v s s1 w a :
  runs (body v) s w (Ok (inr a)) s1 -> runs (loop_with (Datatypes.S n) body v) s w (Ok a) s1.
Proof. intros. cbn [loop_with]. by eapply runs_seq. Qed.

Lemma runs_attempt {A} (m : M S A) s w a s1 :
  runs m s w (Ok a) s1 -> runs (attempt m) s w (Ok (inl a)) s1.
Proof. unfold runs, attempt. by intros ->. Qed.

End runs.

(** ** Where a reader stands *)

(** [r], moved to [p], [n] records on, with other mappings. *)
Definition moved_to (ms h : list MappedRegion) (p n : Z) (r : Reader) : Reader :=
  set_maps ms (set_r_held h (set_read_position p (set_position n r))).

(** [r'] is [r] further on in the same segment: at [p], [n] records on. *)
Definition further (r r' : Reader) (p n : Z) : Prop := exists ms h, r' = moved_to ms h p n r.

Lemma moved_to_self r : moved_to (maps r) (r_held r) (r_read_position r) (r_position r) r = r.
Proof. by destruct r. Qed.

Lemma further_refl r : further r r (r_read_position r) (r_position r).
Proof. exists (maps r), (r_held r). by rewrite moved_to_self. Qed.

Lemma further_trans r1 r2 r3 p2 n2 p3 n3 : further r1 r2 p2 n2 -> further r2 r3 p3 n3 -> further r1 r3 p3 n3.
Proof. intros (ms & h & ->) (ms' & h' & ->). by exists ms', h'. Qed.

(** The mapping of the region of [p]. *)
Definition mapped_at (r : Reader) (p : Z) : MappedRegion :=
  let rs := region_size_cached r in Mapped (r_file_sequence r) (p / rs) (region_of (r_file r) rs p).

(** A reader of a segment, without a helper: the records [es] lie ahead of it, up to the slot [q],
    the region it stands in is mapped last and its header apart from it. *)
Record reader_on `{Env} (r : Reader) (w : world) (es : list Entry) (q : Z) : Prop := {
  ro_rs : rs_ok (region_size_cached r);
  ro_ahead : r_map_ahead r = None;
  ro_map : current_map r = Some (mapped_at r (r_read_position r));
  ro_pos : 0 <= r_read_position r;
  ro_index : 0 <= r_position r < 2 ^ 64;
  ro_len : len_of w (r_file r) < 2 ^ 63;
  ro_in : in_file (region_size_cached r) (len_of w (r_file r)) q;
  ro_room : q mod region_size_cached r + HEADER_SLOT <= region_size_cached r;
  ro_chain : chain (region_size_cached r) (data_of w (r_file r)) (r_read_position r) es q;
  ro_header : r_header r = Mapping (r_file r) 0 page_size
}.

Lemma is_multiple_of_pos x y : 0 < y -> is_multiple_of x y = (x mod y =? 0).
Proof. intros. unfold is_multiple_of. by replace (y =? 0) with false by (symmetry; apply Z.eqb_neq; lia). Qed.

Section reading.
Context `{EnvOk}.
Implicit Types (r : Reader) (w : world).

Lemma rs_mod_8 rs : rs_ok rs -> rs mod 8 = 0.
Proof.
  intros [_ Hr]. destruct page_size_ok as (k & Hk & Hp). rewrite Hp in Hr.
  apply Z.mod_divide in Hr as [c ->]; [|lia]. replace (c * (4096 * k)) with (c * k * 512 * 8) by lia.
  by apply Z.mod_mul.
Qed.

Lemma region_next rs p x :
  0 < rs -> p < x <= (p / rs + 1) * rs ->
  if x mod rs =? 0 then x / rs = p / rs + 1 else x / rs = p / rs.
Proof.
  intros Hrs Hx. pose proof (Z.div_mod p rs ltac:(lia)). pose proof (Z.mod_pos_bound p rs Hrs).
  destruct (Z.eq_dec x ((p / rs + 1) * rs)) as [->|Hne].
  - rewrite Z.mod_mul, Z.div_mul by lia. done.
  - assert (Hd : x / rs = p / rs) by (symmetry; apply (Z.div_unique x rs (p / rs) (x - rs * (p / rs))); lia).
    destruct (Z.eqb_spec (x mod rs) 0) as [Hz|]; [|done].
    pose proof (Z.div_mod x rs ltac:(lia)) as Hdm. rewrite Hd in Hdm. lia.
Qed.

(** A record ends in its region, or at the start of the next. *)
Lemma next_in_region rs d e :
  rs_ok rs -> entry_at rs d e ->
  if en_next e mod rs =? 0 then en_next e / rs = en_pos e / rs + 1
  else en_next e / rs = en_pos e / rs.
Proof.
  intros Hrs He. pose proof (rs_pos _ Hrs) as Hp. pose proof (rs_mod_8 _ Hrs) as H8.
  destruct (en_next_bounds _ _ _ He) as [Hb Hb8]. pose proof (entry_length_nonneg _ _ _ He) as Hl.
  pose proof (ea_fits _ _ _ He) as Hf. change HEADER_SLOT with 16 in *.
  pose proof (Z.div_mod (en_pos e) rs ltac:(lia)) as Hd.
  apply region_next; [lia|]. split; [lia|].
  apply Z.mod_divide in H8 as [a Ha]; [|lia]. apply Z.mod_divide in Hb8 as [b Hb']; [|lia].
  assert (Hk : (en_pos e / rs + 1) * rs = 8 * ((en_pos e / rs + 1) * a)) by (rewrite Ha at 2; ring).
  assert (en_next e < (en_pos e / rs + 1) * rs + 8) by lia. lia.
Qed.

Lemma runs_on_ahead {A} (m : M Ahead A) r w : r_map_ahead r = None -> runs (on_ahead m) r w (Ok None) r.
Proof. intros E. unfold runs, on_ahead. by rewrite E. Qed.

Lemma runs_map_region f sq r w p :
  calm w -> rs_ok (region_size_cached r) -> r_map_ahead r = None ->
  in_file (region_size_cached r) (len_of w f) p -> 0 <= p -> len_of w f < 2 ^ 63 ->
  runs (map_region f sq (p / region_size_cached r)) r w (Ok (region_of f (region_size_cached r) p)) r.
Proof.
  intros Hc Hrs Ha Hin Hp Hl. unfold map_region. eapply runs_seq; [apply runs_self|].
  eapply runs_seq; [by apply runs_on_ahead|].
  eapply runs_seq; [apply runs_reads, reads_map_region; first [done|lia]|].
  eapply runs_seq; [by apply runs_on_ahead|]. apply runs_ret.
Qed.

(** Retiring mappings touches only what is held. *)
Lemma runs_retire l r w :
  r_map_ahead r = None -> exists h, runs (for_each l Reader_retire) r w (Ok tt) (set_r_held h r).
Proof.
  revert r. induction l as [|m l IH]; intros r Ha.
  - exists (r_held r). unfold runs. by destruct r.
  - assert (exists h, runs (Reader_retire m) r w (Ok tt) (set_r_held h r)) as [h Hm].
    { unfold Reader_retire. destruct (bool_decide (r_unmap r = AtFileRoll) && (m_file_sequence m =? r_file_sequence r)) eqn:E.
      - eexists. eapply runs_seq; [apply runs_self|]. rewrite E. apply runs_modify.
      - exists (r_held r). eapply runs_seq; [apply runs_self|]. rewrite E.
        eapply runs_seq; [by apply runs_on_ahead|]. unfold runs. by destruct r. }
    destruct (IH (set_r_held h r) Ha) as [h' Hl]. exists h'. cbn [for_each]. by eapply runs_seq.
Qed.

Lemma reader_on_moved r w es q ms h p n es' :
  reader_on r w es q -> last ms = Some (mapped_at r p) -> 0 <= p -> 0 <= n < 2 ^ 64 ->
  chain (region_size_cached r) (data_of w (r_file r)) p es' q -> reader_on (moved_to ms h p n r) w es' q.
Proof. intros [] **. by constructor. Qed.

Lemma runs_div_guard {S} y (s : S) w : y <> 0 -> runs (div_guard y) s w (Ok tt) s.
Proof. intros. unfold div_guard. by replace (y =? 0) with false by (symmetry; by apply Z.eqb_neq). Qed.

(** Dropping the mappings before the current one. *)
Lemma runs_prune r w :
  current_map r = Some (mapped_at r (r_read_position r)) -> r_map_ahead r = None -> 0 < region_size_cached r ->
  exists h, runs prune_to_current r w (Ok tt)
    (moved_to [mapped_at r (r_read_position r)] h (r_read_position r) (r_position r) r).
Proof.
  intros Hm Ha Hrs. unfold prune_to_current.
  assert (Hif : forall (b : bool) (x y : M Reader unit) h s', (b = true -> runs x r w (Ok tt) s') ->
    (b = false -> runs y r w (Ok tt) s') -> h = s' -> runs (if b then x else y) r w (Ok tt) h).
  { intros [] x y h s' Hx Hy ->; auto. }
  destruct (1 <? List.length (maps r))%nat eqn:E.
  - destruct (runs_retire (popped (maps r)) (set_maps [mapped_at r (r_read_position r)] r) w Ha) as [h Hh].
    exists h. eapply runs_seq; [apply runs_self|]. rewrite Hm.
    eapply runs_seq; [apply runs_div_guard; lia|]. unfold mapped_at at 1 2. cbn [m_file_sequence m_region_idx].
    rewrite !Z.eqb_refl, E. cbn [negb orb]. unfold retire_all_but_last.
    eapply runs_seq; [apply runs_self|]. rewrite Hm. eapply runs_seq; [apply runs_modify|].
    unfold runs in *. rewrite Hh. done.
  - exists (r_held r). eapply runs_seq; [apply runs_self|]. rewrite Hm.
    eapply runs_seq; [apply runs_div_guard; lia|]. unfold mapped_at at 1 2. cbn [m_file_sequence m_region_idx].
    rewrite !Z.eqb_refl, E. cbn [negb orb].
    apply Nat.ltb_ge in E. unfold current_map in Hm.
    destruct (maps r) as [|m [|m' ms]] eqn:Em; [done| |cbn in E; lia]. cbn in Hm. injection Hm as Hm.
    unfold runs. replace (moved_to _ _ _ _ r) with r; [done|].
    rewrite <- Hm, <- Em. symmetry. apply moved_to_self.
Qed.

Lemma prune_run r w es q :
  reader_on r w es q ->
  exists r', runs prune_to_current r w (Ok tt) r' /\ reader_on r' w es q /\
    further r r' (r_read_position r) (r_position r) /\ maps r' = [mapped_at r (r_read_position r)].
Proof.
  intros Hr. destruct (runs_prune r w) as [h Hh]; [apply Hr|apply Hr|apply (rs_pos _ (ro_rs _ _ _ _ Hr))|].
  eexists. split; [exact Hh|]. split_and!; [|by eexists _, _|done].
  eapply reader_on_moved; [done|done|apply Hr..].
Qed.

(** Mapping the region of a position ahead. *)
Lemma switch_run r w p :
  calm w -> rs_ok (region_size_cached r) -> r_map_ahead r = None ->
  in_file (region_size_cached r) (len_of w (r_file r)) p -> 0 <= p -> len_of w (r_file r) < 2 ^ 63 ->
  current_map r = Some (mapped_at r (r_read_position r)) ->
  exists ms, runs (Reader_switch_region (p / region_size_cached r)) r w (Ok tt)
      (moved_to ms (r_held r) (r_read_position r) (r_position r) r) /\
    last ms = Some (mapped_at r p) /\ exists ms', ms = maps r ++ ms'.
Proof.
  intros Hc Hrs Ha Hin Hp Hl Hm. unfold Reader_switch_region.
  destruct (Z.eq_dec (r_read_position r / region_size_cached r) (p / region_size_cached r)) as [Hd|Hd].
  - exists (maps r). split_and!; [|unfold current_map in Hm; rewrite Hm; unfold mapped_at, region_of; by rewrite Hd|exists []; by rewrite app_nil_r].
    eapply runs_seq; [apply runs_self|]. rewrite Hm. unfold mapped_at. cbn [m_file_sequence m_region_idx].
    rewrite Hd, !Z.eqb_refl. cbn [andb]. rewrite moved_to_self. apply runs_ret.
  - exists (maps r ++ [mapped_at r p]). split_and!; [|apply last_snoc|by eexists].
    eapply runs_seq; [apply runs_self|]. rewrite Hm. unfold mapped_at at 1 2. cbn [m_file_sequence m_region_idx].
    replace (r_read_position r / region_size_cached r =? p / region_size_cached r) with false
      by (symmetry; by apply Z.eqb_neq).
    rewrite andb_false_r. eapply runs_seq; [by apply runs_map_region|].
    unfold push_map. unfold runs. by destruct r.
Qed.

(** ** One turn of a scan *)

Definition scanned_of (e : Entry) : ScannedHeader :=
  let h := en_head e in
  Scanned (type_of e) (mh_length h) (HEADER_SLOT + mh_length h) (message_type h) (user_meta_u64 h).

Lemma reader_on_head r w e es q :
  reader_on r w (e :: es) q ->
  en_pos e = r_read_position r /\ entry_at (region_size_cached r) (data_of w (r_file r)) e /\
  chain (region_size_cached r) (data_of w (r_file r)) (en_next e) es q /\
  in_file (region_size_cached r) (len_of w (r_file r)) (en_pos e) /\
  in_file (region_size_cached r) (len_of w (r_file r)) (en_next e) /\ 0 <= en_next e /\
  en_pos e mod region_size_cached r + 16 <= region_size_cached r.
Proof.
  intros Hr. pose proof (ro_chain _ _ _ _ Hr) as Hch. pose proof (ro_in _ _ _ _ Hr) as Hin.
  pose proof (ro_rs _ _ _ _ Hr) as Hrs. inversion Hch as [|? ? ? He Hch' Hp]; subst.
  destruct (en_next_bounds _ _ _ He) as [Hb _]. pose proof (entry_length_nonneg _ _ _ He).
  pose proof (ea_pos _ _ _ He). pose proof (ea_fits _ _ _ He). change HEADER_SLOT with 16 in *.
  pose proof (chain_le _ _ _ _ _ Hch').
  split_and!; try done; [by apply (in_file_le _ _ _ q); [|lia|]|by apply (in_file_le _ _ _ q)|lia|lia].
Qed.

Lemma runs_header r w e es q :
  quiet w -> reader_on r w (e :: es) q ->
  runs (current_message_header_info (r_read_position r mod region_size_cached r)) r w
    (Ok (Some (scanned_of e))) r.
Proof.
  intros Hq Hr. destruct (reader_on_head _ _ _ _ _ Hr) as (Hp & He & _ & Hin & _ & _ & Hroom).
  pose proof (ro_rs _ _ _ _ Hr) as Hrs. unfold current_message_header_info.
  eapply runs_seq; [apply runs_self|]. rewrite (ro_map _ _ _ _ Hr). rewrite <- Hp.
  unfold mapped_at. cbn [m_mapping].
  apply runs_reads. eapply (reads_seq _ _ _ _ true).
  { rewrite <- (entry_committed _ _ e He). by apply reads_is_committed. }
  cbn [negb]. eapply (reads_seq _ _ _ _ (mh_length (en_head e))).
  { rewrite <- (entry_length _ _ e He). by apply reads_load_length. }
  eapply (reads_seq _ _ _ _ (type_of e)).
  { rewrite <- (proj1 (entry_type _ _ e He)). by apply reads_parsed_header_type. }
  assert (Hmt : get 2 (data_of w (r_file r)) (en_pos e + 2) = message_type (en_head e))
    by (by rewrite <- (ea_head _ _ _ He)).
  assert (Hmeta : get 8 (data_of w (r_file r)) (en_pos e + 8) = user_meta_u64 (en_head e))
    by (by rewrite <- (ea_head _ _ _ He)).
  eapply reads_seq; [apply (reads_view_at _ _ _ 2 2); first [done|lia]|].
  eapply reads_seq; [apply (reads_view_at _ _ _ 8 8); first [done|lia]|].
  rewrite Hmt, Hmeta. apply reads_ret.
Qed.

Lemma runs_header_end r w q :
  quiet w -> reader_on r w [] q -> get 1 (data_of w (r_file r)) q = NOT_COMMITTED ->
  runs (current_message_header_info (r_read_position r mod region_size_cached r)) r w (Ok None) r.
Proof.
  intros Hq Hr Hend. pose proof (ro_chain _ _ _ _ Hr) as Hch. inversion Hch; subst.
  unfold current_message_header_info. eapply runs_seq; [apply runs_self|]. rewrite (ro_map _ _ _ _ Hr).
  unfold mapped_at. cbn [m_mapping]. apply runs_reads. eapply (reads_seq _ _ _ _ false); [|apply reads_ret].
  pose proof (reads_is_committed (r_file r) (region_size_cached r) (r_read_position r) r w
    (ro_rs _ _ _ _ Hr) Hq (ro_in _ _ _ _ Hr) (ro_room _ _ _ _ Hr)) as Hc.
  by rewrite Hend in Hc.
Qed.

(** Moving over the record at the reader's position, mapping the next region where one begins. *)
Lemma step_over_run r w e es q :
  calm w -> reader_on r w (e :: es) q ->
  exists r', runs (step_over (en_next e)) r w (Ok tt) r' /\ reader_on r' w es q /\
    further r r' (en_next e) (r_position r).
Proof.
  intros Hc Hr. destruct (reader_on_head _ _ _ _ _ Hr) as (Hp & He & Hch & _ & Hin & Hn0 & _).
  pose proof (ro_rs _ _ _ _ Hr) as Hrs. pose proof (rs_pos _ Hrs) as Hrp.
  pose proof (next_in_region _ _ _ Hrs He) as Hnext. rewrite Hp in Hnext.
  unfold step_over.
  destruct (en_next e mod region_size_cached r =? 0) eqn:Em.
  - destruct (switch_run r w (en_next e)) as (ms & Hsw & Hl & _); try done; try apply Hr.
    destruct (runs_prune (moved_to ms (r_held r) (en_next e) (r_position r) r) w) as [h Hh]; [done|apply Hr|cbn; lia|].
    exists (moved_to [mapped_at r (en_next e)] h (en_next e) (r_position r) r).
    split_and!; [|eapply reader_on_moved; first [done|apply Hr]|by eexists _, _].
    eapply runs_seq; [apply runs_self|]. rewrite is_multiple_of_pos, Em by lia.
    eapply runs_seq; [exact Hsw|]. eapply runs_seq; [apply runs_modify|]. exact Hh.
  - exists (moved_to (maps r) (r_held r) (en_next e) (r_position r) r). split_and!.
    + eapply runs_seq; [apply runs_self|]. rewrite is_multiple_of_pos, Em by lia.
      unfold runs. by destruct r.
    + eapply reader_on_moved; [done| |done|apply Hr|done]. pose proof (ro_map _ _ _ _ Hr) as Hm. unfold current_map in Hm.
      rewrite Hm. unfold mapped_at, region_of. by rewrite Hnext.
    + by eexists _, _.
Qed.

(** ** The next user record *)

(** The first user record of [es], and the records after it. *)
Fixpoint next_user (es : list Entry) : option (Entry * list Entry) :=
  match es with
  | [] => None
  | e :: es => if is_user e then Some (e, es) else next_user es
  end.

Definition user_entries (es : list Entry) : list Entry := List.filter is_user es.

Lemma next_user_Some es e rest :
  next_user es = Some (e, rest) ->
  user_entries es = e :: user_entries rest /\ (List.length rest < List.length es)%nat /\ is_user e = true /\
  e ∈ es.
Proof.
  induction es as [|e' es IH]; [done|]. cbn [next_user]. unfold user_entries. cbn [List.filter].
  destruct (is_user e') eqn:Hu.
  - intros [= -> ->]. split_and!; [done|cbn; lia|done|left].
  - intros (H1 & H2 & H3 & H4)%IH. split_and!; [done|cbn; lia|done|by right].
Qed.

Lemma next_user_None es : next_user es = None -> user_entries es = [].
Proof.
  induction es as [|e es IH]; [done|]. cbn [next_user]. unfold user_entries. cbn [List.filter].
  by destruct (is_user e).
Qed.

(** The message of the next user record, and those after it. *)
Lemma messages_next d es :
  match next_user es with
  | None => messages d es = []
  | Some (e, rest) => messages d es = message_of d e :: messages d rest
  end.
Proof.
  unfold messages. destruct (next_user es) as [[e rest]|] eqn:E.
  - destruct (next_user_Some _ _ _ E) as (Hu & _). unfold user_entries in Hu. by rewrite Hu.
  - apply next_user_None in E. unfold user_entries in E. by rewrite E.
Qed.

Lemma users_user_entries es : users es = Z.of_nat (List.length (user_entries es)).
Proof. done. Qed.

(** What the scan reports of the record [e] at the reader's position. *)
Definition found_of (r : Reader) (e : Entry) : FoundRecord :=
  let h := en_head e in
  Found (Loc (List.length (maps r) - 1) (en_pos e mod region_size_cached r) (mh_length h))
    (message_type h) (user_meta_u64 h).

Lemma total_fits rs d e : entry_at rs d e -> (s_total_len (scanned_of e) >? rs - en_pos e mod rs) = false.
Proof. intros He. pose proof (ea_fits _ _ _ He). rewrite Z.gtb_ltb. apply Z.ltb_ge. cbn. lia. Qed.

Lemma next_is_en_next r w e es q :
  reader_on r w (e :: es) q -> align_up (r_read_position r + s_total_len (scanned_of e)) = en_next e.
Proof.
  intros Hr. destruct (reader_on_head _ _ _ _ _ Hr) as (Hp & _). rewrite <- Hp.
  unfold scanned_of, en_next. cbn [s_total_len]. f_equal. lia.
Qed.

Lemma service_type d rs e : entry_at rs d e -> is_user e = false -> type_of e = Channel \/ type_of e = Skip.
Proof.
  intros He Hu. destruct (entry_type _ _ e He) as [_ Hn]. rewrite (is_user_type rs d) in Hu by done.
  apply bool_decide_eq_false in Hu. destruct (type_of e); auto; done.
Qed.

Lemma user_type d rs e : entry_at rs d e -> is_user e = true -> type_of e = User.
Proof. intros He Hu. rewrite (is_user_type rs d) in Hu by done. by apply bool_decide_eq_true in Hu. Qed.

(** A turn at a service record moves over it. *)
Lemma scan_service b r w e es q :
  calm w -> reader_on r w (e :: es) q -> is_user e = false ->
  exists r', runs (scan_step b) r w (Ok None) r' /\ runs poll_step r w (Ok None) r' /\
    reader_on r' w es q /\ further r r' (en_next e) (r_position r).
Proof.
  intros Hc Hr Hu. destruct (reader_on_head _ _ _ _ _ Hr) as (Hp & He & _).
  destruct (step_over_run r w e es q Hc Hr) as (r' & Hrun & Hok & Hf). exists r'.
  pose proof (service_type _ _ e He Hu) as Ht. pose proof (total_fits _ _ _ He) as Hfit. rewrite Hp in Hfit.
  split_and!; [| |done|done];
    (eapply runs_seq; [apply runs_self|]; cbv zeta; eapply runs_seq; [eapply runs_header; [apply Hc|exact Hr]|];
     cbv iota; rewrite Hfit, (next_is_en_next r w e es q Hr);
     change (s_header_type (scanned_of e)) with (type_of e);
     destruct Ht as [-> | ->]; (eapply runs_seq; [exact Hrun|apply runs_ret])).
Qed.

(** A turn at a user record: found, and moved over if it is to be consumed. *)
Lemma scan_user b r w e es q :
  calm w -> reader_on r w (e :: es) q -> is_user e = true ->
  exists r', runs (scan_step b) r w (Ok (Some (Some (found_of r e)))) r' /\
    runs poll_step r w (Ok (Some true)) r /\
    (if b then reader_on r' w es q /\ further r r' (en_next e) (u64 (r_position r + 1)) /\
               maps r' !! (List.length (maps r) - 1)%nat = Some (mapped_at r (en_pos e))
     else r' = r).
Proof.
  intros Hc Hr Hu. destruct (reader_on_head _ _ _ _ _ Hr) as (Hp & He & Hch & _ & Hin & Hn0 & _).
  pose proof (user_type _ _ e He Hu) as Ht. pose proof (total_fits _ _ _ He) as Hfit. rewrite Hp in Hfit.
  pose proof (ro_rs _ _ _ _ Hr) as Hrs. pose proof (rs_pos _ Hrs) as Hrp.
  pose proof (ro_map _ _ _ _ Hr) as Hm.
  assert (Hidx : maps r !! (List.length (maps r) - 1)%nat = Some (mapped_at r (en_pos e))).
  { unfold current_map in Hm. rewrite last_lookup in Hm. rewrite Hp, <- Hm. f_equal. lia. }
  assert (Hpoll : runs poll_step r w (Ok (Some true)) r).
  { eapply runs_seq; [apply runs_self|]. cbv zeta. eapply runs_seq; [eapply runs_header; [apply Hc|exact Hr]|].
    cbv iota. rewrite Hfit. change (s_header_type (scanned_of e)) with (type_of e). rewrite Ht. apply runs_ret. }
  assert (Hhead : forall r' (k : option ScannedHeader -> M Reader (option (option FoundRecord))),
    runs (k (Some (scanned_of e))) r w (Ok (Some (Some (found_of r e)))) r' ->
    runs (bind (current_message_header_info (r_read_position r mod region_size_cached r)) k) r w
      (Ok (Some (Some (found_of r e)))) r').
  { intros r' k Hk. eapply runs_seq; [eapply runs_header; [apply Hc|exact Hr]|exact Hk]. }
  assert (Hfound : found_of r e =
    Found (Loc (List.length (maps r) - 1) (r_read_position r mod region_size_cached r) (s_payload_len (scanned_of e)))
      (s_message_type (scanned_of e)) (s_user_meta_u64 (scanned_of e))) by (unfold found_of; by rewrite Hp).
  pose proof (next_is_en_next r w e es q Hr) as Hne.
  destruct b.
  2: { exists r. split_and!; [|done|done]. eapply runs_seq; [apply runs_self|]. cbv zeta. apply Hhead. cbv iota.
    rewrite Hfit. change (s_header_type (scanned_of e)) with (type_of e). rewrite Ht.
    eapply runs_seq; [apply runs_ret|].
    rewrite Hfound. apply runs_ret. }
  pose proof (next_in_region _ _ _ Hrs He) as Hnext. rewrite Hp in Hnext.
  assert (exists ms, runs (when (is_multiple_of (en_next e) (region_size_cached r))
      (Reader_switch_region (en_next e / region_size_cached r))) r w (Ok tt)
      (moved_to ms (r_held r) (r_read_position r) (r_position r) r) /\
    last ms = Some (mapped_at r (en_next e)) /\ exists ms', ms = maps r ++ ms') as (ms & Hsw & Hl & ms' & Hms).
  { rewrite is_multiple_of_pos by lia. destruct (en_next e mod region_size_cached r =? 0) eqn:Em.
    - by apply (switch_run r w (en_next e)); try done; apply Hr.
    - exists (maps r). rewrite moved_to_self. split_and!; [apply runs_ret| |exists []; by rewrite app_nil_r].
      unfold current_map in Hm. rewrite Hm. unfold mapped_at, region_of. by rewrite Hnext. }
  exists (moved_to ms (r_held r) (en_next e) (u64 (r_position r + 1)) r).
  split_and!; [|done|eapply reader_on_moved; first [done|by apply wrap_range]|by eexists _, _|].
  - eapply runs_seq; [apply runs_self|]. cbv zeta. apply Hhead. cbv iota.
    rewrite Hfit, Hne. change (s_header_type (scanned_of e)) with (type_of e). rewrite Ht.
    eapply runs_seq; [|rewrite Hfound; apply runs_ret]. unfold when at 1.
    eapply runs_seq; [exact Hsw|]. eapply runs_seq; [apply runs_modify|]. unfold runs. by destruct r.
  - cbn. rewrite Hms. apply lookup_app_l_Some. exact Hidx.
Qed.

(** The views of the record [e] a reader hands out. *)
Definition owned_of (r : Reader) (e : Entry) : OwnedMessage :=
  MkOwned (mapped_at r (en_pos e)) (en_pos e mod region_size_cached r) (mh_length (en_head e)).
Definition ref_of (r : Reader) (e : Entry) : MessageRef := OwnedMessage_as_ref (owned_of r e).
Definition peeked_of (e : Entry) : PeekedHeader :=
  let h := en_head e in Peeked (message_type h) (user_meta_u64 h) (mh_length h).

End reading.
