(* ===== verification/Route.v ===== *)
(** * What lies ahead of a reader, across files

    A route: the records ahead of a reader in the segment it stands in, and, over the [Roll]s that
    end segments, those of the segments that follow, up to a slot that is not committed. *)

From S2P Require Import Prelude Bytes Crc32c Effects Region Channel V4 V4Facts Names Segment Helper MapAhead Reader Chain RegionFacts SegmentFacts Prefault Writer WriterInv CommitFacts ReserveFacts PrepareFacts RollFacts RecoverFacts ReaderFacts.

#[local] Open Scope Z_scope.

(** ** Legs and hops *)

(** A stretch of one segment: the records [lg_entries], the first user record among them having the
    index [lg_index], up to the slot [lg_end]. *)
Record Leg := MkLeg {
  lg_file : Z;
  lg_sequence : Z;
  lg_instance : InstanceId;
  lg_index : Z;
  lg_entries : list Entry;
  lg_end : Z
}.

(** The leg that remains once the records before [es] are read. *)
Definition leg_rest (es : list Entry) (index : Z) (l : Leg) : Leg :=
  MkLeg (lg_file l) (lg_sequence l) (lg_instance l) index es (lg_end l).

Record leg_ok (w : world) (rs p : Z) (l : Leg) : Prop := {
  lk_len : len_of w (lg_file l) < 2 ^ 63;
  lk_in : in_file rs (len_of w (lg_file l)) (lg_end l);
  lk_room : lg_end l mod rs + HEADER_SLOT <= rs;
  lk_start : p = 0 /\ message_header (data_of w (lg_file l)) 0 = channel_record \/ FIRST_RECORD <= p;
  lk_chain : chain rs (data_of w (lg_file l)) p (lg_entries l) (lg_end l);
  lk_sequence : get 8 (data_of w (lg_file l)) OFF_channel_sequence = lg_sequence l;
  lk_index : 0 <= lg_index l /\ lg_index l + users (lg_entries l) < 2 ^ 64
}.

(** The leg [a] ends at a committed [Roll] with the body of [edge]; the name it leads to holds the
    published segment, with the identity [i], that the edge names; its records start the leg [b]. *)
Record hop_by `{Env} (w : world) (base : string) (rs gen : Z) (a b : Leg) (edge : RollEdge) (i : Identity) : Prop := {
  hp_roll : roll_at (data_of w (lg_file a)) (lg_end a) edge;
  hp_room : lg_end a mod rs + ROLL_TOTAL <= rs;
  hp_edge : edge_ok edge /\ next_instance edge <> InstanceId_NONE;
  hp_counts : get 8 (data_of w (lg_file a)) OFF_base_record_index
              + get 8 (data_of w (lg_file a)) OFF_message_count = next_base_record_index edge;
  hp_index : lg_index a + users (lg_entries a) = next_base_record_index edge;
  hp_names : RollEdge_names edge (lg_sequence a) (lg_instance a) i = true;
  hp_dir : w_dir w !! channel_file_name base (lg_sequence a + 1) = Some (DFile (lg_file b));
  hp_header : resumable (data_of w (lg_file b)) rs (lg_sequence a + 1) i;
  hp_base : get 8 (data_of w (lg_file b)) OFF_base_record_index = next_base_record_index edge;
  hp_generation : get 8 (data_of w (lg_file b)) OFF_generation = gen;
  hp_next : lg_sequence b = lg_sequence a + 1 /\ lg_instance b = instance i /\
            lg_index b = next_base_record_index edge;
  hp_leg : leg_ok w rs 0 b
}.

Definition hop `{Env} (w : world) (base : string) (rs gen : Z) (a b : Leg) : Prop :=
  exists edge i, hop_by w base rs gen a b edge i.

(** From the leg [l] on over the legs [ls], to a slot that is not committed. *)
Inductive route `{Env} (w : world) (base : string) (rs gen : Z) : Leg -> list Leg -> Prop :=
  | route_end l : get 1 (data_of w (lg_file l)) (lg_end l) = NOT_COMMITTED -> route w base rs gen l []
  | route_hop a b ls : hop w base rs gen a b -> route w base rs gen b ls -> route w base rs gen a (b :: ls).

Fixpoint last_leg (l : Leg) (ls : list Leg) : Leg :=
  match ls with [] => l | l' :: ls => last_leg l' ls end.

Definition leg_messages (w : world) (l : Leg) : list Message :=
  messages (data_of w (lg_file l)) (lg_entries l).

(** The messages along a route, in order. *)
Definition route_messages (w : world) (l : Leg) (ls : list Leg) : list Message :=
  concat (map (leg_messages w) (l :: ls)).

(** ** A reader on a route *)

(** The reader stands at the start of the leg, its position the index of the next user record. *)
Record stands `{Env} (r : Reader) (w : world) (l : Leg) : Prop := {
  st_reader : reader_on r w (lg_entries l) (lg_end l);
  st_file : r_file r = lg_file l;
  st_sequence : r_file_sequence r = lg_sequence l;
  st_instance : r_instance r = lg_instance l;
  st_index : r_position r = lg_index l;
  st_leg : leg_ok w (region_size_cached r) (r_read_position r) l;
  st_base : w_dir w !! r_base_path r <> Some DDir
}.

Definition on_route `{Env} (r : Reader) (w : world) (l : Leg) (ls : list Leg) : Prop :=
  stands r w l /\ route w (r_base_path r) (region_size_cached r) (generation_cached r) l ls.

(** What never changes in a reader as it reads. *)
Record same_reader (r r' : Reader) : Prop := {
  sr_ahead : r_map_ahead r' = r_map_ahead r;
  sr_helper : r_helper r' = r_helper r;
  sr_base_path : r_base_path r' = r_base_path r;
  sr_region_size : region_size_cached r' = region_size_cached r;
  sr_mtu : mtu_cached r' = mtu_cached r;
  sr_generation : generation_cached r' = generation_cached r;
  sr_limit : batch_limit r' = batch_limit r
}.

#[export] Instance same_reader_refl : Reflexive same_reader.
Proof. done. Qed.

#[export] Instance same_reader_trans : Transitive same_reader.
Proof. intros r1 r2 r3 [] []. constructor; congruence. Qed.

Lemma further_same_reader r r' p n : further r r' p n -> same_reader r r'.
Proof. by intros (ms & h & ->). Qed.

(** ** Facts *)

Section facts.
Context `{EnvOk}.
Implicit Types (r : Reader) (w : world) (l : Leg) (ls : list Leg).

Lemma route_messages_cons w l l' ls :
  route_messages w l (l' :: ls) = leg_messages w l ++ route_messages w l' ls.
Proof. done. Qed.

Lemma route_messages_nil w l : route_messages w l [] = leg_messages w l.
Proof. unfold route_messages. cbn. apply app_nil_r. Qed.

(** A route depends on where its first leg ends, not on where it starts. *)
Lemma route_rest w base rs gen l ls es n :
  route w base rs gen l ls -> n + users es = lg_index l + users (lg_entries l) ->
  route w base rs gen (leg_rest es n l) ls.
Proof.
  intros Hr Hn. inversion Hr as [? Hend|? b ? (edge & i & Hh) Hrest]; subst.
  - by constructor.
  - constructor; [|done]. exists edge, i. destruct Hh. constructor; try done. cbn. lia.
Qed.

(** The record after the first of a leg. *)
Lemma leg_next w rs p l e es : leg_ok w rs p l -> lg_entries l = e :: es -> FIRST_RECORD <= en_next e.
Proof.
  intros Hl He. pose proof (lk_chain _ _ _ _ Hl) as Hch. rewrite He in Hch.
  inversion Hch as [|? ? ? Hat _ Hp]; subst.
  destruct (en_next_bounds _ _ _ Hat) as [Hb _]. pose proof (entry_length_nonneg _ _ _ Hat).
  destruct (lk_start _ _ _ _ Hl) as [[Hz Hh]|Hs]; [|change HEADER_SLOT with 16 in Hb; lia].
  rewrite <- (ea_head _ _ _ Hat), Hz, Hh in Hb. change (mh_length channel_record) with 192 in Hb.
  change HEADER_SLOT with 16 in Hb. change FIRST_RECORD with 208. lia.
Qed.

Lemma stands_rest r r' w l es p n :
  stands r w l -> further r r' p n -> reader_on r' w es (lg_end l) -> FIRST_RECORD <= p ->
  0 <= n -> n + users es < 2 ^ 64 -> stands r' w (leg_rest es n l).
Proof.
  intros Hs Hf Hr Hp Hn Hlt. pose proof (ro_chain _ _ _ _ Hr) as Hch. destruct Hf as (ms & h & ->).
  destruct Hs as [_ ? ? ? ? [? ? ? _ _ ? _] ?]. constructor; try done. constructor; try done; [by right|].
  cbn in *. congruence.
Qed.

(** ** The sequences along a route, and its length *)

Lemma route_sequences w base rs gen l ls :
  route w base rs gen l ls -> map lg_sequence (l :: ls) = map (fun k => lg_sequence l + Z.of_nat k) (seq 0 (S (length ls))).
Proof.
  induction 1 as [l Hend|a b ls (edge & i & Hh) Hr IH]; [cbn; f_equal; lia|].
  cbn [map length seq] in *. f_equal; [lia|]. rewrite IH, (proj1 (hp_next _ _ _ _ _ _ _ _ Hh)).
  f_equal; [lia|]. rewrite <- (seq_shift (length ls)), <- (seq_shift _ 1), <- (seq_shift _ 0), !map_map.
  apply map_ext. intros. lia.
Qed.

Lemma route_legs w base rs gen l ls :
  route w base rs gen l ls -> Forall (leg_ok w rs 0) ls.
Proof. induction 1 as [|a b ls (edge & i & Hh) Hr IH]; constructor; [apply Hh|done]. Qed.

(** The legs of a route lie in different files: their headers differ in the sequence. *)
Lemma route_files w base rs gen p l ls :
  route w base rs gen l ls -> leg_ok w rs p l -> NoDup (map lg_file (l :: ls)).
Proof.
  intros Hr Hl. pose proof (route_sequences _ _ _ _ _ _ Hr) as Hseq. pose proof (route_legs _ _ _ _ _ _ Hr) as Hls.
  assert (Heq : map lg_sequence (l :: ls) =
                map (fun f => get 8 (data_of w f) OFF_channel_sequence) (map lg_file (l :: ls))).
  { rewrite map_map. cbn [map]. f_equal; [symmetry; apply Hl|]. clear Hr Hseq.
    induction Hls as [|l' ls' Hl' _ IH]; [done|]. cbn [map]. f_equal; [symmetry; apply Hl'|apply IH]. }
  rewrite Heq in Hseq. apply (NoDup_fmap_1 (fun f => get 8 (data_of w f) OFF_channel_sequence)).
  change (NoDup (map (fun f => get 8 (data_of w f) OFF_channel_sequence) (map lg_file (l :: ls)))).
  rewrite Hseq. apply NoDup_fmap_2; [intros ???; lia|apply NoDup_seq].
Qed.

End facts.
