(* ===== verification/RouteFacts.v ===== *)
(** * Following a route (src/lib.rs: Reader::scan_to_user_record, open_next_file)

    A reader at the end of a segment follows its [Roll] into the next one; a scan over any number of
    files finds the next user record on the route, and every read path delivers it. *)

From S2P Require Import Prelude Bytes Crc32c Effects Region Channel V4 V4Facts Names Segment Helper MapAhead Reader Chain RegionFacts SegmentFacts Prefault Writer WriterInv CommitFacts ReserveFacts PrepareFacts RollFacts RecoverFacts ReaderFacts Route.

#[local] Open Scope Z_scope.

(** ** Along a route *)

(** The first user record along a route, the records after it in its leg, the leg from it on, and the
    legs after that. *)
Fixpoint next_on (l : Leg) (ls : list Leg) : option (Entry * list Entry * Leg * list Leg) :=
  match next_user (lg_entries l) with
  | Some (e, es) => Some (e, es, leg_rest (e :: es) (lg_index l) l, ls)
  | None => match ls with [] => None | l' :: ls => next_on l' ls end
  end.

(** Turns to the end of the route: one for each record and one for each leg. *)
Definition route_turns (l : Leg) (ls : list Leg) : nat :=
  list_sum (map (fun l => Datatypes.S (List.length (lg_entries l))) (l :: ls)).

(** The end of a route: the slot there and the index of the record that will take it. *)
Definition tip (l : Leg) (ls : list Leg) : Leg :=
  let t := last_leg l ls in leg_rest [] (lg_index t + users (lg_entries t)) t.

Lemma tip_tip l ls : tip (tip l ls) [] = tip l ls.
Proof. unfold tip, leg_rest. cbn. f_equal. change (users []) with 0. lia. Qed.

(** Further along the route: the end stays, and no file is new. *)
Definition along (l : Leg) (ls : list Leg) (l' : Leg) (ls' : list Leg) : Prop :=
  tip l' ls' = tip l ls /\ map lg_file (l' :: ls') ⊆ map lg_file (l :: ls).

Lemma along_refl l ls : along l ls l ls.
Proof. done. Qed.

Lemma along_trans l1 ls1 l2 ls2 l3 ls3 : along l1 ls1 l2 ls2 -> along l2 ls2 l3 ls3 -> along l1 ls1 l3 ls3.
Proof. intros [H1 H2] [H3 H4]. split; [congruence|by etrans]. Qed.

Lemma along_tip l ls : along l ls (tip l ls) [].
Proof.
  split; [apply tip_tip|]. unfold tip. intros f Hf. apply list_elem_of_singleton in Hf as ->. cbn [leg_rest lg_file].
  apply (list_elem_of_fmap_2 lg_file (l :: ls)). revert l. induction ls as [|b ls IH]; intros l; [left|right; apply IH].
Qed.

(** Taking the next message moves along the route. *)
Lemma next_on_spec w l ls :
  match next_on l ls with
  | None => route_messages w l ls = []
  | Some (e, es, l1, ls') =>
      let l' := leg_rest es (lg_index l1 + 1) l1 in
      is_user e = true /\ lg_entries l1 = e :: es /\
      route_messages w l ls = message_of (data_of w (lg_file l1)) e :: route_messages w l' ls' /\
      along l ls l' ls'
  end.
Proof.
  revert l. induction ls as [|b ls IH]; intros l; cbn [next_on];
    pose proof (messages_next (data_of w (lg_file l)) (lg_entries l)) as Hm;
    destruct (next_user (lg_entries l)) as [[e es]|] eqn:Hnu.
  1, 3: destruct (next_user_Some _ _ _ Hnu) as (Hue & _ & Hu & _);
    (split; [done|]; split; [done|]; split;
       [unfold route_messages, leg_messages; cbn [map concat lg_file leg_rest lg_entries]; by rewrite Hm|]).
  - split; [|done]. unfold tip. cbn [last_leg leg_rest lg_index lg_entries]. unfold leg_rest. cbn. f_equal.
    rewrite !users_user_entries, Hue. cbn [List.length]. lia.
  - done.
  - rewrite route_messages_nil. exact Hm.
  - specialize (IH b). change (leg_messages w l = []) in Hm. rewrite route_messages_cons, Hm.
    destruct (next_on b ls) as [[[[e es] l1] ls']|]; [|exact IH].
    destruct IH as (I1 & I2 & I3 & I4 & I5). split_and!; [done..|]. split; [done|]. intros f Hf. right. by apply I5.
Qed.

Section follow.
Context `{EnvOk}.
Implicit Types (r : Reader) (w : world) (l : Leg) (ls : list Leg).

Lemma page_rs_ok rs : rs_ok rs -> rs_ok page_size /\ page_size <= rs.
Proof.
  intros [Hr Hm]. destruct page_size_ok as (k & Hk & Hp).
  assert (page_size <= rs).
  { apply Z.mod_divide in Hm as [c Hc]; [|lia]. assert (0 < c) by nia. nia. }
  split; [|done]. split; [lia|]. apply Z.mod_same. lia.
Qed.

(** A reader's current mapping, the last of its list. *)
Lemma current_index r m : current_map r = Some m -> maps r !! (List.length (maps r) - 1)%nat = Some m.
Proof. unfold current_map. rewrite last_lookup. intros <-. f_equal. lia. Qed.

Lemma runs_retire_all r w m :
  r_map_ahead r = None -> current_map r = Some m ->
  exists h, runs retire_all_but_last r w (Ok tt) (set_r_held h (set_maps [m] r)).
Proof.
  intros Ha Hm. destruct (runs_retire (popped (maps r)) (set_maps [m] r) w Ha) as [h Hh]. exists h.
  unfold retire_all_but_last. eapply runs_seq; [apply runs_self|]. rewrite Hm.
  eapply runs_seq; [apply runs_modify|exact Hh].
Qed.

(** ** The Roll *)

Definition roll_scanned : ScannedHeader := Scanned Roll ROLL_PAYLOAD_V4 ROLL_TOTAL_V4 0 0.

Lemma runs_header_roll r w q edge :
  quiet w -> reader_on r w [] q -> roll_at (data_of w (r_file r)) q edge ->
  runs (current_message_header_info (r_read_position r mod region_size_cached r)) r w (Ok (Some roll_scanned)) r.
Proof.
  intros Hq Hr [Hh _]. pose proof (ro_chain _ _ _ _ Hr) as Hch. inversion Hch; subst.
  pose proof (ro_rs _ _ _ _ Hr) as Hrs. pose proof (ro_in _ _ _ _ Hr) as Hin. pose proof (ro_room _ _ _ _ Hr) as Hroom.
  set (p := r_read_position r) in *. change HEADER_SLOT with 16 in Hroom.
  pose proof Hh as Hfields. unfold message_header in Hfields.
  injection Hfields as F1 F2 F3 F4 F5.
  unfold current_message_header_info. eapply runs_seq; [apply runs_self|]. rewrite (ro_map _ _ _ _ Hr).
  unfold mapped_at. cbn [m_mapping]. apply runs_reads. eapply (reads_seq _ _ _ _ true).
  { pose proof (reads_is_committed (r_file r) _ p r w Hrs Hq Hin Hroom) as Hc. by rewrite F1 in Hc. }
  cbn [negb]. eapply (reads_seq _ _ _ _ 40).
  { pose proof (reads_load_length (r_file r) _ p r w Hrs Hq Hin Hroom) as Hc. by rewrite F4 in Hc. }
  eapply (reads_seq _ _ _ _ Roll).
  { pose proof (reads_parsed_header_type (r_file r) _ p r w Hrs Hq Hin Hroom) as Hc. by rewrite F2 in Hc. }
  eapply (reads_seq _ _ _ _ 0).
  { pose proof (reads_view_at (r_file r) _ p 2 2 (get 2) r w Hrs Hq Hin ltac:(lia) ltac:(lia)) as Hc. by rewrite F3 in Hc. }
  eapply (reads_seq _ _ _ _ 0).
  { pose proof (reads_view_at (r_file r) _ p 8 8 (get 8) r w Hrs Hq Hin ltac:(lia) ltac:(lia)) as Hc. by rewrite F5 in Hc. }
  apply reads_ret.
Qed.

Lemma runs_roll_edge r w q edge :
  quiet w -> reader_on r w [] q -> roll_at (data_of w (r_file r)) q edge ->
  edge_ok edge -> next_instance edge <> InstanceId_NONE -> q mod region_size_cached r + ROLL_TOTAL <= region_size_cached r ->
  runs (roll_edge (List.length (maps r) - 1) (r_read_position r mod region_size_cached r) ROLL_PAYLOAD_V4) r w (Ok edge) r.
Proof.
  intros Hq Hr [_ Hbody] He Hn Hroom. pose proof (ro_chain _ _ _ _ Hr) as Hch. inversion Hch; subst.
  pose proof (ro_rs _ _ _ _ Hr) as Hrs. pose proof (ro_in _ _ _ _ Hr) as Hin.
  set (p := r_read_position r) in *. change ROLL_TOTAL with 56 in Hroom. change ROLL_PAYLOAD_V4 with 40.
  unfold roll_edge. eapply runs_seq; [apply runs_self|]. rewrite (current_index _ _ (ro_map _ _ _ _ Hr)).
  unfold mapped_at at 1. cbn [m_mapping]. change HEADER_SLOT with 16 in *.
  assert (Hc : (p mod region_size_cached r + 16 + 40 >? region_size (region_of (r_file r) (region_size_cached r) p)) = false).
  { rewrite Z.gtb_ltb. apply Z.ltb_ge. cbn. lia. }
  change (r_read_position r) with p. rewrite Hc. apply runs_reads. eapply reads_seq.
  { apply (reads_view_at (r_file r) _ p 16 40 (fun d a => peek d a 40%nat) r w Hrs Hq Hin); lia. }
  rewrite Hbody. apply reads_lift_eq. apply RollEdge_decode_Ok; auto using RollEdge_encode_byte.
Qed.

(** ** The successor *)

(** What [open_successor] finds over the hop to [b]. *)
Definition successor_of (rs : Z) (d : bytes) (i : Identity) (b : Leg) : Successor :=
  MkSuccessor (lg_sequence b) (instance i) false (lg_file b) (Mapped (lg_sequence b) 0 (Mapping (lg_file b) 0 rs))
    (Mapping (lg_file b) 0 page_size) (ch_channel_name (channel_header_at d 0)) (lg_index b).

Lemma RollEdge_names_sequence e seq from i :
  RollEdge_names e seq from i = true -> checked_add seq 1 = Some (next_sequence e) /\ next_sequence e = seq + 1.
Proof.
  unfold RollEdge_names. intros Hn. apply andb_true_iff in Hn as [_ Hn]. apply bool_decide_eq_true in Hn.
  unfold checked_add in *. destruct (_ <=? _); [|done]. injection Hn as ->. done.
Qed.

(** The successor is opened by its name, for want of one opened ahead. *)
Lemma runs_successor_file r w es q edge prev prev_inst next f :
  calm w -> reader_on r w es q -> w_dir w !! r_base_path r <> Some DDir -> w_dir w !! channel_file_name (r_base_path r) next = Some (DFile f) ->
  runs (successor_file edge prev next prev_inst) r w (Ok (f, Mapped next 0 (Mapping f 0 (region_size_cached r)), None)) r.
Proof.
  intros Hc Hr Hb Hd. pose proof (ro_rs _ _ _ _ Hr) as Hrs. pose proof (rs_pos _ Hrs) as Hrp. pose proof page_size_pos.
  unfold successor_file. eapply runs_seq; [apply runs_self|]. eapply runs_seq; [apply runs_on_ahead, (ro_ahead _ _ _ _ Hr)|].
  eapply runs_seq; [apply runs_reads; by apply reads_channel_path|].
  eapply runs_seq; [apply runs_reads, reads_open; [done|exact Hd]|].
  eapply runs_seq; [|apply runs_ret]. apply runs_reads, reads_create_read_only; [done|].
  split_and!; [lia|apply Hrs|apply Z.mod_0_l; lia].
Qed.

(** The first record of a resumable segment is its channel header. *)
Lemma reads_channel_type {S} f rs seq i (s : S) w :
  rs_ok rs -> calm w -> rs <= len_of w f -> resumable (data_of w f) rs seq i ->
  reads (parsed_header_type (Mapping f 0 rs) 0) s w (Ok Channel).
Proof.
  intros Hrs Hc Hl [R1 _ _ _]. pose proof (rs_pos _ Hrs) as Hrp.
  pose proof (reads_parsed_header_type f _ 0 s w Hrs (proj1 Hc)) as Ht.
  rewrite Z.mod_0_l in Ht by lia. unfold region_of in Ht. rewrite Z.div_0_l in Ht by lia. rewrite Z.mul_0_l in Ht.
  assert (Hty : get 1 (data_of w f) (0 + 1) = HeaderType_u8 Channel)
    by (change (get 1 (data_of w f) (0 + 1)) with (header_type (message_header (data_of w f) 0)); by rewrite R1).
  rewrite Hty in Ht. apply Ht; [|destruct Hrs; lia]. unfold in_file. rewrite Z.div_0_l by lia. lia.
Qed.

Lemma runs_open_successor r w a b edge i :
  calm w -> stands r w a ->
  hop_by w (r_base_path r) (region_size_cached r) (generation_cached r) a b edge i ->
  runs (open_successor (r_header r) (r_file_sequence r) (r_instance r) edge) r w
    (Ok (successor_of (region_size_cached r) (data_of w (lg_file b)) i b)) r.
Proof.
  intros Hc Hs Hh. destruct Hs as [Hr Ef Es Ei _ Hl Hb].
  destruct Hh as [_ _ hp_edge0 hp_counts0 _ hp_names0 hp_dir0 hp_header0 hp_base0 hp_generation0 hp_next0 hp_leg0].
  pose proof (ro_rs _ _ _ _ Hr) as Hrs. destruct (page_rs_ok _ Hrs) as [Hpg Hle].
  pose proof page_size_pos. pose proof (rs_pos _ Hrs) as Hrp. destruct hp_leg0 as [Blen Bin Broom _ Bch Bseq Bidx].
  destruct hp_edge0 as [Hedge Hnone]. destruct hp_next0 as (En & Eb & Ex).
  assert (Hlb : region_size_cached r <= len_of w (lg_file b)).
  { pose proof (chain_le _ _ _ _ _ Bch). unfold in_file in Bin. pose proof (Z.div_pos (lg_end b) (region_size_cached r)). nia. }
  assert (Hla : page_size <= len_of w (r_file r)).
  { pose proof (ro_in _ _ _ _ Hr) as Hin. pose proof (chain_le _ _ _ _ _ (ro_chain _ _ _ _ Hr)).
    pose proof (ro_pos _ _ _ _ Hr). unfold in_file in Hin.
    pose proof (Z.div_pos (lg_end a) (region_size_cached r)). nia. }
  rewrite Es, Ei, (ro_header _ _ _ _ Hr). rewrite <- Ef in hp_counts0.
  destruct (RollEdge_names_sequence _ _ _ _ hp_names0) as [Hadd Hns].
  destruct (reads_prefix (lg_file b) (region_size_cached r) _ _ _ r w Hrs (proj1 Hc) Hlb hp_header0) as (Hv & Hpub & Hch).
  destruct hp_header0 as [R1 R2 R3 R4].
  unfold open_successor. eapply runs_seq; [apply runs_self|].
  eapply runs_seq; [apply runs_reads, (reads_head _ _ OFF_base_record_index 8 (get 8)); [done|apply Hc|done|done|by vm_compute]|].
  eapply runs_seq; [apply runs_reads, (reads_head _ _ OFF_message_count 8 (get 8)); [done|apply Hc|done|done|by vm_compute]|].
  destruct Hedge as (He1 & He2 & He3).
  assert (Hidx : checked_add (get 8 (data_of w (r_file r)) OFF_base_record_index)
                   (get 8 (data_of w (r_file r)) OFF_message_count) = Some (next_base_record_index edge)).
  { unfold checked_add. rewrite hp_counts0. replace (_ <=? U64_MAX) with true; [done|]. symmetry. apply Z.leb_le. unfold U64_MAX. lia. }
  rewrite Hidx, Hadd. rewrite Z.eqb_refl. cbn [ok_or].
  eapply runs_seq; [apply runs_reads, reads_lift|].
  eapply (runs_seq _ _ _ _ _ (lg_file b, Mapped (next_sequence edge) 0 (Mapping (lg_file b) 0 (region_size_cached r)), None)).
  { rewrite Hns. by eapply runs_successor_file. }
  cbn [m_mapping]. eapply (runs_seq _ _ _ _ _ i).
  { eapply (runs_seq _ _ _ _ _ Channel).
    { by eapply runs_reads, reads_channel_type. }
    rewrite bool_decide_eq_false_2 by (intros Hx; by apply Hx).
    eapply runs_seq; [apply runs_reads, Hch|]. rewrite Hns.
    eapply runs_seq; [apply runs_reads, reads_lift_eq, R2|]. apply runs_reads, Hv. }
  rewrite hp_names0. cbn [negb]. eapply runs_seq; [apply runs_reads, Hpub|]. cbn [negb].
  eapply runs_seq; [apply runs_reads, Hch|].
  change (ch_base_record_index (channel_header_at (data_of w (lg_file b)) 0)) with (get 8 (data_of w (lg_file b)) OFF_base_record_index).
  change (ch_generation (channel_header_at (data_of w (lg_file b)) 0)) with (get 8 (data_of w (lg_file b)) OFF_generation).
  rewrite hp_base0, hp_generation0, !Z.eqb_refl, bool_decide_eq_false_2 by (intros Hx; by apply Hx). cbn [orb negb].
  eapply runs_seq.
  { apply runs_reads, reads_create_read_only; [done|]. split_and!; [apply (rs_pos _ Hpg)|apply Hpg|apply Z.mod_0_l; lia]. }
  unfold successor_of. rewrite En, Ex, <- Hns. apply runs_ret.
Qed.

(** A reader at the start of the leg a hop leads to. *)
Lemma stands_hop r r' w a b edge i :
  stands r w a -> hop_by w (r_base_path r) (region_size_cached r) (generation_cached r) a b edge i ->
  same_reader r r' -> r_file r' = lg_file b -> r_file_sequence r' = lg_sequence b -> r_instance r' = instance i ->
  r_position r' = lg_index b -> r_read_position r' = 0 -> r_header r' = Mapping (lg_file b) 0 page_size ->
  current_map r' = Some (Mapped (lg_sequence b) 0 (Mapping (lg_file b) 0 (region_size_cached r))) -> stands r' w b.
Proof.
  intros [Hr _ _ _ _ _ Hb] Hh [Ea _ Eb Er _ Eg _] E1 E2 E3 E4 E5 E6 E7.
  pose proof (rs_pos _ (ro_rs _ _ _ _ Hr)) as Hrp.
  destruct (hp_leg _ _ _ _ _ _ _ _ Hh) as [Blen Bin Broom Bst Bch Bseq Bidx].
  destruct (hp_next _ _ _ _ _ _ _ _ Hh) as (_ & Hi & _). pose proof (users_nonneg (lg_entries b)).
  constructor; rewrite ?Er, ?E5, ?Eb; try congruence; [|by constructor].
  constructor; rewrite ?Er, ?E1, ?E4, ?E5, ?E6, ?E7; try done; try apply Hr; [rewrite Ea; apply Hr| |lia].
  unfold mapped_at, region_of. by rewrite Er, E1, E2.
Qed.

Lemma runs_open_next_file r w a b edge i :
  calm w -> stands r w a ->
  hop_by w (r_base_path r) (region_size_cached r) (generation_cached r) a b edge i ->
  exists r', runs (open_next_file edge) r w (Ok tt) r' /\ stands r' w b /\ same_reader r r'.
Proof.
  intros Hc Hs Hh. pose proof (runs_open_successor r w a b edge i Hc Hs Hh) as Hopen.
  pose proof (st_reader _ _ _ Hs) as Hr.
  set (n := successor_of (region_size_cached r) (data_of w (lg_file b)) i b) in *.
  set (r3 := set_maps (maps r ++ [su_region0 n])
    (enter_segment (su_file n) (su_header n) (su_instance n) false None (su_channel_name n) (su_base_record_index n)
      (set_cursor 0 (su_base_record_index n) (su_sequence n) r))).
  destruct (runs_retire_all r3 w (su_region0 n)) as [h Hh']; [apply (ro_ahead _ _ _ _ Hr)|apply last_snoc|].
  exists (set_r_held [] (set_r_held h (set_maps [su_region0 n] r3))). split_and!; [|..|done].
  - unfold open_next_file. eapply runs_seq; [apply runs_self|]. eapply runs_seq; [exact Hopen|]. fold n.
    eapply runs_seq; [apply runs_modify|]. eapply runs_seq; [apply runs_modify|].
    eapply runs_seq; [apply runs_modify|]. eapply runs_seq; [exact Hh'|].
    unfold Reader_rolled. eapply runs_seq; [apply runs_self|].
    eapply runs_seq; [apply runs_on_ahead, (ro_ahead _ _ _ _ Hr)|]. apply runs_modify.
  - by apply (stands_hop r _ w a b edge i); try apply Hh.
Qed.

(** A turn at a [Roll] moves to the first record of the next file. *)
Lemma scan_roll c r w a b :
  calm w -> stands r w a -> lg_entries a = [] ->
  hop w (r_base_path r) (region_size_cached r) (generation_cached r) a b ->
  exists r', runs (scan_step c) r w (Ok None) r' /\ runs poll_step r w (Ok None) r' /\
    stands r' w b /\ same_reader r r'.
Proof.
  intros Hc Hs He (edge & i & Hh). pose proof (st_reader _ _ _ Hs) as Hr. rewrite He in Hr.
  destruct (runs_open_next_file r w a b edge i Hc Hs Hh) as (r' & Hrun & Hs' & Hsame).
  pose proof (hp_roll _ _ _ _ _ _ _ _ Hh) as Hroll. rewrite <- (st_file _ _ _ Hs) in Hroll.
  destruct (hp_edge _ _ _ _ _ _ _ _ Hh) as [Hedge Hnone]. pose proof (hp_room _ _ _ _ _ _ _ _ Hh) as Hroom.
  pose proof (runs_header_roll r w _ edge (proj1 Hc) Hr Hroll) as Hhead.
  pose proof (runs_roll_edge r w _ edge (proj1 Hc) Hr Hroll Hedge Hnone Hroom) as Hedge'.
  assert (Hp : r_read_position r = lg_end a) by (pose proof (ro_chain _ _ _ _ Hr) as Hch; by inversion Hch).
  assert (Hfit : (s_total_len roll_scanned >? region_size_cached r - r_read_position r mod region_size_cached r) = false).
  { rewrite Z.gtb_ltb. apply Z.ltb_ge. change ROLL_TOTAL with 56 in Hroom. rewrite Hp. change (s_total_len roll_scanned) with 56. lia. }
  exists r'. split_and!; [| |done|done];
    (eapply runs_seq; [apply runs_self|]; cbv zeta; eapply runs_seq; [exact Hhead|]; cbv iota; rewrite Hfit;
     change (s_header_type roll_scanned) with Roll; cbv iota; eapply runs_seq; [exact Hedge'|];
     eapply runs_seq; [exact Hrun|]; apply runs_ret).
Qed.

(** ** Whole scans *)

(** [j] turns of a scan or a poll lead from [r] to [r']. *)
Definition turns (c : bool) (w : world) (j : nat) (r r' : Reader) : Prop :=
  (forall n x r'', runs (loop n (scan_step c)) r' w x r'' -> runs (loop (j + n) (scan_step c)) r w x r'') /\
  (forall n x r'', runs (loop n poll_step) r' w x r'' -> runs (loop (j + n) poll_step) r w x r'').

Lemma turns_refl c w r : turns c w 0 r r.
Proof. by split. Qed.

Lemma turns_step c w j r1 r2 r3 :
  runs (scan_step c) r1 w (Ok None) r2 -> runs poll_step r1 w (Ok None) r2 -> turns c w j r2 r3 ->
  turns c w (Datatypes.S j) r1 r3.
Proof. intros Hs Hp [H1 H2]. split; intros n x r'' Hn; (eapply runs_loop_go; [done|auto]). Qed.

Lemma turns_trans c w j k r1 r2 r3 : turns c w j r1 r2 -> turns c w k r2 r3 -> turns c w (j + k) r1 r3.
Proof. intros [H1 H2] [H3 H4]. split; intros n x r'' Hn; rewrite <- Nat.add_assoc; auto. Qed.

(** Over the service records of a leg. *)
Lemma scan_leg c r w l :
  calm w -> stands r w l ->
  match next_user (lg_entries l) with
  | None => exists r' j, stands r' w (leg_rest [] (lg_index l) l) /\ same_reader r r' /\
      turns c w j r r' /\ (j <= List.length (lg_entries l))%nat /\ users (lg_entries l) = 0
  | Some (e, es) => exists r' j, stands r' w (leg_rest (e :: es) (lg_index l) l) /\ same_reader r r' /\
      turns c w j r r' /\ (j < List.length (lg_entries l))%nat /\ users (lg_entries l) = users (e :: es)
  end.
Proof.
  intros Hc. destruct l as [f sq id n es q]. cbn [lg_entries lg_index]. revert r.
  induction es as [|e es IH]; intros r Hs.
  - cbn [next_user]. exists r, 0%nat. split_and!; try done.
  - cbn [next_user]. destruct (is_user e) eqn:Hu.
    + exists r, 0%nat. split_and!; try done; cbn; lia.
    + destruct (scan_service c r w e es q Hc (st_reader _ _ _ Hs) Hu) as (r1 & Hrun & Hpoll & Hok & Hf).
      pose proof (users_cons e es) as Hus. rewrite Hu, Z.add_0_l in Hus.
      assert (Hs1 : stands r1 w (MkLeg f sq id n es q)).
      { destruct (lk_index _ _ _ _ (st_leg _ _ _ Hs)) as [Hn0 Hn1]. cbn in Hn0, Hn1.
        rewrite (st_index _ _ _ Hs) in Hf. cbn in Hf.
        apply (stands_rest r r1 w _ es _ n Hs Hf Hok); [by eapply leg_next; [exact (st_leg _ _ _ Hs)|]|lia..]. }
      pose proof (further_same_reader _ _ _ _ Hf) as Hsame. specialize (IH r1 Hs1). cbn [leg_rest lg_file lg_sequence lg_instance lg_end] in *.
      rewrite Hus. destruct (next_user es) as [[u rest]|]; destruct IH as (r' & j & H1 & H2 & H3 & H4 & H5);
        (exists r', (Datatypes.S j); split_and!; [done|by etrans|by eapply turns_step|cbn; lia|done]).
Qed.

Lemma on_route_rest r r' w l ls es n :
  on_route r w l ls -> same_reader r r' -> stands r' w (leg_rest es n l) ->
  n + users es = lg_index l + users (lg_entries l) -> on_route r' w (leg_rest es n l) ls.
Proof.
  intros [_ Hrt] [_ _ Hb Hrs _ Hg _] Hs Hn. split; [done|]. rewrite Hb, Hrs, Hg. by apply route_rest.
Qed.

(** A scan, and a poll, from [r] along the route. *)
Definition scanned (c : bool) (w : world) (scan : M Reader (option FoundRecord)) (poll : M Reader bool)
    (r : Reader) (l : Leg) (ls : list Leg) : Prop :=
  match next_on l ls with
  | None => exists r', runs scan r w (Ok None) r' /\ runs poll r w (Ok false) r' /\ same_reader r r' /\
      on_route r' w (tip l ls) []
  | Some (e, es, l1, ls') => exists r1 r', on_route r1 w l1 ls' /\ same_reader r r1 /\
      runs poll r w (Ok true) r1 /\ runs scan r w (Ok (Some (found_of r1 e))) r' /\ same_reader r r' /\
      (if c then on_route r' w (leg_rest es (lg_index l1 + 1) l1) ls' /\
                 maps r' !! (List.length (maps r1) - 1)%nat = Some (mapped_at r1 (en_pos e))
       else r' = r1)
  end.

Lemma scanned_turns c w j r r1 l ls n :
  turns c w j r r1 -> same_reader r r1 ->
  scanned c w (loop n (scan_step c)) (loop n poll_step) r1 l ls ->
  scanned c w (loop (j + n) (scan_step c)) (loop (j + n) poll_step) r l ls.
Proof.
  intros [Hs Hp] Hsame Hd. unfold scanned in *. destruct (next_on l ls) as [[[[e es] l1] ls']|].
  - destruct Hd as (r2 & r' & H1 & H2 & H3 & H4 & H5 & H6). exists r2, r'. split_and!; try done; first [by auto|by etrans].
  - destruct Hd as (r' & H1 & H2 & H3 & H4). exists r'. split_and!; try done; first [by auto|by etrans].
Qed.

(** The turn that finds the record a reader stands before. *)
Lemma scanned_here c w r l ls e es n :
  calm w -> on_route r w l ls -> lg_entries l = e :: es -> is_user e = true ->
  exists r', runs (loop (Datatypes.S n) (scan_step c)) r w (Ok (Some (found_of r e))) r' /\
    runs (loop (Datatypes.S n) poll_step) r w (Ok true) r /\ same_reader r r' /\
    (if c then on_route r' w (leg_rest es (lg_index l + 1) l) ls /\
               maps r' !! (List.length (maps r) - 1)%nat = Some (mapped_at r (en_pos e))
     else r' = r).
Proof.
  intros Hc Hr He Hu. pose proof Hr as [Hs _]. pose proof (st_reader _ _ _ Hs) as Hon. rewrite He in Hon.
  destruct (scan_user c r w e es _ Hc Hon Hu) as (r' & Hrun & Hpoll & Hpost). exists r'.
  split_and!; [by apply runs_loop_end|by apply runs_loop_end|..].
  - destruct c; [|by subst]. destruct Hpost as (_ & Hf & _). by eapply further_same_reader.
  - destruct c; [|done]. destruct Hpost as (Hok & Hf & Hm). split; [|done].
    destruct (lk_index _ _ _ _ (st_leg _ _ _ Hs)) as [Hn0 Hn1]. rewrite He, users_cons, Hu in Hn1.
    pose proof (users_nonneg es). rewrite (st_index _ _ _ Hs), wrap_small in Hf by lia.
    apply (on_route_rest r); [done|by eapply further_same_reader| |rewrite He, users_cons, Hu; lia].
    eapply stands_rest; [done|exact Hf|done|by eapply leg_next; [exact (st_leg _ _ _ Hs)|]|lia|lia].
Qed.

(** Whole scans, over records and files. *)
Lemma scan_route c w l ls r n :
  calm w -> on_route r w l ls -> (route_turns l ls <= n)%nat ->
  scanned c w (loop n (scan_step c)) (loop n poll_step) r l ls.
Proof.
  intros Hc. revert l r n. induction ls as [|b ls IH]; intros l r n Hr Hn;
    (pose proof Hr as [Hs Hrt]; pose proof (scan_leg c r w l Hc Hs) as Hleg;
     destruct (next_user (lg_entries l)) as [[e es]|] eqn:Hnu;
     destruct Hleg as (r1 & j & Hs1 & Hsame & Hturns & Hj & Hus);
     pose proof (on_route_rest r r1 w l _ _ _ Hr Hsame Hs1 ltac:(rewrite Hus; done)) as Hr1;
     unfold route_turns in Hn; cbn [map list_sum foldr] in Hn).
  1, 3: replace n with (j + Datatypes.S (n - j - 1))%nat by lia; eapply scanned_turns; [done..|];
    unfold scanned; cbn [next_on]; rewrite Hnu;
    destruct (next_user_Some _ _ _ Hnu) as (_ & _ & Hu & _);
    destruct (scanned_here c w r1 _ _ e es (n - j - 1) Hc Hr1 eq_refl Hu) as (r' & H1 & H2 & H3 & H4);
    exists r1, r'; split_and!; try done.
  - inversion Hrt as [? Hend|]; subst.
    replace n with (j + Datatypes.S (n - j - 1))%nat by lia; eapply scanned_turns; [done..|].
    unfold scanned. cbn [next_on]. rewrite Hnu.
    exists r1. split_and!; [| |done|unfold tip; cbn [last_leg]; by rewrite Hus, Z.add_0_r];
      (apply runs_loop_end; eapply runs_seq; [apply runs_self|]; cbv zeta;
       eapply runs_seq; [eapply runs_header_end; [apply Hc|exact (st_reader _ _ _ Hs1)|by rewrite (st_file _ _ _ Hs1)]|apply runs_ret]).
  - pose proof Hr1 as [_ Hrt1]. inversion Hrt1 as [|? ? ? Hhop Hrest]; subst.
    destruct (scan_roll c r1 w _ b Hc Hs1 eq_refl Hhop) as (r2 & Hrun & Hpoll & Hs2 & Hsame2).
    assert (Hr2 : on_route r2 w b ls).
    { split; [done|]. destruct Hsame2 as [_ _ -> -> _ -> _]. done. }
    replace n with ((j + 1) + (n - j - 1))%nat by lia.
    assert (Hd : scanned c w (loop (j + 1 + (n - j - 1)) (scan_step c)) (loop (j + 1 + (n - j - 1)) poll_step) r b ls).
    { eapply scanned_turns; [eapply turns_trans; [done|eapply turns_step; [done..|apply turns_refl]]|by etrans|].
      apply IH; [done|]. unfold route_turns. cbn [map list_sum foldr] in *. lia. }
    unfold scanned in *. cbn [next_on]. rewrite Hnu. exact Hd.
Qed.

(** ** The fuel of a scan covers every route *)

Definition file_turns (w : world) (f : Z) : nat := Z.to_nat (len_of w f / 16) + 2.

Lemma list_sum_cons x xs : list_sum (x :: xs) = (x + list_sum xs)%nat.
Proof. done. Qed.

Lemma scan_fuel_files w fs :
  NoDup fs -> Forall (fun f => is_Some (w_inodes w !! f)) fs ->
  (list_sum (map (file_turns w) fs) < scan_fuel w)%nat.
Proof.
  unfold scan_fuel, file_turns, len_of, inode_of. generalize (w_inodes w). intros m Hnd Hall.
  revert m Hall. induction Hnd as [|f fs Hf Hnd IH]; intros m Hall.
  - cbn. apply (map_fold_weak_ind (fun n (_ : gmap Z inode) => (0 < n)%nat)); [lia|]. intros; lia.
  - inversion Hall as [|? ? [i Hi] Hall']; subst.
    rewrite (map_fold_delete_L (fun (_ : Z) i n => (Z.to_nat (i_len i / 16) + 2 + n)%nat) 1%nat f i m);
      [|intros; lia|done].
    cbn [map]. rewrite list_sum_cons, Hi. cbn [default].
    rewrite <- !Nat.add_assoc. apply Nat.add_lt_mono_l, Nat.add_lt_mono_l.
    rewrite (map_ext_in _ (fun f0 => (Z.to_nat (i_len (default (Inode 0 ∅) (base.delete f m !! f0)) / 16) + 2)%nat)).
    + apply IH. rewrite Forall_forall in Hall' |- *. intros g Hg. rewrite lookup_delete_ne; [by apply Hall'|].
      by intros ->.
    + intros g Hg%list_elem_of_In. rewrite lookup_delete_ne; [done|]. by intros ->.
Qed.

Lemma leg_turns w rs p l :
  0 < rs -> 0 <= p -> leg_ok w rs p l ->
  (Datatypes.S (List.length (lg_entries l)) <= file_turns w (lg_file l))%nat /\ is_Some (w_inodes w !! lg_file l).
Proof.
  intros Hrs Hp Hl. pose proof (chain_length _ _ _ _ _ (lk_chain _ _ _ _ Hl)) as Hlen.
  pose proof (lk_in _ _ _ _ Hl) as Hin. unfold in_file in Hin.
  pose proof (Z.div_mod (lg_end l) rs ltac:(lia)). pose proof (Z.mod_pos_bound (lg_end l) rs ltac:(lia)).
  assert (Hq : lg_end l < len_of w (lg_file l)) by nia. split.
  - unfold file_turns. assert (Z.of_nat (List.length (lg_entries l)) <= len_of w (lg_file l) / 16) by (apply Z.div_le_lower_bound; lia).
    lia.
  - unfold len_of, inode_of in Hq. destruct (w_inodes w !! lg_file l); [done|]. cbn in Hq. lia.
Qed.

Lemma route_fuel r w l ls : on_route r w l ls -> (route_turns l ls < scan_fuel w)%nat.
Proof.
  intros [Hs Hrt]. pose proof (st_leg _ _ _ Hs) as Hl. pose proof (rs_pos _ (ro_rs _ _ _ _ (st_reader _ _ _ Hs))) as Hrs.
  pose proof (ro_pos _ _ _ _ (st_reader _ _ _ Hs)) as Hp.
  pose proof (route_files _ _ _ _ _ _ _ Hrt Hl) as Hnd. pose proof (route_legs _ _ _ _ _ _ Hrt) as Hls.
  assert (Hall : Forall (fun l => (Datatypes.S (List.length (lg_entries l)) <= file_turns w (lg_file l))%nat /\
                               is_Some (w_inodes w !! lg_file l)) (l :: ls)).
  { constructor; [by apply (leg_turns w (region_size_cached r) (r_read_position r)); try apply Hrs|]. eapply Forall_impl; [exact Hls|]. intros l' Hl'.
    by apply (leg_turns w (region_size_cached r) 0); try apply Hrs. }
  eapply Nat.le_lt_trans; [|apply (scan_fuel_files w (map lg_file (l :: ls)) Hnd)].
  - unfold route_turns. rewrite map_map. revert Hall. clear. generalize (l :: ls). induction 1 as [|l' ls' [Hl' _] _ IH]; [done|].
    cbn [map]. rewrite !list_sum_cons. lia.
  - apply Forall_fmap. eapply Forall_impl; [exact Hall|]. by intros l' [_ Hl'].
Qed.

(** ** Scans as the reader runs them *)

Lemma stands_further r r' w l :
  stands r w l -> further r r' (r_read_position r) (r_position r) -> reader_on r' w (lg_entries l) (lg_end l) ->
  stands r' w l.
Proof.
  intros Hs (ms & h & ->) Hr. destruct Hs. by constructor.
Qed.

(** Dropping the mappings before the current one keeps the route. *)
Lemma prune_route r w l ls :
  on_route r w l ls ->
  exists r', runs prune_to_current r w (Ok tt) r' /\ on_route r' w l ls /\
    further r r' (r_read_position r) (r_position r) /\ maps r' = [mapped_at r (r_read_position r)].
Proof.
  intros [Hs Hrt]. destruct (prune_run r w _ _ (st_reader _ _ _ Hs)) as (r' & Hrun & Hok & Hf & Hm). exists r'.
  split_and!; [done| |done|done]. split; [by eapply stands_further|].
  destruct (further_same_reader _ _ _ _ Hf) as [_ _ -> -> _ -> _]. done.
Qed.

Lemma scan_run c r w l ls :
  calm w -> on_route r w l ls -> scanned c w (scan_to_user_record c) poll_for_user_message r l ls.
Proof.
  intros Hc Hr. destruct (prune_route r w l ls Hr) as (r0 & Hrun & Hr0 & Hf & _).
  pose proof (further_same_reader _ _ _ _ Hf) as Hsame.
  pose proof (scan_route c w l ls r0 (scan_fuel w) Hc Hr0 ltac:(pose proof (route_fuel _ _ _ _ Hr0); lia)) as Hd.
  unfold scanned in *. destruct (next_on l ls) as [[[[e es] l1] ls']|].
  - destruct Hd as (r1 & r' & H1 & H2 & H3 & H4 & H5 & H6). exists r1, r'. split_and!; try done; try (by etrans);
      (eapply runs_seq; [exact Hrun|]; by eapply runs_seq; [apply runs_reads, reads_ask|]).
  - destruct Hd as (r' & H1 & H2 & H3 & H4). exists r'. split_and!; try done; try (by etrans);
      (eapply runs_seq; [exact Hrun|]; by eapply runs_seq; [apply runs_reads, reads_ask|]).
Qed.

(** ** What the views show *)

(** The record of a message, as [MessageRef::header] gives it. *)
Definition header_of (m : Message) : MessageHeader :=
  Header COMMITTED (HeaderType_u8 User) (ms_type m) (Z.of_nat (List.length (ms_payload m))) (ms_meta m).

(** The header and the payload that the view [v] gives are those of the message [m]. *)
Definition shows w (v : MessageRef) (m : Message) : Prop :=
  reads (MessageRef_header v) tt w (Ok (header_of m)) /\ reads (MessageRef_payload v) tt w (Ok (ms_payload m)).

Lemma view_shows r w es q e :
  quiet w -> reader_on r w es q -> e ∈ es -> is_user e = true ->
  shows w (ref_of r e) (message_of (data_of w (r_file r)) e).
Proof.
  intros Hq Hr Hin Hu. pose proof (ro_chain _ _ _ _ Hr) as Hch. pose proof (ro_rs _ _ _ _ Hr) as Hrs.
  pose proof (chain_entry _ _ _ _ _ _ Hch Hin) as He.
  destruct (chain_pos_bound _ _ _ _ _ _ Hch Hin) as [Hp Hn].
  pose proof (entry_length_nonneg _ _ _ He) as Hl. destruct (en_next_bounds _ _ _ He) as [Hb _].
  pose proof (ea_fits _ _ _ He) as Hf. change HEADER_SLOT with 16 in *.
  assert (Hi : in_file (region_size_cached r) (len_of w (r_file r)) (en_pos e)).
  { apply (in_file_le _ _ _ q Hrs); [lia|apply Hr]. }
  split.
  - pose proof (reads_view_at (r_file r) _ (en_pos e) 0 16 message_header tt w Hrs Hq Hi) as Hv.
    rewrite !Z.add_0_r, (ea_head _ _ _ He) in Hv.
    replace (header_of _) with (en_head e); [apply Hv; lia|].
    unfold header_of, message_of. cbn. rewrite length_peek, Z2Nat.id by lia.
    pose proof (ea_committed _ _ _ He) as Hc. unfold is_user in Hu. apply Z.eqb_eq in Hu.
    destruct (en_head e). cbn in *. by subst.
  - apply (reads_view_at (r_file r) _ (en_pos e) 16 (mh_length (en_head e))
             (fun d a => peek d a (Z.to_nat (mh_length (en_head e)))) tt w Hrs Hq Hi); lia.
Qed.

(** ** Reading one record *)

(** [r'] is [r] further along the route: the messages [ms] still ahead, the end of the route where
    it was. *)
Record goes_on (r : Reader) (w : world) (l : Leg) (ls : list Leg) (ms : list Message) (r' : Reader) : Prop := {
  go_route : exists l' ls', on_route r' w l' ls' /\ route_messages w l' ls' = ms /\ along l ls l' ls';
  go_same : same_reader r r';
  go_index : r_position r' = lg_index (tip l ls) - Z.of_nat (List.length ms)
}.

Lemma length_messages d es : Z.of_nat (List.length (messages d es)) = users es.
Proof. unfold messages. by rewrite length_map. Qed.

(** The index of the reader's next record is that of the end, less the messages ahead. *)
Lemma route_index w base rs gen l ls :
  route w base rs gen l ls -> lg_index l + Z.of_nat (List.length (route_messages w l ls)) = lg_index (tip l ls).
Proof.
  induction 1 as [l Hend|a b ls (edge & i & Hh) Hr IH].
  - rewrite route_messages_nil. unfold leg_messages. by rewrite length_messages.
  - rewrite route_messages_cons, length_app. unfold leg_messages. rewrite Nat2Z.inj_add, length_messages.
    destruct (hp_next _ _ _ _ _ _ _ _ Hh) as (_ & _ & Hx).
    change (tip a (b :: ls)) with (tip b ls). pose proof (hp_index _ _ _ _ _ _ _ _ Hh). lia.
Qed.

Lemma goes_on_route r r' w l ls l' ls' :
  on_route r' w l' ls' -> along l ls l' ls' -> same_reader r r' ->
  goes_on r w l ls (route_messages w l' ls') r'.
Proof.
  intros Hr Ht Hs. constructor; [by exists l', ls'|done|].
  rewrite (st_index _ _ _ (proj1 Hr)), <- (proj1 Ht), <- (route_index _ _ _ _ _ _ (proj2 Hr)). lia.
Qed.

(** What reading one record gives: the next message ahead, if there is one, as [view] shows it. *)
Definition read_result {A} (shown : A -> Message -> Prop) (m : M Reader (option A))
    (r : Reader) (w : world) (l : Leg) (ls : list Leg) : Prop :=
  exists v r', runs m r w (Ok v) r' /\
    match route_messages w l ls with
    | [] => v = None /\ goes_on r w l ls [] r'
    | msg :: ms => (exists a, v = Some a /\ shown a msg) /\ goes_on r w l ls ms r'
    end.

Lemma advance_result {A} (shown : A -> Message -> Prop) (k : option RecordLoc -> M Reader (option A)) r w l ls :
  calm w -> on_route r w l ls ->
  (forall r', runs (k None) r' w (Ok None) r') ->
  (forall r1 e es q i r', reader_on r1 w (e :: es) q -> is_user e = true ->
     maps r' !! i = Some (mapped_at r1 (en_pos e)) ->
     exists a, runs (k (Some (Loc i (en_pos e mod region_size_cached r1) (mh_length (en_head e))))) r' w (Ok (Some a)) r' /\
       shown a (message_of (data_of w (r_file r1)) e)) ->
  read_result shown (bind advance_to_user_record k) r w l ls.
Proof.
  intros Hc Hr Hnone Hsome. pose proof (scan_run true r w l ls Hc Hr) as Hscan.
  pose proof (next_on_spec w l ls) as Hnext. unfold scanned in Hscan. unfold read_result.
  destruct (next_on l ls) as [[[[e es] l1] ls']|].
  - destruct Hscan as (r1 & r' & Hr1 & _ & _ & Hrun & Hsame & Hr' & Hm).
    destruct Hnext as (Hu & He & Hms & Ht). rewrite Hms.
    pose proof (st_reader _ _ _ (proj1 Hr1)) as Hon. rewrite He in Hon.
    destruct (Hsome r1 e es _ _ r' Hon Hu Hm) as (a & Hk & Ha).
    exists (Some a), r'. split; [|split; [|by apply goes_on_route]].
    + eapply runs_seq; [eapply runs_seq; [exact Hrun|apply runs_ret]|exact Hk].
    + exists a. rewrite <- (st_file _ _ _ (proj1 Hr1)). done.
  - destruct Hscan as (r' & Hrun & _ & Hsame & Hr'). rewrite Hnext. exists None, r'.
    split; [eapply runs_seq; [eapply runs_seq; [exact Hrun|apply runs_ret]|apply Hnone]|].
    split; [done|]. pose proof (goes_on_route r r' w l ls _ _ Hr' (along_tip l ls) Hsame) as Hg. exact Hg.
Qed.

Definition owned_shows w (o : OwnedMessage) (m : Message) : Prop := shows w (OwnedMessage_as_ref o) m.

Lemma try_read_run r w l ls : calm w -> on_route r w l ls -> read_result (shows w) try_read r w l ls.
Proof.
  intros Hc Hr. unfold try_read. apply advance_result; [done|done|intros; apply runs_ret|].
  intros r1 e es q i r' Hon Hu Hi. exists (ref_of r1 e). split; [|eapply view_shows; [apply Hc|exact Hon|left|done]].
  eapply runs_seq; [apply runs_self|]. cbn [l_map_idx]. rewrite Hi. apply runs_ret.
Qed.

Lemma try_read_owned_run r w l ls : calm w -> on_route r w l ls -> read_result (owned_shows w) try_read_owned r w l ls.
Proof.
  intros Hc Hr. unfold try_read_owned. apply advance_result; [done|done|intros; apply runs_ret|].
  intros r1 e es q i r' Hon Hu Hi. exists (owned_of r1 e). split; [|eapply view_shows; [apply Hc|exact Hon|left|done]].
  eapply runs_seq; [apply runs_self|]. cbn [l_map_idx]. rewrite Hi. apply runs_ret.
Qed.

Definition peeked (m : Message) : PeekedHeader := Peeked (ms_type m) (ms_meta m) (Z.of_nat (List.length (ms_payload m))).

(** Looking at the next record leaves it there. *)
Lemma peek_run r w l ls :
  calm w -> on_route r w l ls ->
  let ms := route_messages w l ls in
  exists r', runs peek_header r w (Ok (peeked <$> hd_error ms)) r' /\
    runs poll_for_user_message r w (Ok (bool_decide (ms <> []))) r' /\ goes_on r w l ls ms r'.
Proof.
  intros Hc Hr. pose proof (scan_run false r w l ls Hc Hr) as Hscan.
  pose proof (next_on_spec w l ls) as Hnext. unfold scanned in Hscan. cbv zeta.
  destruct (next_on l ls) as [[[[e es] l1] ls']|].
  - destruct Hscan as (r1 & r' & Hr1 & Hsame & Hpoll & Hrun & _ & ->).
    destruct Hnext as (Hu & He & Hms & Ht). rewrite Hms.
    pose proof (st_reader _ _ _ (proj1 Hr1)) as Hon. rewrite He in Hon.
    pose proof (entry_length_nonneg _ _ _ (chain_entry _ _ _ _ _ e (ro_chain _ _ _ _ Hon) ltac:(left))).
    exists r1. split_and!; [|exact Hpoll|].
    + eapply runs_seq; [exact Hrun|]. cbn [hd_error fmap option_fmap option_map].
      unfold peeked, message_of. cbn [ms_type ms_meta ms_payload]. rewrite length_peek, Z2Nat.id by lia. apply runs_ret.
    + assert (Hm1 : message_of (data_of w (lg_file l1)) e :: route_messages w (leg_rest es (lg_index l1 + 1) l1) ls' = route_messages w l1 ls').
      { unfold route_messages, leg_messages. cbn [map concat leg_rest lg_file lg_entries].
        rewrite He. unfold messages. cbn [List.filter]. by rewrite Hu. }
      rewrite Hm1. apply goes_on_route; [done| |done]. split; [|exact (proj2 Ht)]. rewrite <- (proj1 Ht). destruct ls'; [|done].
      unfold tip. cbn [last_leg leg_rest lg_index lg_entries]. unfold leg_rest. cbn. f_equal. rewrite He, users_cons, Hu. lia.
  - destruct Hscan as (r' & Hrun & Hpoll & Hsame & Hr'). rewrite Hnext. exists r'. split_and!; [|exact Hpoll|].
    + eapply runs_seq; [exact Hrun|apply runs_ret].
    + exact (goes_on_route r r' w l ls _ _ Hr' (along_tip l ls) Hsame).
Qed.

(** ** Draining *)

Lemma goes_on_trans r w l ls r1 l1 ls1 ms r2 :
  same_reader r r1 -> along l ls l1 ls1 -> goes_on r1 w l1 ls1 ms r2 -> goes_on r w l ls ms r2.
Proof.
  intros Hs Ht [(l' & ls' & Hr & Hm & Ht') Hs' Hi]. constructor; [|by etrans|by rewrite <- (proj1 Ht)].
  exists l', ls'. split_and!; [done|done|]. by eapply along_trans.
Qed.

Lemma goes_on_refl r w l ls : on_route r w l ls -> goes_on r w l ls (route_messages w l ls) r.
Proof. intros Hr. by apply goes_on_route. Qed.

Lemma route_messages_turns w l ls : (List.length (route_messages w l ls) <= route_turns l ls)%nat.
Proof.
  unfold route_messages, route_turns. generalize (l :: ls). clear ls. intros ls. induction ls as [|l0 ls IH]; [done|].
  cbn [map concat]. rewrite list_sum_cons, length_app. unfold leg_messages at 1, messages. rewrite length_map.
  pose proof (List.filter_length_le is_user (lg_entries l0)). lia.
Qed.

Lemma owned_loop max w n r l ls out k :
  calm w -> on_route r w l ls -> (List.length (route_messages w l ls) < n)%nat -> 0 <= k <= max ->
  let ms := route_messages w l ls in
  exists r' got, runs (loop_with n (read_owned_step max) (out, k)) r w
      (Ok (out ++ got, inl (k + Z.of_nat (List.length got)))) r' /\
    Forall2 (owned_shows w) got (firstn (Z.to_nat (max - k)) ms) /\
    goes_on r w l ls (skipn (Z.to_nat (max - k)) ms) r'.
Proof.
  intros Hc. revert r l ls out k. induction n as [|n IH]; intros r l ls out k Hr Hn Hk ms; [lia|].
  destruct (Z.eq_dec k max) as [->|Hlt].
  { exists r, []. rewrite Z.sub_diag, app_nil_r, Z.add_0_r. split_and!; [|constructor|by apply goes_on_refl].
    eapply runs_loop_with_end. unfold read_owned_step. rewrite Z.ltb_irrefl. apply runs_ret. }
  assert (Hlt' : (k <? max) = true) by (apply Z.ltb_lt; lia).
  replace (Z.to_nat (max - k)) with (Datatypes.S (Z.to_nat (max - (k + 1)))) by lia.
  destruct (try_read_owned_run r w l ls Hc Hr) as (v & r1 & Hrun & Hres). fold ms in Hres, Hn.
  destruct ms as [|m ms].
  - destruct Hres as [-> Hgo]. exists r1, []. rewrite app_nil_r, Z.add_0_r. split_and!; [|constructor|exact Hgo].
    eapply runs_loop_with_end. unfold read_owned_step. rewrite Hlt'. cbn [negb].
    eapply runs_seq; [by apply runs_attempt|]. apply runs_ret.
  - destruct Hres as ((o & -> & Ho) & [(l1 & ls1 & Hr1 & Hm1 & Ht1) Hsame Hi]).
    cbn [List.length] in Hn.
    destruct (IH r1 l1 ls1 (out ++ [o]) (k + 1) Hr1 ltac:(rewrite Hm1; lia) ltac:(lia)) as (r' & got & H1 & H2 & H3).
    rewrite Hm1 in H2, H3. exists r', (o :: got). split_and!.
    + eapply runs_loop_with_go.
      { unfold read_owned_step. rewrite Hlt'. cbn [negb]. eapply runs_seq; [by apply runs_attempt|]. apply runs_ret. }
      rewrite <- app_assoc in H1. cbn [app List.length] in *.
      replace (k + Z.of_nat (Datatypes.S (List.length got))) with (k + 1 + Z.of_nat (List.length got)) by lia. exact H1.
    + by constructor.
    + by eapply goes_on_trans.
Qed.

(** What one call of [owned_batch] with the limit [max] delivers. *)
Definition batch_delivers (r : Reader) (w : world) (l : Leg) (ls : list Leg) (ms : list Message) (max : Z) : Prop :=
  exists r' out, runs (owned_batch (Some max)) r w (Ok out) r' /\
    Forall2 (owned_shows w) out (firstn (Z.to_nat max) ms) /\
    goes_on r w l ls (skipn (Z.to_nat max) ms) r'.

Lemma owned_batch_run r w l ls max :
  calm w -> on_route r w l ls -> 0 <= max -> batch_delivers r w l ls (route_messages w l ls) max.
Proof.
  intros Hc Hr Hmax. unfold batch_delivers, owned_batch, read_owned_into. cbn [default]. change (id max) with max.
  destruct (Z.eqb_spec max 0) as [->|].
  - exists r, []. split_and!; [done|constructor|by apply goes_on_refl].
  - pose proof (route_fuel _ _ _ _ Hr) as Hfuel. pose proof (route_messages_turns w l ls) as Hlen.
    destruct (owned_loop max w (scan_fuel w) r l ls [] 0 Hc Hr ltac:(lia) ltac:(lia)) as (r' & got & H1 & H2 & H3).
    rewrite Z.sub_0_r in *. exists r', got. split_and!; [|done|done].
    eapply runs_seq; [eapply runs_seq; [apply runs_reads, reads_ask|exact H1]|]. apply runs_ret.
Qed.

End follow.
