(* ===== verification/OpenFacts.v ===== *)
(** * Opening a reader (src/lib.rs: open_with, from_segment, locate, live_start)

    A channel at rest: the segments its names list, from the earliest to the slot of the writer.  A
    reader opened on it, in each mode, stands on the route through them. *)

From Stdlib Require Import String.
From S2P Require Import Prelude Bytes Crc32c Effects Region Channel V4 V4Facts Names NamesFacts Segment Helper MapAhead Reader Chain RegionFacts SegmentFacts Prefault Writer WriterInv CommitFacts ReserveFacts PrepareFacts RollFacts RecoverFacts ReaderFacts Route RouteFacts.

#[local] Open Scope list_scope.
#[local] Open Scope Z_scope.

(** ** A channel at rest *)

(** The file of the leg [l] under its name: a published segment that begins with the leg. *)
Record file_ok `{Env} (w : world) (base : string) (rs gen : Z) (l : Leg) : Prop := {
  fk_dir : w_dir w !! channel_file_name base (lg_sequence l) = Some (DFile (lg_file l));
  fk_header : exists i, resumable (data_of w (lg_file l)) rs (lg_sequence l) i /\ lg_instance l = instance i;
  fk_base : get 8 (data_of w (lg_file l)) OFF_base_record_index = lg_index l;
  fk_generation : get 8 (data_of w (lg_file l)) OFF_generation = gen;
  fk_leg : leg_ok w rs 0 l
}.

(** The sequences the names in a directory stand for, in order. *)
Definition listed_in (dir : gmap string dirent) (base : string) : list Z :=
  sort_sequences (omap (sequence_of base) (map fst (map_to_list dir))).

Definition listed (w : world) (base : string) : list Z := listed_in (w_dir w) base.

Record channel_at `{Env} (w : world) (base : string) (rs gen : Z) (l : Leg) (ls : list Leg) : Prop := {
  cn_rs : rs_ok rs;
  cn_base : w_dir w !! base <> Some DDir;
  cn_first : file_ok w base rs gen l;
  cn_route : route w base rs gen l ls;
  cn_listed : listed w base = map lg_sequence (l :: ls);
  cn_count : get 8 (data_of w (lg_file (last_leg l ls))) OFF_message_count = users (lg_entries (last_leg l ls));
  cn_position : get 8 (data_of w (lg_file (last_leg l ls))) OFF_write_position = lg_end (last_leg l ls) + HEADER_SLOT
}.

(** The reader [from_segment] makes, at the record at [p] with the index [n]. *)
Definition reader_from `{Env} (base : string) (w : world) (rs : Z) (l : Leg) (p n : Z) : Reader :=
  let ch := channel_header_at (data_of w (lg_file l)) 0 in
  MkReader None None Immediate [] base (lg_sequence l) (lg_file l) p n rs (ch_mtu ch) (ch_channel_name ch)
    (ch_base_record_index ch) (ch_generation ch) None [] []
    [Mapped (lg_sequence l) (p / rs) (region_of (lg_file l) rs p)] (Mapping (lg_file l) 0 page_size)
    (lg_instance l) false None.

Section facts.
Context `{EnvOk}.
Implicit Types (w : world) (l : Leg) (ls : list Leg).

(** ** The files *)

Lemma validate_region_size ch rs seq : validate_channel_header ch rs seq = Ok tt -> ch_region_size ch = rs.
Proof.
  unfold validate_channel_header.
  destruct (negb (ch_format_version ch =? _)); [done|]. destruct (negb (ch_endianness ch =? _)); [done|].
  destruct (_ || _); [done|]. destruct (negb (ch_user_header_kind ch =? _)); [done|].
  destruct (Z.eqb_spec (ch_region_size ch) rs); done.
Qed.

Lemma route_file_ok w base rs gen l ls :
  route w base rs gen l ls -> file_ok w base rs gen l -> Forall (file_ok w base rs gen) (l :: ls).
Proof.
  induction 1 as [l Hend|a b ls (edge & i & Hh) Hr IH]; intros Ha; [by constructor|]. constructor; [done|].
  apply IH. destruct Hh as [_ _ _ _ _ _ Hdir Hhdr Hbase Hgen (E & Eb & Ex) Hleg].
  constructor; [by rewrite E|exists i; by rewrite E|by rewrite Ex|done|done].
Qed.

Lemma leg_start_in w base rs gen l :
  rs_ok rs -> file_ok w base rs gen l -> rs <= len_of w (lg_file l) /\ 0 <= lg_end l.
Proof.
  intros Hrs [_ _ _ _ [_ Hin _ _ Hch _ _]]. pose proof (rs_pos _ Hrs). pose proof (chain_le _ _ _ _ _ Hch).
  unfold in_file in Hin. pose proof (Z.div_pos (lg_end l) rs). nia.
Qed.

Context {S : Type}.
Implicit Types (s : S).

Lemma reads_page0 file rs s w :
  rs_ok rs -> calm w -> reads (create_read_only file 0 page_size) s w (Ok (Mapping file 0 page_size)).
Proof.
  intros Hrs Hc. pose proof page_size_pos. apply reads_create_read_only; [done|].
  split_and!; [lia|apply Z.mod_same; lia|apply Z.mod_0_l; lia].
Qed.

(** The header checks every open makes on the first page. *)
Lemma reads_header w base rs gen l s :
  rs_ok rs -> calm w -> file_ok w base rs gen l ->
  let page0 := Mapping (lg_file l) 0 page_size in
  let ch := channel_header_at (data_of w (lg_file l)) 0 in
  reads (parsed_header_type page0 0) s w (Ok Channel) /\
  reads (load_channel_header page0) s w (Ok ch) /\
  validate_channel_header ch (ch_region_size ch) (lg_sequence l) = Ok tt /\ ch_region_size ch = rs /\
  (exists i, reads (validate_v4_prefix page0) s w (Ok i) /\ lg_instance l = instance i) /\
  reads (is_published page0) s w (Ok true).
Proof.
  intros Hrs Hc Hf page0 ch. destruct (leg_start_in _ _ _ _ _ Hrs Hf) as [Hl _].
  destruct (page_rs_ok _ Hrs) as [Hpg Hle]. pose proof page_size_pos.
  destruct (fk_header _ _ _ _ _ Hf) as (i & Hres & Hi).
  destruct (reads_prefix (lg_file l) page_size _ _ _ s w Hpg (proj1 Hc) ltac:(lia) Hres) as (Hv & Hp & Hh).
  assert (Ers : ch_region_size ch = rs).
  { by apply (validate_region_size ch rs (lg_sequence l)), Hres. }
  split_and!; [|done| |done|by exists i|done].
  - pose proof (reads_parsed_header_type (lg_file l) page_size 0 s w Hpg (proj1 Hc)) as Ht.
    rewrite Z.mod_0_l in Ht by lia. unfold region_of in Ht. rewrite Z.div_0_l, Z.mul_0_l in Ht by lia.
    assert (Hty : get 1 (data_of w (lg_file l)) (0 + 1) = HeaderType_u8 Channel)
      by (change (get 1 (data_of w (lg_file l)) (0 + 1)) with (header_type (message_header (data_of w (lg_file l)) 0)); by rewrite (rm_channel _ _ _ _ Hres)).
    rewrite Hty in Ht. apply Ht; [|lia]. unfold in_file. rewrite Z.div_0_l by lia. lia.
  - rewrite Ers. apply Hres.
Qed.

Lemma reads_find_all base s w : calm w -> reads (find_all_sequences base) s w (Ok (listed w base)).
Proof.
  intros Hc. eapply reads_seq; [|apply reads_ret]. eapply reads_seq; [by apply reads_syscall|].
  apply (reads_ask (fun w => map fst (map_to_list (w_dir w)))).
Qed.

Lemma reads_open_segment base rs gen l s w :
  calm w -> w_dir w !! base <> Some DDir -> file_ok w base rs gen l ->
  reads (open_segment_if_present base (lg_sequence l)) s w (Ok (Some (lg_file l))).
Proof.
  intros Hc Hd Hf. eapply reads_seq; [by apply reads_channel_path|].
  eapply reads_seq; [apply reads_attempt_ok; apply reads_open; [done|apply Hf]|]. apply reads_ret.
Qed.

Lemma reads_is_segment_published base rs gen l s w :
  rs_ok rs -> calm w -> w_dir w !! base <> Some DDir -> file_ok w base rs gen l ->
  reads (segment_is_published base (lg_sequence l)) s w (Ok true).
Proof.
  intros Hrs Hc Hd Hf. destruct (leg_start_in _ _ _ _ _ Hrs Hf) as [Hl _]. pose proof (proj1 Hrs).
  destruct (reads_header w base rs gen l s Hrs Hc Hf) as (_ & Hch & Hval & _ & (i & Hv & _) & Hp).
  eapply reads_seq; [by eapply reads_open_segment|]. eapply reads_seq; [by apply reads_metadata_len|].
  replace (_ <? FIRST_RECORD) with false by (symmetry; apply Z.ltb_ge; change FIRST_RECORD with 208; lia).
  eapply reads_seq; [by eapply reads_page0|]. eapply reads_seq; [exact Hch|].
  eapply reads_seq; [by apply reads_lift_eq|]. eapply reads_seq; [exact Hv|]. exact Hp.
Qed.

(** The header fields that locating a record reads. *)
Definition header_fields w rs l : SegmentHeader :=
  let d := data_of w (lg_file l) in
  SegHeader rs (get 8 d OFF_base_record_index) (get 8 d OFF_message_count) (get 8 d OFF_generation).

Lemma reads_segment_header base rs gen l s w :
  rs_ok rs -> calm w -> file_ok w base rs gen l ->
  reads (read_segment_header (lg_file l) (lg_sequence l)) s w (Ok (header_fields w rs l)).
Proof.
  intros Hrs Hc Hf. destruct (leg_start_in _ _ _ _ _ Hrs Hf) as [Hl _]. pose proof page_size_pos.
  destruct (page_rs_ok _ Hrs) as [Hpg Hle].
  destruct (reads_header w base rs gen l s Hrs Hc Hf) as (Ht & Hch & Hval & Ers & (i & Hv & _) & Hp).
  eapply reads_seq; [by eapply reads_page0|]. eapply reads_seq; [exact Ht|].
  rewrite bool_decide_eq_false_2 by (intros Hx; by apply Hx).
  eapply reads_seq; [exact Hch|]. eapply reads_seq; [by apply reads_lift_eq|]. eapply reads_seq; [exact Hv|].
  eapply reads_seq; [exact Hp|]. cbn [negb].
  assert (Hld : forall off, 0 <= off -> off + 8 <= 4096 ->
    reads (load_u64 (Mapping (lg_file l) 0 page_size) off) s w (Ok (get 8 (data_of w (lg_file l)) off))).
  { intros off ??. apply (reads_head (lg_file l) page_size off 8 (get 8)); [done|apply Hc|lia|done|done]. }
  eapply reads_seq; [by apply Hld|]. eapply reads_seq; [by apply Hld|]. eapply reads_seq; [by apply Hld|].
  rewrite Ers. apply reads_ret.
Qed.

Lemma reads_probe base rs gen l s w :
  rs_ok rs -> calm w -> w_dir w !! base <> Some DDir -> file_ok w base rs gen l ->
  reads (probe base (lg_sequence l)) s w (Ok (Some (lg_file l, header_fields w rs l))).
Proof.
  intros Hrs Hc Hd Hf. eapply reads_seq; [by eapply reads_open_segment|].
  eapply reads_seq; [by eapply reads_segment_header|]. apply reads_ret.
Qed.

(** ** [from_segment] *)

(** Its reader, once the place to start at is known. *)
Lemma reads_from_segment base rs gen l start p n s w :
  rs_ok rs -> calm w -> file_ok w base rs gen l ->
  match start with Beginning => p = 0 /\ n = lg_index l | StartAt p' n' => p = p' /\ n = n' | Head => False end ->
  0 <= p -> in_file rs (len_of w (lg_file l)) p ->
  reads (from_segment base (lg_sequence l) (lg_file l) start) s w (Ok (reader_from base w rs l p n)).
Proof.
  intros Hrs Hc Hf Hst Hp Hin. pose proof (rs_pos _ Hrs) as Hrs'.
  destruct (reads_header w base rs gen l s Hrs Hc Hf) as (Ht & Hch & Hval & Ers & (i & Hv & Hi) & Hpub).
  pose proof (fk_base _ _ _ _ _ Hf) as Hb. pose proof (lk_len _ _ _ _ (fk_leg _ _ _ _ _ Hf)) as Hlen.
  set (ch := channel_header_at (data_of w (lg_file l)) 0) in *.
  assert (Eb : ch_base_record_index ch = lg_index l) by exact Hb.
  eapply reads_seq; [by eapply reads_page0|]. eapply reads_seq; [exact Ht|].
  rewrite bool_decide_eq_false_2 by (intros Hx; by apply Hx).
  eapply reads_seq; [exact Hch|]. eapply reads_seq; [by apply reads_lift_eq|]. eapply reads_seq; [exact Hv|].
  eapply reads_seq; [exact Hpub|]. cbn [negb].
  apply (reads_seq _ _ _ _ (p, n)); [destruct start as [| |p' n']|].
  - destruct Hst as [-> ->]. rewrite Eb. apply reads_ret.
  - done.
  - destruct Hst as [-> ->]. apply reads_ret.
  - cbn beta iota. rewrite Ers. unfold div_guard. replace (rs =? 0) with false by (symmetry; apply Z.eqb_neq; lia).
    eapply reads_seq; [apply reads_ret|].
    eapply reads_seq; [apply reads_map_region; [done|done|done|done|lia]|].
    unfold reader_from. fold ch. rewrite Hi. apply reads_ret.
Qed.

(** A reader made at a record of a leg stands there. *)
Lemma reader_from_stands base rs gen l es1 es2 p n w :
  rs_ok rs -> w_dir w !! base <> Some DDir -> file_ok w base rs gen l -> lg_entries l = es1 ++ es2 ->
  chain rs (data_of w (lg_file l)) 0 es1 p -> chain rs (data_of w (lg_file l)) p es2 (lg_end l) ->
  p = 0 \/ FIRST_RECORD <= p -> n = lg_index l + users es1 ->
  stands (reader_from base w rs l p n) w (leg_rest es2 n l) /\
  in_file rs (len_of w (lg_file l)) p /\ 0 <= p.
Proof.
  intros Hrs Hd Hf He H1 H2 Hp ->. destruct (fk_leg _ _ _ _ _ Hf) as [L1 L2 L3 L4 L5 L6 [L7 L8]].
  pose proof (chain_le _ _ _ _ _ H1). pose proof (chain_le _ _ _ _ _ H2). pose proof (users_nonneg es1).
  rewrite He, users_app in L8. pose proof (users_nonneg es2).
  assert (Hin : in_file rs (len_of w (lg_file l)) p) by (by eapply in_file_le).
  split; [|done]. constructor; try done.
  - constructor; try done. cbn. lia.
  - constructor; try done; [|cbn; lia]. destruct Hp as [->|Hp]; [left|by right]. split; [done|].
    destruct L4 as [[_ Hh]|Hz]; [done|by change FIRST_RECORD with 208 in Hz].
Qed.

(** The generation a caller expects is checked last. *)
Lemma open_with_run base mode eg gen r w w' s :
  open_attempt base mode eg s w = Outcome (Ok (Some r)) s w' [] -> generation_cached r = gen ->
  eg = None \/ eg = Some gen -> open_with base mode eg s w = Outcome (Ok r) s w' [].
Proof.
  intros Ha Hg Heg.
  assert (Hr : retrying MAX_OPEN_RETRIES (open_attempt base mode eg) s w = Outcome (Ok (Some r)) s w' []).
  { unfold MAX_OPEN_RETRIES. cbn [retrying]. by rewrite (bind_outcome _ _ _ _ _ _ _ Ha). }
  unfold open_with. rewrite (bind_outcome _ _ _ _ _ _ _ Hr), (bind_outcome _ _ _ _ r s w' eq_refl).
  destruct Heg as [-> | ->]; [done|]. by rewrite Hg, Z.eqb_refl.
Qed.

Lemma open_with_err base mode eg e w s :
  reads (open_attempt base mode eg) s w (Err e) -> open_with base mode eg s w = Outcome (Err e) s w [].
Proof.
  intros Ha. unfold open_with, MAX_OPEN_RETRIES. cbn [retrying].
  apply (reads_bind_err _ _ s w e). by apply reads_bind_err.
Qed.

(** ** Late joiners *)

Lemma sorted_first w base rs gen l ls :
  route w base rs gen l ls -> fold_left Z.min (map lg_sequence ls) (lg_sequence l) = lg_sequence l.
Proof.
  intros Hr. pose proof (route_sequences _ _ _ _ _ _ Hr) as Hs. cbn [map] in Hs. injection Hs as _ Hs. rewrite Hs.
  assert (Hall : forall xs m, Forall (fun x => m <= x) xs -> fold_left Z.min xs m = m).
  { induction xs as [|x xs IH]; intros m Hx; [done|]. inversion Hx; subst. cbn. rewrite Z.min_l by done. by apply IH. }
  apply Hall, Forall_forall. intros x. rewrite list_elem_of_fmap. intros (k & -> & _). lia.
Qed.

Lemma open_late_join w base rs gen l ls eg s :
  calm w -> channel_at w base rs gen l ls ->
  let r := reader_from base w rs l 0 (lg_index l) in
  reads (open_attempt base LateJoin eg) s w (Ok (Some r)) /\ on_route r w l ls.
Proof.
  intros Hc [Hrs Hd Hf Hr Hl Hcnt _] r. pose proof (fk_leg _ _ _ _ _ Hf) as Hleg.
  destruct (reader_from_stands base rs gen l [] (lg_entries l) 0 (lg_index l) w) as (Hst & Hin & _);
    try done; [constructor|apply Hleg|by left|change (users []) with 0; lia|].
  split.
  - unfold open_attempt, find_earliest_sequence, find_sequence.
    eapply reads_seq; [eapply reads_seq; [by apply reads_find_all|apply reads_ret]|].
    rewrite Hl. cbn [map]. rewrite (sorted_first _ _ _ _ _ _ Hr).
    eapply reads_seq; [by eapply reads_open_segment|]. eapply reads_seq; [by eapply (reads_from_segment base rs gen l Beginning)|].
    apply reads_ret.
  - split; [by destruct l|]. pose proof (fk_generation _ _ _ _ _ Hf) as Hg.
    change (generation_cached r) with (get 8 (data_of w (lg_file l)) OFF_generation). by rewrite Hg.
Qed.

End facts.
