(* ===== verification/LocateFacts.v ===== *)
(** * Finding a record by its index (src/lib.rs: locate)

    The binary search over the segments of a channel, the walk to the record, and the reader opened
    there. *)

From Stdlib Require Import String.
From S2P Require Import Prelude Bytes Effects Region Channel V4 V4Facts Names NamesFacts Segment Helper MapAhead Reader Chain RegionFacts SegmentFacts Prefault Writer WriterInv CommitFacts ReserveFacts PrepareFacts RollFacts RecoverFacts ReaderFacts Route RouteFacts OpenFacts.

#[local] Open Scope list_scope.
#[local] Open Scope Z_scope.

Section facts.
Context `{EnvOk}.
Implicit Types (w : world) (l a : Leg) (ls pre post : list Leg).

(** ** The legs of a route *)

Lemma route_from w base rs gen l ls pre a post :
  route w base rs gen l ls -> l :: ls = pre ++ a :: post ->
  route w base rs gen a post /\ tip a post = tip l ls /\
  route_messages w l ls = concat (map (leg_messages w) pre) ++ route_messages w a post /\
  lg_index l + Z.of_nat (List.length (concat (map (leg_messages w) pre))) = lg_index a /\
  map lg_file (a :: post) ⊆ map lg_file (l :: ls).
Proof.
  intros Hr E. assert (Hr' : route w base rs gen a post /\ tip a post = tip l ls).
  { revert l ls Hr E. induction pre as [|b pre IH]; intros l ls Hr E; cbn in E; injection E as -> E; [by subst|].
    destruct ls as [|c ls]; [by destruct pre|]. inversion Hr as [|? ? ? _ Hrest]; subst. by apply (IH c ls). }
  destruct Hr' as [Hra Ht]. split_and!; [done|done|..].
  - unfold route_messages. rewrite E, map_app, concat_app. done.
  - pose proof (route_index _ _ _ _ _ _ Hr) as E1. pose proof (route_index _ _ _ _ _ _ Hra) as E2. rewrite Ht in E2.
    unfold route_messages in *. rewrite E, map_app, concat_app, length_app in E1. lia.
  - rewrite E, map_app. intros f Hf. apply elem_of_app. by right.
Qed.

Lemma route_index_le w base rs gen l ls : route w base rs gen l ls -> Forall (fun b => lg_index l <= lg_index b) ls.
Proof.
  induction 1 as [l Hend|a b ls (edge & i & Hh) Hr IH]; [constructor|].
  destruct (hp_next _ _ _ _ _ _ _ _ Hh) as (_ & _ & Ex). pose proof (hp_index _ _ _ _ _ _ _ _ Hh) as Hx.
  pose proof (users_nonneg (lg_entries a)). constructor; [lia|].
  eapply Forall_impl; [exact IH|]. cbn. intros. lia.
Qed.

(** The indices the legs of a route begin with never decrease. *)
Lemma route_index_mono w base rs gen l ls i j a b :
  route w base rs gen l ls -> (i <= j)%nat -> (l :: ls) !! i = Some a -> (l :: ls) !! j = Some b ->
  lg_index a <= lg_index b.
Proof.
  intros Hr Hij Ha Hb. apply list_elem_of_split_length in Ha as (pre & post & E & Hl).
  destruct (route_from _ _ _ _ _ _ _ _ _ Hr E) as (Hra & _). pose proof (route_index_le _ _ _ _ _ _ Hra) as Hall.
  rewrite E, lookup_app_r in Hb by lia. destruct (j - List.length pre)%nat as [|k] eqn:Ek.
  - cbn in Hb. injection Hb as ->. lia.
  - cbn in Hb. rewrite Forall_forall in Hall. apply Hall. by apply list_elem_of_lookup_2 with k.
Qed.

Lemma sequence_at w base rs gen l ls k b :
  route w base rs gen l ls -> (l :: ls) !! k = Some b -> lg_sequence b = lg_sequence l + Z.of_nat k.
Proof.
  intros Hr. revert k. induction Hr as [l Hend|a c ls (edge & i & Hh) Hr IH]; intros k Hk.
  - destruct k; [|done]. injection Hk as ->. lia.
  - destruct k as [|k]; [injection Hk as ->; lia|]. specialize (IH k Hk).
    destruct (hp_next _ _ _ _ _ _ _ _ Hh) as (E & _). lia.
Qed.

Lemma last_leg_at l ls : (l :: ls) !! List.length ls = Some (last_leg l ls).
Proof. revert l. induction ls as [|b ls IH]; intros l; [done|apply (IH b)]. Qed.

(** ** The binary search *)

Context {S : Type}.
Implicit Types (s : S).

Lemma search_run w base rs gen l ls index s fuel lo hi :
  calm w -> channel_at w base rs gen l ls ->
  0 <= lo <= hi -> hi < Z.of_nat (List.length (l :: ls)) -> hi - lo < Z.of_nat fuel ->
  (forall a, (l :: ls) !! Z.to_nat lo = Some a -> lg_index a <= index) ->
  (forall j a, hi < Z.of_nat j -> (l :: ls) !! j = Some a -> index < lg_index a) ->
  exists k a, reads (loop_with fuel (search_step base (map lg_sequence (l :: ls)) index) (lo, hi)) s w (Ok (Some k)) /\
    0 <= k /\ (l :: ls) !! Z.to_nat k = Some a /\ lg_index a <= index /\
    (forall j b, k < Z.of_nat j -> (l :: ls) !! j = Some b -> index < lg_index b).
Proof.
  intros Hc Hch. revert lo hi. induction fuel as [|fuel IH]; intros lo hi Hlo Hhi Hf Hl Hr; [lia|].
  destruct Hch as [Hrs Hd Hfirst Hroute Hlist Hcnt _].
  assert (Hget : forall k, 0 <= k < Z.of_nat (List.length (l :: ls)) -> exists a, (l :: ls) !! Z.to_nat k = Some a /\
    file_ok w base rs gen a).
  { intros k Hk. destruct (lookup_lt_is_Some_2 (l :: ls) (Z.to_nat k)) as [a Ha]; [lia|]. exists a. split; [done|].
    pose proof (route_file_ok _ _ _ _ _ _ Hroute Hfirst) as Hall. rewrite Forall_forall in Hall.
    apply Hall. by apply list_elem_of_lookup_2 with (Z.to_nat k). }
  destruct (Z.lt_ge_cases lo hi) as [Hlt|Hge].
  - set (mid := lo + (hi - lo + 1) / 2).
    assert (Hmid : lo < mid <= hi).
    { unfold mid. zlia. }
    destruct (Hget mid ltac:(lia)) as (a & Ha & Hfa).
    assert (Hstep : reads (search_step base (map lg_sequence (l :: ls)) index (lo, hi)) s w
      (Ok (inl (if lg_index a <=? index then (mid, hi) else (lo, mid - 1))))).
    { unfold search_step. replace (lo <? hi) with true by (symmetry; by apply Z.ltb_lt). cbn [negb]. fold mid.
      replace (nth (Z.to_nat mid) (map lg_sequence (l :: ls)) 0) with (lg_sequence a).
      2: { symmetry. apply nth_lookup_Some. by rewrite list_lookup_fmap, Ha. }
      eapply reads_seq; [by eapply reads_probe|]. cbn [header_fields sh_base_record_index].
      rewrite (fk_base _ _ _ _ _ Hfa). destruct (lg_index a <=? index); apply reads_ret. }
    assert (Hgo : forall v, reads (search_step base (map lg_sequence (l :: ls)) index (lo, hi)) s w (Ok (inl v)) ->
      forall k, reads (loop_with fuel (search_step base (map lg_sequence (l :: ls)) index) v) s w (Ok (Some k)) ->
      reads (loop_with (Datatypes.S fuel) (search_step base (map lg_sequence (l :: ls)) index) (lo, hi)) s w (Ok (Some k))).
    { intros v Hv k Hk. unfold reads in *. by rewrite (reads_loop_with _ _ _ v). }
    destruct (Z.leb_spec (lg_index a) index) as [Hle|Hgt].
    + destruct (IH mid hi ltac:(lia) Hhi ltac:(lia)) as (k & b & Hk & Hrest); [|done|].
      { intros b Hb. congruence. }
      exists k, b. split; [by eapply Hgo|done].
    + destruct (IH lo (mid - 1) ltac:(lia) ltac:(lia) ltac:(lia) Hl) as (k & b & Hk & Hrest).
      { intros j b Hj Hb. pose proof (route_index_mono _ _ _ _ _ _ (Z.to_nat mid) j a b Hroute ltac:(lia) Ha Hb). lia. }
      exists k, b. split; [by eapply Hgo|done].
  - destruct (Hget lo ltac:(lia)) as (a & Ha & _). exists lo, a. split_and!; [|lia|done|by apply Hl|].
    + apply reads_loop_with_end. unfold search_step. replace (lo <? hi) with false by (symmetry; apply Z.ltb_ge; lia).
      apply reads_ret.
    + intros j b Hj. apply Hr. lia.
Qed.

(** ** The record in its segment *)

Lemma walk_in_leg w base rs gen a k s :
  rs_ok rs -> calm w -> file_ok w base rs gen a -> 0 <= k <= users (lg_entries a) ->
  (k = users (lg_entries a) -> get 1 (data_of w (lg_file a)) (lg_end a) = NOT_COMMITTED) ->
  exists es1 es2 p stop, lg_entries a = es1 ++ es2 /\ users es1 = k /\ stop <> EndOfFile /\
    chain rs (data_of w (lg_file a)) 0 es1 p /\ chain rs (data_of w (lg_file a)) p es2 (lg_end a) /\
    (p = 0 \/ FIRST_RECORD <= p) /\
    reads (walk_segment (lg_file a) rs (fun _ t u => bool_decide (t = User) && (u =? k))) s w
      (Ok (Walked p k stop)).
Proof.
  intros Hrs Hc Hf Hk Hend. pose proof (fk_leg _ _ _ _ _ Hf) as Hleg. pose proof Hleg as [L1 L2 L3 L4 L5 L6 L7].
  assert (Hpos : forall es1 es2 p, lg_entries a = es1 ++ es2 -> chain rs (data_of w (lg_file a)) 0 es1 p -> p = 0 \/ FIRST_RECORD <= p).
  { intros es1 es2 p E Hch. destruct es1 as [|e es1]; [left; by inversion Hch|right].
    pose proof (leg_next _ _ _ _ e (es1 ++ es2) Hleg E) as Hnx. inversion Hch as [|? ? ? Hat Hc2 Ep]; subst.
    pose proof (chain_le _ _ _ _ _ Hc2). lia. }
  destruct (split_users rs (data_of w (lg_file a)) 0 (lg_entries a) (lg_end a) 0 k L5 ltac:(lia))
    as [(es1 & e & es2 & E & Hu & Hn & Hp & Ht)|[Hn Hp]].
  - rewrite E in L5. destruct (chain_app_inv _ _ _ _ _ _ L5) as (m & C1 & C2).
    assert (m = en_pos e) as -> by (by inversion C2).
    exists es1, (e :: es2), (en_pos e), Visitor. rewrite Z.add_0_l in Hn.
    split_and!; [done|done|done|done|done|by apply (Hpos es1 (e :: es2))|].
    replace (Walked (en_pos e) k Visitor) with (Walked (en_pos e) (users es1) Visitor) by (by rewrite Hn).
    apply (walk_to_visitor (lg_file a) rs (at_user k) (data_of w (lg_file a)) 0 es1 e es2 (lg_end a)); try done; try lia.
    unfold at_user. rewrite Ht, bool_decide_eq_true_2 by done. rewrite Hn. apply Z.eqb_refl.
  - rewrite Z.add_0_l in Hn. exists (lg_entries a), [], (lg_end a), Uncommitted.
    split_and!; [by rewrite app_nil_r|done|done|done|constructor|eapply (Hpos (lg_entries a) []); [by rewrite app_nil_r|done]|].
    replace (Walked (lg_end a) k Uncommitted) with (Walked (lg_end a) (users (lg_entries a)) Uncommitted) by (by rewrite Hn).
    apply (walk_to_end (lg_file a) rs (at_user k) (data_of w (lg_file a)) 0 (lg_entries a) (lg_end a)); try done; try lia.
Qed.

(** ** The whole search *)

Lemma last_sequence l ls : last (map lg_sequence (l :: ls)) = Some (lg_sequence (last_leg l ls)).
Proof. revert l. induction ls as [|b ls IH]; intros l; [done|]. cbn [map last_leg] in *. rewrite <- (IH b). done. Qed.

Lemma route_end_uncommitted w base rs gen l ls :
  route w base rs gen l ls -> get 1 (data_of w (lg_file (last_leg l ls))) (lg_end (last_leg l ls)) = NOT_COMMITTED.
Proof. induction 1; done. Qed.

Lemma last_leg_elem l ls : last_leg l ls ∈ l :: ls.
Proof. revert l. induction ls as [|b ls IH]; intros l; [left|right; apply IH]. Qed.

Lemma reads_drop_unpublished w base rs gen l ls s :
  calm w -> channel_at w base rs gen l ls ->
  reads (drop_unpublished base (rev (map lg_sequence (l :: ls)))) s w (Ok (rev (map lg_sequence (l :: ls)))).
Proof.
  intros Hc [Hrs Hd Hf Hr _ _ _]. pose proof (last_sequence l ls) as Hlast.
  destruct (rev (map lg_sequence (l :: ls))) as [|x xs] eqn:E; [apply reads_ret|].
  assert (x = lg_sequence (last_leg l ls)) as ->.
  { rewrite <- (rev_involutive (map lg_sequence (l :: ls))), E in Hlast. cbn [rev] in Hlast.
    rewrite last_snoc in Hlast. congruence. }
  destruct xs as [|y xs]; [apply reads_ret|]. cbn [drop_unpublished].
  eapply (reads_seq _ _ _ _ true); [|apply reads_ret]. eapply reads_is_segment_published; [done..|].
  pose proof (route_file_ok _ _ _ _ _ _ Hr Hf) as Hall. rewrite Forall_forall in Hall. apply Hall, last_leg_elem.
Qed.

(** The reader opened at an index stands before the record with that index. *)
(** In the file the search found the walk has [index - lg_index a] messages to skip, all of which it
    holds. *)
Lemma skip_in_leg w base rs gen l ls index pre a post :
  route w base rs gen l ls -> l :: ls = pre ++ a :: post -> lg_index a <= index <= lg_index (tip l ls) -> 0 <= lg_index a ->
  (forall b, (l :: ls) !! Datatypes.S (List.length pre) = Some b -> index < lg_index b) ->
  0 <= index - lg_index a <= users (lg_entries a) /\
  (index - lg_index a = users (lg_entries a) -> get 1 (data_of w (lg_file a)) (lg_end a) = NOT_COMMITTED).
Proof.
  intros Hr E Hidx Ha0 Hnext. destruct (route_from _ _ _ _ _ _ _ _ _ Hr E) as (Hra & Htip & _).
  rewrite <- Htip in Hidx. inversion Hra as [? Hend E1 E2|? b post' (edge & i & Hh) Hrest E1 E2]; subst.
  - unfold tip in Hidx. cbn in Hidx. split; [lia|done].
  - assert (Hb : (l :: ls) !! Datatypes.S (List.length pre) = Some b).
    { rewrite E, lookup_app_r by lia. by replace (Datatypes.S (List.length pre) - List.length pre)%nat with 1%nat by lia. }
    pose proof (Hnext b Hb). destruct (hp_next _ _ _ _ _ _ _ _ Hh) as (_ & _ & Ex).
    pose proof (hp_index _ _ _ _ _ _ _ _ Hh). split; [lia|intros; lia].
Qed.

(** The search in [locate] has a bound, and finds a file that starts at or before the record. *)
Lemma search_found w base rs gen l ls index s :
  calm w -> channel_at w base rs gen l ls -> lg_index l <= index ->
  let sequences := map lg_sequence (l :: ls) in
  exists k a pre post,
    reads (loop_with (Datatypes.S (List.length sequences)) (search_step base sequences index) (0, Z.of_nat (List.length sequences) - 1)) s w (Ok (Some k)) /\
    (l :: ls) !! Z.to_nat k = Some a /\ lg_index a <= index /\ l :: ls = pre ++ a :: post /\
    (forall b, (l :: ls) !! Datatypes.S (List.length pre) = Some b -> index < lg_index b).
Proof.
  intros Hc Hch Hidx sequences.
  destruct (search_run w base rs gen l ls index s (Datatypes.S (List.length sequences)) 0 (Z.of_nat (List.length sequences) - 1) Hc Hch)
    as (k & a & Hsearch & Hk0 & Ha & Hle & Hnext).
  { cbn. lia. }
  { unfold sequences. rewrite length_map. lia. }
  { lia. }
  { intros a Ha. cbn in Ha. injection Ha as <-. lia. }
  { intros j a Hj Ha%lookup_lt_Some. unfold sequences in Hj. rewrite length_map in Hj. lia. }
  destruct (list_elem_of_split_length _ _ _ Ha) as (pre & post & E & Hlen).
  exists k, a, pre, post. split_and!; [done..|]. intros b Hb. by apply (Hnext (Datatypes.S (List.length pre)) b); [lia|].
Qed.

(** [locate_in] builds a reader at the record. *)
Lemma reads_locate_in w base rs gen l ls index s a pre post :
  calm w -> channel_at w base rs gen l ls -> l :: ls = pre ++ a :: post -> lg_index a <= index <= lg_index (tip l ls) ->
  (forall b, (l :: ls) !! Datatypes.S (List.length pre) = Some b -> index < lg_index b) ->
  exists es1 es2 p,
    reads (locate_in base index (lg_sequence a) gen) s w (Ok (Some (reader_from base w rs a p index))) /\
    stands (reader_from base w rs a p index) w (leg_rest es2 index a) /\ generation_cached (reader_from base w rs a p index) = gen /\
    lg_entries a = es1 ++ es2 /\ users es1 = index - lg_index a.
Proof.
  intros Hc Hch E Hidx Hnext. pose proof Hch as [Hrs Hd Hf Hr _ _ _].
  pose proof (route_file_ok _ _ _ _ _ _ Hr Hf) as Hall. rewrite Forall_forall in Hall.
  pose proof (Hall a ltac:(rewrite E; set_solver)) as Hfa. pose proof (lk_index _ _ _ _ (fk_leg _ _ _ _ _ Hfa)) as [Ha0 Ha1].
  destruct (skip_in_leg w base rs gen l ls index pre a post Hr E Hidx Ha0 Hnext) as [Hskip Hend].
  destruct (walk_in_leg w base rs gen a (index - lg_index a) s Hrs Hc Hfa Hskip Hend)
    as (es1 & es2 & p & stop & Ees & Hus & Hstop & C1 & C2 & Hp & Hwalk).
  destruct (reader_from_stands base rs gen a es1 es2 p index w Hrs Hd Hfa Ees C1 C2 Hp ltac:(lia)) as (Hst & Hin & Hp0).
  exists es1, es2, p. split_and!; [|done|apply Hfa|done|done].
  unfold locate_in. eapply reads_seq; [by eapply (reads_probe base rs gen a)|].
  cbn [header_fields sh_generation sh_base_record_index sh_region_size].
  rewrite (fk_generation _ _ _ _ _ Hfa), (fk_base _ _ _ _ _ Hfa), Z.eqb_refl. cbn [negb]. cbv zeta.
  rewrite (wrap_small 64 (index - lg_index a)) by lia.
  eapply reads_seq; [exact Hwalk|]. cbn [we_users we_pos we_stop]. rewrite Z.eqb_refl, bool_decide_eq_false_2 by done.
  cbn [negb orb]. eapply reads_seq; [by eapply (reads_from_segment base rs gen a (StartAt p index))|]. apply reads_ret.
Qed.

(** The checks of [locate] before it searches pass. *)
Lemma reads_located w base rs gen l ls index eg s k a r :
  calm w -> channel_at w base rs gen l ls -> lg_index l <= index <= lg_index (tip l ls) -> eg = None \/ eg = Some gen ->
  let sequences := map lg_sequence (l :: ls) in
  reads (loop_with (Datatypes.S (List.length sequences)) (search_step base sequences index) (0, Z.of_nat (List.length sequences) - 1)) s w (Ok (Some k)) ->
  (l :: ls) !! Z.to_nat k = Some a ->
  reads (locate_in base index (lg_sequence a) gen) s w (Ok r) ->
  reads (locate base index eg) s w (Ok r).
Proof.
  intros Hc Hch Hidx Heg sequences Hsearch Ha Hin. pose proof Hch as [Hrs Hd Hf Hr Hlist Hcnt _].
  pose proof (route_file_ok _ _ _ _ _ _ Hr Hf) as Hall. rewrite Forall_forall in Hall.
  pose proof (Hall _ (last_leg_elem l ls)) as Hflast.
  pose proof (lk_index _ _ _ _ (fk_leg _ _ _ _ _ Hflast)) as [Hi0 Hi1].
  unfold locate. eapply reads_seq; [by apply reads_find_all|]. rewrite Hlist.
  eapply reads_seq; [by eapply reads_drop_unpublished|]. rewrite rev_involutive, last_sequence.
  cbn [map head].
  eapply reads_seq; [by eapply (reads_probe base rs gen l)|]. cbn [header_fields sh_generation sh_base_record_index].
  rewrite (fk_generation _ _ _ _ _ Hf), (fk_base _ _ _ _ _ Hf).
  replace (match eg with Some expected => negb (gen =? expected) | None => false end) with false
    by (destruct Heg as [->| ->]; [done|by rewrite Z.eqb_refl]).
  replace (index <? lg_index l) with false by (symmetry; apply Z.ltb_ge; lia).
  eapply reads_seq; [by eapply (reads_probe base rs gen (last_leg l ls))|].
  cbn [header_fields sh_message_count sh_base_record_index]. cbv zeta.
  rewrite (fk_base _ _ _ _ _ Hflast), Hcnt, wrap_small by (pose proof (users_nonneg (lg_entries (last_leg l ls))); lia).
  replace (index >? _) with false.
  2: { symmetry. rewrite Z.gtb_ltb. apply Z.ltb_ge. cbn in Hidx. lia. }
  eapply reads_seq; [exact Hsearch|]. cbn beta iota.
  replace (nth (Z.to_nat k) (lg_sequence l :: map lg_sequence ls) 0) with (lg_sequence a); [done|].
  symmetry. apply nth_lookup_Some. change (lg_sequence l :: map lg_sequence ls) with (map lg_sequence (l :: ls)).
  by rewrite list_lookup_fmap, Ha.
Qed.

Lemma open_at w base rs gen l ls index eg s :
  calm w -> channel_at w base rs gen l ls -> lg_index l <= index <= lg_index (tip l ls) ->
  eg = None \/ eg = Some gen ->
  exists r l' ls', reads (locate base index eg) s w (Ok (Some r)) /\ on_route r w l' ls' /\
    route_messages w l' ls' = drop (Z.to_nat (index - lg_index l)) (route_messages w l ls) /\
    along l ls l' ls' /\ r_position r = index /\ generation_cached r = gen /\ region_size_cached r = rs /\
    r_base_path r = base /\ r_helper r = None.
Proof.
  intros Hc Hch Hidx Heg. pose proof Hch as [Hrs Hd Hf Hr _ _ _].
  destruct (search_found w base rs gen l ls index s Hc Hch ltac:(lia)) as (k & a & pre & post & Hsearch & Ha & Hle & E & Hnext).
  destruct (reads_locate_in w base rs gen l ls index s a pre post Hc Hch E ltac:(lia) Hnext)
    as (es1 & es2 & p & Hin & Hst & Hgen & Ees & Hus).
  destruct (route_from _ _ _ _ _ _ _ _ _ Hr E) as (Hra & Htip & Hmsg & Hpre & Hfiles).
  pose proof (users_app es1 es2) as Hua. rewrite <- Ees in Hua.
  exists (reader_from base w rs a p index), (leg_rest es2 index a), post.
  split_and!; [by eapply reads_located| | | |done|done|done|done|done].
  - split; [done|]. rewrite Hgen. change (r_base_path _) with base. change (region_size_cached _) with rs.
    apply route_rest; [done|]. lia.
  - assert (Ha2 : route_messages w a post = messages (data_of w (lg_file a)) es1 ++ route_messages w (leg_rest es2 index a) post).
    { unfold route_messages, leg_messages. cbn [map concat leg_rest lg_file lg_entries].
      by rewrite Ees, messages_app, <- app_assoc. }
    rewrite Hmsg, Ha2, app_assoc, drop_app_length'; [done|].
    rewrite length_app. apply Nat2Z.inj. rewrite Nat2Z.inj_add, length_messages, Hus. lia.
  - split; [|done]. rewrite <- Htip. destruct post; [|done]. unfold tip. cbn [last_leg leg_rest lg_index lg_entries].
    unfold leg_rest. cbn. f_equal. lia.
Qed.

(** ** At the head *)

(** The world after a reading of the clock. *)
Definition ticked w : world := o_world (now (S := unit) tt w).

Lemma ticked_dir w : w_dir (ticked w) = w_dir w.
Proof. unfold ticked, now, consume. by destruct (o_ticks (w_oracle w)). Qed.

Lemma ticked_inodes w : w_inodes (ticked w) = w_inodes w.
Proof. unfold ticked, now, consume. by destruct (o_ticks (w_oracle w)). Qed.

Lemma ticked_calm w : calm w -> calm (ticked w).
Proof. unfold ticked, now, consume, calm, quiet, healthy. by destruct (o_ticks (w_oracle w)). Qed.

Lemma now_ticks s w : exists t, now s w = Outcome (Ok t) s (ticked w) [].
Proof. unfold ticked, now, consume. destruct (o_ticks (w_oracle w)); eexists; reflexivity. Qed.

(** What a channel and a route are depends on the files and their names only. *)
Lemma hop_same w w' base rs gen a b :
  w_dir w' = w_dir w -> w_inodes w' = w_inodes w -> hop w base rs gen a b -> hop w' base rs gen a b.
Proof.
  intros Ed Ei (edge & i & Hh). exists edge, i. destruct Hh as [? ? ? ? ? ? ? ? ? ? ? [? ? ? ? ? ? ?]].
  constructor; unfold data_of, len_of, inode_of in *; rewrite ?Ed, ?Ei; try done.
  constructor; unfold data_of, len_of, inode_of in *; rewrite ?Ei; done.
Qed.

Lemma route_same w w' base rs gen l ls :
  w_dir w' = w_dir w -> w_inodes w' = w_inodes w -> route w base rs gen l ls -> route w' base rs gen l ls.
Proof.
  intros Ed Ei. induction 1 as [l Hend|a b ls Hh Hr IH].
  - constructor. unfold data_of, inode_of in *. by rewrite Ei.
  - constructor; [by eapply hop_same|done].
Qed.

Lemma channel_same w w' base rs gen l ls :
  w_dir w' = w_dir w -> w_inodes w' = w_inodes w -> channel_at w base rs gen l ls -> channel_at w' base rs gen l ls.
Proof.
  intros Ed Ei [? ? [? ? ? ? [? ? ? ? ? ? ?]] Hr ? ? ?].
  constructor; try (by eapply route_same); unfold listed, listed_in, data_of, inode_of in *; rewrite ?Ed, ?Ei; try done.
  constructor; unfold data_of, inode_of in *; rewrite ?Ed, ?Ei; try done.
  constructor; unfold len_of, data_of, inode_of in *; rewrite ?Ei; done.
Qed.

(** No name stands for a sequence past the listed ones. *)
Lemma listed_name w base seq x :
  0 <= seq <= U64_MAX -> w_dir w !! channel_file_name base seq = Some x -> seq ∈ listed w base.
Proof.
  intros Hs Hx. unfold listed, listed_in. rewrite sort_sequences_perm, list_elem_of_omap.
  exists (channel_file_name base seq). split; [|by apply sequence_of_channel_file_name].
  apply list_elem_of_fmap. exists (channel_file_name base seq, x). split; [done|]. by apply elem_of_map_to_list.
Qed.

Lemma no_successor w base rs gen l ls :
  channel_at w base rs gen l ls -> lg_sequence (last_leg l ls) < U64_MAX ->
  w_dir w !! channel_file_name base (lg_sequence (last_leg l ls) + 1) = None.
Proof.
  intros [Hrs Hd Hf Hr Hlist _ _] Hlt. destruct (w_dir w !! channel_file_name base (lg_sequence (last_leg l ls) + 1)) as [x|] eqn:E; [exfalso|done].
  pose proof (route_file_ok _ _ _ _ _ _ Hr Hf) as Hall. rewrite Forall_forall in Hall.
  pose proof (lk_sequence _ _ _ _ (fk_leg _ _ _ _ _ (Hall _ (last_leg_elem l ls)))) as Hsq.
  pose proof (get_range 8 (data_of w (lg_file (last_leg l ls))) OFF_channel_sequence).
  apply listed_name in E; [|lia]. rewrite Hlist in E. apply list_elem_of_fmap in E as (b & Eb & Hb).
  apply list_elem_of_lookup in Hb as [k Hb]. pose proof (lookup_lt_Some _ _ _ Hb) as Hk.
  pose proof (sequence_at _ _ _ _ _ _ _ _ Hr Hb). pose proof (sequence_at _ _ _ _ _ _ _ _ Hr (last_leg_at l ls)).
  cbn in Hk. lia.
Qed.

Lemma reads_not_published base seq s w :
  calm w -> w_dir w !! base <> Some DDir -> w_dir w !! channel_file_name base seq = None ->
  reads (segment_is_published base seq) s w (Ok false).
Proof.
  intros Hc Hd Hn. apply (reads_seq _ _ _ _ None); [|apply reads_ret].
  eapply reads_seq; [by apply reads_channel_path|]. apply (reads_seq _ _ _ _ (inr e_not_found)).
  - apply reads_attempt_err. eapply reads_seq; [by apply reads_syscall|].
    eapply reads_seq; [apply (reads_ask (fun w => w_dir w !! channel_file_name base seq))|]. rewrite Hn. apply reads_lift.
  - cbn beta iota. rewrite bool_decide_eq_true_2 by done. apply reads_ret.
Qed.

Lemma reads_latest_published w base rs gen l ls s :
  calm w -> channel_at w base rs gen l ls ->
  reads (find_latest_published_sequence base) s w (Ok (lg_sequence (last_leg l ls))).
Proof.
  intros Hc [Hrs Hd Hf Hr Hlist _ _]. pose proof (last_sequence l ls) as Hlast.
  eapply reads_seq; [by apply reads_find_all|]. rewrite Hlist.
  destruct (rev (map lg_sequence (l :: ls))) as [|x xs] eqn:E.
  { rewrite <- (rev_involutive (map lg_sequence (l :: ls))), E in Hlast. done. }
  assert (x = lg_sequence (last_leg l ls)) as ->.
  { rewrite <- (rev_involutive (map lg_sequence (l :: ls))), E in Hlast. cbn [rev] in Hlast.
    rewrite last_snoc in Hlast. congruence. }
  cbn [latest_published]. apply (reads_seq _ _ _ _ (Some (lg_sequence (last_leg l ls)))); [|apply reads_ret].
  eapply reads_seq; [apply reads_attempt_ok; eapply reads_is_segment_published; [done..|]|apply reads_ret].
  pose proof (route_file_ok _ _ _ _ _ _ Hr Hf) as Hall. rewrite Forall_forall in Hall. apply Hall, last_leg_elem.
Qed.

(** At rest the first turn of [live_start] finds the slot the header says. *)
Lemma reads_live_step w base rs gen l ls started s :
  calm w -> channel_at w base rs gen l ls -> lg_sequence (last_leg l ls) < U64_MAX ->
  let t := last_leg l ls in
  reads (live_step (lg_file t) (Mapping (lg_file t) 0 page_size) (lg_index t) rs started
           (newer_segment base (channel_file_name base (lg_sequence t)) (lg_sequence t)) None) s w
    (Ok (inr (lg_end t, lg_index t + users (lg_entries t)))).
Proof.
  intros Hc Hch Hlt t. pose proof Hch as [Hrs Hd Hf Hr Hlist Hcnt Hpos].
  pose proof (route_file_ok _ _ _ _ _ _ Hr Hf) as Hall. rewrite Forall_forall in Hall.
  pose proof (Hall _ (last_leg_elem l ls)) as Hft. pose proof (no_successor _ _ _ _ _ _ Hch Hlt) as Hno.
  pose proof (route_end_uncommitted _ _ _ _ _ _ Hr) as Hend. fold t in Hft, Hno, Hend, Hcnt, Hpos.
  destruct (leg_start_in _ _ _ _ _ Hrs Hft) as [Hl He0]. destruct (page_rs_ok _ Hrs) as [Hpg Hple]. pose proof page_size_pos.
  pose proof (fk_leg _ _ _ _ _ Hft) as [L1 L2 L3 _ _ _ [L7 L8]]. change HEADER_SLOT with 16 in *.
  pose proof (users_nonneg (lg_entries t)). pose proof (rs_pos _ Hrs).
  assert (Hld : forall off, 0 <= off -> off + 8 <= 4096 ->
    reads (load_u64 (Mapping (lg_file t) 0 page_size) off) s w (Ok (get 8 (data_of w (lg_file t)) off))).
  { intros off ??. apply (reads_head (lg_file t) page_size off 8 (get 8)); [done|apply Hc|lia|done|done]. }
  unfold live_step. eapply reads_seq; [by apply Hld|]. eapply reads_seq; [by apply Hld|]. rewrite Hpos, Hcnt.
  apply (reads_seq _ _ _ _ false).
  { unfold newer_segment. eapply reads_seq; [by apply reads_not_published|].
    apply (reads_seq _ _ _ _ true); [|apply reads_ret]. eapply reads_seq; [by apply reads_syscall|].
    eapply reads_seq; [apply (reads_ask (fun w => w_dir w !! channel_file_name base (lg_sequence t)))|].
    rewrite (fk_dir _ _ _ _ _ Hft). apply reads_ret. }
  cbv zeta. change HEADER_SLOT with 16. replace (saturating_sub (lg_end t + 16) 16) with (lg_end t) by (unfold saturating_sub; lia).
  unfold div_guard. replace (rs =? 0) with false by (symmetry; apply Z.eqb_neq; lia).
  eapply reads_seq; [apply reads_ret|].
  apply (reads_seq _ _ _ _ (region_of (lg_file t) rs (lg_end t))).
  { eapply reads_seq; [by apply reads_metadata_len|]. rewrite in_file_small by (done || lia).
    apply reads_map_region; try done; lia. }
  apply (reads_seq _ _ _ _ false).
  { replace (Ok false) with (committed_flag (get 1 (data_of w (lg_file t)) (lg_end t))) by (by rewrite Hend).
    apply reads_is_committed; try done. apply Hc. }
  cbn [negb]. rewrite (wrap_small 64) by lia. apply reads_ret.
Qed.

(** The end of the newest file lies past its header. *)
Lemma end_past_header w base rs gen l ls :
  channel_at w base rs gen l ls -> FIRST_RECORD <= lg_end (last_leg l ls).
Proof.
  intros Hch. pose proof (route_file_ok _ _ _ _ _ _ (cn_route _ _ _ _ _ _ Hch) (cn_first _ _ _ _ _ _ Hch)) as Hall.
  rewrite Forall_forall in Hall. pose proof (Hall _ (last_leg_elem l ls)) as Hft. set (t := last_leg l ls) in *.
  pose proof (fk_leg _ _ _ _ _ Hft) as Hleg. destruct (fk_header _ _ _ _ _ Hft) as (i0 & Hres & Hi0).
  pose proof (lk_chain _ _ _ _ Hleg) as Hcn. pose proof (route_end_uncommitted _ _ _ _ _ _ (cn_route _ _ _ _ _ _ Hch)) as He. fold t in He.
  inversion Hcn as [p E1 E2 E3|e es q Hat Hcn' E1 E2 E3].
  - rewrite <- E3, get_committed, (rm_channel _ _ _ _ Hres) in He. done.
  - pose proof (leg_next _ _ _ _ e es Hleg (eq_sym E2)). pose proof (chain_le _ _ _ _ _ Hcn'). lia.
Qed.

(** The search for a point at the tail takes one reading of the clock. *)
Lemma live_start_run w base rs gen l ls s :
  calm w -> channel_at w base rs gen l ls -> lg_sequence (last_leg l ls) < U64_MAX ->
  let t := last_leg l ls in
  live_start (lg_file t) (Mapping (lg_file t) 0 page_size) (lg_index t) rs
    (newer_segment base (channel_file_name base (lg_sequence t)) (lg_sequence t)) s w =
    Outcome (Ok (lg_end t, lg_index t + users (lg_entries t))) s (ticked w) [].
Proof.
  intros Hc Hch Hlt t. unfold live_start. destruct (now_ticks s w) as [started Hnow].
  pose proof (channel_same w (ticked w) _ _ _ _ _ (ticked_dir w) (ticked_inodes w) Hch) as Hch'.
  pose proof (reads_live_step (ticked w) base rs gen l ls started s (ticked_calm w Hc) Hch' Hlt) as Hstep. fold t in Hstep.
  assert (Hloop : bind (ask live_fuel) (fun fuel => loop_with fuel (live_step (lg_file t) (Mapping (lg_file t) 0 page_size)
      (lg_index t) rs started (newer_segment base (channel_file_name base (lg_sequence t)) (lg_sequence t))) None) s (ticked w) =
    Outcome (Ok (lg_end t, lg_index t + users (lg_entries t))) s (ticked w) []).
  { rewrite (reads_bind _ _ _ _ _ (reads_ask live_fuel s (ticked w))).
    replace (live_fuel (ticked w)) with (Datatypes.S (List.length (o_ticks (w_oracle (ticked w))) + Z.to_nat SPIN_BUDGET))
      by (unfold live_fuel; lia).
    exact (reads_loop_with_end _ _ _ _ _ _ Hstep). }
  unfold bind at 1. rewrite Hnow. cbn [o_res o_self o_world o_trace app]. by rewrite Hloop.
Qed.

Lemma from_segment_live_run w base rs gen l ls s :
  calm w -> channel_at w base rs gen l ls -> lg_sequence (last_leg l ls) < U64_MAX ->
  let t := last_leg l ls in
  from_segment base (lg_sequence t) (lg_file t) Head s w =
    Outcome (Ok (reader_from base (ticked w) rs t (lg_end t) (lg_index t + users (lg_entries t)))) s (ticked w) [].
Proof.
  intros Hc Hch Hlt t. pose proof Hch as [Hrs Hd Hf Hr _ _ _]. pose proof (ticked_calm w Hc) as Hc'.
  pose proof (route_file_ok _ _ _ _ _ _ Hr Hf) as Hall. rewrite Forall_forall in Hall.
  pose proof (Hall _ (last_leg_elem l ls)) as Hft. fold t in Hft.
  pose proof (channel_same w (ticked w) _ _ _ _ _ (ticked_dir w) (ticked_inodes w) Hch) as Hch'.
  pose proof (route_file_ok _ _ _ _ _ _ (cn_route _ _ _ _ _ _ Hch') (cn_first _ _ _ _ _ _ Hch')) as Hall'.
  rewrite Forall_forall in Hall'. pose proof (Hall' _ (last_leg_elem l ls)) as Hft'. fold t in Hft'.
  destruct (reader_from_stands base rs gen t (lg_entries t) [] (lg_end t) (lg_index t + users (lg_entries t)) (ticked w) Hrs
    (cn_base _ _ _ _ _ _ Hch') Hft') as (_ & Hin & Hp0);
    [by rewrite app_nil_r|apply (fk_leg _ _ _ _ _ Hft')|constructor|right; apply (end_past_header w base rs gen l ls Hch)|done|].
  destruct (reads_header w base rs gen t s Hrs Hc Hft) as (Ht & Hld & Hval & Ers & (i & Hv & Hi) & Hpub).
  unfold from_segment. rewrite (reads_bind _ _ _ _ _ (reads_page0 (lg_file t) rs s w Hrs Hc)).
  rewrite (reads_bind _ _ _ _ _ Ht), bool_decide_eq_false_2 by (intros Hx; by apply Hx).
  rewrite (reads_bind _ _ _ _ _ Hld), (reads_bind _ _ _ _ _ (reads_lift_eq _ _ s w Hval)).
  rewrite (reads_bind _ _ _ _ _ Hv), (reads_bind _ _ _ _ _ Hpub). cbn [negb].
  assert (Hlive : bind (make_channel_file_path base (lg_sequence t)) (fun this =>
      live_start (lg_file t) (Mapping (lg_file t) 0 page_size) (ch_base_record_index (channel_header_at (data_of w (lg_file t)) 0))
        (ch_region_size (channel_header_at (data_of w (lg_file t)) 0)) (newer_segment base this (lg_sequence t))) s w =
    Outcome (Ok (lg_end t, lg_index t + users (lg_entries t))) s (ticked w) []).
  { rewrite (reads_bind _ _ _ _ _ (reads_channel_path base (lg_sequence t) s w Hd)), Ers.
    change (ch_base_record_index _) with (get 8 (data_of w (lg_file t)) OFF_base_record_index).
    rewrite (fk_base _ _ _ _ _ Hft). by apply (live_start_run w base rs gen l ls). }
  unfold bind at 1. rewrite Hlive. cbn [o_res o_self o_world o_trace app]. rewrite Ers.
  unfold div_guard. pose proof (rs_pos _ Hrs). replace (rs =? 0) with false by (symmetry; apply Z.eqb_neq; lia).
  rewrite (reads_bind _ _ _ _ _ (reads_ret tt s (ticked w))).
  assert (Hlen' : len_of (ticked w) (lg_file t) < 2 ^ 63) by apply (fk_leg _ _ _ _ _ Hft').
  rewrite (reads_bind _ _ _ _ _ (reads_map_region (lg_file t) rs (lg_end t) s (ticked w) Hrs Hc' Hin Hp0 ltac:(lia))).
  unfold reader_from, data_of, inode_of. rewrite ticked_inodes, Hi. done.
Qed.

Lemma open_live w base rs gen l ls eg s :
  calm w -> channel_at w base rs gen l ls -> lg_sequence (last_leg l ls) < U64_MAX ->
  exists r, open_attempt base Live eg s w = Outcome (Ok (Some r)) s (ticked w) [] /\
    on_route r (ticked w) (tip l ls) [] /\ r_position r = lg_index (tip l ls) /\ generation_cached r = gen /\
    region_size_cached r = rs /\ r_base_path r = base /\ r_helper r = None.
Proof.
  intros Hc Hch Hlt. pose proof Hch as [Hrs Hd Hf Hr _ _ _]. pose proof (from_segment_live_run w base rs gen l ls s Hc Hch Hlt) as Hrun.
  set (t := last_leg l ls) in *. pose proof (route_file_ok _ _ _ _ _ _ Hr Hf) as Hall. rewrite Forall_forall in Hall.
  pose proof (Hall _ (last_leg_elem l ls)) as Hft. fold t in Hft.
  pose proof (channel_same w (ticked w) _ _ _ _ _ (ticked_dir w) (ticked_inodes w) Hch) as Hch'.
  pose proof (route_file_ok _ _ _ _ _ _ (cn_route _ _ _ _ _ _ Hch') (cn_first _ _ _ _ _ _ Hch')) as Hall'.
  rewrite Forall_forall in Hall'. pose proof (Hall' _ (last_leg_elem l ls)) as Hft'. fold t in Hft'.
  destruct (reader_from_stands base rs gen t (lg_entries t) [] (lg_end t) (lg_index t + users (lg_entries t)) (ticked w) Hrs
    (cn_base _ _ _ _ _ _ Hch') Hft') as (Hst & _);
    [by rewrite app_nil_r|apply (fk_leg _ _ _ _ _ Hft')|constructor|right; apply (end_past_header w base rs gen l ls Hch)|done|].
  exists (reader_from base (ticked w) rs t (lg_end t) (lg_index t + users (lg_entries t))).
  split_and!; try done; [| |apply (fk_generation _ _ _ _ _ Hft')].
  - unfold open_attempt. rewrite (reads_bind _ _ _ _ _ (reads_latest_published w base rs gen l ls s Hc Hch)). fold t.
    rewrite (reads_bind _ _ _ _ _ (reads_open_segment base rs gen t s w Hc Hd Hft)).
    unfold bind at 1, attempt. rewrite Hrun. done.
  - split; [exact Hst|]. constructor. cbn. unfold data_of, inode_of. rewrite ticked_inodes.
    apply (route_end_uncommitted _ _ _ _ _ _ Hr).
Qed.

(** ** Outside the channel *)

Lemma locate_outside w base rs gen l ls index eg s :
  calm w -> channel_at w base rs gen l ls -> eg = None \/ eg = Some gen ->
  ~ lg_index l <= index <= lg_index (tip l ls) ->
  reads (locate base index eg) s w
    (Err (if index <? lg_index l then IndexPruned_into_io index (lg_index l)
          else err_invalid_input "record is past the channel head")).
Proof.
  intros Hc Hch Heg Hout. pose proof Hch as [Hrs Hd Hf Hr Hlist Hcnt _].
  pose proof (route_file_ok _ _ _ _ _ _ Hr Hf) as Hall. rewrite Forall_forall in Hall.
  pose proof (Hall _ (last_leg_elem l ls)) as Hflast.
  pose proof (lk_index _ _ _ _ (fk_leg _ _ _ _ _ Hflast)) as [Hi0 Hi1].
  unfold locate. eapply reads_seq; [by apply reads_find_all|]. rewrite Hlist.
  eapply reads_seq; [by eapply reads_drop_unpublished|]. rewrite rev_involutive, last_sequence.
  cbn [map head].
  eapply reads_seq; [by eapply (reads_probe base rs gen l)|]. cbn [header_fields sh_generation sh_base_record_index].
  rewrite (fk_generation _ _ _ _ _ Hf), (fk_base _ _ _ _ _ Hf).
  replace (match eg with Some expected => negb (gen =? expected) | None => false end) with false
    by (destruct Heg as [->| ->]; [done|by rewrite Z.eqb_refl]).
  destruct (Z.ltb_spec index (lg_index l)) as [Hlt|Hge]; [apply reads_lift|].
  eapply reads_seq; [by eapply (reads_probe base rs gen (last_leg l ls))|].
  cbn [header_fields sh_message_count sh_base_record_index]. cbv zeta.
  rewrite (fk_base _ _ _ _ _ Hflast), Hcnt, wrap_small by (pose proof (users_nonneg (lg_entries (last_leg l ls))); lia).
  replace (index >? _) with true; [apply reads_lift|].
  symmetry. rewrite Z.gtb_ltb. apply Z.ltb_lt. cbn in Hout. lia.
Qed.

(** ** Opening in each mode *)

(** The index a mode asks for, of a channel that holds the records from [first] up to [next]. *)
Definition asked (mode : ReaderMode) (first next : Z) : option Z :=
  match mode with
  | LateJoin => Some first
  | Live => Some next
  | At k => if (first <=? k) && (k <=? next) then Some k else None
  end.

(** The reader opened on a channel, standing before the record with the index [p]. *)
Record opened_at (w : world) (base : string) (rs gen : Z) (l : Leg) (ls : list Leg) (p : Z) (r : Reader) (w' : world) : Prop := {
  oa_world : w' = w \/ w' = ticked w;
  oa_route : exists l' ls', on_route r w' l' ls' /\ along l ls l' ls' /\
    route_messages w' l' ls' = drop (Z.to_nat (p - lg_index l)) (route_messages w l ls);
  oa_position : r_position r = p;
  oa_generation : generation_cached r = gen;
  oa_region_size : region_size_cached r = rs;
  oa_base : r_base_path r = base;
  oa_helper : r_helper r = None
}.

Lemma route_messages_same w w' l ls : w_inodes w' = w_inodes w -> route_messages w' l ls = route_messages w l ls.
Proof. intros Ei. unfold route_messages. f_equal. apply map_ext. intros a. unfold leg_messages, data_of, inode_of. by rewrite Ei. Qed.

Lemma open_run w base rs gen l ls mode eg s :
  calm w -> channel_at w base rs gen l ls -> eg = None \/ eg = Some gen ->
  (mode = Live -> lg_sequence (last_leg l ls) < U64_MAX) ->
  match asked mode (lg_index l) (lg_index (tip l ls)) with
  | Some p => exists r w', open_with base mode eg s w = Outcome (Ok r) s w' [] /\ opened_at w base rs gen l ls p r w'
  | None => exists index, mode = At index /\ open_with base mode eg s w =
      Outcome (Err (if index <? lg_index l then IndexPruned_into_io index (lg_index l)
                    else err_invalid_input "record is past the channel head")) s w []
  end.
Proof.
  intros Hc Hch Heg Hlive. pose proof Hch as [Hrs Hd Hf Hr Hlist Hcnt _].
  pose proof (fk_generation _ _ _ _ _ Hf) as Hgen. destruct mode as [| |index]; cbn [asked].
  - destruct (open_late_join w base rs gen l ls eg s Hc Hch) as [Hrun Hon].
    exists (reader_from base w rs l 0 (lg_index l)), w. split; [by eapply open_with_run; [exact Hrun|exact Hgen|]|].
    constructor; try done; [by left|]. exists l, ls. split_and!; [done|apply along_refl|]. by rewrite Z.sub_diag, drop_0.
  - destruct (open_live w base rs gen l ls eg s Hc Hch (Hlive eq_refl)) as (r & Hrun & Hon & Hp & Hg & Hrs' & Hb & Hh).
    exists r, (ticked w). split; [by eapply open_with_run|]. constructor; try done; [by right|].
    exists (tip l ls), []. split_and!; [done|apply along_tip|].
    rewrite (route_messages_same w) by apply ticked_inodes. rewrite route_messages_nil. unfold leg_messages. cbn.
    symmetry. apply drop_ge. pose proof (route_index _ _ _ _ _ _ Hr) as Hx. cbn in Hx. lia.
  - destruct (Z.leb_spec (lg_index l) index) as [H1|H1]; [destruct (Z.leb_spec index (lg_index (tip l ls))) as [H2|H2]|]; cbn [andb].
    + destruct (open_at w base rs gen l ls index eg s Hc Hch (conj H1 H2) Heg) as (r & l' & ls' & Hrun & Hon & Hm & Hal & Hp & Hg & Hrs' & Hb & Hh).
      exists r, w. split; [by eapply open_with_run|]. constructor; try done; [by left|by exists l', ls'].
    + exists index. split; [done|]. apply open_with_err, (locate_outside w base rs gen l ls); [done..|lia].
    + exists index. split; [done|]. apply open_with_err, (locate_outside w base rs gen l ls); [done..|lia].
Qed.

End facts.
