(* ===== verification/SeekFacts.v ===== *)
(** * Building readers, seeking and asking for indices

    [ReaderBuilder_build], [seek], [rewind], [seek_to_head] and the two index queries, on a channel
    that a directory scan finds. *)

From Stdlib Require Import String.
From S2P Require Import Prelude Bytes Crc32c Effects Region Channel V4 V4Facts Names NamesFacts Segment Helper MapAhead Reader Chain RegionFacts SegmentFacts Prefault Writer WriterInv CommitFacts ReserveFacts PrepareFacts RollFacts RecoverFacts ReaderFacts Route RouteFacts OpenFacts LocateFacts.

#[local] Open Scope list_scope.
#[local] Open Scope Z_scope.

Section facts.
Context `{EnvOk}.
Implicit Types (w : world) (l : Leg) (ls : list Leg) (r : Reader).

(** What a refused index is answered with. *)
Definition refusal (index first : Z) : io_error :=
  if index <? first then IndexPruned_into_io index first else err_invalid_input "record is past the channel head".

(** What a mode asks for is in the channel. *)
Lemma asked_kept mode first next p : first <= next -> asked mode first next = Some p -> first <= p <= next.
Proof.
  intros Hle. destruct mode as [| |k]; cbn; [intros [= <-]; lia..|].
  destruct (Z.leb_spec first k), (Z.leb_spec k next); cbn; intros [= <-] || done; lia.
Qed.

(** A reader keeps its place when its options are set; without a helper there is no map ahead. *)
Lemma options_on_route h u b r w l ls : on_route r w l ls -> on_route (set_options None h u b r) w l ls.
Proof.
  intros [[[? ? ? ? ? ? ? ? ? ?] ? ? ? ? ? ?] Hr]. split; [|exact Hr]. constructor; try done.
Qed.

Lemma options_opened_at u b w base rs gen l ls p r w' :
  opened_at w base rs gen l ls p r w' -> opened_at w base rs gen l ls p (set_options None None u b r) w'.
Proof.
  intros [Hw (l' & ls' & Hon & Hal & Hm) Hp Hg Hrs Hb Hh]. constructor; try done.
  exists l', ls'. split_and!; [by apply options_on_route|done|done].
Qed.

Lemma start_map_ahead_none r w : r_helper r = None -> start_map_ahead r w = Outcome (Ok tt) r w [].
Proof. intros Hh. unfold start_map_ahead, bind, self. cbn. by rewrite Hh. Qed.

Lemma on_reader_map_ahead {S} r w (s : S) :
  r_helper r = None -> on_reader r start_map_ahead s w = Outcome (Ok (tt, r)) s w [].
Proof. intros Hh. unfold on_reader. by rewrite (start_map_ahead_none r w Hh). Qed.

(** The builder, without a helper. *)
Lemma reader_build_run {S} b w rs gen l ls (s : S) :
  calm w -> channel_at w (rb_path b) rs gen l ls -> rb_helper b = None ->
  rb_expected_generation b = None \/ rb_expected_generation b = Some gen ->
  (rb_mode b = Live -> lg_sequence (last_leg l ls) < U64_MAX) ->
  match asked (rb_mode b) (lg_index l) (lg_index (tip l ls)) with
  | Some p => exists r w', ReaderBuilder_build b s w = Outcome (Ok r) s w' [] /\
      opened_at w (rb_path b) rs gen l ls p r w' /\ batch_limit r = rb_batch_limit b
  | None => exists index, rb_mode b = At index /\
      ReaderBuilder_build b s w = Outcome (Err (refusal index (lg_index l))) s w []
  end.
Proof.
  intros Hc Hch Hh Heg Hlive.
  pose proof (open_run w (rb_path b) rs gen l ls (rb_mode b) (rb_expected_generation b) s Hc Hch Heg Hlive) as Ho.
  unfold ReaderBuilder_build. destruct (asked _ _ _) as [p|].
  - destruct Ho as (r & w' & Hrun & Hat). exists (set_options None None (rb_unmap b) (rb_batch_limit b) r), w'.
    split_and!; [|by apply options_opened_at|done].
    rewrite (bind_outcome _ _ _ _ _ _ _ Hrun), Hh. by rewrite (bind_outcome _ _ _ _ _ _ _ (on_reader_map_ahead (set_options None None (rb_unmap b) (rb_batch_limit b) r) w' s eq_refl)).
  - destruct Ho as (index & Hm & Hrun). exists index. split; [done|]. unfold bind at 1. by rewrite Hrun.
Qed.

(** Moving to the place a mode names: the reader is left as it was when the place is refused. *)
Lemma reopen_run mode r w rs l ls :
  calm w -> channel_at w (r_base_path r) rs (generation_cached r) l ls -> r_helper r = None ->
  (mode = Live -> lg_sequence (last_leg l ls) < U64_MAX) ->
  match asked mode (lg_index l) (lg_index (tip l ls)) with
  | Some p => exists r' w', reopen mode r w = Outcome (Ok tt) r' w' [] /\
      opened_at w (r_base_path r) rs (generation_cached r) l ls p r' w' /\ batch_limit r' = batch_limit r
  | None => exists index, mode = At index /\ reopen mode r w = Outcome (Err (refusal index (lg_index l))) r w []
  end.
Proof.
  intros Hc Hch Hh Hlive.
  pose proof (open_run w (r_base_path r) rs _ l ls mode (Some (generation_cached r)) r Hc Hch (or_intror eq_refl) Hlive) as Ho.
  unfold reopen, self. destruct (asked _ _ _) as [p|].
  - destruct Ho as (r' & w' & Hrun & Hat). exists (set_options None None (r_unmap r) (batch_limit r) r'), w'.
    split_and!; [|by apply options_opened_at|done].
    rewrite (bind_outcome _ _ _ _ r r w eq_refl). rewrite (bind_outcome _ _ _ _ _ _ _ Hrun), Hh.
    by rewrite (bind_outcome _ _ _ _ _ _ _ (on_reader_map_ahead (set_options None None (r_unmap r) (batch_limit r) r') w' r eq_refl)).
  - destruct Ho as (index & Hm & Hrun). exists index. split; [done|].
    rewrite (bind_outcome _ _ _ _ r r w eq_refl). unfold bind at 1. by rewrite Hrun.
Qed.

(** ** The index queries *)

Lemma reads_retrying {S A} n (m : M S (option A)) s w a :
  reads m s w (Ok (Some a)) -> reads (retrying (Datatypes.S n) m) s w (Ok (Some a)).
Proof. intros Hm. eapply reads_seq; [exact Hm|]. apply reads_ret. Qed.

Lemma tail_index_run r w rs l ls :
  calm w -> channel_at w (r_base_path r) rs (generation_cached r) l ls ->
  reads tail_record_index r w (Ok (lg_index l)).
Proof.
  intros Hc [Hrs Hd Hf Hr Hl Hcnt _]. unfold tail_record_index.
  apply (reads_seq _ _ _ _ (Some (lg_index l))); [|apply reads_ret]. apply reads_retrying.
  eapply reads_seq; [apply reads_self|].
  eapply reads_seq; [eapply reads_seq; [by apply reads_find_all|apply reads_lift]|].
  rewrite Hl. cbn [map]. rewrite (sorted_first _ _ _ _ _ _ Hr).
  eapply reads_seq; [by eapply reads_open_segment|]. eapply reads_seq; [by eapply reads_segment_header|].
  cbn [header_fields sh_generation sh_base_record_index].
  rewrite (fk_generation _ _ _ _ _ Hf), (fk_base _ _ _ _ _ Hf), Z.eqb_refl. apply reads_ret.
Qed.

Lemma head_index_run r w rs l ls :
  calm w -> channel_at w (r_base_path r) rs (generation_cached r) l ls ->
  reads head_record_index r w (Ok (lg_index (tip l ls))).
Proof.
  intros Hc Hch. pose proof Hch as [Hrs Hd Hf Hr Hl Hcnt _].
  pose proof (route_file_ok _ _ _ _ _ _ Hr Hf) as Hall. rewrite Forall_forall in Hall.
  pose proof (Hall _ (last_leg_elem l ls)) as Hft.
  eapply reads_seq; [apply reads_self|]. eapply reads_seq; [by eapply reads_latest_published|].
  eapply reads_seq; [by apply reads_channel_path|]. eapply reads_seq; [apply reads_open; [done|apply Hft]|].
  eapply reads_seq; [by eapply reads_segment_header|]. cbn [header_fields sh_message_count sh_base_record_index].
  rewrite (fk_base _ _ _ _ _ Hft), Hcnt.
  pose proof (lk_index _ _ _ _ (fk_leg _ _ _ _ _ Hft)). pose proof (users_nonneg (lg_entries (last_leg l ls))).
  rewrite (wrap_small 64) by lia. apply reads_ret.
Qed.

End facts.
