(* ===== verification/Carry.v ===== *)
(** * Readers while the writer appends

    A reader whose route ends where the writer appends stays on its route, and the route grows by
    exactly the records the writer adds, in this file or over a [Roll] in the next. *)

From S2P Require Import Prelude Bytes Crc32c Effects Region Channel V4 V4Facts Names NamesFacts Segment Helper MapAhead Reader Chain RegionFacts SegmentFacts Prefault Writer WriterInv CommitFacts ReserveFacts PrepareFacts RollFacts RecoverFacts ReaderFacts Route RouteFacts.

#[local] Open Scope Z_scope.

(** ** Replacing the end of a route *)

(** The route [l :: ls] with its last leg replaced by [t], and the legs [zs] after it. *)
Fixpoint graft (t : Leg) (zs : list Leg) (l : Leg) (ls : list Leg) : Leg * list Leg :=
  match ls with
  | [] => (t, zs)
  | l' :: ls => let '(a, b) := graft t zs l' ls in (l, a :: b)
  end.

(** The same stretch of the same segment, from the same record on. *)
Definition same_start (t t' : Leg) : Prop :=
  lg_file t' = lg_file t /\ lg_sequence t' = lg_sequence t /\ lg_instance t' = lg_instance t /\
  lg_index t' = lg_index t.

Lemma last_leg_in l ls : last_leg l ls ∈ l :: ls.
Proof. revert l. induction ls as [|b ls IH]; intros l; [left|]. right. apply IH. Qed.

Lemma graft_last t zs l ls : let '(l', ls') := graft t zs l ls in last_leg l' ls' = last_leg t zs.
Proof.
  revert l. induction ls as [|b ls IH]; intros l; cbn [graft]; [done|]. specialize (IH b).
  destruct (graft t zs b ls). exact IH.
Qed.

Lemma graft_same t zs l ls : same_start (last_leg l ls) t -> same_start l (graft t zs l ls).1.
Proof. destruct ls as [|b ls]; cbn [graft last_leg]; [done|]. by destruct (graft t zs b ls). Qed.

Lemma graft_files (P : Z -> Prop) t zs l ls :
  Forall (fun l => P (lg_file l)) (l :: ls) -> P (lg_file t) -> Forall (fun l => P (lg_file l)) zs ->
  let '(l', ls') := graft t zs l ls in Forall (fun l => P (lg_file l)) (l' :: ls').
Proof.
  intros Hall Ht Hz. revert l Hall. induction ls as [|b ls IH]; intros l Hall; cbn [graft]; [by constructor|].
  inversion Hall as [|? ? Hl Hls]; subst. specialize (IH b Hls). destruct (graft t zs b ls). by constructor.
Qed.

Section graft.
Context `{EnvOk}.
Implicit Types (l t : Leg) (ls zs : list Leg) (w : world).

Lemma resumable_base d d' : kept_head d d' ->
  get 8 d' OFF_base_record_index = get 8 d OFF_base_record_index /\
  get 8 d' OFF_channel_sequence = get 8 d OFF_channel_sequence /\
  get 8 d' OFF_generation = get 8 d OFF_generation.
Proof.
  intros (_ & H1 & H2). split_and!; symmetry; first [by apply (get_same_at _ _ _ _ _ _ H1)|by apply (get_same_at _ _ _ _ _ _ H2)].
Qed.

Lemma hop_kept w w' base rs gen a b b' :
  hop w base rs gen a b -> inode_of w' (lg_file a) = inode_of w (lg_file a) ->
  w_dir w' !! channel_file_name base (lg_sequence a + 1) = w_dir w !! channel_file_name base (lg_sequence a + 1) ->
  kept_head (data_of w (lg_file b)) (data_of w' (lg_file b)) -> same_start b b' -> leg_ok w' rs 0 b' ->
  hop w' base rs gen a b'.
Proof.
  intros (edge & i & Hh) Ha Hdir Hk (E1 & E2 & E3 & E4) Hl. exists edge, i. destruct (resumable_base _ _ Hk) as (K1 & K2 & K3).
  destruct Hh. constructor; rewrite ?E1, ?E2, ?E3, ?E4; unfold data_of in *; rewrite ?Ha, ?Hdir; try done.
  - by eapply resumable_kept.
  - by rewrite K1.
  - by rewrite K3.
Qed.

Lemma leg_kept w w' rs p l : inode_of w' (lg_file l) = inode_of w (lg_file l) -> leg_ok w rs p l -> leg_ok w' rs p l.
Proof. intros E []. constructor; unfold data_of, len_of in *; by rewrite ?E. Qed.

Lemma route_tip_file_ne w base rs gen p l b ls :
  route w base rs gen l (b :: ls) -> leg_ok w rs p l -> lg_file l <> lg_file (last_leg b ls).
Proof.
  intros Hr Hl E. pose proof (route_files _ _ _ _ _ _ _ Hr Hl) as Hnd. apply NoDup_cons in Hnd as [Hn _].
  apply Hn. rewrite E. apply (list_elem_of_fmap_2 lg_file (b :: ls) (last_leg b ls)), last_leg_in.
Qed.

Lemma route_sequence_lt w base rs gen l b ls :
  route w base rs gen l (b :: ls) -> lg_sequence l < lg_sequence (last_leg b ls).
Proof.
  revert l b. induction ls as [|c ls IH]; intros l b Hr; inversion Hr as [|? ? ? (edge & i & Hh) Hrest]; subst;
    destruct (hp_next _ _ _ _ _ _ _ _ Hh) as (E & _); cbn [last_leg]; [lia|].
  specialize (IH b c Hrest). cbn [last_leg] in IH. lia.
Qed.

(** What the writer may do to the end [t] of a route, and must leave alone. *)
Record carries (w w' : world) (base : string) (seq0 : Z) (t : Leg) : Prop := {
  cy_others : forall i, i < w_next w -> i <> lg_file t -> inode_of w' i = inode_of w i;
  cy_dir : forall k, seq0 < k <= lg_sequence t -> w_dir w' !! channel_file_name base k = w_dir w !! channel_file_name base k;
  cy_head : kept_head (data_of w (lg_file t)) (data_of w' (lg_file t))
}.

Lemma carries_hop w w' base rs gen p a b ls t :
  route w base rs gen a (b :: ls) -> leg_ok w rs p a -> t = last_leg b ls ->
  Forall (fun l => lg_file l < w_next w) (a :: b :: ls) -> carries w w' base (lg_sequence a) t ->
  inode_of w' (lg_file a) = inode_of w (lg_file a) /\
  w_dir w' !! channel_file_name base (lg_sequence a + 1) = w_dir w !! channel_file_name base (lg_sequence a + 1) /\
  kept_head (data_of w (lg_file b)) (data_of w' (lg_file b)) /\ leg_ok w rs 0 b /\
  carries w w' base (lg_sequence b) t.
Proof.
  intros Hr Hl -> Hall Hc. pose proof (route_tip_file_ne _ _ _ _ _ _ _ _ Hr Hl) as Hne.
  pose proof (route_sequence_lt _ _ _ _ _ _ _ Hr) as Hlt.
  inversion Hall as [|? ? Ha Hall']; subst. inversion Hall' as [|? ? Hb _]; subst.
  inversion Hr as [|? ? ? (edge & i & Hh) Hrest]; subst.
  destruct (hp_next _ _ _ _ _ _ _ _ Hh) as (E & _). pose proof (hp_leg _ _ _ _ _ _ _ _ Hh) as Hlb.
  split_and!; [by apply Hc|apply Hc; lia| |done|].
  - destruct (decide (lg_file b = lg_file (last_leg b ls))) as [->|Hn]; [apply Hc|].
    unfold data_of. rewrite (cy_others _ _ _ _ _ Hc _ Hb Hn). apply kept_head_refl.
  - destruct Hc as [C1 C2 C3]. constructor; try done. intros k Hk. apply C2. lia.
Qed.

Lemma graft_ok w w' base rs gen p l ls t zs :
  route w base rs gen l ls -> leg_ok w rs p l -> Forall (fun l => lg_file l < w_next w) (l :: ls) ->
  carries w w' base (lg_sequence l) (last_leg l ls) -> same_start (last_leg l ls) t ->
  (forall p', leg_ok w rs p' (last_leg l ls) -> leg_ok w' rs p' t) -> route w' base rs gen t zs ->
  let '(l', ls') := graft t zs l ls in
  same_start l l' /\ leg_ok w' rs p l' /\ route w' base rs gen l' ls'.
Proof.
  revert l p. induction ls as [|b ls IH]; intros l p Hr Hl Hall Hc Hs Ht Hz; cbn [graft last_leg] in *; [auto|].
  destruct (carries_hop _ _ _ _ _ _ _ _ _ _ Hr Hl eq_refl Hall Hc) as (H1 & H2 & H3 & H4 & H5).
  inversion Hr as [|? ? ? Hhop Hrest]; subst. inversion Hall as [|? ? _ Hall']; subst.
  specialize (IH b 0 Hrest H4 Hall' H5 Hs Ht Hz). destruct (graft t zs b ls) as [b' ls'].
  destruct IH as (I1 & I2 & I3). split_and!; [done|by eapply leg_kept|]. constructor; [|done]. by eapply hop_kept.
Qed.

Lemma graft_messages w w' base rs gen p l ls t zs new :
  route w base rs gen l ls -> leg_ok w rs p l -> Forall (fun l => lg_file l < w_next w) (l :: ls) ->
  carries w w' base (lg_sequence l) (last_leg l ls) ->
  route_messages w' t zs = leg_messages w (last_leg l ls) ++ new ->
  let '(l', ls') := graft t zs l ls in route_messages w' l' ls' = route_messages w l ls ++ new.
Proof.
  revert l p. induction ls as [|b ls IH]; intros l p Hr Hl Hall Hc Hm; cbn [graft last_leg] in *.
  - by rewrite route_messages_nil.
  - destruct (carries_hop _ _ _ _ _ _ _ _ _ _ Hr Hl eq_refl Hall Hc) as (H1 & _ & _ & H4 & H5).
    inversion Hr as [|? ? ? Hhop Hrest]; subst. inversion Hall as [|? ? _ Hall']; subst.
    specialize (IH b 0 Hrest H4 Hall' H5 Hm). destruct (graft t zs b ls) as [b' ls'].
    rewrite !route_messages_cons, IH, app_assoc. do 2 f_equal. unfold leg_messages, data_of. by rewrite H1.
Qed.

(** The reader follows. *)
Lemma stands_kept r w w' l l' :
  stands r w l -> same_start l l' -> leg_ok w' (region_size_cached r) (r_read_position r) l' ->
  w_dir w' !! r_base_path r <> Some DDir -> stands r w' l'.
Proof.
  intros [Hr E1 E2 E3 E4 _ _] (F1 & F2 & F3 & F4) Hl Hd. pose proof Hl as [].
  destruct Hr. constructor; rewrite ?F1, ?F2, ?F3, ?F4; try done. constructor; try done; by rewrite ?E1, <- ?F1.
Qed.

Lemma on_route_graft r w w' l ls t zs new :
  on_route r w l ls -> Forall (fun l => lg_file l < w_next w) (l :: ls) ->
  carries w w' (r_base_path r) (lg_sequence l) (last_leg l ls) -> same_start (last_leg l ls) t ->
  (forall p', leg_ok w (region_size_cached r) p' (last_leg l ls) -> leg_ok w' (region_size_cached r) p' t) ->
  route w' (r_base_path r) (region_size_cached r) (generation_cached r) t zs ->
  w_dir w' !! r_base_path r <> Some DDir ->
  route_messages w' t zs = leg_messages w (last_leg l ls) ++ new ->
  Forall (fun l => lg_file l < w_next w') (t :: zs) -> w_next w <= w_next w' ->
  exists l' ls', on_route r w' l' ls' /\ route_messages w' l' ls' = route_messages w l ls ++ new /\
    last_leg l' ls' = last_leg t zs /\ lg_sequence l' = lg_sequence l /\
    Forall (fun l => lg_file l < w_next w') (l' :: ls').
Proof.
  intros [Hs Hr] Hall Hc Hst Ht Hz Hd Hm Hft Hle. pose proof (st_leg _ _ _ Hs) as Hl.
  pose proof (graft_ok _ _ _ _ _ _ _ _ _ _ Hr Hl Hall Hc Hst Ht Hz) as Hg.
  pose proof (graft_messages _ _ _ _ _ _ _ _ _ _ _ Hr Hl Hall Hc Hm) as Hgm.
  assert (Hgf : let '(l', ls') := graft t zs l ls in Forall (fun l => lg_file l < w_next w') (l' :: ls')).
  { inversion Hft as [|? ? Hft1 Hft2]; subst. apply (graft_files (fun f => f < w_next w')); [|done|done].
    eapply Forall_impl; [exact Hall|]. cbn. intros; lia. }
  pose proof (graft_last t zs l ls) as Hlast. destruct (graft t zs l ls) as [l' ls'].
  destruct Hg as (G1 & G2 & G3). exists l', ls'. split_and!; [|done|done|apply G1|done].
  split; [|done]. by eapply stands_kept.
Qed.

(** ** A route that ends at the writer *)

(** The slot of the writer, as the end of a route. *)
Definition slot_of (w : Writer) (wd : world) (es : list Entry) : Leg :=
  MkLeg (w_file w) (w_file_sequence w) (w_instance w) (next_index w wd es) [] (w_next_hdr_pos w).

(** The reader's route ends at the slot of the writer, whose segment holds the records [es]. *)
Record reaches (r : Reader) (w : Writer) (wd : world) (es : list Entry) (l : Leg) (ls : list Leg) : Prop := {
  rc_route : on_route r wd l ls;
  rc_files : Forall (fun l => lg_file l < w_next wd) (l :: ls);
  rc_region_size : region_size_cached r = w_region_size w;
  rc_base : r_base_path r = w_base_path w;
  rc_generation : generation_cached r = get 8 (data_of wd (w_file w)) OFF_generation;
  rc_tip : tip l ls = slot_of w wd es
}.

Lemma tip_last l ls f sq id n q :
  tip l ls = MkLeg f sq id n [] q ->
  lg_file (last_leg l ls) = f /\ lg_sequence (last_leg l ls) = sq /\ lg_instance (last_leg l ls) = id /\
  lg_index (last_leg l ls) + users (lg_entries (last_leg l ls)) = n /\ lg_end (last_leg l ls) = q.
Proof. unfold tip, leg_rest. by intros [= <- <- <- <- <-]. Qed.

(** A chain survives changes to the advisory fields, even one that starts at the Channel record. *)
Lemma chain_kept rs d d' p es q :
  chain rs d p es q -> kept_head d d' ->
  p = 0 /\ message_header d 0 = channel_record \/ FIRST_RECORD <= p -> same FIRST_RECORD q d d' ->
  chain rs d' p es q /\ messages d' es = messages d es.
Proof.
  intros Hch [Hk _] Hp Hs. destruct Hp as [[-> Hh]|Hp].
  - assert (Hh' : message_header d' 0 = channel_record).
    { rewrite <- Hh. symmetry. by apply message_header_same. }
    inversion Hch as [|e es' ? He Hch' Hp0]; subst; [split; [constructor|done]|].
    assert (Ehead : en_head e = channel_record) by (rewrite <- (ea_head _ _ _ He), Hp0; done).
    assert (Hn : en_next e = FIRST_RECORD) by (unfold en_next; rewrite Ehead, Hp0; by vm_compute).
    rewrite Hn in Hch'. split.
    + constructor; [|rewrite Hn; by eapply chain_same].
      destruct He as [? _ ? ? ?]. constructor; try done. by rewrite Hp0, Ehead.
    + assert (Hu : is_user e = false) by (unfold is_user; by rewrite Ehead).
      unfold messages. cbn [List.filter]. rewrite Hu. symmetry. by eapply messages_same.
  - split; [eapply chain_same; [|done]|symmetry; eapply messages_same; [|done]];
      (eapply same_sub; [exact Hs|done|reflexivity]).
Qed.

(** What appending the records [xs] does to the writer's segment, up to the slot [q']. *)
Record appended (f rs q : Z) (wd wd' : world) (xs : list Entry) (q' : Z) : Prop := {
  ap_grows : grows f wd wd';
  ap_head : kept_head (data_of wd f) (data_of wd' f);
  ap_records : same FIRST_RECORD q (data_of wd f) (data_of wd' f);
  ap_chain : chain rs (data_of wd' f) q xs q';
  ap_end : get 1 (data_of wd' f) q' = NOT_COMMITTED;
  ap_len : len_of wd' f < 2 ^ 63;
  ap_in : in_file rs (len_of wd' f) q';
  ap_room : q' mod rs + HEADER_SLOT <= rs
}.

Lemma reaches_appended r (w : Writer) wd es l ls wd' xs q' :
  reaches r w wd es l ls -> appended (w_file w) (w_region_size w) (w_next_hdr_pos w) wd wd' xs q' ->
  next_index w wd es + users xs < 2 ^ 64 ->
  exists l' ls', on_route r wd' l' ls' /\
    route_messages wd' l' ls' = route_messages wd l ls ++ messages (data_of wd' (w_file w)) xs /\
    tip l' ls' = MkLeg (w_file w) (w_file_sequence w) (w_instance w) (next_index w wd es + users xs) [] q' /\
    Forall (fun l => lg_file l < w_next wd') (l' :: ls') /\ lg_sequence l' = lg_sequence l.
Proof.
  intros [Hr Hfiles Ers Eb Eg Htip] [Hg Hk Hs Hch Hend Hlen Hin Hroom] Hlt.
  destruct (tip_last _ _ _ _ _ _ _ Htip) as (T1 & T2 & T3 & T4 & T5). set (t := last_leg l ls) in *.
  set (t' := MkLeg (lg_file t) (lg_sequence t) (lg_instance t) (lg_index t) (lg_entries t ++ xs) q').
  pose proof (proj2 Hr) as Hrt. pose proof (users_app (lg_entries t) xs) as Hus. pose proof (users_nonneg xs).
  assert (Hlk : forall p', leg_ok wd (region_size_cached r) p' t ->
    leg_ok wd' (region_size_cached r) p' t' /\ leg_messages wd' t' = leg_messages wd t ++ messages (data_of wd' (w_file w)) xs).
  { intros p' [lk_len0 lk_in0 lk_room0 lk_start0 lk_chain0 lk_sequence0 lk_index0]. rewrite T1, T5, Ers in *.
    destruct (chain_kept _ _ _ _ _ _ lk_chain0 Hk lk_start0 Hs) as [Hc' Hm'].
    assert (Hc2 : chain (w_region_size w) (data_of wd' (w_file w)) p' (lg_entries t ++ xs) q') by (by eapply chain_app).
    split.
    - constructor; unfold t'; cbn [lg_file lg_end lg_entries lg_sequence lg_index]; rewrite ?T1; try done.
      + destruct lk_start0 as [[? Hh]|?]; [left; split; [done|]|by right].
        rewrite <- Hh. symmetry. by apply message_header_same, Hk.
      + destruct (resumable_base _ _ Hk) as (_ & -> & _). done.
      + rewrite Hus. lia.
    - unfold leg_messages, t'. cbn [lg_file lg_entries]. rewrite T1, messages_app, Hm'. done. }
  assert (Hcy : carries wd wd' (r_base_path r) (lg_sequence l) t).
  { constructor; [|intros; by rewrite (gr_dir _ _ _ Hg)|by rewrite T1]. intros i _. rewrite T1. apply Hg. }
  assert (Hlast : exists p', leg_ok wd (region_size_cached r) p' t).
  { unfold t. pose proof (route_legs _ _ _ _ _ _ Hrt) as Hls. destruct ls as [|b ls]; [eexists; apply (st_leg _ _ _ (proj1 Hr))|].
    exists 0. rewrite Forall_forall in Hls. apply (Hls t). unfold t. cbn [last_leg]. apply last_leg_in. }
  destruct Hlast as [p0 Hp0]. destruct (Hlk p0 Hp0) as [_ Hmsg].
  destruct (on_route_graft r wd wd' l ls t' [] (messages (data_of wd' (w_file w)) xs) Hr Hfiles Hcy)
    as (l' & ls' & Hr' & Hm' & Hlast' & Hseq' & Hf'); try done.
  - intros p' Hl. by apply Hlk.
  - apply route_end. unfold t'. cbn. by rewrite T1.
  - rewrite (gr_dir _ _ _ Hg). apply (st_base _ _ _ (proj1 Hr)).
  - rewrite route_messages_nil. exact Hmsg.
  - constructor; [|constructor]. rewrite (gr_next _ _ _ Hg). rewrite Forall_forall in Hfiles.
    apply (Hfiles t), last_leg_in.
  - by rewrite (gr_next _ _ _ Hg).
  - exists l', ls'. split_and!; try done.
    unfold tip. rewrite Hlast'. unfold leg_rest, t'. cbn. rewrite T1, T2, T3, Hus. f_equal. lia.
Qed.

Lemma reaches_last r (w : Writer) wd es l ls :
  reaches r w wd es l ls ->
  let t := last_leg l ls in
  lg_file t = w_file w /\ lg_sequence t = w_file_sequence w /\ lg_instance t = w_instance w /\
  lg_index t + users (lg_entries t) = next_index w wd es /\ lg_end t = w_next_hdr_pos w /\
  w_file w < w_next wd /\ exists p, leg_ok wd (region_size_cached r) p t.
Proof.
  intros Hr t. destruct (tip_last _ _ _ _ _ _ _ (rc_tip _ _ _ _ _ _ Hr)) as (T1 & T2 & T3 & T4 & T5).
  pose proof (rc_files _ _ _ _ _ _ Hr) as Hf. pose proof (rc_route _ _ _ _ _ _ Hr) as [Hs Hrt].
  split_and!; try done.
  - rewrite Forall_forall in Hf. rewrite <- T1. apply (Hf (last_leg l ls)), last_leg_in.
  - pose proof (route_legs _ _ _ _ _ _ Hrt) as Hls.
    destruct ls as [|b ls]; [eexists; apply (st_leg _ _ _ Hs)|].
    exists 0. rewrite Forall_forall in Hls. apply (Hls t). apply (last_leg_in b ls).
Qed.

Lemma reaches_index r (w : Writer) wd es l ls : reaches r w wd es l ls -> next_index w wd es < 2 ^ 64.
Proof.
  intros Hr. destruct (reaches_last _ _ _ _ _ _ Hr) as (_ & _ & _ & <- & _ & _ & p & Hp). apply Hp.
Qed.

Lemma appended_of (w w' : Writer) (wd wd' : world) es xs :
  writer_ok w wd es -> writer_ok w' wd' (es ++ xs) -> w_file w' = w_file w -> w_region_size w' = w_region_size w ->
  grows (w_file w) wd wd' -> kept_head (data_of wd (w_file w)) (data_of wd' (w_file w)) ->
  same FIRST_RECORD (w_next_hdr_pos w) (data_of wd (w_file w)) (data_of wd' (w_file w)) ->
  appended (w_file w) (w_region_size w) (w_next_hdr_pos w) wd wd' xs (w_next_hdr_pos w').
Proof.
  intros Hw Hw' Ef Er Hg Hk Hs. pose proof (wk_segment _ _ _ Hw') as Hs'. rewrite Ef, Er in Hs'.
  pose proof (wk_len _ _ _ Hw') as Hl. pose proof (wk_in_file _ _ _ Hw') as Hin. rewrite Ef in Hl, Hin. rewrite Er in Hin.
  pose proof (sg_room _ _ _ _ Hs') as Hroom. change ROLL_TOTAL with 56 in Hroom.
  constructor; try done.
  - destruct (chain_app_inv _ _ _ _ _ _ (sg_chain _ _ _ _ Hs')) as (m & Hc1 & Hc2).
    assert (Hm : m = w_next_hdr_pos w) by
      (eapply chain_end; [exact Hc1|by eapply chain_same; [|apply (wk_segment _ _ _ Hw)]]).
    by subst m.
  - apply Hs'.
  - unfold I64_MAX in Hl. lia.
  - change HEADER_SLOT with 16. lia.
Qed.

(** ** Over a roll *)

(** The record every segment begins with. *)
Definition channel_entry : Entry := MkEntry 0 channel_record.

(** A roll does not drop the segment [k]. *)
Definition retains (w : Writer) (k : Z) : Prop :=
  match w_keep_files w with Some n => w_file_sequence w + 1 - n <= k | None => True end.

Lemma channel_chain rs d : rs_ok rs -> message_header d 0 = channel_record ->
  chain rs d 0 [channel_entry] FIRST_RECORD.
Proof.
  intros Hrs Hd. pose proof (proj1 Hrs). replace FIRST_RECORD with (en_next channel_entry) by (by vm_compute).
  apply (chain_cons rs d channel_entry); [|constructor].
  constructor; cbn [channel_entry en_pos en_head]; [lia|done|done|by left|].
  rewrite Z.mod_0_l by lia. change (mh_length channel_record) with 192. change HEADER_SLOT with 16. lia.
Qed.

Lemma roll_carries r (w : Writer) wd es l ls wd' :
  reaches r w wd es l ls -> retains w (lg_sequence l) -> roll_frame w wd wd' ->
  carries wd wd' (r_base_path r) (lg_sequence l) (last_leg l ls).
Proof.
  intros Hr Hk [F1 F2 _ _ F5 _ _ _]. destruct (reaches_last _ _ _ _ _ _ Hr) as (T1 & T2 & _).
  constructor.
  - rewrite T1. apply F1.
  - intros k. rewrite T2, (rc_base _ _ _ _ _ _ Hr). intros Hk'.
    assert (0 <= lg_sequence l).
    { rewrite <- (lk_sequence _ _ _ _ (st_leg _ _ _ (proj1 (rc_route _ _ _ _ _ _ Hr)))). apply (get_range 8). }
    apply F5; [lia|]. unfold retains in Hk. destruct (w_keep_files w); lia || done.
  - by rewrite T1.
Qed.

(** The end of the route, as the roll leaves it. *)
Lemma roll_last r (w : Writer) wd es l ls wd' p :
  reaches r w wd es l ls -> roll_frame w wd wd' ->
  leg_ok wd (region_size_cached r) p (last_leg l ls) ->
  leg_ok wd' (region_size_cached r) p (last_leg l ls) /\
  leg_messages wd' (last_leg l ls) = leg_messages wd (last_leg l ls).
Proof.
  intros Hr [_ F2 F3 F4 _ _ _ _] [L1 L2 L3 L4 L5 L6 L7].
  destruct (reaches_last _ _ _ _ _ _ Hr) as (T1 & T2 & _ & _ & T5 & _).
  set (t := last_leg l ls) in *. rewrite T1, T5 in *.
  destruct (chain_kept _ _ _ _ _ _ L5 F2 L4 F3) as [Hc Hm]. destruct (resumable_base _ _ F2) as (_ & K2 & _).
  split; [|unfold leg_messages; by rewrite T1].
  constructor; rewrite ?T1, ?T5, ?F4, ?K2; try done.
  destruct L4 as [[? Hh]|?]; [left; split; [done|]|by right].
  rewrite <- Hh. symmetry. by apply message_header_same, F2.
Qed.

(** The hop a committed [Roll] makes. *)
Lemma roll_hop r (w : Writer) wd es l ls id rest len wd' :
  reaches r w wd es l ls -> writer_ok w wd es -> can_roll w wd id rest len ->
  roll_frame w wd wd' -> get 8 (data_of wd' (w_file w)) OFF_message_count = users es ->
  roll_at (data_of wd' (w_file w)) (w_next_hdr_pos w) (edge_of w wd id) ->
  leads_to w (generation_of w wd) (edge_of w wd id) wd' ->
  exists ino, let b := MkLeg ino (w_file_sequence w + 1) id (next_index w wd es) [channel_entry] FIRST_RECORD in
    w_dir wd' !! channel_file_name (w_base_path w) (w_file_sequence w + 1) = Some (DFile ino) /\
    hop wd' (r_base_path r) (region_size_cached r) (generation_cached r) (last_leg l ls) b /\
    get 1 (data_of wd' ino) FIRST_RECORD = NOT_COMMITTED /\ ino < w_next wd'.
Proof.
  intros Hr Hw Hcr Hf Hcnt Hroll (ino & i & Hdir & Hsb & Hnm & Hlen & Hino). exists ino. cbn zeta.
  destruct (reaches_last _ _ _ _ _ _ Hr) as (T1 & T2 & T3 & T4 & T5 & _ & p & Hp).
  pose proof (wk_segment _ _ _ Hw) as Hseg. pose proof (wk_rs _ _ _ Hw) as Hrs.
  pose proof (rc_region_size _ _ _ _ _ _ Hr) as Ers. pose proof (reaches_index _ _ _ _ _ _ Hr) as Hlt.
  assert (Hnx : next_base_record_index (edge_of w wd id) = next_index w wd es).
  { cbn. by rewrite (sg_count _ _ _ _ Hseg). }
  destruct (resumable_base _ _ (rf_head _ _ _ Hf)) as (K1 & _ & _).
  assert (Hi : instance i = id).
  { unfold RollEdge_names in Hnm. rewrite !andb_true_iff, !bool_decide_eq_true in Hnm.
    destruct Hnm as [[[Hn _] _] _]. by rewrite <- Hn. }
  split; [done|]. split; [|split; [apply (sg_slot _ _ _ _ (sb_segment _ _ _ _ _ _ Hsb))|done]].
  exists (edge_of w wd id), i. destruct Hsb as [S1 S2 S3 S4 S5 S6 S7 S8].
  constructor; cbn [lg_file lg_sequence lg_instance lg_index lg_entries lg_end];
    rewrite ?T1, ?T2, ?T3, ?T4, ?T5, ?Ers, ?(rc_base _ _ _ _ _ _ Hr), ?(rc_generation _ _ _ _ _ _ Hr); try done.
  - apply Hseg.
  - split; [by eapply edge_of_ok|apply Hcr].
  - rewrite Hnx, K1, Hcnt. done.
  - pose proof (proj1 Hrs). assert (Hz : FIRST_RECORD mod w_region_size w = FIRST_RECORD) by (apply Z.mod_small; change FIRST_RECORD with 208; lia).
    assert (Hd : FIRST_RECORD / w_region_size w = 0) by (apply Z.div_small; change FIRST_RECORD with 208; lia).
    constructor; cbn [lg_file lg_sequence lg_instance lg_index lg_entries lg_end].
    + unfold I64_MAX in Hlen. lia.
    + unfold in_file. rewrite Hd. lia.
    + rewrite Hz. change FIRST_RECORD with 208. change HEADER_SLOT with 16. lia.
    + left. split; [done|apply S1].
    + apply channel_chain; [done|apply S1].
    + done.
    + change (users [channel_entry]) with 0. unfold next_index in *. pose proof (users_nonneg es).
      pose proof (get_range 8 (data_of wd (w_file w)) OFF_base_record_index). lia.
Qed.

(** At every point of a roll: the route is the same, or goes on to the start of the new segment. *)
Lemma roll_reaches r (w : Writer) wd es l ls id rest len wd' :
  reaches r w wd es l ls -> retains w (lg_sequence l) -> writer_ok w wd es -> can_roll w wd id rest len ->
  roll_frame w wd wd' -> roll_safe w es (generation_of w wd) (edge_of w wd id) wd' ->
  exists l' ls', on_route r wd' l' ls' /\ route_messages wd' l' ls' = route_messages wd l ls /\
    lg_sequence l' = lg_sequence l /\ Forall (fun l => lg_file l < w_next wd') (l' :: ls') /\
    ((get 1 (data_of wd' (w_file w)) (w_next_hdr_pos w) = NOT_COMMITTED /\ tip l' ls' = tip l ls) \/
     exists ino, w_dir wd' !! channel_file_name (w_base_path w) (w_file_sequence w + 1) = Some (DFile ino) /\
       tip l' ls' = MkLeg ino (w_file_sequence w + 1) id (next_index w wd es) [] FIRST_RECORD).
Proof.
  intros Hr Hret Hw Hcr Hf (_ & Hcnt & Hsafe).
  pose proof (roll_carries _ _ _ _ _ _ _ Hr Hret Hf) as Hcy.
  destruct (reaches_last _ _ _ _ _ _ Hr) as (T1 & T2 & T3 & T4 & T5 & Hfile & p & Hp).
  pose proof (roll_last _ _ _ _ _ _ _ _ Hr Hf Hp) as [_ Hm].
  assert (Hstart : same_start (last_leg l ls) (last_leg l ls)) by done.
  assert (Hd : w_dir wd' !! r_base_path r <> Some DDir).
  { rewrite (rc_base _ _ _ _ _ _ Hr). apply (rf_base _ _ _ Hf). rewrite <- (rc_base _ _ _ _ _ _ Hr).
    apply (st_base _ _ _ (proj1 (rc_route _ _ _ _ _ _ Hr))). }
  pose proof (rf_next _ _ _ Hf) as Hle.
  pose proof (fun zs => on_route_graft r wd wd' l ls (last_leg l ls) zs [] (rc_route _ _ _ _ _ _ Hr) (rc_files _ _ _ _ _ _ Hr)
    Hcy Hstart (fun p' Hp' => proj1 (roll_last _ _ _ _ _ _ _ p' Hr Hf Hp'))) as Hgraft.
  destruct Hsafe as [[Hc _]|(Hroll & Hlead & _)].
  - destruct (Hgraft []) as (l' & ls' & G1 & G2 & G3 & G4 & G5).
    + apply route_end. by rewrite T1, T5.
    + done.
    + rewrite route_messages_nil, Hm. by rewrite app_nil_r.
    + constructor; [rewrite T1; lia|constructor].
    + done.
    + exists l', ls'. rewrite app_nil_r in G2. split_and!; [done..|]. left. split; [done|]. unfold tip. by rewrite G3.
  - destruct (roll_hop _ _ _ _ _ _ _ _ _ _ Hr Hw Hcr Hf Hcnt Hroll Hlead) as (ino & Hdir & Hhop & Hend & Hino).
    set (b := MkLeg ino (w_file_sequence w + 1) id (next_index w wd es) [channel_entry] FIRST_RECORD) in *.
    destruct (Hgraft [b]) as (l' & ls' & G1 & G2 & G3 & G4 & G5).
    + apply route_hop; [done|]. by apply route_end.
    + done.
    + rewrite route_messages_cons, route_messages_nil, Hm. done.
    + constructor; [rewrite T1; lia|]. constructor; [|constructor]. done.
    + done.
    + exists l', ls'. rewrite app_nil_r in G2. split_and!; [done..|]. right. exists ino. split; [done|].
      unfold tip. rewrite G3. unfold leg_rest, b. cbn. change (users [channel_entry]) with 0. f_equal. lia.
Qed.

End graft.
