(* ===== verification/Carried.v ===== *)
(** * The channel while the writer runs

    What an operation of the writer does to readers at its channel, and to the channel as new readers
    find it: every route to the writer's slot still ends there, longer by what was sent, and the
    segments listed are the ones kept and the one the writer rolled to. *)

From Stdlib Require Import Sorted.
From stdpp Require Import sorting.
From S2P Require Import Prelude Bytes Crc32c Effects Region Channel V4 V4Facts Names NamesFacts Segment Helper MapAhead Reader Chain RegionFacts SegmentFacts Prefault Writer WriterInv CommitFacts ReserveFacts PrepareFacts RollFacts RecoverFacts ReaderFacts Route RouteFacts OpenFacts LocateFacts Carry.

#[local] Open Scope Z_scope.

(** ** Listings *)

Section listings.

Lemma listed_in_insert dir base k x :
  0 <= k <= U64_MAX -> dir !! channel_file_name base k = None ->
  listed_in (<[channel_file_name base k := x]> dir) base ≡ₚ k :: listed_in dir base.
Proof.
  intros Hk Hn. unfold listed_in. rewrite !sort_sequences_perm, (map_to_list_insert _ _ _ Hn). cbn [map].
  cbn [omap list_omap fst]. by rewrite sequence_of_channel_file_name.
Qed.

Lemma listed_in_delete dir base k x :
  0 <= k <= U64_MAX -> dir !! channel_file_name base k = Some x ->
  k :: listed_in (delete (channel_file_name base k) dir) base ≡ₚ listed_in dir base.
Proof.
  intros Hk Hx. unfold listed_in. rewrite !sort_sequences_perm, <- (map_to_list_delete _ _ _ Hx). cbn [map].
  cbn [omap list_omap fst]. by rewrite sequence_of_channel_file_name.
Qed.

Lemma listed_in_sorted dir base l : Sorted Z.le l -> listed_in dir base ≡ₚ l -> listed_in dir base = l.
Proof. intros Hl Hp. apply (Sorted_unique Z.le); [apply sort_sequences_sorted|done|done]. Qed.

End listings.

Section sequences.
Context `{EnvOk}.
Implicit Types (wd : world).

(** A route's sequences follow from its ends. *)
Lemma route_seqs wd base rs gen l ls :
  route wd base rs gen l ls ->
  map lg_sequence (l :: ls) = seqZ (lg_sequence l) (lg_sequence (last_leg l ls) - lg_sequence l + 1).
Proof.
  intros Hr. rewrite (route_sequences _ _ _ _ _ _ Hr), (sequence_at _ _ _ _ _ _ _ _ Hr (last_leg_at l ls)).
  unfold seqZ. replace (Z.to_nat (lg_sequence l + Z.of_nat (length ls) - lg_sequence l + 1)) with (S (length ls)) by lia.
  apply map_ext. intros. lia.
Qed.

Lemma seqZ_sorted k n : Sorted Z.le (seqZ k n).
Proof.
  apply StronglySorted_Sorted. unfold seqZ. generalize 0%nat at 1. induction (Z.to_nat n) as [|m IH]; intros j; [constructor|].
  cbn. constructor; [apply IH|]. apply Forall_forall. intros x. rewrite list_elem_of_fmap. intros (i & -> & Hi%elem_of_seq). lia.
Qed.

Lemma seqZ_snoc k n : 0 <= n -> seqZ k (n + 1) ≡ₚ (k + n) :: seqZ k n.
Proof. intros Hn. rewrite seqZ_app by lia. rewrite Permutation_app_comm. rewrite seqZ_cons by lia. cbn. by rewrite (seqZ_nil _ (Z.pred 1)). Qed.

Lemma seqZ_uncons k n : 0 < n -> seqZ k n = k :: seqZ (k + 1) (n - 1).
Proof. intros Hn. rewrite seqZ_cons by done. f_equal; f_equal; lia. Qed.

End sequences.

(** ** The channel of a writer *)

(** The channel the names list, from the segment of [l] on, ends at the slot of the writer; the
    next roll drops at most its first segment. *)
Record holds `{Env} (w : Writer) (wd : world) (es : list Entry) (l : Leg) (ls : list Leg) : Prop := {
  hl_channel : channel_at wd (w_base_path w) (w_region_size w) (get 8 (data_of wd (w_file w)) OFF_generation) l ls;
  hl_files : Forall (fun l => lg_file l < w_next wd) (l :: ls);
  hl_tip : tip l ls = slot_of w wd es;
  hl_keep : retains w (lg_sequence l)
}.

Section channel.
Context `{EnvOk}.
Implicit Types (w : Writer) (wd : world) (es : list Entry).

(** The reader that starts at a segment of the channel. *)
Definition reader_at_leg w wd (l : Leg) : Reader :=
  reader_from (w_base_path w) wd (w_region_size w) l 0 (lg_index l).

Lemma leg_reaches w wd es l ls :
  rs_ok (w_region_size w) -> w_dir wd !! w_base_path w <> Some DDir ->
  file_ok wd (w_base_path w) (w_region_size w) (get 8 (data_of wd (w_file w)) OFF_generation) l ->
  route wd (w_base_path w) (w_region_size w) (get 8 (data_of wd (w_file w)) OFF_generation) l ls ->
  Forall (fun l => lg_file l < w_next wd) (l :: ls) -> tip l ls = slot_of w wd es ->
  reaches (reader_at_leg w wd l) w wd es l ls.
Proof.
  intros Hrs Hd Hf Hr Hfiles Ht. pose proof (fk_generation _ _ _ _ _ Hf) as Hg.
  destruct (reader_from_stands (w_base_path w) _ _ l [] (lg_entries l) 0 (lg_index l) wd Hrs Hd Hf) as (Hst & _);
    [done|constructor|apply (fk_leg _ _ _ _ _ Hf)|by left|change (users []) with 0; lia|].
  constructor; try done. split; [by destruct l|].
  change (generation_cached (reader_at_leg w wd l)) with (get 8 (data_of wd (lg_file l)) OFF_generation). by rewrite Hg.
Qed.

(** The same segment, after the writer went on. *)
Lemma file_ok_kept wd wd' base rs gen l l' :
  file_ok wd base rs gen l -> stands (reader_from base wd rs l 0 (lg_index l)) wd' l' ->
  kept_head (data_of wd (lg_file l)) (data_of wd' (lg_file l)) ->
  w_dir wd' !! channel_file_name base (lg_sequence l) = Some (DFile (lg_file l)) ->
  file_ok wd' base rs gen l'.
Proof.
  intros [_ (i & Hres & Hi) Hb Hg _] [_ S1 S2 S3 S4 Hl _] Hk Hd. cbn in S1, S2, S3, S4.
  destruct (resumable_base _ _ Hk) as (K1 & _ & K3).
  constructor; rewrite <- ?S1, <- ?S2, <- ?S3, <- ?S4; [done| |by rewrite K1|by rewrite K3|exact Hl].
  exists i. split; [|done]. by eapply resumable_kept.
Qed.

(** From a reader at the first segment to the channel. *)
Lemma holds_reaches w wd w' wd' es' l l' ls' :
  let gen := get 8 (data_of wd (w_file w)) OFF_generation in
  file_ok wd (w_base_path w) (w_region_size w) gen l ->
  reaches (reader_at_leg w wd l) w' wd' es' l' ls' -> writer_ok w' wd' es' ->
  w_base_path w' = w_base_path w -> w_region_size w' = w_region_size w ->
  kept_head (data_of wd (lg_file l)) (data_of wd' (lg_file l)) ->
  w_dir wd' !! channel_file_name (w_base_path w) (lg_sequence l) = Some (DFile (lg_file l)) ->
  listed wd' (w_base_path w) ≡ₚ map lg_sequence (l' :: ls') -> retains w' (lg_sequence l) ->
  holds w' wd' es' l' ls'.
Proof.
  intros gen Hf Hr Hw' Eb Er Hk Hd Hlist Hret. pose proof (rc_route _ _ _ _ _ _ Hr) as [Hst Hrt].
  pose proof (file_ok_kept _ _ _ _ _ _ _ Hf Hst Hk Hd) as Hf'. pose proof (rc_generation _ _ _ _ _ _ Hr) as Eg.
  pose proof (fk_generation _ _ _ _ _ Hf) as Hg. change (generation_cached (reader_at_leg w wd l)) with (get 8 (data_of wd (lg_file l)) OFF_generation) in Eg, Hrt.
  rewrite Hg in Eg, Hrt. fold gen in Eg. change (r_base_path (reader_at_leg w wd l)) with (w_base_path w) in Hrt.
  change (region_size_cached (reader_at_leg w wd l)) with (w_region_size w) in Hrt.
  destruct (reaches_last _ _ _ _ _ _ Hr) as (T1 & T2 & _ & T4 & T5 & _).
  pose proof (route_file_ok _ _ _ _ _ _ Hrt Hf') as Hall. rewrite Forall_forall in Hall.
  pose proof (fk_base _ _ _ _ _ (Hall _ (last_leg_elem l' ls'))) as Hbase. rewrite T1 in Hbase.
  pose proof (wk_segment _ _ _ Hw') as Hseg.
  constructor; [|apply Hr|apply Hr|].
  - rewrite Eb, Er, <- Eg. constructor; try done.
    + rewrite <- Er. apply Hw'.
    + apply (st_base _ _ _ Hst).
    + apply listed_in_sorted; [|done]. rewrite (route_seqs _ _ _ _ _ _ Hrt). apply seqZ_sorted.
    + rewrite T1, (sg_count _ _ _ _ Hseg). unfold next_index in T4. lia.
    + rewrite T1, (sg_position _ _ _ _ Hseg), T5. done.
  - rewrite <- (st_sequence _ _ _ Hst). exact Hret.
Qed.

(** ** What an operation carries along *)

(** Every reader whose route ends at the writer, in the first world, still has its route end at the
    writer in the second, with the messages [new] added.  [P] says of the file the reader stands in
    that it is not dropped on the way. *)
Definition readers_carried (P : Z -> Prop) w wd es w' wd' es' (new : list Message) : Prop :=
  forall r l ls, reaches r w wd es l ls -> P (lg_sequence l) ->
    exists l' ls', reaches r w' wd' es' l' ls' /\
      route_messages wd' l' ls' = route_messages wd l ls ++ new /\ lg_sequence l' = lg_sequence l.

(** The channel that new readers find ends at the writer in both worlds; [new] was added to its end,
    and what retention drops, dropped from its start. *)
Definition channel_carried w wd es w' wd' es' (new : list Message) : Prop :=
  forall l ls, holds w wd es l ls ->
    exists l' ls' k, holds w' wd' es' l' ls' /\
      route_messages wd' l' ls' = drop k (route_messages wd l ls ++ new) /\
      (k <= length (route_messages wd l ls ++ new))%nat /\ lg_index l' = lg_index l + Z.of_nat k.

Definition carried (P : Z -> Prop) w wd es w' wd' es' (new : list Message) : Prop :=
  readers_carried P w wd es w' wd' es' new /\ channel_carried w wd es w' wd' es' new.

Lemma carried_trans P w1 w2 w3 wd1 es1 wd2 es2 wd3 es3 new1 new2 :
  carried P w1 wd1 es1 w2 wd2 es2 new1 -> carried P w2 wd2 es2 w3 wd3 es3 new2 ->
  carried P w1 wd1 es1 w3 wd3 es3 (new1 ++ new2).
Proof.
  intros [R1 C1] [R2 C2]. split.
  - intros r l ls Hr HP. destruct (R1 r l ls Hr HP) as (l2 & ls2 & Hr2 & Hm2 & Hs2).
    destruct (R2 r l2 ls2 Hr2) as (l3 & ls3 & Hr3 & Hm3 & Hs3); [by rewrite Hs2|].
    exists l3, ls3. split_and!; [done|by rewrite Hm3, Hm2, app_assoc|congruence].
  - intros l ls Hh. destruct (C1 l ls Hh) as (l2 & ls2 & k1 & Hh2 & Hm2 & Hk1 & Hi2).
    destruct (C2 l2 ls2 Hh2) as (l3 & ls3 & k2 & Hh3 & Hm3 & Hk2 & Hi3).
    exists l3, ls3, (k1 + k2)%nat. split_and!; [done| | |lia].
    + rewrite Hm3, Hm2, app_assoc, <- drop_drop. f_equal. symmetry. by apply drop_app_le.
    + rewrite Hm2, length_app, length_drop in Hk2. rewrite app_assoc, length_app. lia.
Qed.

Lemma carried_weaken (P P' : Z -> Prop) w w' wd es wd' es' new :
  carried P w wd es w' wd' es' new -> (forall k, P' k -> P k) -> carried P' w wd es w' wd' es' new.
Proof. intros [R C] HP. split; [|done]. intros r l ls Hr HP'. by apply (R r l ls Hr), HP. Qed.

(** ** Appending *)

Lemma append_readers w w' wd wd' es xs :
  writer_ok w wd es -> writer_ok w' wd' (es ++ xs) -> same_channel w w' ->
  grows (w_file w) wd wd' -> kept_head (data_of wd (w_file w)) (data_of wd' (w_file w)) ->
  same FIRST_RECORD (w_next_hdr_pos w) (data_of wd (w_file w)) (data_of wd' (w_file w)) ->
  users xs = 0 \/ next_index w wd es + users xs < 2 ^ 64 ->
  readers_carried (fun _ => True) w wd es w' wd' (es ++ xs) (messages (data_of wd' (w_file w)) xs).
Proof.
  intros Hw Hw' [E1 E2 E3 E4 E5 _ _ _ _ _] Hg Hk Hs Hlt r l ls Hr _.
  pose proof (reaches_index _ _ _ _ _ _ Hr) as Hix.
  destruct (reaches_appended r w wd es l ls wd' xs (w_next_hdr_pos w')) as (l' & ls' & R1 & R2 & R3 & R4 & R5);
    [done|by eapply appended_of|lia|].
  exists l', ls'. split_and!; [|done|done]. destruct Hr. destruct (resumable_base _ _ Hk) as (K1 & _ & K3).
  constructor; try congruence. rewrite R3. unfold slot_of. rewrite E4, E2, E3. f_equal.
  unfold next_index. rewrite E4, K1, users_app. lia.
Qed.

Lemma carried_append w w' wd wd' es xs :
  writer_ok w wd es -> writer_ok w' wd' (es ++ xs) -> same_channel w w' ->
  grows (w_file w) wd wd' -> kept_head (data_of wd (w_file w)) (data_of wd' (w_file w)) ->
  same FIRST_RECORD (w_next_hdr_pos w) (data_of wd (w_file w)) (data_of wd' (w_file w)) ->
  users xs = 0 \/ next_index w wd es + users xs < 2 ^ 64 ->
  carried (fun _ => True) w wd es w' wd' (es ++ xs) (messages (data_of wd' (w_file w)) xs).
Proof.
  intros Hw Hw' Hsc Hg Hk Hs Hlt. pose proof (append_readers w w' wd wd' es xs Hw Hw' Hsc Hg Hk Hs Hlt) as Hrd.
  split; [exact Hrd|]. intros l ls [Hch Hfiles Htip Hkeep]. pose proof Hch as [Hrs Hd Hf Hr Hlist _ _].
  pose proof (leg_reaches _ _ _ _ _ Hrs Hd Hf Hr Hfiles Htip) as Hre.
  destruct (Hrd _ _ _ Hre I) as (l' & ls' & Hre' & Hm & Hsq).
  exists l', ls', 0%nat. rewrite drop_0. split_and!; [|done|lia|].
  - apply (holds_reaches w wd w' wd' (es ++ xs) l l' ls'); [done|done|done|apply Hsc|apply Hsc| | | |].
    + destruct (decide (lg_file l = w_file w)) as [->|Hne]; [done|].
      unfold data_of. rewrite (gr_others _ _ _ Hg) by done. apply kept_head_refl.
    + rewrite (gr_dir _ _ _ Hg). apply Hf.
    + unfold listed. rewrite (gr_dir _ _ _ Hg). fold (listed wd (w_base_path w)). rewrite Hlist.
      pose proof (rc_route _ _ _ _ _ _ Hre') as [_ Hrt'].
      rewrite (route_seqs _ _ _ _ _ _ Hrt'), (route_seqs _ _ _ _ _ _ Hr), Hsq.
      destruct (reaches_last _ _ _ _ _ _ Hre') as (_ & -> & _). destruct (reaches_last _ _ _ _ _ _ Hre) as (_ & -> & _).
      by rewrite (sc_sequence _ _ Hsc).
    + unfold retains in *. by rewrite (sc_keep_files _ _ Hsc), (sc_sequence _ _ Hsc).
  - pose proof (st_index _ _ _ (proj1 (rc_route _ _ _ _ _ _ Hre'))) as Hx. cbn in Hx. lia.
Qed.

(** ** Rolling *)

Lemma rolled_readers w w' wd wd' es id rest len :
  writer_ok w wd es -> can_roll w wd id rest len -> keep_ok w -> rolled_ok w wd es id len w' wd' ->
  readers_carried (retains w) w wd es w' wd' [] [].
Proof.
  intros Hw Hcr Hk Hro r l ls Hr Hret. pose proof (cr_sequence _ _ _ _ _ Hcr) as Hsq.
  destruct (roll_reaches r w wd es l ls id rest len wd' Hr Hret Hw Hcr) as (l' & ls' & R1 & R2 & R3 & R4 & R5);
    [apply Hro|apply Hro|].
  exists l', ls'. rewrite app_nil_r. split_and!; [|done|done].
  destruct Hro as [-> _ (i & Hsb & Hi & _) _ Hroll _ _ Hdir _ _ _].
  destruct R5 as [[Hc _]|(ino & Hd & Htip)].
  { rewrite get_committed, (proj1 Hroll) in Hc. done. }
  assert (Hino : ino = w_next wd).
  { rewrite Hdir, pruned_lookup, lookup_insert_eq in Hd by (done || lia). congruence. }
  subst ino. destruct Hr.
  assert (Hnx : next_index (rolled_writer w id (w_next wd) len) wd' [] = next_index w wd es).
  { unfold next_index. cbn. change (users []) with 0. rewrite (sb_base _ _ _ _ _ _ Hsb). cbn.
    rewrite (sg_count _ _ _ _ (wk_segment _ _ _ Hw)). lia. }
  constructor; try done.
  - cbn. by rewrite (sb_generation _ _ _ _ _ _ Hsb).
  - rewrite Htip. unfold slot_of. by rewrite Hnx.
Qed.

(** The channel from a segment on that the roll keeps. *)
Lemma rolled_from w w' wd wd' es id rest len l ls :
  writer_ok w wd es -> can_roll w wd id rest len -> keep_ok w -> rolled_ok w wd es id len w' wd' ->
  let gen := get 8 (data_of wd (w_file w)) OFF_generation in
  file_ok wd (w_base_path w) (w_region_size w) gen l -> route wd (w_base_path w) (w_region_size w) gen l ls ->
  w_dir wd !! w_base_path w <> Some DDir ->
  Forall (fun l => lg_file l < w_next wd) (l :: ls) -> tip l ls = slot_of w wd es -> retains w (lg_sequence l) ->
  w_dir wd' !! channel_file_name (w_base_path w) (lg_sequence l) = Some (DFile (lg_file l)) ->
  listed wd' (w_base_path w) ≡ₚ seqZ (lg_sequence l) (w_file_sequence w + 1 - lg_sequence l + 1) ->
  retains w' (lg_sequence l) ->
  exists l' ls', holds w' wd' [] l' ls' /\ route_messages wd' l' ls' = route_messages wd l ls /\ lg_index l' = lg_index l.
Proof.
  intros Hw Hcr Hk Hro gen Hf Hr Hd Hfiles Htip Hret Hname Hlist Hret'.
  pose proof (leg_reaches _ _ _ _ _ (wk_rs _ _ _ Hw) Hd Hf Hr Hfiles Htip) as Hre.
  destruct (rolled_readers _ _ _ _ _ _ _ _ Hw Hcr Hk Hro _ _ _ Hre Hret) as (l' & ls' & Hre' & Hm & Hsq).
  pose proof (ro_writer _ _ _ _ _ _ _ Hro) as Ew.
  exists l', ls'. rewrite app_nil_r in Hm. split_and!; [|done|].
  - apply (holds_reaches w wd w' wd' [] l l' ls'); [done|done|apply Hro|by rewrite Ew|by rewrite Ew| |done| |done].
    + destruct (decide (lg_file l = w_file w)) as [->|Hne]; [apply (ro_frame _ _ _ _ _ _ _ Hro)|].
      inversion Hfiles; subst. unfold data_of. rewrite (rf_others _ _ _ (ro_frame _ _ _ _ _ _ _ Hro)) by done. apply kept_head_refl.
    + pose proof (rc_route _ _ _ _ _ _ Hre') as [_ Hrt']. destruct (reaches_last _ _ _ _ _ _ Hre') as (_ & Hs & _).
      rewrite Ew in Hs. change (w_file_sequence _) with (w_file_sequence w + 1) in Hs.
      by rewrite (route_seqs _ _ _ _ _ _ Hrt'), Hs, Hsq.
  - pose proof (st_index _ _ _ (proj1 (rc_route _ _ _ _ _ _ Hre'))) as Hx. cbn in Hx. lia.
Qed.

(** The new segment alone, where retention drops all others. *)
Lemma rolled_alone w w' wd wd' es id rest len l ls :
  writer_ok w wd es -> can_roll w wd id rest len -> keep_ok w -> rolled_ok w wd es id len w' wd' ->
  holds w wd es l ls -> listed wd' (w_base_path w) = [w_file_sequence w + 1] -> retains w' (w_file_sequence w + 1) ->
  exists l', holds w' wd' [] l' [] /\ route_messages wd' l' [] = [] /\ lg_index l' = next_index w wd es.
Proof.
  intros Hw Hcr Hk Hro [[Hrs Hd Hf Hr Hlist _ _] Hfiles Htip Hkeep] Hl' Hret'.
  pose proof (leg_reaches _ _ _ _ _ Hrs Hd Hf Hr Hfiles Htip) as Hre. pose proof (cr_sequence _ _ _ _ _ Hcr) as Hsq.
  pose proof (ro_frame _ _ _ _ _ _ _ Hro) as Hfr. pose proof (ro_writer _ _ _ _ _ _ _ Hro) as Ew.
  destruct (ro_safe _ _ _ _ _ _ _ Hro) as (_ & Hcnt & Hsafe). pose proof (ro_roll _ _ _ _ _ _ _ Hro) as Hroll.
  destruct Hsafe as [[Hc _]|(_ & Hlead & _)]; [by rewrite get_committed, (proj1 Hroll) in Hc|].
  destruct (roll_hop _ _ _ _ _ _ _ _ _ _ Hre Hw Hcr Hfr Hcnt Hroll Hlead) as (ino & Hdir & (edge & i & Hh) & Hend & Hino).
  set (b := MkLeg ino (w_file_sequence w + 1) id (next_index w wd es) [channel_entry] FIRST_RECORD) in *.
  assert (ino = w_next wd) as Eino.
  { rewrite (ro_dir _ _ _ _ _ _ _ Hro), pruned_lookup, lookup_insert_eq in Hdir by (done || lia). congruence. }
  destruct (reaches_last _ _ _ _ _ _ Hre) as (T1 & T2 & _).
  destruct Hh as [_ _ _ _ _ _ _ Hhdr Hbase Hgen (E & Eb & Ex) Hleg]. rewrite T2 in Hhdr.
  change (generation_cached (reader_at_leg w wd l)) with (get 8 (data_of wd (lg_file l)) OFF_generation) in Hgen.
  change (region_size_cached (reader_at_leg w wd l)) with (w_region_size w) in Hhdr, Hleg.
  destruct (ro_new _ _ _ _ _ _ _ Hro) as (i' & Hsb & _). rewrite <- Eino in Hsb.
  pose proof (wk_segment _ _ _ (ro_ok _ _ _ _ _ _ _ Hro)) as Hseg'. rewrite Ew in Hseg'. cbn in Hseg'. rewrite <- Eino in Hseg'.
  exists b. split_and!; [|by rewrite route_messages_nil|done].
  constructor.
  - rewrite Ew. cbn [rolled_writer set_held switch_file w_base_path w_region_size w_file]. rewrite <- Eino. constructor.
    + apply Hw.
    + by apply (rf_base _ _ _ Hfr).
    + constructor; [exact Hdir|by exists i|by rewrite Hbase, <- Ex|done|exact Hleg].
    + by constructor.
    + exact Hl'.
    + apply Hseg'.
    + apply Hseg'.
  - constructor; [done|constructor].
  - rewrite Ew. unfold tip, slot_of, leg_rest, b. cbn. rewrite Eino. f_equal.
    unfold next_index. cbn. rewrite <- Eino, (sb_base _ _ _ _ _ _ Hsb). cbn. rewrite (sg_count _ _ _ _ (wk_segment _ _ _ Hw)).
    change (users [channel_entry]) with 0. change (users []) with 0. lia.
  - rewrite Ew in Hret' |- *. exact Hret'.
Qed.

(** The directory after the roll: the new name, and, where retention has a segment to drop, the
    first name gone. *)
Lemma rolled_listing w w' wd wd' es id rest len l ls :
  writer_ok w wd es -> can_roll w wd id rest len -> keep_ok w -> rolled_ok w wd es id len w' wd' ->
  holds w wd es l ls ->
  let base := w_base_path w in
  let seq := w_file_sequence w in
  let dir' := <[channel_file_name base (seq + 1) := DFile (w_next wd)]> (w_dir wd) in
  listed_in dir' base ≡ₚ seqZ (lg_sequence l) (seq + 1 - lg_sequence l + 1) /\
  ((retains w' (lg_sequence l) /\ w_dir wd' = dir') \/
   (w_keep_files w = Some (seq + 1 - lg_sequence l) /\ w_dir wd' = delete (channel_file_name base (lg_sequence l)) dir')).
Proof.
  intros Hw Hcr Hk Hro [[Hrs Hd Hf Hr Hlist _ _] Hfiles Htip Hkeep] base seq dir'.
  pose proof (cr_sequence _ _ _ _ _ Hcr) as Hsq. pose proof (ro_writer _ _ _ _ _ _ _ Hro) as Ew.
  pose proof (leg_reaches _ _ _ _ _ Hrs Hd Hf Hr Hfiles Htip) as Hre.
  destruct (reaches_last _ _ _ _ _ _ Hre) as (_ & T2 & _).
  pose proof (sequence_at _ _ _ _ _ _ _ _ Hr (last_leg_at l ls)) as Hle. rewrite T2 in Hle.
  assert (Hge0 : 0 <= lg_sequence l).
  { rewrite <- (lk_sequence _ _ _ _ (fk_leg _ _ _ _ _ Hf)). apply (get_range 8). }
  split.
  - unfold dir'. rewrite listed_in_insert by (try apply Hcr; unfold base, seq; lia).
    fold base in Hlist. unfold listed in Hlist. rewrite Hlist, (route_seqs _ _ _ _ _ _ Hr), T2. fold seq.
    replace (seq + 1 - lg_sequence l + 1) with ((seq - lg_sequence l + 1) + 1) by lia.
    rewrite (seqZ_snoc (lg_sequence l) (seq - lg_sequence l + 1)) by lia. by replace (lg_sequence l + (seq - lg_sequence l + 1)) with (seq + 1) by lia.
  - rewrite (ro_dir _ _ _ _ _ _ _ Hro), Ew. fold base seq dir'. unfold pruned, retains in *.
    cbn [rolled_writer set_held switch_file w_keep_files w_file_sequence set_pending]. fold seq in Hkeep |- *.
    unfold keep_ok in Hk. destruct (w_keep_files w) as [n|]; [|by left]. fold base.
    destruct (decide (lg_sequence l = seq + 1 - n)) as [E|Hne].
    + right. split; [f_equal; lia|]. replace (seq + 1 >=? n) with true by (symmetry; apply Z.geb_le; lia).
      rewrite <- E. unfold dir' at 1. rewrite lookup_insert_ne.
      * pose proof (fk_dir _ _ _ _ _ Hf) as Hfd. fold base in Hfd. by rewrite Hfd.
      * intros Heq. apply channel_file_name_inj in Heq; unfold seq in *; lia.
    + left. split; [lia|]. destruct (Z.geb_spec (seq + 1) n) as [Hge|]; [|done].
      destruct (dir' !! channel_file_name base (seq + 1 - n)) as [[j|]|] eqn:Hx; [|done|done]. exfalso.
      unfold dir' in Hx. rewrite lookup_insert_ne in Hx.
      2: { intros Heq. apply channel_file_name_inj in Heq; unfold seq in *; lia. }
      apply listed_name in Hx; [|unfold seq in *; lia]. fold base in Hlist. rewrite Hlist in Hx.
      rewrite (route_seqs _ _ _ _ _ _ Hr) in Hx. apply elem_of_seqZ in Hx. lia.
Qed.

Lemma rolled_channel w w' wd wd' es id rest len :
  writer_ok w wd es -> can_roll w wd id rest len -> keep_ok w -> rolled_ok w wd es id len w' wd' ->
  channel_carried w wd es w' wd' [] [].
Proof.
  intros Hw Hcr Hk Hro l ls Hh. pose proof Hh as [[Hrs Hd Hf Hr Hlist _ _] Hfiles Htip Hkeep].
  pose proof (cr_sequence _ _ _ _ _ Hcr) as Hsq. pose proof (ro_writer _ _ _ _ _ _ _ Hro) as Ew.
  destruct (rolled_listing _ _ _ _ _ _ _ _ _ _ Hw Hcr Hk Hro Hh) as [Hperm Hdir].
  pose proof (leg_reaches _ _ _ _ _ Hrs Hd Hf Hr Hfiles Htip) as Hre.
  destruct (reaches_last _ _ _ _ _ _ Hre) as (_ & T2 & _).
  pose proof (sequence_at _ _ _ _ _ _ _ _ Hr (last_leg_at l ls)) as Hle. rewrite T2 in Hle.
  assert (Hge0 : 0 <= lg_sequence l).
  { rewrite <- (lk_sequence _ _ _ _ (fk_leg _ _ _ _ _ Hf)). apply (get_range 8). }
  rewrite app_nil_r. destruct Hdir as [[Hret' Hdir]|[Hn Hdir]].
  - destruct (rolled_from w w' wd wd' es id rest len l ls) as (l' & ls' & R1 & R2 & R3); try done.
    { rewrite Hdir, lookup_insert_ne; [apply Hf|]. intros Heq. apply channel_file_name_inj in Heq; lia. }
    { unfold listed. by rewrite Hdir. }
    exists l', ls', 0%nat. rewrite drop_0. split_and!; [done|done|lia|lia].
  - assert (Hl' : listed wd' (w_base_path w) ≡ₚ seqZ (lg_sequence l + 1) (w_file_sequence w + 1 - lg_sequence l)).
    { unfold listed. rewrite Hdir. apply (Permutation_cons_inv (a := lg_sequence l)).
      rewrite (listed_in_delete _ _ _ (DFile (lg_file l))); [|lia|].
      - rewrite Hperm, seqZ_uncons by lia. by replace (w_file_sequence w + 1 - lg_sequence l + 1 - 1) with (w_file_sequence w + 1 - lg_sequence l) by lia.
      - rewrite lookup_insert_ne; [apply Hf|]. intros Heq. apply channel_file_name_inj in Heq; lia. }
    assert (Hret1 : retains w' (lg_sequence l + 1)).
    { unfold retains. rewrite Ew. cbn. rewrite Hn. lia. }
    destruct ls as [|b ls].
    + cbn in T2. destruct (rolled_alone w w' wd wd' es id rest len l []) as (l' & R1 & R2 & R3); try done.
      { apply listed_in_sorted; [repeat constructor|]. rewrite Hl'.
        replace (w_file_sequence w + 1 - lg_sequence l) with 1 by lia. by rewrite T2. }
      { by rewrite <- T2. }
      exists l', [], (length (route_messages wd l [])). rewrite drop_all. split_and!; [done|done|done|].
      rewrite R3, (route_index _ _ _ _ _ _ Hr), Htip. done.
    + pose proof (route_file_ok _ _ _ _ _ _ Hr Hf) as Hall.
      apply Forall_cons in Hall as [_ Hall]. pose proof (proj1 (Forall_cons _ _ _) Hall) as [Hfb _].
      apply Forall_cons in Hfiles as [_ Hfiles].
      assert (Hrb : exists edge i, hop_by wd (w_base_path w) (w_region_size w) (get 8 (data_of wd (w_file w)) OFF_generation) l b edge i /\
        route wd (w_base_path w) (w_region_size w) (get 8 (data_of wd (w_file w)) OFF_generation) b ls).
      { inversion Hr as [|a' b' ls' (edge & i & Hhop) Hrest]. by exists edge, i. }
      destruct Hrb as (edge & i & Hhop & Hrest). destruct (hp_next _ _ _ _ _ _ _ _ Hhop) as (E & _ & Ex).
      pose proof (hp_index _ _ _ _ _ _ _ _ Hhop) as Hix.
      pose proof (sequence_at _ _ _ _ _ _ _ _ Hrest (last_leg_at b ls)) as Hle2. cbn in T2. rewrite T2 in Hle2.
      destruct (rolled_from w w' wd wd' es id rest len b ls) as (l' & ls' & R1 & R2 & R3); try done.
      { unfold retains. rewrite Hn. lia. }
      { rewrite Hdir, lookup_delete_ne, lookup_insert_ne; [apply Hfb|..];
          intros Heq; apply channel_file_name_inj in Heq; lia. }
      { rewrite E, Hl'. by replace (w_file_sequence w + 1 - (lg_sequence l + 1) + 1) with (w_file_sequence w + 1 - lg_sequence l) by lia. }
      { by rewrite E. }
      exists l', ls', (length (leg_messages wd l)). rewrite route_messages_cons, R2, drop_app_length.
      split_and!; [done|done|rewrite length_app; lia|].
      rewrite R3, Ex, <- Hix. unfold leg_messages. rewrite length_messages. done.
Qed.

Lemma rolled_carried w w' wd wd' es id rest len :
  writer_ok w wd es -> can_roll w wd id rest len -> keep_ok w -> rolled_ok w wd es id len w' wd' ->
  carried (retains w) w wd es w' wd' [] [].
Proof. intros Hw Hcr Hk Hro. split; [by eapply rolled_readers|by eapply rolled_channel]. Qed.

End channel.
