(* ===== verification/Joining.v ===== *)
(** * Readers that join a channel being written

    A reader opened on the channel that a writer holds has its route end at the writer, as the
    readers that were there before; and what is true of the writer and the readers only depends on
    the files. *)

From Stdlib Require Import String.
From S2P Require Import Prelude Bytes Crc32c Effects Region Channel V4 V4Facts Names NamesFacts Segment Helper MapAhead Reader Chain RegionFacts SegmentFacts Prefault Writer WriterInv CommitFacts ReserveFacts PrepareFacts RollFacts RecoverFacts ReaderFacts Route RouteFacts OpenFacts LocateFacts SeekFacts Carry Carried.

#[local] Open Scope list_scope.
#[local] Open Scope Z_scope.

(** The two worlds have the same files; their clocks may differ. *)
Record same_files (w w' : world) : Prop := {
  sf_dir : w_dir w' = w_dir w;
  sf_inodes : w_inodes w' = w_inodes w;
  sf_next : w_next w' = w_next w
}.

Section facts.
Context `{EnvOk}.
Implicit Types (l : Leg) (ls : list Leg) (r : Reader) (es : list Entry).

Lemma ticked_same_files wd : same_files wd (ticked wd).
Proof. constructor; [apply ticked_dir|apply ticked_inodes|]. unfold ticked, now, consume. by destruct (o_ticks (w_oracle wd)). Qed.

Lemma opened_same_files wd base rs gen l ls p r wd' : opened_at wd base rs gen l ls p r wd' -> same_files wd wd'.
Proof. intros [[->| ->] _ _ _ _ _ _]; [done|apply ticked_same_files]. Qed.

Lemma data_of_same wd wd' f : w_inodes wd' = w_inodes wd -> data_of wd' f = data_of wd f.
Proof. intros E. unfold data_of, inode_of. by rewrite E. Qed.
Lemma len_of_same wd wd' f : w_inodes wd' = w_inodes wd -> len_of wd' f = len_of wd f.
Proof. intros E. unfold len_of, inode_of. by rewrite E. Qed.

Lemma writer_ok_same_files (w : Writer) wd wd' es : same_files wd wd' -> writer_ok w wd es -> writer_ok w wd' es.
Proof.
  intros [Ed Ei En] [? ? ? ? ? ? ? ? ? ? ?].
  constructor; rewrite ?(data_of_same wd wd') , ?(len_of_same wd wd') by done; done.
Qed.

Lemma next_index_same (w : Writer) wd wd' es : same_files wd wd' -> next_index w wd' es = next_index w wd es.
Proof. intros [Ed Ei En]. unfold next_index. by rewrite (data_of_same wd wd'). Qed.

Lemma on_route_same wd wd' r l ls : same_files wd wd' -> on_route r wd l ls -> on_route r wd' l ls.
Proof.
  intros [Ed Ei En] [[[? ? ? ? ? ? ? ? ? ?] ? ? ? ? [? ? ? ? ? ? ?] ?] Hr]. split; [|by eapply route_same].
  constructor; rewrite ?Ed; try done;
    constructor; rewrite ?(data_of_same wd wd'), ?(len_of_same wd wd') by done; done.
Qed.

Lemma reaches_same (w : Writer) wd wd' es r l ls : same_files wd wd' -> reaches r w wd es l ls -> reaches r w wd' es l ls.
Proof.
  intros Hsf [? ? ? ? ? ?]. pose proof Hsf as [Ed Ei En]. constructor; rewrite ?En, ?(data_of_same wd wd') by done; try done.
  - by eapply on_route_same.
  - unfold slot_of in *. by rewrite (next_index_same w wd wd').
Qed.

Lemma holds_same (w : Writer) wd wd' es l ls : same_files wd wd' -> holds w wd es l ls -> holds w wd' es l ls.
Proof.
  intros Hsf [? ? ? ?]. pose proof Hsf as [Ed Ei En]. constructor; rewrite ?En, ?(data_of_same wd wd') by done; try done.
  - by eapply channel_same.
  - unfold slot_of in *. by rewrite (next_index_same w wd wd').
Qed.

Lemma holds_last (w : Writer) wd es l ls : holds w wd es l ls -> lg_sequence (last_leg l ls) = w_file_sequence w.
Proof. intros Hh. pose proof (hl_tip _ _ _ _ _ Hh) as E. unfold tip, slot_of, leg_rest in E. congruence. Qed.

Lemma holds_next (w : Writer) wd es l ls : holds w wd es l ls -> lg_index (tip l ls) = next_index w wd es.
Proof. intros Hh. by rewrite (hl_tip _ _ _ _ _ Hh). Qed.

(** An opened reader reaches the writer. *)
Lemma opened_reaches (w : Writer) wd es l ls p r wd' :
  holds w wd es l ls ->
  opened_at wd (w_base_path w) (w_region_size w) (get 8 (data_of wd (w_file w)) OFF_generation) l ls p r wd' ->
  exists l' ls', reaches r w wd' es l' ls' /\
    route_messages wd' l' ls' = drop (Z.to_nat (p - lg_index l)) (route_messages wd l ls).
Proof.
  intros Hh Hat. pose proof (opened_same_files _ _ _ _ _ _ _ _ _ Hat) as Hsf. pose proof Hsf as [Ed Ei En].
  destruct Hat as [_ (l' & ls' & Hon & [Htip Hfiles] & Hm) Hp Hg Hrs Hb _].
  exists l', ls'. split; [|done]. constructor; [done| |done|done|by rewrite (data_of_same wd wd')|].
  - rewrite En. pose proof (hl_files _ _ _ _ _ Hh) as Hall. rewrite Forall_forall in Hall.
    apply Forall_forall. intros x Hx. assert (Hin : lg_file x ∈ map lg_file (l' :: ls')) by (by apply list_elem_of_fmap_2).
    apply Hfiles, list_elem_of_fmap in Hin as (y & -> & Hy). by apply Hall.
  - rewrite Htip, (hl_tip _ _ _ _ _ Hh). unfold slot_of. by rewrite (next_index_same w wd wd').
Qed.

End facts.
