(* ===== verification/BuildFacts.v ===== *)
(** * Building a channel

    [WriterBuilder_build] in a directory that holds no segment of the channel: the sweep of stale
    attempts, the first segment, and the writer on it. *)

From Stdlib Require Import String.
From S2P Require Import Prelude Bytes Crc32c Effects Region Channel V4 V4Facts Names NamesFacts Segment Helper MapAhead Reader Chain RegionFacts SegmentFacts Prefault Writer WriterInv CommitFacts ReserveFacts PrepareFacts RollFacts RecoverFacts ReaderFacts Route RouteFacts OpenFacts LocateFacts Carry Carried.

#[local] Open Scope list_scope.
#[local] Open Scope Z_scope.

(** ** The sweep *)

Definition is_file (e : option dirent) : bool := match e with Some (DFile _) => true | _ => false end.

Definition sweep_entry (base : string) (wd : world) (name : string) : world :=
  if is_partial_segment_name name base && is_file (w_dir wd !! name)
  then set_dir (base.delete name (w_dir wd)) wd else wd.

(** Nothing but names of attempts has left the directory. *)
Record spared (base : string) (wd wd' : world) : Prop := {
  sp_dir : forall name, is_partial_segment_name name base = false -> w_dir wd' !! name = w_dir wd !! name;
  sp_sub : forall name e, w_dir wd' !! name = Some e -> w_dir wd !! name = Some e;
  sp_inodes : w_inodes wd' = w_inodes wd;
  sp_next : w_next wd' = w_next wd;
  sp_oracle : w_oracle wd' = w_oracle wd
}.

Section sweep.
Context `{EnvOk} {S : Type}.
Implicit Types (s : S).

Lemma spared_entry base wd wd' name : spared base wd wd' -> spared base wd (sweep_entry base wd' name).
Proof.
  intros [Hd Hs Hi Hn Ho]. unfold sweep_entry. destruct (is_partial_segment_name name base) eqn:E; [|done].
  destruct (is_file _); [|done]. constructor; try done; intros k; cbn.
  - intros Hk. rewrite lookup_delete_ne; [by apply Hd|]. congruence.
  - intros e [_ He]%lookup_delete_Some. by apply Hs.
Qed.

Lemma spared_calm base wd wd' : spared base wd wd' -> calm wd -> calm wd'.
Proof. intros [_ _ _ _ Ho]. unfold calm, quiet, healthy. by rewrite Ho. Qed.

Lemma sweep_entry_run base name s wd (C : world -> Prop) :
  calm wd -> C (sweep_entry base wd name) ->
  wp (when (is_partial_segment_name name base) (ignore (remove_file name))) s wd
    (fun r s' wd' => r = Ok tt /\ s' = s /\ wd' = sweep_entry base wd name) C.
Proof.
  intros Hc HC. unfold sweep_entry in *. destruct (is_partial_segment_name name base); cbn [when andb] in *; [|by apply wp_ret].
  unfold ignore. apply wp_bind, wp_attempt. eapply wp_reads_bind; [by apply reads_syscall|].
  apply wp_bind, wp_ask. destruct (w_dir wd !! name) as [[f|]|]; cbn [is_file] in *.
  - apply wp_emit; [done|]. by apply wp_ret.
  - apply wp_lift. by apply wp_ret.
  - apply wp_lift. by apply wp_ret.
Qed.

Lemma sweep_loop_run base names s wd wd0 (C : world -> Prop) :
  calm wd -> spared base wd0 wd -> (forall wd', spared base wd0 wd' -> C wd') ->
  wp (for_each names (fun name => when (is_partial_segment_name name base) (ignore (remove_file name)))) s wd
    (fun r s' wd' => r = Ok tt /\ s' = s /\ wd' = fold_left (sweep_entry base) names wd) C.
Proof.
  intros Hc Hs HC. revert wd Hc Hs. induction names as [|name names IH]; intros wd Hc Hs; cbn [for_each fold_left].
  { by apply wp_ret. }
  apply wp_bind. eapply wp_mono; [apply sweep_entry_run with (C := C); [done|by apply HC, spared_entry]| |done].
  intros r s' wd' (-> & -> & ->). pose proof (spared_entry _ _ _ name Hs) as Hs'.
  apply IH; [|done]. eapply spared_calm; [|exact Hc]. by apply spared_entry.
Qed.

Lemma swept_spared base names wd : spared base wd (fold_left (sweep_entry base) names wd).
Proof.
  assert (Hg : forall w', spared base wd w' -> spared base wd (fold_left (sweep_entry base) names w')).
  { induction names as [|n names IH]; intros w' Hw; [done|]. cbn. by apply IH, spared_entry. }
  by apply Hg.
Qed.

Lemma swept_lookup base names wd name :
  w_dir (fold_left (sweep_entry base) names wd) !! name =
  if is_partial_segment_name name base && is_file (w_dir wd !! name) && bool_decide (name ∈ names) then None
  else w_dir wd !! name.
Proof.
  revert wd. induction names as [|n names IH]; intros wd; cbn [fold_left].
  { rewrite bool_decide_eq_false_2 by (by intros ?%elem_of_nil). by rewrite andb_false_r. }
  rewrite IH. unfold sweep_entry. destruct (decide (n = name)) as [->|Hne].
  - rewrite (bool_decide_eq_true_2 (name ∈ name :: names)) by constructor. rewrite andb_true_r.
    destruct (is_partial_segment_name name base); [|done].
    destruct (is_file (w_dir wd !! name)) eqn:E; cbn.
    + by rewrite lookup_delete_eq.
    + by rewrite E.
  - rewrite (bool_decide_ext (name ∈ n :: names) (name ∈ names)) by (rewrite elem_of_cons; split; [by intros [->|]|by right]).
    destruct (is_partial_segment_name n base && is_file (w_dir wd !! n)); [|done].
    cbn. by rewrite lookup_delete_ne.
Qed.

(** The whole sweep: what it leaves, and what each of its steps leaves. *)
Lemma sweep_run base s wd (C : world -> Prop) :
  calm wd -> (forall wd', spared base wd wd' -> C wd') ->
  wp (sweep_stale_partial_files base) s wd (fun r s' wd' => r = Ok tt /\ s' = s /\ spared base wd wd' /\
    forall name, w_dir wd' !! name =
      if is_partial_segment_name name base && is_file (w_dir wd !! name) then None else w_dir wd !! name) C.
Proof.
  intros Hc HC. unfold sweep_stale_partial_files.
  eapply wp_reads_bind; [apply reads_attempt_ok; eapply reads_seq; [by apply reads_syscall|]; apply (reads_ask (fun w => map fst (map_to_list (w_dir w))))|].
  cbn beta iota. eapply wp_mono; [apply (sweep_loop_run base _ s wd wd C); [done|done|exact HC]| |done].
  intros r s' wd' (-> & -> & ->). split_and!; [done|done|apply swept_spared|]. intros name. rewrite swept_lookup.
  destruct (w_dir wd !! name) as [e|] eqn:E; [|by rewrite !andb_false_r].
  rewrite bool_decide_eq_true_2; [by rewrite andb_true_r|].
  apply list_elem_of_fmap. exists (name, e). split; [done|]. by apply elem_of_map_to_list.
Qed.

End sweep.

(** ** The first segment *)

Lemma check_region_size_ok `{EnvOk} rs : 0 <= rs -> check_region_size rs = Ok tt <-> rs_ok rs.
Proof.
  intros H1. pose proof page_size_pos as Hp. destruct page_size_ok as (k & Hk & Ek). unfold check_region_size, rs_ok, is_multiple_of.
  replace (page_size =? 0) with false by (symmetry; apply Z.eqb_neq; lia). change (ALIGN =? 0) with false.
  change (FIRST_RECORD + ROLL_TOTAL) with 264. cbn beta iota.
  destruct (Z.eqb_spec (rs mod page_size) 0) as [E|E]; cbn [negb]; [|split; [done|lia]].
  assert (E8 : rs mod ALIGN = 0).
  { change ALIGN with 8. apply Z.mod_divide; [done|]. apply Z.mod_divide in E; [|lia]. destruct E as [c ->].
    exists (c * (512 * k)). lia. }
  rewrite E8. cbn [Z.eqb negb].
  assert (Hrs : rs = 0 \/ 4096 <= rs).
  { apply Z.mod_divide in E; [|lia]. destruct E as [c ->]. destruct (Z.eq_dec c 0) as [->|]; [lia|]. right. nia. }
  destruct (Z.ltb_spec rs 264); [split; [done|lia]|]. rewrite Z.gtb_ltb.
  destruct (Z.ltb_spec U32_MAX rs); split; try done; lia.
Qed.

(** What creating a channel needs: limits the builder accepts, no segment of that name, and an ID. *)
Record creatable `{Env} (b : WriterBuilder) (wd : world) (id : InstanceId) (rest : list (list Z)) (len : Z) : Prop := {
  ct_region : 0 <= wb_region_size b /\ check_region_size (wb_region_size b) = Ok tt;
  ct_roll : wb_file_roll_size b = 0 \/ 2 * wb_region_size b <= wb_file_roll_size b <= U64_MAX;
  ct_len : preallocation_len (wb_region_size b) (wb_file_roll_size b) = Ok len;
  ct_name : name_ok (wb_channel_name b);
  ct_base : 0 <= wb_base_record_index b < 2 ^ 64;
  ct_generation : 0 <= wb_generation b < 2 ^ 64;
  ct_keep : match wb_keep_files b with Some n => 1 <= n | None => True end;
  ct_helper : wb_helper b = None;
  ct_listed : listed wd (wb_path b) = [];
  ct_attempt : w_dir wd !! attempt_name (wb_path b) 0 id <> Some DDir;
  ct_random : o_random (w_oracle wd) = id :: rest;
  ct_id : id_ok id /\ id <> InstanceId_NONE
}.

(** The segment [ino] is the one the builder prepares, whether or not it is published yet. *)
Definition first_segment `{Env} (b : WriterBuilder) (id : InstanceId) (len : Z) (wd : world) (ino : Z) : Prop :=
  len_of wd ino = len /\ exists d,
    prepared_ok d 0 (wb_region_size b) (wb_mtu b) (wb_channel_name b) (wb_base_record_index b) (wb_generation b) (Identity_initial id) /\
    same 0 113 d (data_of wd ino) /\ same 114 192 d (data_of wd ino) /\ same 193 4096 d (data_of wd ino).

(** Throughout the build others find no segment of the channel, or the whole first one. *)
Definition whole_or_none `{Env} (b : WriterBuilder) (id : InstanceId) (len : Z) (wd : world) : Prop :=
  listed wd (wb_path b) = [] \/
  exists ino, w_dir wd !! wb_path b = Some (DFile ino) /\ first_segment b id len wd ino.

(** The writer of a new channel. *)
Definition first_writer (b : WriterBuilder) (id : InstanceId) (ino len : Z) : Writer :=
  let rs := wb_region_size b in
  MkWriter None None (wb_unmap b) [] (wb_path b) 0 id ino len (Mapping ino 0 rs) (Mapping ino 0 rs) 0 rs
    (wb_file_roll_size b) (wb_mtu b) (wb_keep_files b) (wb_channel_name b) FIRST_RECORD None (wb_wake_readers b) [].

Definition first_leg (b : WriterBuilder) (id : InstanceId) (ino : Z) : Leg :=
  MkLeg ino 0 id (wb_base_record_index b) [channel_entry] FIRST_RECORD.

Section build.
Context `{EnvOk}.
Implicit Types (b : WriterBuilder).

Lemma listed_none wd base name :
  listed wd base = [] -> sequence_of base name <> None -> w_dir wd !! name = None.
Proof.
  unfold listed, listed_in. intros Hl Hs. destruct (w_dir wd !! name) as [e|] eqn:E; [|done]. exfalso.
  destruct (sequence_of base name) as [k|] eqn:Ek; [|done].
  assert (Hin : k ∈ sort_sequences (omap (sequence_of base) (map fst (map_to_list (w_dir wd))))); [|by rewrite Hl in Hin; apply elem_of_nil in Hin].
  rewrite sort_sequences_perm. apply list_elem_of_omap. exists name. split; [|done].
  apply list_elem_of_fmap. exists (name, e). split; [done|]. by apply elem_of_map_to_list.
Qed.

Lemma listed_none_iff wd base :
  (forall name, sequence_of base name <> None -> w_dir wd !! name = None) -> listed wd base = [].
Proof.
  intros Hn. unfold listed, listed_in.
  destruct (sort_sequences _) as [|k l] eqn:E; [done|exfalso].
  assert (Hin : k ∈ sort_sequences (omap (sequence_of base) (map fst (map_to_list (w_dir wd))))) by (rewrite E; constructor).
  rewrite sort_sequences_perm in Hin. apply list_elem_of_omap in Hin as (name & Hname & Hk).
  apply list_elem_of_fmap in Hname as ([name' e] & -> & He). apply elem_of_map_to_list in He. cbn in Hk.
  rewrite Hn in He by (cbn in *; congruence). done.
Qed.

Lemma reads_no_tail base (S : Type) (s : S) wd :
  calm wd -> listed wd base = [] -> reads (discard_unpublished_tail base) s wd (Ok 0).
Proof.
  intros Hc Hl. eapply reads_seq; [apply (reads_ask discard_fuel)|]. unfold discard_fuel. cbn [loop].
  apply (reads_seq _ _ _ _ (Some 0)); [|apply reads_ret]. apply (reads_seq _ _ _ _ 0); [|apply reads_ret].
  eapply reads_seq; [by apply reads_find_all|]. rewrite Hl. apply reads_ret.
Qed.

(** A private file of an attempt is not listed. *)
Lemma attempt_unlisted b (wd wd' wd0 : world) id ino :
  listed wd (wb_path b) = [] -> w_dir wd0 = w_dir wd -> private (attempt_name (wb_path b) 0 id) ino wd0 wd' ->
  listed wd' (wb_path b) = [].
Proof.
  intros Hl Hd Hp. apply listed_none_iff. intros name Hn. rewrite (pv_dir _ _ _ _ Hp), Hd.
  rewrite lookup_insert_ne; [by eapply listed_none|]. intros <-. apply Hn. apply sequence_of_attempt_name.
Qed.

Lemma initial_identity_wf id : id_ok id -> id <> InstanceId_NONE -> identity_wf (Identity_initial id).
Proof.
  intros H1 H2. split; [|split; [done|by split]].
  split_and!; cbn; [done|split; [done|apply zeros_byte]|unfold U64_MAX; lia|unfold U64_MAX; lia].
Qed.

(** The new file is written under its attempt name, then takes its final name, then is published. *)
Lemma open_fresh_run b (S : Type) (s : S) wd id rest len (Q : res PreparedSegment -> S -> world -> Prop) C :
  calm wd -> creatable b wd id rest len -> w_dir wd !! attempt_name (wb_path b) 0 id = None ->
  let ino := w_next wd in let rs := wb_region_size b in
  (forall wd', whole_or_none b id len wd' -> C wd') ->
  (forall d wd', private (wb_path b) ino (drawn rest wd) wd' -> len_of wd' ino = len ->
     prepared_ok d 0 rs (wb_mtu b) (wb_channel_name b) (wb_base_record_index b) (wb_generation b) (Identity_initial id) ->
     data_of wd' ino = put 1 d OFF_publication_state PUBLISHED ->
     Q (Ok (PSegment ino (Mapping ino 0 rs) (Mapping ino 0 rs) 0 len FIRST_RECORD)) s wd') ->
  wp (open_fresh (wb_path b) (wb_path b) None 0 rs (wb_file_roll_size b) (wb_mtu b) (wb_channel_name b)
        (wb_base_record_index b) (wb_generation b)) s wd Q C.
Proof.
  intros Hc Hcr Hatt ino rs HC HQ. destruct Hcr as [[Hr0 Hr] Hfrs Hlen Hname Hbase Hgen _ _ Hlist _ Hrand [Hid1 Hid2]].
  apply check_region_size_ok in Hr; [|done]. pose proof (rs_pos _ Hr) as Hrp.
  assert (Hnone : w_dir wd !! wb_path b = None).
  { eapply listed_none; [exact Hlist|]. unfold sequence_of. by rewrite String.eqb_refl. }
  destruct (preallocation_len_Ok rs (wb_file_roll_size b) len) as [Hl _];
    [unfold rs, U32_MAX in *; lia|destruct Hfrs as [->|]; unfold U64_MAX in *; lia|unfold rs; lia|done|].
  unfold open_fresh. cbn [Z.eqb negb]. apply wp_bind, wp_ret.
  apply wp_bind, (wp_fresh id rest); [done|done|done|done|].
  eapply wp_reads_bind; [apply reads_attempt_path; cbn; by rewrite Hnone|]. cbn [Identity_initial instance].
  assert (Hido : identity_ok (Identity_initial id)) by (by apply initial_identity_wf).
  apply wp_bind. eapply prepare_run; [done|exact Hr|exact Hlen|exact Hl|done|lia|done|done|done|done|..].
  { intros wd' Hp. apply HC. left. by apply (attempt_unlisted b wd wd' (drawn rest wd) id (w_next wd)). }
  intros w1 Hp1 Hpr. apply wp_bind, wp_attempt.
  eapply wp_install; [by eapply private_calm|exact Hp1| |done|done|].
  { apply (attempt_not_final (wb_path b) 0 id). }
  intros w2 Hp2 Hi2. destruct Hpr as [Hpl Hpb].
  assert (Hl2 : len_of w2 ino = len) by (unfold len_of; by rewrite Hi2).
  assert (Hd2 : data_of w2 ino = data_of w1 ino) by (unfold data_of; by rewrite Hi2).
  assert (Hdir : w_dir w2 !! wb_path b = Some (DFile ino)) by (rewrite (pv_dir _ _ _ _ Hp2); by rewrite lookup_insert_eq).
  split.
  { apply HC. right. exists ino. split; [done|]. split; [done|]. exists (data_of w1 ino). rewrite Hd2. split_and!; [exact Hpb|by intros a _..]. }
  cbn beta iota. unfold publish, store_u8. cbn [ps_channel_region]. change (w_next (drawn rest wd)) with ino in *.
  pose proof (private_calm _ _ _ _ Hp2 Hc) as Hc2.
  apply wp_bind, wp_store_head; [done|apply Hc2|rewrite Hl2; unfold rs in *; lia|done|done| |].
  - apply HC. right. exists ino. split; [done|]. split; [by rewrite len_of_write|].
    exists (data_of w1 ino). split; [done|]. rewrite data_of_write_eq, Hd2.
    split_and!; apply same_put; unfold OFF_publication_state, EXT_FILE_OFFSET, MESSAGE_HEADER_SIZE; lia.
  - apply wp_ret. apply (HQ (data_of w1 ino)); [by apply private_write|by rewrite len_of_write|done|].
    by rewrite data_of_write_eq, Hd2.
Qed.

(** The sweep keeps what creating a channel needs, and frees the name of the attempt. *)
Lemma spared_unlisted base wd wd' : spared base wd wd' -> listed wd base = [] -> listed wd' base = [].
Proof.
  intros Hs Hl. apply listed_none_iff. intros name Hn. destruct (w_dir wd' !! name) as [e|] eqn:E; [|done].
  apply (sp_sub _ _ _ Hs) in E. by rewrite (listed_none _ _ _ Hl Hn) in E.
Qed.

Lemma creatable_swept b wd wd' id rest len :
  spared (wb_path b) wd wd' ->
  (forall name, w_dir wd' !! name =
     if is_partial_segment_name name (wb_path b) && is_file (w_dir wd !! name) then None else w_dir wd !! name) ->
  creatable b wd id rest len ->
  creatable b wd' id rest len /\ w_dir wd' !! attempt_name (wb_path b) 0 id = None.
Proof.
  intros Hs Hd [? ? ? ? ? ? ? ? Hl Ha ? Hid]. destruct (attempt_names_are_apart (wb_path b) 0 id) as [Hp _]; [done|apply Hid|].
  assert (Hn : w_dir wd' !! attempt_name (wb_path b) 0 id = None).
  { rewrite Hd, Hp. destruct (w_dir wd !! _) as [[]|]; [done|by contradict Ha|done]. }
  split; [|done]. constructor; try done; [by eapply spared_unlisted|by rewrite Hn|by rewrite (sp_oracle _ _ _ Hs)].
Qed.

Lemma set_wake_run b (S : Type) (s : S) wd ino rs (Q : res unit -> S -> world -> Prop) (C : world -> Prop) :
  calm wd -> rs_ok rs -> rs <= len_of wd ino ->
  (forall flags, C (write_inode ino OFF_wake_flags (le_bytes 1 flags) wd) /\
     Q (Ok tt) s (write_inode ino OFF_wake_flags (le_bytes 1 flags) wd)) ->
  wp (set_wake_flag (Mapping ino 0 rs) (wb_wake_readers b)) s wd Q C.
Proof.
  intros Hc Hrs Hl HQ. unfold set_wake_flag, fetch_or_u8, fetch_and_u8.
  destruct (wb_wake_readers b); (apply wp_bind, wp_update_head; [done|apply Hc|done|done|done|apply HQ|apply wp_ret; apply HQ]).
Qed.

(** The writer and the channel that come of it. *)
Lemma first_writer_ok b wd id rest len ino wd' :
  creatable b wd id rest len -> len_of wd' ino = len ->
  successor_bytes (data_of wd' ino) (wb_region_size b) 0 (wb_generation b) (wb_base_record_index b) (Identity_initial id) ->
  writer_ok (first_writer b id ino len) wd' [].
Proof.
  intros [[Hr0 Hr] Hfrs Hlen Hname Hbase Hgen _ _ _ _ _ _] Hl Hb. apply check_region_size_ok in Hr; [|done].
  pose proof (proj1 Hr) as Hr1.
  destruct (preallocation_len_Ok (wb_region_size b) (wb_file_roll_size b) len) as [Hlen' Hfl];
    [lia|destruct Hfrs as [->|]; [done|lia]|tauto|done|].
  assert (Hd : FIRST_RECORD / wb_region_size b = 0) by (change FIRST_RECORD with 208; apply Z.div_small; lia).
  constructor; cbn; try done.
  - unfold region_of. by rewrite Hd.
  - unfold in_file. rewrite Hd, Hl. lia.
  - rewrite Hl. lia.
  - rewrite Hl. lia.
  - apply Hb.
Qed.

Lemma first_writer_holds b wd id rest len ino wd' :
  creatable b wd id rest len -> len_of wd' ino = len ->
  w_dir wd' !! wb_path b = Some (DFile ino) -> listed wd' (wb_path b) = [0] -> ino < w_next wd' ->
  successor_bytes (data_of wd' ino) (wb_region_size b) 0 (wb_generation b) (wb_base_record_index b) (Identity_initial id) ->
  holds (first_writer b id ino len) wd' [] (first_leg b id ino) [].
Proof.
  intros Hcr Hl Hd Hlist Hn Hb. pose proof (first_writer_ok _ _ _ _ _ _ _ Hcr Hl Hb) as Hw.
  destruct Hcr as [[Hr0 Hr] Hfrs Hlen Hname Hbase Hgen Hkeep _ _ _ _ _]. apply check_region_size_ok in Hr; [|done].
  destruct Hb as [Hseg Hid Hpub Hbs Hsq Hrsz Hgn Hres].
  pose proof (wk_in_file _ _ _ Hw) as Hin. pose proof (wk_len _ _ _ Hw) as Hlm. cbn in Hin, Hlm.
  assert (Hroom : FIRST_RECORD mod wb_region_size b + HEADER_SLOT <= wb_region_size b).
  { change FIRST_RECORD with 208. change HEADER_SLOT with 16. rewrite Z.mod_small by (destruct Hr; lia). destruct Hr; lia. }
  constructor.
  - cbn. constructor.
    + done.
    + by rewrite Hd.
    + constructor.
      * exact Hd.
      * exists (Identity_initial id). done.
      * exact Hbs.
      * reflexivity.
      * constructor; cbn.
        -- unfold I64_MAX in *. lia.
        -- done.
        -- done.
        -- left. split; [done|apply Hseg].
        -- apply channel_chain; [done|apply Hseg].
        -- done.
        -- change (users [channel_entry]) with 0. lia.
    + constructor. apply Hseg.
    + done.
    + exact (sg_count _ _ _ _ Hseg).
    + exact (sg_position _ _ _ _ Hseg).
  - by repeat constructor.
  - unfold slot_of, tip, next_index. cbn. rewrite Hbs. done.
  - unfold retains. cbn. destruct (wb_keep_files b); [lia|done].
Qed.

(** The flags are all that is left to set once the segment is published. *)
Lemma flagged_public b d wd ino flags id :
  rs_ok (wb_region_size b) -> 0 <= wb_base_record_index b < 2 ^ 64 -> id_ok id -> id <> InstanceId_NONE ->
  prepared_ok d 0 (wb_region_size b) (wb_mtu b) (wb_channel_name b) (wb_base_record_index b) (wb_generation b) (Identity_initial id) ->
  data_of wd ino = put 1 (put 1 d OFF_publication_state PUBLISHED) OFF_wake_flags flags ->
  successor_bytes (data_of wd ino) (wb_region_size b) 0 (wb_generation b) (wb_base_record_index b) (Identity_initial id).
Proof.
  intros Hrs Hb Hid1 Hid2 Hp ->. eapply public_ok; [done|exact Hp| |].
  - by apply initial_identity_wf.
  - apply fresh_public. pose proof (pr_header _ _ _ _ _ _ _ _ Hp) as Hh. unfold channel_header_at in Hh. by injection Hh as _ _ ? _.
Qed.

(** The segment is whole once its flags are set. *)
Lemma flagged_whole b wd rest id len d flags ino w2 :
  private (wb_path b) ino (drawn rest wd) w2 -> len_of w2 ino = len ->
  prepared_ok d 0 (wb_region_size b) (wb_mtu b) (wb_channel_name b) (wb_base_record_index b) (wb_generation b) (Identity_initial id) ->
  data_of w2 ino = put 1 (put 1 d OFF_publication_state PUBLISHED) OFF_wake_flags flags -> whole_or_none b id len w2.
Proof.
  intros Hp Hl Hpr Hd. right. exists ino. split; [by rewrite (pv_dir _ _ _ _ Hp), lookup_insert_eq|]. split; [done|].
  exists d. split; [done|]. rewrite Hd.
  split_and!; (eapply same_trans; apply same_put;
    unfold OFF_publication_state, OFF_wake_flags, EXT_FILE_OFFSET, MESSAGE_HEADER_SIZE; lia).
Qed.

(** The writer of the new channel, once the segment is in the directory and public. *)
Lemma first_writer_stands b wd id rest len ino w2 :
  creatable b wd id rest len -> w_dir wd !! wb_path b = None -> private (wb_path b) ino (drawn rest wd) w2 -> len_of w2 ino = len ->
  successor_bytes (data_of w2 ino) (wb_region_size b) 0 (wb_generation b) (wb_base_record_index b) (Identity_initial id) ->
  let w := first_writer b id ino len in
  writer_ok w w2 [] /\ holds w w2 [] (first_leg b id ino) [] /\ next_index w w2 [] = wb_base_record_index b /\
  get 8 (data_of w2 ino) OFF_generation = wb_generation b.
Proof.
  intros Hcr Hnone Hp Hl Hb w. pose proof (ct_listed _ _ _ _ _ Hcr) as Hlist. split; [by eapply first_writer_ok|].
  split; [|split; [unfold next_index; cbn; rewrite (sb_base _ _ _ _ _ _ Hb); apply Z.add_0_r|apply Hb]].
  eapply first_writer_holds; try done.
  - by rewrite (pv_dir _ _ _ _ Hp), lookup_insert_eq.
  - unfold listed. rewrite (pv_dir _ _ _ _ Hp). change (wb_path b) with (channel_file_name (wb_path b) 0) at 1.
    apply listed_in_sorted; [by repeat constructor|].
    etransitivity; [apply listed_in_insert; [done|exact Hnone]|].
    change (w_dir (drawn rest wd)) with (w_dir wd). unfold listed in Hlist. by rewrite Hlist.
  - rewrite (pv_next _ _ _ _ Hp). lia.
Qed.

Lemma build_run b wd id rest len :
  calm wd -> creatable b wd id rest len ->
  let ino := w_next wd in let w := first_writer b id ino len in
  wp (WriterBuilder_build b) tt wd (fun r _ wd' => r = Ok w /\ calm wd' /\ writer_ok w wd' [] /\
      holds w wd' [] (first_leg b id ino) [] /\ next_index w wd' [] = wb_base_record_index b /\
      get 8 (data_of wd' ino) OFF_generation = wb_generation b)
    (whole_or_none b id len).
Proof.
  intros Hc0 Hcr0 ino w. unfold WriterBuilder_build.
  replace (negb (wb_file_roll_size b =? 0) && (wb_file_roll_size b <? saturating_mul (wb_region_size b) 2)) with false.
  2: { symmetry. apply andb_false_iff. unfold saturating_mul. destruct (ct_roll _ _ _ _ _ Hcr0) as [->|]; [by left|right].
       apply Z.ltb_ge. lia. }
  apply wp_bind. eapply wp_mono; [apply (sweep_run (wb_path b) tt wd (whole_or_none b id len)); [done|]| |done].
  { intros wd' Hs. left. eapply spared_unlisted; [exact Hs|apply Hcr0]. }
  intros r s wd0 (-> & -> & Hs & Hd). pose proof (spared_calm _ _ _ Hs Hc0) as Hc.
  destruct (creatable_swept _ _ _ _ _ _ Hs Hd Hcr0) as [Hcr Hatt].
  assert (Hino : w_next wd0 = ino) by apply (sp_next _ _ _ Hs). clear Hs Hd Hc0 Hcr0.
  pose proof Hcr as [[Hr0 Hr] Hfrs Hlen Hname Hbase Hgen _ Hhelp Hlist _ _ [Hid1 Hid2]].
  assert (Hrs : rs_ok (wb_region_size b)) by (by apply check_region_size_ok).
  destruct (preallocation_len_Ok (wb_region_size b) (wb_file_roll_size b) len) as [Hlen' _];
    [pose proof (proj1 Hrs); lia|destruct Hfrs as [->|]; [done|lia]|tauto|done|].
  assert (Hnone : w_dir wd0 !! wb_path b = None).
  { eapply listed_none; [exact Hlist|]. unfold sequence_of. by rewrite String.eqb_refl. }
  apply wp_bind. unfold open_or_create. apply wp_bind, wp_lift. rewrite Hr.
  eapply wp_reads_bind; [by apply reads_no_tail|].
  apply wp_bind. unfold open_file. eapply wp_reads_bind; [apply reads_channel_path; by rewrite Hnone|].
  change (channel_file_name (wb_path b) 0) with (wb_path b).
  eapply (wp_reads_bind _ _ _ _ None).
  { eapply reads_seq; [apply reads_attempt_err|apply reads_ret]. eapply reads_seq; [by apply reads_syscall|].
    eapply reads_seq; [apply reads_ask|]. rewrite Hnone. apply reads_lift. }
  cbn [negb]. eapply (open_fresh_run b _ tt wd0 id rest len); [done|done|done|done|].
  rewrite Hino. intros d w1 Hp1 Hl1 Hpr Hd1. cbn [ps_channel_region ps_file ps_file_len ps_current_region ps_region_index ps_next_hdr].
  pose proof (private_calm _ _ _ _ Hp1 Hc) as Hc1.
  assert (Hdir1 : w_dir w1 !! wb_path b = Some (DFile ino)) by (rewrite (pv_dir _ _ _ _ Hp1); by rewrite lookup_insert_eq).
  apply wp_bind, set_wake_run; [done|done|lia|]. intros flags. set (w2 := write_inode _ _ _ w1).
  assert (Hd2 : data_of w2 ino = put 1 (put 1 d OFF_publication_state PUBLISHED) OFF_wake_flags flags).
  { unfold w2. by rewrite data_of_write_eq, Hd1. }
  assert (Hl2 : len_of w2 ino = len) by (unfold w2; by rewrite len_of_write).
  assert (Hp2 : private (wb_path b) ino (drawn rest wd0) w2) by (by apply private_write).
  split; [by eapply (flagged_whole b wd0 rest id len d flags)|].
  assert (Hc2 : calm w2) by done. clearbody w2. pose proof (flagged_public b d w2 ino flags id Hrs Hbase Hid1 Hid2 Hpr Hd2) as Hb2.
  destruct (reads_prefix ino (wb_region_size b) (wb_region_size b) 0 (Identity_initial id) tt w2 Hrs (proj1 Hc2) ltac:(lia) (sb_resumable _ _ _ _ _ _ Hb2)) as [Hv _].
  eapply wp_reads_bind; [exact Hv|]. cbn [Z.gtb Z.compare]. apply wp_bind, wp_ret, wp_ret.
  rewrite Hhelp. apply wp_ret. cbn [Identity_initial instance]. split; [reflexivity|]. split; [exact Hc2|].
  by eapply (first_writer_stands b wd0 id rest len).
Qed.

End build.
