(* ===== verification/WriterFacts.v ===== *)
(** * Reservations (src/lib.rs: try_reserve)

    Every admissible reservation succeeds within the four turns of [RESERVE_FUEL], whatever regions
    and files have to be left behind on the way. *)

From Stdlib Require Import String.
From S2P Require Import Prelude Bytes Crc32c Effects Region Channel V4 V4Facts Names NamesFacts Segment Chain RegionFacts SegmentFacts Helper Prefault Writer WriterInv CommitFacts ReserveFacts PrepareFacts RollFacts Carry Carried.

#[local] Open Scope string_scope.
#[local] Open Scope list_scope.
#[local] Open Scope Z_scope.

Lemma wp_loop_S {S A} n (body : M S (option A)) s w (Q : res A -> S -> world -> Prop) C :
  wp body s w (fun r s' w' =>
    match r with
    | Ok (Some a) => Q (Ok a) s' w'
    | Ok None => wp (loop n body) s' w' Q C
    | Err e => Q (Err e) s' w'
    | Die y => Q (Die y) s' w'
    end) C ->
  wp (loop (Datatypes.S n) body) s w Q C.
Proof.
  intros Hb. cbn [loop]. apply wp_bind. eapply wp_mono; [exact Hb| |done].
  intros [[a|]|e|y] s' w' HQ; first [done|by apply wp_ret].
Qed.

(** A reservation [try_reserve] does not refuse for its size. *)
Record admissible (w : Writer) (n : Z) : Prop := {
  ad_size : 0 <= n < 2 ^ 32;
  ad_mtu : w_mtu w = 0 \/ n <= w_mtu w;
  ad_region : needed n <= w_region_size w;
  ad_file : w_file_roll_size w = 0 \/ FIRST_RECORD + needed n <= w_file_roll_size w
}.

(** Where a reservation leaves the writer. *)
Record reservation `{Env} (w : Writer) (wd : world) (es : list Entry) (n : Z)
    (r : res slice) (w' : Writer) (wd' : world) (es' : list Entry) : Prop := {
  rs_slice : r = Ok (Slice (w_current_region w') (w_next_hdr_pos w' mod w_region_size w' + HEADER_SLOT) n);
  rs_ok' : writer_ok w' wd' es';
  rs_reserved : reserved w' wd' n;
  rs_index : next_index w' wd' es' = next_index w wd es;
  rs_calm : calm wd';
  rs_kept : messages (data_of wd' (w_file w)) es = messages (data_of wd (w_file w)) es;
  rs_file : (w_file w' = w_file w /\ w_file_sequence w' = w_file_sequence w /\
             forall d, messages d es' = messages d es) \/
            (w_file_sequence w' = w_file_sequence w + 1 /\ forall d, messages d es' = []);
  rs_carried : carried (retains w) w wd es w' wd' es' []
}.

Lemma messages_users es es' d : messages d es' = messages d es -> users es' = users es.
Proof. intros E. by rewrite <- !(users_messages d), E. Qed.

Lemma messages_skip w es d : messages d (es ++ [skip_entry w]) = messages d es.
Proof. rewrite messages_app. change (messages d [skip_entry w]) with (@nil Message). apply app_nil_r. Qed.

Section reserve.
Context `{EnvOk}.

(** The rest of a region is too short: the turn leaves a [Skip] and moves on. *)
Lemma step_region w wd es n (Q : res (option slice) -> Writer -> world -> Prop) :
  calm wd -> writer_ok w wd es -> 0 <= n < 2 ^ 32 -> needed n <= w_region_size w ->
  w_file_roll_size w = 0 \/ w_next_hdr_pos w + needed n <= w_file_roll_size w ->
  w_region_size w < w_next_hdr_pos w mod w_region_size w + needed n ->
  (w_next_hdr_pos w / w_region_size w + 2) * w_region_size w <= I64_MAX ->
  (forall w' wd', writer_ok w' wd' (es ++ [skip_entry w]) -> same_channel w w' ->
     w_next_hdr_pos w' = (w_next_hdr_pos w / w_region_size w + 1) * w_region_size w ->
     same 24 (w_next_hdr_pos w) (data_of wd (w_file w)) (data_of wd' (w_file w)) -> grows (w_file w) wd wd' ->
     kept_head (data_of wd (w_file w)) (data_of wd' (w_file w)) -> Q (Ok None) w' wd') ->
  wp (reserve_step n (align_up (HEADER_SLOT + n)) (needed n)) w wd Q (fun _ => True).
Proof.
  intros Hc Hw Hn Hne Hfile Hreg Hmax HQ. pose proof (needed_bounds n Hn) as [Hnb _].
  pose proof (rs_pos _ (wk_rs _ _ _ Hw)) as Hrs. pose proof (writer_ok_next _ _ _ Hw) as Hpos.
  unfold reserve_step. apply wp_bind, wp_self.
  assert (Hf : (w_file_roll_size w >? 0)
    && (u64 (w_next_hdr_pos w + needed n) >? w_file_roll_size w) = false).
  { rewrite wrap_small by lia. apply andb_false_iff.
    destruct Hfile as [->|]; [by left|right]. rewrite Z.gtb_ltb. apply Z.ltb_ge. lia. }
  rewrite Hf. pose proof (Z.mod_pos_bound (w_next_hdr_pos w) (w_region_size w)).
  rewrite (wrap_small 64 (w_next_hdr_pos w mod w_region_size w + needed n)) by lia.
  replace (w_next_hdr_pos w mod w_region_size w + needed n >? w_region_size w) with true
    by (symmetry; rewrite Z.gtb_ltb; apply Z.ltb_lt; lia).
  apply wp_bind. eapply wp_mono; [by apply roll_over_run| |done].
  intros r w' wd' (-> & Hw' & Hp & Hnx & Hsc & Hs & Hg & Hkh). apply wp_ret.
  apply HQ; [done|done| |exact Hs|done|done].
  rewrite Hnx. by apply (skip_next w wd es).
Qed.

(** The rest of the file is too short: the turn rolls. *)
Lemma step_roll w wd es n id rest len (Q : res (option slice) -> Writer -> world -> Prop) :
  calm wd -> writer_ok w wd es -> 0 <= n < 2 ^ 32 ->
  0 < w_file_roll_size w < w_next_hdr_pos w + needed n ->
  needed n <= w_region_size w -> can_roll w wd id rest len -> keep_ok w ->
  (forall w' wd', rolled_ok w wd es id len w' wd' -> Q (Ok None) w' wd') ->
  wp (reserve_step n (align_up (HEADER_SLOT + n)) (needed n)) w wd Q (fun _ => True).
Proof.
  intros Hc Hw Hn Hfile Hne Hr Hk HQ. pose proof (needed_bounds n Hn) as [Hnb _].
  pose proof (writer_ok_next _ _ _ Hw) as Hpos. pose proof (rs_pos _ (wk_rs _ _ _ Hw)) as Hrs.
  unfold reserve_step. apply wp_bind, wp_self.
  assert (Hf : (w_file_roll_size w >? 0)
    && (u64 (w_next_hdr_pos w + needed n) >? w_file_roll_size w) = true).
  { rewrite wrap_small by lia. rewrite !Z.gtb_ltb. apply andb_true_iff. split; apply Z.ltb_lt; lia. }
  rewrite Hf. apply wp_bind. eapply wp_mono; [by eapply roll_file_run| |done].
  intros r w' wd' (-> & Hro). apply wp_ret. by apply HQ.
Qed.

(** The reservation fits: the turn reserves. *)
Lemma step_fits k w wd es n (Q : res slice -> Writer -> world -> Prop) :
  calm wd -> writer_ok w wd es -> 0 <= n < 2 ^ 32 -> fits w n ->
  (forall w' wd', w' = set_pending (Some n) w -> writer_ok w' wd' es -> reserved w' wd' n ->
     frame (w_file w) wd wd' -> kept (w_file w) (w_next_hdr_pos w + 16 + n) wd wd' ->
     Q (Ok (Slice (w_current_region w') (w_next_hdr_pos w' mod w_region_size w' + HEADER_SLOT) n)) w' wd') ->
  wp (loop (Datatypes.S k) (reserve_step n (align_up (HEADER_SLOT + n)) (needed n))) w wd Q (fun _ => True).
Proof.
  intros Hc Hw Hn Hf HQ. apply wp_loop_S. eapply wp_mono; [apply reserve_here; [apply Hc|done..]| |done].
  intros r w' wd' (-> & -> & Hw' & Hr & Hfr & Hke). by eapply (HQ (set_pending (Some n) w) wd').
Qed.

Lemma can_roll_same w wd w' wd' id rest len :
  can_roll w wd id rest len -> same_channel w w' -> grows (w_file w) wd wd' ->
  same 24 208 (data_of wd (w_file w)) (data_of wd' (w_file w)) -> can_roll w' wd' id rest len.
Proof.
  intros [] [E1 E2 E3 E4 E5 E6 E7 E8 E9 E10] [G1 G2 G3 _ _] Hs.
  constructor; rewrite ?E1, ?E2, ?E3, ?E4, ?E5, ?E6, ?E7, ?E8, ?E9, ?G1, ?G2, ?G3; try done.
  assert (Ho : forall a, 24 <= a -> a + 8 <= 208 ->
    get 8 (data_of wd' (w_file w)) a = get 8 (data_of wd (w_file w)) a).
  { intros a ??. symmetry. apply get_same. eapply same_sub; [exact Hs|lia..]. }
  rewrite !Ho by done. done.
Qed.

(** Where the next region starts. *)
Notation next_region w := ((w_next_hdr_pos w / w_region_size w + 1) * w_region_size w).

Lemma fits_dec w n : {fits w n} + {~ fits w n}.
Proof.
  unfold fits. destruct (decide (w_file_roll_size w = 0 \/ w_next_hdr_pos w + needed n <= w_file_roll_size w));
    destruct (decide (w_next_hdr_pos w mod w_region_size w + needed n <= w_region_size w));
    [left; done|right; tauto..].
Qed.

Lemma region_start_fits w wd es n :
  writer_ok w wd es -> w_next_hdr_pos w mod w_region_size w = 0 -> needed n <= w_region_size w ->
  w_file_roll_size w = 0 \/ w_next_hdr_pos w + needed n <= w_file_roll_size w -> fits w n.
Proof. intros. split; [done|lia]. Qed.

(** Readers over the turns that stay in the file. *)
Lemma here_carried w wd es n w' wd' :
  writer_ok w wd es -> w' = set_pending (Some n) w -> 0 <= n -> writer_ok w' wd' es ->
  frame (w_file w) wd wd' -> kept (w_file w) (w_next_hdr_pos w + 16 + n) wd wd' ->
  carried (fun _ => True) w wd es w' wd' es [].
Proof.
  intros Hw -> Hn Hw' Hfr Hke. pose proof (writer_ok_next _ _ _ Hw).
  pose proof (carried_append w (set_pending (Some n) w) wd wd' es []) as Hca. rewrite app_nil_r in Hca.
  apply Hca; [done|done|by constructor|by apply frame_grows| | |by left].
  - eapply (kept_head_below (w_next_hdr_pos w + 16 + n)); [exact Hke|lia].
  - eapply same_sub; [exact Hke|done|lia].
Qed.

Lemma skip_carried w wd es w1 wd1 :
  writer_ok w wd es -> writer_ok w1 wd1 (es ++ [skip_entry w]) -> same_channel w w1 ->
  same 24 (w_next_hdr_pos w) (data_of wd (w_file w)) (data_of wd1 (w_file w)) ->
  grows (w_file w) wd wd1 -> kept_head (data_of wd (w_file w)) (data_of wd1 (w_file w)) ->
  carried (fun _ => True) w wd es w1 wd1 (es ++ [skip_entry w]) [].
Proof.
  intros Hw Hw1 Hsc Hs Hg Hk.
  change (@nil Message) with (messages (data_of wd1 (w_file w)) [skip_entry w]).
  apply carried_append; try done; [|by left]. eapply same_sub; [exact Hs|done|lia].
Qed.

(** A reservation that left no region. *)
Lemma reservation_here w wd es n w' wd' :
  calm wd -> w' = set_pending (Some n) w -> writer_ok w wd es -> 0 <= n < 2 ^ 32 ->
  writer_ok w' wd' es -> reserved w' wd' n ->
  frame (w_file w) wd wd' -> kept (w_file w) (w_next_hdr_pos w + 16 + n) wd wd' ->
  reservation w wd es n
    (Ok (Slice (w_current_region w') (w_next_hdr_pos w' mod w_region_size w' + HEADER_SLOT) n)) w' wd' es.
Proof.
  intros Hc -> Hw Hn Hw' Hr Hfr Hke. pose proof (writer_ok_next _ _ _ Hw) as Hq.
  constructor; try done.
  - unfold next_index. cbn. f_equal. symmetry. apply get_same.
    eapply same_sub; [exact Hke|done|]. unfold OFF_base_record_index, MESSAGE_HEADER_SIZE. lia.
  - by eapply frame_calm.
  - symmetry. eapply messages_same; [|exact (sg_chain _ _ _ _ (wk_segment _ _ _ Hw))].
    eapply same_sub; [exact Hke|unfold FIRST_RECORD, FIRST_RECORD_V4; lia..].
  - by left.
  - apply (carried_weaken (fun _ => True)); [eapply here_carried; try done; apply Hn|done].
Qed.

(** A reservation made after a region was left. *)
Lemma reservation_after_skip w wd es n r w1 wd1 w' wd' es' :
  writer_ok w wd es -> writer_ok w1 wd1 (es ++ [skip_entry w]) -> same_channel w w1 ->
  same 24 (w_next_hdr_pos w) (data_of wd (w_file w)) (data_of wd1 (w_file w)) ->
  grows (w_file w) wd wd1 -> kept_head (data_of wd (w_file w)) (data_of wd1 (w_file w)) ->
  reservation w1 wd1 (es ++ [skip_entry w]) n r w' wd' es' -> reservation w wd es n r w' wd' es'.
Proof.
  intros Hw Hw1 Hsc Hs Hg Hk [R1 R2 R3 R4 R5 R6 R7 R8]. pose proof (writer_ok_next _ _ _ Hw) as Hq.
  pose proof (sc_file _ _ Hsc) as E1. pose proof (sc_sequence _ _ Hsc) as E2. pose proof (sc_keep_files _ _ Hsc) as E3.
  rewrite E1, !messages_skip in R6. rewrite E1, E2 in R7. constructor; try done.
  - rewrite R4. unfold next_index. rewrite E1, (messages_users es _ (data_of wd (w_file w)) (messages_skip _ _ _)).
    f_equal. symmetry. apply get_same. eapply same_sub; [exact Hs|done|].
    unfold OFF_base_record_index, MESSAGE_HEADER_SIZE. lia.
  - rewrite R6. symmetry. eapply messages_same; [|exact (sg_chain _ _ _ _ (wk_segment _ _ _ Hw))].
    eapply same_sub; [exact Hs|done|lia].
  - destruct R7 as [(? & ? & Hm)|?]; [left|by right]. split_and!; [done..|]. intros d. by rewrite Hm, messages_skip.
  - change (@nil Message) with (@nil Message ++ []). eapply carried_trans.
    + apply (carried_weaken (fun _ => True)); [by apply skip_carried|done].
    + eapply carried_weaken; [exact R8|]. intros k. unfold retains. by rewrite E2, E3.
Qed.

(** At most two turns where the file has room, in this region or from the start of the next. *)
Lemma two_turns k w wd es n :
  calm wd -> writer_ok w wd es -> 0 <= n < 2 ^ 32 -> needed n <= w_region_size w ->
  w_file_roll_size w = 0 \/
    (w_next_hdr_pos w + needed n <= w_file_roll_size w /\ next_region w + needed n <= w_file_roll_size w) ->
  (w_next_hdr_pos w / w_region_size w + 2) * w_region_size w <= I64_MAX ->
  wp (loop (2 + k) (reserve_step n (align_up (HEADER_SLOT + n)) (needed n))) w wd
    (fun r w' wd' => exists es', reservation w wd es n r w' wd' es' /\ w_file w' = w_file w /\
       w_file_sequence w' = w_file_sequence w /\ (forall d, messages d es' = messages d es) /\
       (forall i, i <> w_file w -> inode_of wd' i = inode_of wd i) /\
       carried (fun _ => True) w wd es w' wd' es' [])
    (fun _ => True).
Proof.
  intros Hc Hw Hn Hne Hfile Hmax. destruct (fits_dec w n) as [Hf|Hf].
  - eapply step_fits; try done. intros w' wd' Hw' Hok Hr Hfr Hke. exists es.
    split; [by apply reservation_here|].
    assert (Hca : carried (fun _ => True) w wd es w' wd' es []) by (eapply here_carried; try done; apply Hn).
    subst w'. split_and!; try done. apply Hfr.
  - apply wp_loop_S. eapply step_region; try done; [tauto| |].
    { destruct (Z.lt_ge_cases (w_region_size w) (w_next_hdr_pos w mod w_region_size w + needed n)); [done|].
      exfalso. apply Hf. split; [tauto|lia]. }
    intros w1 wd1 Hw1 Hsc Hnx Hs Hg Hkh.
    pose proof (rs_pos _ (wk_rs _ _ _ Hw)) as Hrs. pose proof Hsc as [_ E2 _ E4 E5 E6 _ _ _ _].
    assert (Hf1 : fits w1 n).
    { eapply region_start_fits; [exact Hw1|rewrite Hnx, E5; by apply Z.mod_mul; lia|by rewrite E5|].
      rewrite Hnx, E6. tauto. }
    pose proof (grows_calm _ _ _ Hg Hc) as Hc1.
    eapply step_fits; [done..|]. intros w' wd' Hw' Hok Hr Hfr Hke. exists (es ++ [skip_entry w]).
    split; [apply (reservation_after_skip w wd es n _ w1 wd1); [done..|]; by apply reservation_here|].
    assert (Hca : carried (fun _ => True) w wd es w' wd' (es ++ [skip_entry w]) []).
    { change (@nil Message) with (@nil Message ++ []). apply (carried_trans _ _ w1 _ _ _ wd1 (es ++ [skip_entry w])).
      - by apply skip_carried.
      - apply (here_carried w1 wd1 _ n); try done. apply Hn. }
    subst w'. split_and!; try done.
    + intros d. apply messages_skip.
    + intros i Hi. rewrite (sc_file _ _ Hsc) in Hfr. rewrite (fr_others _ _ _ Hfr) by done. by apply Hg.
Qed.

(** At most three where the file is to be left first. *)
Lemma three_turns k w wd es n id rest len :
  calm wd -> writer_ok w wd es -> admissible w n ->
  0 < w_file_roll_size w < w_next_hdr_pos w + needed n -> can_roll w wd id rest len -> keep_ok w ->
  wp (loop (3 + k) (reserve_step n (align_up (HEADER_SLOT + n)) (needed n))) w wd
    (fun r w' wd' => exists es', reservation w wd es n r w' wd' es')
    (fun _ => True).
Proof.
  intros Hc Hw [Hn Hmtu Hreg Hfile] Hroll Hr Hk. pose proof (rs_pos _ (wk_rs _ _ _ Hw)) as Hrs.
  pose proof (proj1 (wk_rs _ _ _ Hw)) as Hr4. pose proof (cr_fresh _ _ _ _ _ Hr) as Hfresh.
  apply wp_loop_S. eapply step_roll; try done.
  intros w1 wd1 Hro. pose proof Hro as [Hw1 Hok1 Hnew _ _ _ Hrec _ _ _ Hc1].
  assert (Hd : FIRST_RECORD / w_region_size w = 0).
  { unfold FIRST_RECORD, FIRST_RECORD_V4. apply Z.div_small. lia. }
  destruct Hnew as (i & Hsb & _).
  eapply wp_mono; [apply (two_turns k w1 wd1 [] n); try done| |done]; rewrite ?Hw1; cbn.
  - done.
  - destruct Hfile as [|Hfile]; [lia|]. right. rewrite Hd. split; [lia|].
    destruct (wk_roll _ _ _ Hw); lia.
  - rewrite Hd. unfold U32_MAX, I64_MAX in *. lia.
  - intros r w' wd' (es' & [R1 R2 R3 R4 R5 R6 R7 R8] & Hf' & Hs' & Hm & Ho & Hca). exists es'.
    constructor; try done.
    + rewrite R4. unfold next_index. cbn. change (users []) with 0.
      rewrite (sb_base _ _ _ _ _ _ Hsb). cbn. rewrite (sg_count _ _ _ _ (wk_segment _ _ _ Hw)). lia.
    + unfold data_of at 1. rewrite Ho by lia. symmetry.
      eapply messages_same; [exact Hrec|exact (sg_chain _ _ _ _ (wk_segment _ _ _ Hw))].
    + right. split; [done|]. intros d. by rewrite Hm.
    + change (@nil Message) with (@nil Message ++ []). eapply carried_trans; [by eapply rolled_carried|].
      apply (carried_weaken (fun _ => True)); [by rewrite Hw1|done].
Qed.

Lemma reserve_loop w wd es n id rest len :
  calm wd -> writer_ok w wd es -> admissible w n ->
  (w_next_hdr_pos w / w_region_size w + 2) * w_region_size w <= I64_MAX ->
  w_file_roll_size w = 0 \/ (0 < w_file_roll_size w /\ can_roll w wd id rest len /\ keep_ok w) ->
  wp (loop RESERVE_FUEL (reserve_step n (align_up (HEADER_SLOT + n)) (needed n))) w wd
    (fun r w' wd' => exists es', reservation w wd es n r w' wd' es')
    (fun _ => True).
Proof.
  intros Hc Hw Had Hmax Hroll. pose proof Had as [Hn Hmtu Hreg Hfile].
  pose proof (rs_pos _ (wk_rs _ _ _ Hw)) as Hrs. pose proof (writer_ok_next _ _ _ Hw) as Hq.
  assert (Htwo : w_file_roll_size w = 0 \/
    (w_next_hdr_pos w + needed n <= w_file_roll_size w /\ next_region w + needed n <= w_file_roll_size w) ->
    wp (loop RESERVE_FUEL (reserve_step n (align_up (HEADER_SLOT + n)) (needed n))) w wd
      (fun r w' wd' => exists es', reservation w wd es n r w' wd' es') (fun _ => True)).
  { intros Hft. eapply wp_mono; [by apply (two_turns 2)| |done].
    intros r w' wd' (es' & Hres & _). by exists es'. }
  destruct Hroll as [Hz|(Hpos & Hr & Hk)]; [apply Htwo; by left|].
  destruct (Z.lt_ge_cases (w_file_roll_size w) (w_next_hdr_pos w + needed n)) as [Hlt|Hge].
  { apply (three_turns 1 w wd es n id rest len); try done; lia. }
  destruct (Z.lt_ge_cases (w_file_roll_size w) (next_region w + needed n)) as [Hlt|Hge2]; [|apply Htwo; auto].
  destruct (fits_dec w n) as [Hf|Hf].
  - eapply (step_fits 3); try done. intros w' wd' Hw' Hok Hrv Hfr Hke. exists es.
    by apply reservation_here.
  - apply wp_loop_S. eapply step_region; try done; [by right| |].
    { destruct (Z.lt_ge_cases (w_region_size w) (w_next_hdr_pos w mod w_region_size w + needed n)); [done|].
      exfalso. apply Hf. split; [by right|lia]. }
    intros w1 wd1 Hw1 Hsc Hnx Hs Hg Hkh.
    assert (Hr1 : can_roll w1 wd1 id rest len).
    { eapply can_roll_same; [done..|]. eapply same_sub; [exact Hs|lia..]. }
    pose proof Hsc as [_ _ _ _ E5 E6 E7 E8 _ _].
    eapply wp_mono; [apply (three_turns 0 w1 wd1 (es ++ [skip_entry w]) n id rest len); try done| |done].
    + by eapply grows_calm.
    + constructor; rewrite ?E5, ?E6, ?E7; done.
    + rewrite E6, Hnx. lia.
    + unfold keep_ok. by rewrite E8.
    + intros r w' wd' (es' & Hres). exists es'. by eapply reservation_after_skip.
Qed.

(** The room a reservation of [n] bytes may need: a further region, or a further file. *)
Definition has_room (w : Writer) (wd : world) : Prop :=
  (w_next_hdr_pos w / w_region_size w + 2) * w_region_size w <= I64_MAX /\
  (w_file_roll_size w = 0 \/
   (0 < w_file_roll_size w /\ keep_ok w /\ exists id rest len, can_roll w wd id rest len)).

Lemma admissible_checks w n :
  admissible w n -> 0 < w_region_size w ->
  (w_mtu w >? 0) && (n >? w_mtu w) = false /\
  u64 (HEADER_SLOT + n) = HEADER_SLOT + n /\ u64 (align_up (HEADER_SLOT + n) + ROLL_TOTAL) = needed n /\
  (needed n >? w_region_size w) = false /\
  (w_file_roll_size w >? 0) && (u64 (FIRST_RECORD + needed n) >? w_file_roll_size w) = false.
Proof.
  intros [Hn Hmtu Hreg Hfile] Hrs. pose proof (needed_bounds n Hn) as [Hb _].
  rewrite !Z.gtb_ltb. fold (needed n).
  rewrite (wrap_small 64 (HEADER_SLOT + n)) by (change HEADER_SLOT with 16; lia).
  rewrite (wrap_small 64 (needed n)) by lia.
  rewrite (wrap_small 64 (FIRST_RECORD + needed n)) by (unfold FIRST_RECORD, FIRST_RECORD_V4; lia).
  split_and!; try done.
  - apply andb_false_iff. destruct Hmtu as [->|]; [by left|right]. apply Z.ltb_ge. lia.
  - apply Z.ltb_ge. lia.
  - apply andb_false_iff. destruct Hfile as [->|]; [by left|right]. apply Z.ltb_ge. lia.
Qed.

Lemma try_reserve_run w wd es n :
  calm wd -> writer_ok w wd es -> admissible w n -> has_room w wd ->
  wp (try_reserve n) w wd (fun r w' wd' => exists es', reservation w wd es n r w' wd' es') (fun _ => True).
Proof.
  intros Hc Hw Had [Hmax Hroll]. pose proof (rs_pos _ (wk_rs _ _ _ Hw)) as Hrs.
  destruct (admissible_checks w n Had (proj1 Hrs)) as (E1 & E2 & E3 & E4 & E5).
  unfold try_reserve. apply wp_bind, wp_self. rewrite E1. cbv zeta. rewrite E2, E3, E4, E5.
  unfold div_guard. replace (w_region_size w =? 0) with false by (symmetry; apply Z.eqb_neq; lia).
  apply wp_bind, wp_ret.
  assert (exists id rest len, w_file_roll_size w = 0 \/
    (0 < w_file_roll_size w /\ can_roll w wd id rest len /\ keep_ok w)) as (id & rest & len & Hr).
  { destruct Hroll as [?|(? & ? & id & rest & len & ?)]; [exists [], [], 0; by left|].
    exists id, rest, len. by right. }
  by apply (reserve_loop w wd es n id rest len).
Qed.

(** ** The payload *)

(** Writing into a reservation's payload changes nothing but its bytes. *)
Lemma fill_run w wd es n bs :
  quiet wd -> writer_ok w wd es -> reserved w wd n -> Z.of_nat (length bs) <= n ->
  let q := w_next_hdr_pos w in
  let f := w_file w in
  wp (store (w_current_region w) (q mod w_region_size w + HEADER_SLOT) bs) w wd
    (fun r w' wd' => r = Ok tt /\ w' = w /\ writer_ok w wd' es /\ reserved w wd' n /\ frame f wd wd' /\
       data_of wd' f = wr (data_of wd f) (q + 16) bs)
    (fun wd' => sees (w_region_size w) (data_of wd' f) es q).
Proof.
  intros Hq Hw Hr Hlen q f. pose proof (rs_pos _ (wk_rs _ _ _ Hw)) as Hrs.
  pose proof (writer_ok_next _ _ _ Hw) as Hpos. fold q in Hpos. destruct Hr as [R1 R2 R3 R4].
  pose proof (needed_bounds n R2) as [Hn _]. unfold needed in Hn. change ROLL_TOTAL with 56 in *. fold q f in R3, R4.
  pose proof (Z.mod_pos_bound q (w_region_size w)).
  pose proof (wk_segment _ _ _ Hw) as Hseg. fold q f in Hseg.
  set (wd' := write_inode f (q + 16) bs wd).
  assert (Hd : data_of wd' f = wr (data_of wd f) (q + 16) bs) by (unfold wd'; by rewrite data_of_write_eq).
  assert (Hsame : forall lo hi, hi <= q + 16 \/ q + 16 + n <= lo -> same lo hi (data_of wd f) (data_of wd' f)).
  { intros lo hi Hlh. rewrite Hd. apply same_wr. lia. }
  assert (Hfr : frame f wd wd') by (unfold wd'; auto with xch).
  assert (Hseg' : segment_ok (w_region_size w) (data_of wd' f) es q).
  { eapply segment_ok_same; [exact Hseg|lia|apply Hsame; by left]. }
  rewrite (wk_current _ _ _ Hw). change HEADER_SLOT with 16 in *. fold f q.
  apply wp_store_rec; [apply Hw|done|apply Hw|lia|fold q; lia| |].
  - change (sees (w_region_size w) (data_of wd' f) es q). split; [apply Hseg'|apply Hseg'].
  - change (w_file w) with f. fold wd'. split_and!; try done.
    + constructor; try apply Hw; fold f q; rewrite ?(fr_len _ _ _ Hfr); try apply Hw. exact Hseg'.
    + constructor; try done. fold f q. change HEADER_SLOT with 16.
      rewrite <- R4. symmetry. apply message_header_same. apply Hsame. right. lia.
Qed.

(** What a producer does with a message: reserve, write, commit. *)
Definition send (mt meta : Z) (payload : list Z) : M Writer unit :=
  s <- try_reserve (Z.of_nat (length payload)) ;;
  store (sl_map s) (sl_off s) payload ;;
  Writer_commit mt (Z.of_nat (length payload)) meta.

Lemma send_run w wd es mt meta payload :
  calm wd -> writer_ok w wd es -> admissible w (Z.of_nat (length payload)) -> has_room w wd ->
  0 <= mt < 2 ^ 16 -> 0 <= meta < 2 ^ 64 -> Forall is_byte payload ->
  wp (send mt meta payload) w wd (fun r w' wd' =>
      r = Ok tt /\ calm wd' /\ exists es', writer_ok w' wd' es' /\
        next_index w' wd' es' = next_index w wd es + 1 /\
        ((w_file w' = w_file w /\ w_file_sequence w' = w_file_sequence w /\
          messages (data_of wd' (w_file w')) es' =
            messages (data_of wd (w_file w)) es ++ [MkMessage mt meta payload]) \/
         (w_file_sequence w' = w_file_sequence w + 1 /\
          messages (data_of wd' (w_file w')) es' = [MkMessage mt meta payload])) /\
        (next_index w wd es + 1 < 2 ^ 64 -> carried (retains w) w wd es w' wd' es' [MkMessage mt meta payload]))
    (fun _ => True).
Proof.
  intros Hc Hw Had Hroom Hmt Hmeta Hpay. set (n := Z.of_nat (length payload)) in *.
  unfold send. fold n. apply wp_bind. eapply wp_mono; [by apply try_reserve_run| |done].
  intros r w1 wd1 (es1 & [-> Hw1 Hr1 Hi1 Hc1 Hk1 Hf1 Hca1]).
  pose proof (writer_ok_next _ _ _ Hw1) as Hq1. pose proof (wk_segment _ _ _ Hw1) as Hs1.
  apply wp_bind. cbn [sl_map sl_off].
  eapply wp_mono; [eapply (fill_run w1 wd1 es1 n payload); try done; apply Hc1| |done].
  intros r w2 wd2 (-> & -> & Hw2 & Hr2 & Hfr2 & Hd2).
  eapply wp_mono; [apply (commit_run w1 wd2 es1 n mt n meta); try done; [by eapply frame_quiet; [|apply Hc1]|lia]| |done].
  intros r w3 wd3 (-> & Hw3 & -> & Hm3 & Hs3 & Hk3 & Hfr3).
  set (e := new_entry w1 mt n meta) in *. cbn [w_file set_next_hdr_pos set_pending] in *.
  split; [done|]. split; [eapply frame_calm; [done|]; by eapply frame_calm|].
  exists (es1 ++ [e]). split; [done|].
  assert (Hmsg : message_of (data_of wd3 (w_file w1)) e = MkMessage mt meta payload).
  { rewrite Hm3, Hd2. f_equal. unfold n. rewrite Nat2Z.id. apply peek_wr_eq. done. }
  assert (Hall : messages (data_of wd3 (w_file w1)) (es1 ++ [e]) =
                 messages (data_of wd1 (w_file w1)) es1 ++ [MkMessage mt meta payload]).
  { rewrite messages_app. f_equal; [|by unfold messages; cbn [List.filter map]; rewrite <- Hmsg].
    symmetry. eapply messages_same; [|exact (sg_chain _ _ _ _ Hs1)].
    eapply same_trans; [|exact Hs3]. rewrite Hd2. apply same_wr. left. lia. }
  split_and!.
  - rewrite <- Hi1. unfold next_index. cbn. rewrite users_app. change (users [e]) with 1.
    rewrite Z.add_assoc. do 2 f_equal. transitivity (get 8 (data_of wd2 (w_file w1)) OFF_base_record_index);
      [symmetry; apply get_same; eapply same_sub; [exact (proj1 (proj2 Hk3))|done..]|].
    rewrite Hd2. symmetry. apply get_same, same_wr. left. change (OFF_base_record_index + Z.of_nat 8) with 40. lia.
  - destruct Hf1 as [(E1 & E2 & Hmm)|[E2 Hmm]]; [left|right].
    + split_and!; [done|done|]. rewrite Hall, Hmm. rewrite E1, Hk1. done.
    + split; [done|]. by rewrite Hall, Hmm.
  - intros Hlt. change [MkMessage mt meta payload] with ([] ++ [] ++ [MkMessage mt meta payload]).
    apply (carried_trans _ _ w1 _ _ _ wd1 es1); [exact Hca1|].
    apply (carried_weaken (fun _ => True)); [|done]. apply (carried_trans _ _ w1 _ _ _ wd2 es1).
    + pose proof (carried_append w1 w1 wd1 wd2 es1 []) as Hca. rewrite app_nil_r in Hca.
      apply Hca; [done|done|by constructor|by apply frame_grows| | |by left]; rewrite Hd2.
      * apply (kept_head_below 208); [apply same_wr|]; lia.
      * apply same_wr. lia.
    + rewrite <- Hmsg. change [message_of (data_of wd3 (w_file w1)) e] with (messages (data_of wd3 (w_file w1)) [e]).
      apply carried_append; [done|done|by constructor|by apply frame_grows|done|done|].
      right. change (users [e]) with 1.
      enough (next_index w1 wd2 es1 = next_index w wd es) by lia.
      rewrite <- Hi1. unfold next_index. rewrite Hd2. f_equal. symmetry. apply get_same, same_wr. left.
      change (OFF_base_record_index + Z.of_nat 8) with 40. lia.
Qed.

End reserve.

(** ** Refusals *)

Lemma Z_range_spec x y : (0 <? x) && (x <? y) = true <-> 0 < x < y.
Proof. by rewrite andb_true_iff, !Z.ltb_lt. Qed.

Lemma Z_range_false x y : ~ 0 < x < y -> (0 <? x) && (x <? y) = false.
Proof. intros Hn. apply not_true_iff_false. by rewrite Z_range_spec. Qed.

(** [try_reserve] makes its checks before it changes anything; no addition wraps. *)
(** The MTU is checked before any sum. *)
Lemma try_reserve_mtu `{Env} n w wd :
  0 < w_mtu w < n -> try_reserve n w wd = Outcome (Err (err_other "MTU exceeded")) w wd [].
Proof.
  intros Hm. unfold try_reserve, bind at 1. cbn [self o_res o_self o_world o_trace app]. rewrite !Z.gtb_ltb.
  by rewrite (proj2 (Z_range_spec _ _) Hm).
Qed.

Lemma try_reserve_checks `{Env} n w wd :
  0 <= n -> n + 287 < 2 ^ 64 ->
  try_reserve n w wd =
    (if (0 <? w_mtu w) && (w_mtu w <? n) then Outcome (Err (err_other "MTU exceeded")) w wd []
     else if w_region_size w <? needed n then
       Outcome (Err (err_other "reservation cannot fit in region_size")) w wd []
     else if (0 <? w_file_roll_size w) && (w_file_roll_size w <? FIRST_RECORD + needed n) then
       Outcome (Err (err_other "reservation cannot fit in file_roll_size")) w wd []
     else bind (div_guard (w_region_size w)) (fun _ =>
            loop RESERVE_FUEL (reserve_step n (align_up (HEADER_SLOT + n)) (needed n))) w wd) /\
  needed n < n + 80.
Proof.
  intros Hn Hn'. pose proof (align_up_bounds (HEADER_SLOT + n)) as Hb. change HEADER_SLOT with 16 in *.
  specialize (Hb ltac:(lia)).
  assert (Hne : needed n < n + 80) by (unfold needed; change ROLL_TOTAL with 56; change HEADER_SLOT with 16; lia).
  split; [|done].
  unfold try_reserve, bind at 1. cbn [self o_res o_self o_world o_trace app].
  rewrite !Z.gtb_ltb. change HEADER_SLOT with 16.
  rewrite (wrap_small 64 (16 + n)) by lia.
  change (align_up (16 + n) + ROLL_TOTAL) with (needed n).
  assert (0 <= needed n) by (unfold needed; change ROLL_TOTAL with 56; change HEADER_SLOT with 16; lia).
  rewrite (wrap_small 64 (needed n)) by lia.
  rewrite (wrap_small 64 (FIRST_RECORD + needed n)) by (change FIRST_RECORD with 208; lia).
  destruct (_ && _); [done|]. destruct (_ <? _); [done|]. destruct (_ && _); [done|].
  by destruct (bind _ _ w wd).
Qed.
