(* ===== verification/Demo.v ===== *)
(** * A concrete channel for the witnesses

    A 4 KiB-region channel in an empty directory, built, reserved in, and with one record committed,
    each computed by the model. *)

From Stdlib Require Import String.
From S2P Require Import Prelude Bytes Crc32c Effects Region Channel V4 V4Facts Names Segment Chain RegionFacts SegmentFacts Helper Prefault Writer MapAhead Reader Api WriterInv CommitFacts ReserveFacts PrepareFacts RollFacts RecoverFacts ReaderFacts Route RouteFacts OpenFacts LocateFacts SeekFacts Carry Carried Joining WriterFacts.

#[local] Open Scope string_scope.
#[local] Open Scope list_scope.
#[local] Open Scope Z_scope.

#[export] Existing Instance env0.

#[export] Instance env0_ok : EnvOk.
Proof. constructor. exists 1. done. Qed.

Definition world0 : world := World ∅ ∅ 1 0 (Oracle [] [id_of 1; id_of 2; id_of 3] [] []) [].

Definition builder0 : WriterBuilder :=
  MkWriterBuilder "c" 4096 8192 0 (Some 2) (zeros 48) 100 7 true None Immediate.

(** The outcome of a run, where it returned. *)
Definition returned {S A} (o : outcome S A) (d : A) : A := match o_res o with Ok a => a | _ => d end.

Example builder0_by_options :
  WriterBuilder_keep_files 2 (WriterBuilder_wake_readers true (WriterBuilder_generation 7 (WriterBuilder_base_record_index 100
    (WriterBuilder_file_roll_size 8192 (WriterBuilder_region_size 4096 (WriterBuilder_new "c")))))) = Ok builder0.
Proof. reflexivity. Qed.

Definition no_writer : Writer :=
  MkWriter None None Immediate [] "" 0 [] 0 0 (Mapping 0 0 0) (Mapping 0 0 0) 0 0 0 0 None [] 0 None false [].

Definition built := WriterBuilder_build builder0 tt world0.
Definition w0 : Writer := Eval vm_compute in returned built no_writer.
Definition wd0 : world := Eval vm_compute in o_world built.

Definition reserved0 := try_reserve 100 w0 wd0.
Definition w1 : Writer := Eval vm_compute in o_self reserved0.
Definition wd1 : world := Eval vm_compute in o_world reserved0.

Lemma built_returns : o_res built = Ok w0 /\ o_world built = wd0.
Proof. split; vm_compute; reflexivity. Qed.

Lemma w0_ok : writer_ok w0 wd0 [].
Proof.
  constructor; try (vm_compute; reflexivity).
  - by vm_compute.
  - by vm_compute.
  - by vm_compute.
  - right. by vm_compute.
  - constructor; try (vm_compute; reflexivity); [constructor|by vm_compute].
Qed.

Lemma wd0_calm : calm wd0.
Proof. done. Qed.

(** ** The facts the properties ask for *)

Ltac by_bytes := split; [reflexivity|repeat constructor; lia].

Lemma zeros_name_ok : name_ok (zeros 48).
Proof. split; [done|]. apply zeros_byte. Qed.

Lemma id_of_ok n : 0 <= n <= 200 -> id_ok (id_of n).
Proof.
  intros. split; [done|]. unfold id_of. apply Forall_forall. intros b.
  rewrite list_elem_of_fmap. intros (k & -> & Hk). apply elem_of_seq in Hk. unfold is_byte. lia.
Qed.

Lemma w0_can_roll : can_roll w0 wd0 (id_of 2) [id_of 3] 8192.
Proof.
  constructor; try (vm_compute; reflexivity); try (by vm_compute).
  - split; [apply (id_of_ok 1); lia|by vm_compute].
  - apply zeros_name_ok.
  - split; [apply id_of_ok; lia|by vm_compute].
Qed.

Lemma w0_keep : keep_ok w0.
Proof. by vm_compute. Qed.

Lemma w0_room : has_room w0 wd0.
Proof.
  split; [by vm_compute|]. right. split_and!; [by vm_compute|apply w0_keep|].
  exists (id_of 2), [id_of 3], 8192. apply w0_can_roll.
Qed.

Lemma w0_admissible n : 0 <= n <= 3000 -> admissible w0 n.
Proof.
  intros Hn. pose proof (needed_bounds n ltac:(lia)) as [Hb _]. constructor; [lia|by left|..].
  - change (w_region_size w0) with 4096. lia.
  - right. change (w_file_roll_size w0) with 8192. change FIRST_RECORD with 208. lia.
Qed.

Lemma w1_ok : writer_ok w1 wd1 [].
Proof.
  constructor; try (vm_compute; reflexivity); try (by vm_compute).
  - right. by vm_compute.
  - constructor; try (vm_compute; reflexivity); [constructor|by vm_compute].
Qed.

Lemma w1_reserved : reserved w1 wd1 100.
Proof. constructor; try (vm_compute; reflexivity); by vm_compute. Qed.

Definition path0 : string := channel_file_name "c" 0.

Lemma w_reopenable w wd : w = w0 /\ wd = wd0 \/ w = w1 /\ wd = wd1 -> reopenable w wd path0 0.
Proof.
  intros Hw. constructor.
  - destruct Hw as [[-> ->]|[-> ->]]; vm_compute; reflexivity.
  - exists 8192. destruct Hw as [[-> ->]|[-> ->]]; (split; [vm_compute; reflexivity|by vm_compute]).
  - exists (Identity_initial (id_of 1)).
    destruct Hw as [[-> ->]|[-> ->]]; constructor; vm_compute; reflexivity.
Qed.

(** ** A reader of the channel *)

Definition no_reader : Reader :=
  MkReader None None Immediate [] "" 0 0 0 0 0 0 [] 0 0 None [] [] [] (Mapping 0 0 0) [] false None.

Definition opened := open_with "c" LateJoin None tt wd1.
Definition rd1 : Reader := Eval vm_compute in returned opened no_reader.

Definition committed1 := Writer_commit 5 60 9 w1 wd1.
Definition w2 : Writer := Eval vm_compute in o_self committed1.
Definition wd2 : world := Eval vm_compute in o_world committed1.

Lemma opened_returns : o_res opened = Ok rd1 /\ o_world opened = wd1.
Proof. split; vm_compute; reflexivity. Qed.

Lemma committed1_run :
  o_res committed1 = Ok tt /\ w2 = o_self committed1 /\ wd2 = o_world committed1.
Proof. split_and!; vm_compute; reflexivity. Qed.

(** The record of [Writer_commit 5 60 9 w1]. *)
Definition entry1 : Entry := MkEntry 208 (Header COMMITTED (HeaderType_u8 User) 5 60 9).

(** The first segment from its start. *)
Definition leg0 (es : list Entry) (q : Z) : Leg := MkLeg 1 0 (id_of 1) 100 es q.

Lemma rd1_on_route wd es q :
  len_of wd 1 = 8192 -> in_file 4096 8192 q -> q mod 4096 + HEADER_SLOT <= 4096 ->
  message_header (data_of wd 1) 0 = channel_record -> chain 4096 (data_of wd 1) 0 es q ->
  get 8 (data_of wd 1) OFF_channel_sequence = 0 -> w_dir wd !! "c" <> Some DDir -> users es < 100 ->
  get 1 (data_of wd 1) q = NOT_COMMITTED -> on_route rd1 wd (leg0 es q) [].
Proof.
  intros Hl Hin Hroom Hh Hch Hsq Hd Hu Hend. pose proof (users_nonneg es).
  assert (Hlen : len_of wd 1 < 2 ^ 63) by (rewrite Hl; done).
  assert (Hin' : in_file 4096 (len_of wd 1) q) by (by rewrite Hl).
  split; [|by apply route_end]. constructor; [|reflexivity..| |exact Hd].
  - constructor; [by vm_compute|vm_compute; reflexivity|vm_compute; reflexivity|by vm_compute|by vm_compute
      |exact Hlen|exact Hin'|exact Hroom|exact Hch|vm_compute; reflexivity].
  - constructor; [exact Hlen|exact Hin'|exact Hroom|by left|exact Hch|exact Hsq|cbn; lia].
Qed.

(** [rd1] stands before the first record of the still empty channel. *)
Lemma rd1_follows w wd :
  w = w0 /\ wd = wd0 \/ w = w1 /\ wd = wd1 -> reaches rd1 w wd [] (leg0 [channel_entry] 208) [].
Proof.
  intros Hw. assert (Hch : message_header (data_of wd 1) 0 = channel_record).
  { destruct Hw as [[_ ->]|[_ ->]]; vm_compute; reflexivity. }
  constructor.
  - apply rd1_on_route; try done; try (destruct Hw as [[_ ->]|[_ ->]]; by vm_compute).
    apply channel_chain; [by vm_compute|done].
  - constructor; [|constructor]. destruct Hw as [[_ ->]|[_ ->]]; by vm_compute.
  - destruct Hw as [[-> _]|[-> _]]; done.
  - destruct Hw as [[-> _]|[-> _]]; done.
  - destruct Hw as [[-> ->]|[-> ->]]; by vm_compute.
  - destruct Hw as [[-> ->]|[-> ->]]; vm_compute; reflexivity.
Qed.

(** What a scan of the directory finds is the segment of the writer. *)
Lemma w0_holds : holds w0 wd0 [] (leg0 [channel_entry] 208) [].
Proof.
  assert (Hr : reaches rd1 w0 wd0 [] (leg0 [channel_entry] 208) []) by (apply rd1_follows; by left).
  constructor; [|apply Hr|apply Hr|by vm_compute].
  constructor.
  - by vm_compute.
  - by vm_compute.
  - constructor.
    + vm_compute. reflexivity.
    + exists (Identity_initial (id_of 1)). split; [|vm_compute; reflexivity]. constructor; vm_compute; reflexivity.
    + vm_compute. reflexivity.
    + vm_compute. reflexivity.
    + exact (st_leg _ _ _ (proj1 (rc_route _ _ _ _ _ _ Hr))).
  - exact (proj2 (rc_route _ _ _ _ _ _ Hr)).
  - vm_compute. reflexivity.
  - vm_compute. reflexivity.
  - vm_compute. reflexivity.
Qed.

(** ... and with one message ahead of it once that is committed. *)
Lemma rd1_ahead : on_route rd1 wd2 (leg0 [channel_entry; entry1] 288) [].
Proof.
  apply rd1_on_route; try (by vm_compute).
  apply (chain_app 4096 _ 0 [channel_entry] 208 [entry1] 288); [apply channel_chain; by vm_compute|].
  apply (chain_cons _ _ entry1 []).
  - constructor; [by vm_compute|vm_compute; reflexivity|done|right; by left|by vm_compute].
  - replace (en_next entry1) with 288 by (vm_compute; reflexivity). constructor.
Qed.

Lemma wd2_calm : calm wd2.
Proof. done. Qed.
