(* ===== verification/WriterTheorems.v ===== *)
(** * What the writer guarantees

    The properties of appending, of moving to the next region or file, and of recovering after a
    crash, each with a run of the model that satisfies its hypotheses. *)

From Stdlib Require Import String.
From S2P Require Import Prelude Bytes Crc32c Effects Region Channel V4 V4Facts Names NamesFacts Segment Chain RegionFacts SegmentFacts Helper Prefault Writer WriterInv CommitFacts ReserveFacts PrepareFacts RollFacts RecoverFacts WriterFacts Demo.

#[local] Open Scope string_scope.
#[local] Open Scope list_scope.
#[local] Open Scope Z_scope.

Section theorems.
Context `{EnvOk}.

(** C5: reserving, writing and committing a message appends exactly that message, with its type and
    user word, to what readers of the channel find: at the end of the writer's file, or alone in the
    file it rolled to; it takes the next index of the channel's numbering. *)
Theorem send_appends_the_message w wd es mt meta payload :
  calm wd -> writer_ok w wd es -> admissible w (Z.of_nat (length payload)) -> has_room w wd ->
  0 <= mt < 2 ^ 16 -> 0 <= meta < 2 ^ 64 -> Forall is_byte payload ->
  let o := send mt meta payload w wd in
  let w' := o_self o in
  let wd' := o_world o in
  o_res o = Ok tt /\
  exists es', writer_ok w' wd' es' /\ next_index w' wd' es' = next_index w wd es + 1 /\
    ((w_file w' = w_file w /\ w_file_sequence w' = w_file_sequence w /\
      messages (data_of wd' (w_file w')) es' =
        messages (data_of wd (w_file w)) es ++ [MkMessage mt meta payload]) \/
     (w_file_sequence w' = w_file_sequence w + 1 /\
      messages (data_of wd' (w_file w')) es' = [MkMessage mt meta payload])).
Proof.
  intros Hc Hw Had Hroom Hmt Hmeta Hpay o w' wd'.
  destruct (send_run w wd es mt meta payload Hc Hw Had Hroom Hmt Hmeta Hpay) as [(? & ? & es' & ? & ? & ? & ?) _].
  split; [done|]. by exists es'.
Qed.

(** A commit appends exactly the reserved record and keeps every record before it, whatever
    length up to the reservation is committed; the writer is ready for the next reservation. *)
Theorem commit_appends_the_record w wd es n mt len meta :
  quiet wd -> writer_ok w wd es -> reserved w wd n ->
  0 <= mt < 2 ^ 16 -> 0 <= len <= n -> 0 <= meta < 2 ^ 64 ->
  let o := Writer_commit mt len meta w wd in
  let d := data_of wd (w_file w) in
  let d' := data_of (o_world o) (w_file w) in
  o_res o = Ok tt /\ writer_ok (o_self o) (o_world o) (es ++ [new_entry w mt len meta]) /\
  messages d' (es ++ [new_entry w mt len meta]) =
    messages d es ++ [MkMessage mt meta (peek d (w_next_hdr_pos w + HEADER_SLOT) (Z.to_nat len))].
Proof.
  intros Hq Hw Hr Hmt Hl Hmeta o d d'.
  destruct (commit_run w wd es n mt len meta Hq Hw Hr Hmt Hl Hmeta) as [(E & Hok & _ & Hm & Hs & _) _].
  split_and!; [done|done|]. rewrite messages_app. f_equal.
  - symmetry. eapply messages_same; [exact Hs|exact (sg_chain _ _ _ _ (wk_segment _ _ _ Hw))].
  - unfold messages. cbn [List.filter map]. change (is_user (new_entry w mt len meta)) with true. cbn [map].
    unfold d', o. by rewrite Hm.
Qed.

(** C6: at every point of a commit a reader finds either the records before it or those and the new
    one, never part of a record; the advisory pair is never ahead of the records and lags by at most
    the record being committed. *)
Theorem commit_is_atomic_for_readers w wd es n mt len meta :
  quiet wd -> writer_ok w wd es -> reserved w wd n ->
  0 <= mt < 2 ^ 16 -> 0 <= len <= n -> 0 <= meta < 2 ^ 64 ->
  let e := new_entry w mt len meta in
  Forall (fun wd' =>
    let d := data_of wd' (w_file w) in
    let count := get 8 d OFF_message_count in
    let position := get 8 d OFF_write_position in
    (sees (w_region_size w) d es (en_pos e) /\ count = users es /\ position = en_pos e + HEADER_SLOT) \/
    (sees (w_region_size w) d (es ++ [e]) (en_next e) /\
     (count = users es \/ count = users es + 1) /\
     (position = en_pos e + HEADER_SLOT \/ (position = en_next e + HEADER_SLOT /\ count = users es + 1))))
    (o_trace (Writer_commit mt len meta w wd)).
Proof.
  intros Hq Hw Hr Hmt Hl Hmeta e.
  destruct (commit_run w wd es n mt len meta Hq Hw Hr Hmt Hl Hmeta) as [_ Htr].
  eapply Forall_impl; [exact Htr|]. intros wd' [[_ Ha] _ _ _ _].
  change (is_user (new_entry w mt len meta)) with true in Ha. cbv zeta in Ha. cbv zeta. fold e in Ha. tauto.
Qed.

(** C7: a crash at any point of a commit is recovered by reopening the file: the writer resumes after
    exactly the records readers find, the advisory pair is right again, no message is lost or
    changed, and a crash during that recovery is recovered the same way. *)
Theorem crash_in_commit_is_recovered w wd es n mt len meta path seq :
  calm wd -> writer_ok w wd es -> reserved w wd n -> reopenable w wd path seq ->
  0 <= mt < 2 ^ 16 -> 0 <= len <= n -> 0 <= meta < 2 ^ 64 ->
  Forall (recoverable w path seq es (new_entry w mt len meta)) (o_trace (Writer_commit mt len meta w wd)).
Proof.
  intros Hc Hw Hr Hre Hmt Hl Hmeta.
  destruct (commit_run w wd es n mt len meta (proj1 Hc) Hw Hr Hmt Hl Hmeta) as [_ Htr].
  eapply Forall_impl; [exact Htr|]. intros wd' Hi.
  eapply interrupted_recoverable; [exact Hc|exact Hw|exact Hre|by eapply new_entry_next_ok|done|exact Hi].
Qed.

(** C8: moving to the next region appends one [Skip] that fills the rest of this one: no message
    appears or disappears, the next slot is at the start of the next region, the file has grown to
    hold it, and a crash at any point of the move is recovered by reopening the file. *)
Theorem region_move_keeps_messages w wd es path seq :
  calm wd -> writer_ok w wd es -> reopenable w wd path seq ->
  (w_next_hdr_pos w / w_region_size w + 2) * w_region_size w <= I64_MAX ->
  let o := roll_over_region w wd in
  let e := skip_entry w in
  o_res o = Ok tt /\ writer_ok (o_self o) (o_world o) (es ++ [e]) /\
  w_next_hdr_pos (o_self o) = (w_next_hdr_pos w / w_region_size w + 1) * w_region_size w /\
  messages (data_of (o_world o) (w_file w)) (es ++ [e]) = messages (data_of wd (w_file w)) es /\
  Forall (recoverable w path seq es e) (o_trace o).
Proof.
  intros Hc Hw Hre Hmax o e.
  destruct (roll_over_run w wd es Hc Hw Hmax) as [(E & Hok & _ & Hn & _ & Hs & _) Htr].
  split_and!; [done|done| | |].
  - unfold o. rewrite Hn. by apply (skip_next w wd es).
  - unfold o, e. rewrite messages_skip. symmetry.
    eapply messages_same; [|exact (sg_chain _ _ _ _ (wk_segment _ _ _ Hw))]. eapply same_sub; [exact Hs|done|lia].
  - eapply Forall_impl; [exact Htr|]. intros wd' Hi.
    eapply interrupted_recoverable; [exact Hc|exact Hw|exact Hre|by eapply skip_next_ok|done|exact Hi].
Qed.

(** C9: every admissible reservation succeeds, whatever is left of the region and of the file: the
    loop ends within [RESERVE_FUEL] turns, the payload lies after the slot in the writer's region,
    no message is added, lost or renumbered, and the next record keeps its index. *)
Theorem every_admissible_reservation_succeeds w wd es n :
  calm wd -> writer_ok w wd es -> admissible w n -> has_room w wd ->
  let o := try_reserve n w wd in
  exists es', reservation w wd es n (o_res o) (o_self o) (o_world o) es'.
Proof. intros Hc Hw Had Hroom. by apply (try_reserve_run w wd es n). Qed.

(** C14: a reservation that does not fit the limits is refused with the limit's error, and neither the
    writer nor the file has changed: first the MTU, whatever the size; then the region, then the
    file, for every size less than 2^64 - 287.  (With a larger size the sums the code makes for
    these two checks may leave 64 bits and wrap: see Findings.reservation_wraps.) *)
Theorem oversized_reservation_is_refused w wd n :
  0 <= n < 2 ^ 64 ->
  let mtu := 0 < w_mtu w < n in
  let region := w_region_size w < needed n in
  let file := 0 < w_file_roll_size w < FIRST_RECORD + needed n in
  let refused msg := try_reserve n w wd = Outcome (Err (err_other msg)) w wd [] in
  (mtu -> refused "MTU exceeded") /\
  (~ mtu -> n < 2 ^ 64 - 287 -> region -> refused "reservation cannot fit in region_size") /\
  (~ mtu -> n < 2 ^ 64 - 287 -> ~ region -> file -> refused "reservation cannot fit in file_roll_size").
Proof.
  intros [Hn _] mtu region file refused. split; [by apply try_reserve_mtu|].
  assert (E : n < 2 ^ 64 - 287 -> _) by exact (fun Hlt => proj1 (try_reserve_checks n w wd Hn ltac:(lia))).
  unfold refused, mtu, region, file. clear refused mtu region file.
  pose proof (Z_range_spec (w_mtu w) n) as Hm.
  pose proof (Z_range_spec (w_file_roll_size w) (FIRST_RECORD + needed n)) as Hf.
  pose proof (Z.ltb_lt (w_region_size w) (needed n)) as Hr.
  split; intros Hmtu Hlt; rewrite (E Hlt); destruct ((0 <? w_mtu w) && _); try (by destruct Hmtu; apply Hm).
  - intros Hreg. by rewrite (proj2 Hr Hreg).
  - intros Hreg Hfile. destruct (_ <? needed n); [by destruct Hreg; apply Hr|]. by rewrite (proj2 Hf Hfile).
Qed.

(** A commit without a reservation, or of more than was reserved, is refused; the file has not
    changed, and the reservation is gone. *)
Theorem unreserved_commit_is_refused w wd mt len meta :
  match w_pending_msg_size w with Some n => n < len | None => True end ->
  exists msg, Writer_commit mt len meta w wd = Outcome (Err (err_other msg)) (set_pending None w) wd [].
Proof.
  intros Hp. unfold Writer_commit. rewrite (reads_bind _ _ _ _ w) by apply reads_self. rewrite bind_modify.
  destruct (w_pending_msg_size w) as [n|].
  - rewrite (reads_bind _ _ _ _ n) by done.
    replace (len >? n) with true by (symmetry; rewrite Z.gtb_ltb; by apply Z.ltb_lt).
    eexists. reflexivity.
  - eexists. by apply reads_bind_err.
Qed.

(** C11: a roll ends the file with a [Roll] that names its successor, keeps every record of the old
    file, and leaves the writer in a new, empty file that is installed under the next sequence,
    published, hung under the old file's identity, and numbered from the record after the last. *)
Theorem roll_continues_the_channel w wd es id rest len :
  calm wd -> writer_ok w wd es -> can_roll w wd id rest len -> keep_ok w ->
  let o := roll_file w wd in
  o_res o = Ok tt /\ rolled_ok w wd es id len (o_self o) (o_world o) /\
  next_index (o_self o) (o_world o) [] = next_index w wd es.
Proof.
  intros Hc Hw Hr Hk o. destruct (roll_file_run w wd es id rest len Hc Hw Hr Hk) as [[E Hro] _].
  split_and!; [done|done|]. destruct Hro as [Ew _ (i & Hsb & _) _ _ _ _ _ _].
  unfold next_index, o. rewrite Ew. change (w_file (rolled_writer w id (w_next wd) len)) with (w_next wd).
  change (users []) with 0. rewrite (sb_base _ _ _ _ _ _ Hsb). cbn [next_base_record_index edge_of].
  rewrite (sg_count _ _ _ _ (wk_segment _ _ _ Hw)). lia.
Qed.

(** C10: no reader can meet a committed [Roll] whose successor is not there: at every point of a roll
    the old file's records are intact, and once its [Roll] is committed the name it leads to holds
    a published, empty segment that the [Roll] names, numbered from the record it says. *)
Theorem committed_roll_leads_to_its_successor w wd es id rest len :
  calm wd -> writer_ok w wd es -> can_roll w wd id rest len -> keep_ok w ->
  Forall (roll_safe w es (generation_of w wd) (edge_of w wd id)) (o_trace (roll_file w wd)).
Proof.
  intros Hc Hw Hr Hk. eapply Forall_impl; [apply (roll_file_run w wd es id rest len Hc Hw Hr Hk)|].
  by intros wd' [Hs _].
Qed.

End theorems.

(** ** Witnesses *)

Lemma send_appends_the_message_witness :
  o_res (send 7 9 [1; 2; 3] w0 wd0) = Ok tt.
Proof.
  apply (send_appends_the_message w0 wd0 [] 7 9 [1; 2; 3]);
    [exact wd0_calm|exact w0_ok|apply w0_admissible; cbn; lia|exact w0_room|lia|lia|by repeat constructor].
Defined.

Lemma commit_is_atomic_for_readers_witness :
  Forall (fun wd' =>
    let d := data_of wd' (w_file w1) in
    let count := get 8 d OFF_message_count in
    let position := get 8 d OFF_write_position in
    let e := new_entry w1 5 60 9 in
    (sees (w_region_size w1) d [] (en_pos e) /\ count = 0 /\ position = en_pos e + HEADER_SLOT) \/
    (sees (w_region_size w1) d [e] (en_next e) /\ (count = 0 \/ count = 0 + 1) /\
     (position = en_pos e + HEADER_SLOT \/ (position = en_next e + HEADER_SLOT /\ count = 0 + 1))))
    (o_trace (Writer_commit 5 60 9 w1 wd1)).
Proof.
  apply (commit_is_atomic_for_readers w1 wd1 [] 100); [done|exact w1_ok|exact w1_reserved|lia|lia|lia].
Defined.

Lemma crash_in_commit_is_recovered_witness :
  Forall (recoverable w1 path0 0 [] (new_entry w1 5 60 9)) (o_trace (Writer_commit 5 60 9 w1 wd1)).
Proof.
  apply (crash_in_commit_is_recovered w1 wd1 [] 100);
    [done|exact w1_ok|exact w1_reserved|apply w_reopenable; by right|lia|lia|lia].
Defined.

Lemma region_move_keeps_messages_witness :
  o_res (roll_over_region w0 wd0) = Ok tt /\
  Forall (recoverable w0 path0 0 [] (skip_entry w0)) (o_trace (roll_over_region w0 wd0)).
Proof.
  destruct (region_move_keeps_messages w0 wd0 [] path0 0) as (E & _ & _ & _ & Hf);
    [exact wd0_calm|exact w0_ok|apply w_reopenable; by left|by vm_compute|]. exact (conj E Hf).
Defined.

Lemma every_admissible_reservation_succeeds_witness :
  exists es', reservation w0 wd0 [] 3000 (o_res (try_reserve 3000 w0 wd0))
    (o_self (try_reserve 3000 w0 wd0)) (o_world (try_reserve 3000 w0 wd0)) es'.
Proof.
  apply (every_admissible_reservation_succeeds w0 wd0 [] 3000);
    [exact wd0_calm|exact w0_ok|apply w0_admissible; lia|exact w0_room].
Defined.

Lemma oversized_reservation_is_refused_witness :
  try_reserve 4096 w0 wd0 = Outcome (Err (err_other "reservation cannot fit in region_size")) w0 wd0 [].
Proof. apply (oversized_reservation_is_refused w0 wd0 4096); [lia|by intros []|lia|by vm_compute]. Defined.

Lemma roll_continues_the_channel_witness :
  o_res (roll_file w0 wd0) = Ok tt.
Proof.
  apply (roll_continues_the_channel w0 wd0 [] (id_of 2) [id_of 3] 8192);
    [exact wd0_calm|exact w0_ok|exact w0_can_roll|exact w0_keep].
Defined.

Lemma committed_roll_leads_to_its_successor_witness :
  Forall (roll_safe w0 [] (generation_of w0 wd0) (edge_of w0 wd0 (id_of 2))) (o_trace (roll_file w0 wd0)).
Proof.
  apply (committed_roll_leads_to_its_successor w0 wd0 [] (id_of 2) [id_of 3] 8192);
    [exact wd0_calm|exact w0_ok|exact w0_can_roll|exact w0_keep].
Defined.
