(* ===== verification/ReaderTheorems.v ===== *)
(** * What the reader guarantees

    Each way of reading delivers the user records ahead of the reader, over regions and files, in
    order and with their contents, also while the writer is in the middle of appending the next one,
    of moving to its next region, or of rolling to its next file. *)

From Stdlib Require Import String.
From S2P Require Import Prelude Bytes Crc32c Effects Region Channel V4 V4Facts Names Segment Helper Prefault Writer MapAhead Reader Chain RegionFacts SegmentFacts WriterInv CommitFacts ReserveFacts PrepareFacts RollFacts RecoverFacts ReaderFacts Route RouteFacts Carry Carried WriterFacts Demo.

#[local] Open Scope list_scope.
#[local] Open Scope Z_scope.

Section theorems.
Context `{EnvOk}.
Implicit Types (r : Reader) (l : Leg) (ls : list Leg).

(** C15: [owned_batch] delivers the messages ahead of the reader in order, whatever service records,
    regions and files lie between them, up to the limit, each with its header and payload; the rest
    stays ahead, and the position is then the index of the first of the rest. *)
Theorem owned_batch_delivers_in_order r wd l ls max :
  calm wd -> on_route r wd l ls -> 0 <= max ->
  batch_delivers r wd l ls (route_messages wd l ls) max.
Proof. apply owned_batch_run. Qed.

(** C17: [try_read] delivers the next message ahead of the reader, whatever service records, regions
    and files lie before it, with its header and payload, and moves past it, counting one record;
    without a message ahead it delivers nothing; it writes nothing. *)
Theorem try_read_delivers_the_next_message r wd l ls :
  calm wd -> on_route r wd l ls ->
  exists v r', runs try_read r wd (Ok v) r' /\
    match route_messages wd l ls with
    | [] => v = None /\ goes_on r wd l ls [] r'
    | m :: ms => (exists view, v = Some view /\ shows wd view m) /\ goes_on r wd l ls ms r'
    end.
Proof. intros Hc Hr. by apply try_read_run. Qed.

(** C19: peeking and polling agree with reading and consume nothing: they report the header of the
    next message ahead, if there is one, and leave the messages ahead and the position as they were. *)
Theorem peek_does_not_consume r wd l ls :
  calm wd -> on_route r wd l ls ->
  let ms := route_messages wd l ls in
  exists r', runs peek_header r wd (Ok (peeked <$> hd_error ms)) r' /\
    runs poll_for_user_message r wd (Ok (bool_decide (ms <> []))) r' /\
    goes_on r wd l ls ms r' /\ r_position r' = r_position r.
Proof.
  intros Hc Hr ms. destruct (peek_run r wd l ls Hc Hr) as (r' & H1 & H2 & H3). exists r'.
  split_and!; [done|done|done|]. rewrite (go_index _ _ _ _ _ _ H3).
  rewrite (st_index _ _ _ (proj1 Hr)), <- (route_index _ _ _ _ _ _ (proj2 Hr)). unfold ms. lia.
Qed.

(** ** Reading while the writer appends *)

(** A batch read of [r] in [wd] delivers, up to the limit, the messages [ms]; the route of [r] ends
    at [t]. *)
Definition delivers r wd (ms : list Message) (t : Leg) (max : Z) : Prop :=
  exists l ls, route_messages wd l ls = ms /\ tip l ls = t /\ batch_delivers r wd l ls ms max.

Lemma delivers_route r wd l ls ms t max :
  calm wd -> on_route r wd l ls -> route_messages wd l ls = ms -> tip l ls = t -> 0 <= max ->
  delivers r wd ms t max.
Proof. intros Hc Hr Hm Ht Hmax. exists l, ls. split_and!; [done..|]. rewrite <- Hm. by apply owned_batch_run. Qed.

Lemma delivers_reaches r (w : Writer) wd es l ls ms max :
  calm wd -> reaches r w wd es l ls -> route_messages wd l ls = ms -> 0 <= max ->
  delivers r wd ms (slot_of w wd es) max.
Proof. intros Hc Hr Hm Hmax. eapply delivers_route; [done|apply Hr|done|apply Hr|done]. Qed.

(** A reader in the middle of an append: the messages ahead, with or without the new one. *)
Lemma interrupted_delivers r (w : Writer) wd es l ls e wd' max :
  calm wd -> writer_ok w wd es -> reaches r w wd es l ls -> en_pos e = w_next_hdr_pos w ->
  next_ok (w_region_size w) e -> 0 <= mh_length (en_head e) ->
  next_index w wd es + users [e] < 2 ^ 64 -> 0 <= max -> interrupted (w_file w) (w_region_size w) es e wd wd' ->
  let old := route_messages wd l ls in
  delivers r wd' old (slot_of w wd es) max \/
  exists t, delivers r wd' (old ++ messages (data_of wd (w_file w)) [e]) t max.
Proof.
  intros Hc Hw Hr He Hnx Hlen Hix Hmax Hi old. pose proof Hi as [[Hh Happ] Hk Hg [Hs Hpay] Hl Hnext].
  pose proof (grows_calm _ _ _ Hg Hc) as Hc'. rewrite He in Hs. unfold I64_MAX in Hl.
  pose proof (wk_segment _ _ _ Hw) as Hseg. pose proof (gr_len _ _ _ Hg) as Hgl.
  assert (Hgo : forall xs q', appended (w_file w) (w_region_size w) (w_next_hdr_pos w) wd wd' xs q' ->
    next_index w wd es + users xs < 2 ^ 64 ->
    delivers r wd' (old ++ messages (data_of wd' (w_file w)) xs)
      (MkLeg (w_file w) (w_file_sequence w) (w_instance w) (next_index w wd es + users xs) [] q') max).
  { intros xs q' Ha Hlt. destruct (reaches_appended _ _ _ _ _ _ _ _ _ Hr Ha Hlt) as (l' & ls' & R1 & R2 & R3 & _).
    by eapply delivers_route. }
  destruct Happ as [([Hch Hend] & _)|([Hch Hend] & _ & _)].
  - left. specialize (Hgo [] (w_next_hdr_pos w)). rewrite app_nil_r, Z.add_0_r in Hgo. apply Hgo; [|by eapply reaches_index].
    rewrite He in *. constructor; try done; [constructor|lia| |].
    + pose proof (wk_in_file _ _ _ Hw) as Hin. unfold in_file in *. lia.
    + pose proof (sg_room _ _ _ _ Hseg) as Hro. change ROLL_TOTAL with 56 in Hro. change HEADER_SLOT with 16. lia.
  - right. eexists. replace (messages (data_of wd (w_file w)) [e]) with (messages (data_of wd' (w_file w)) [e]).
    2: { unfold messages. cbn [List.filter]. destruct (is_user e); [|done]. cbn [map]. f_equal. symmetry.
         by apply message_of_same. }
    apply (Hgo [e] (en_next e)); [|done].
    assert (Hat : entry_at (w_region_size w) (data_of wd' (w_file w)) e) by (eapply chain_entry; [exact Hch|by apply elem_of_app_last]).
    constructor; try done; [|lia| |].
    + rewrite <- He. by apply (chain_cons _ _ e []); [|constructor].
    + destruct Hnext as [Hn|Hn]; [|done]. exfalso. pose proof (entry_committed _ _ e Hat) as Hec. by rewrite Hn in Hec.
    + pose proof (nx_next_room _ _ Hnx). change HEADER_SLOT with 16. change ROLL_TOTAL with 56 in *. lia.
Qed.

(** C16: a reader that polls while the writer commits, between any two of its stores, is delivered
    the messages ahead of it as before the commit, or those and the whole new message, never part
    of a message; and once the commit has returned the new message is among them, and the reader's
    route ends at the writer's next slot. *)
Theorem commit_reaches_readers_whole r (w : Writer) wd es l ls n mt len meta max :
  calm wd -> writer_ok w wd es -> reserved w wd n -> reaches r w wd es l ls ->
  0 <= mt < 2 ^ 16 -> 0 <= len <= n -> 0 <= meta < 2 ^ 64 -> next_index w wd es + 1 < 2 ^ 64 -> 0 <= max ->
  let old := route_messages wd l ls in
  let new := MkMessage mt meta (peek (data_of wd (w_file w)) (w_next_hdr_pos w + HEADER_SLOT) (Z.to_nat len)) in
  let o := Writer_commit mt len meta w wd in
  Forall (fun wd' => delivers r wd' old (slot_of w wd es) max \/ exists t, delivers r wd' (old ++ [new]) t max) (o_trace o) /\
  delivers r (o_world o) (old ++ [new]) (slot_of (o_self o) (o_world o) (es ++ [new_entry w mt len meta])) max.
Proof.
  intros Hc Hw Hres Hr Hmt Hl Hmeta Hix Hmax old new o. set (e := new_entry w mt len meta).
  pose proof (new_entry_next_ok w wd es n mt len meta Hw Hres Hl) as Hnx. fold e in Hnx.
  destruct (commit_run w wd es n mt len meta (proj1 Hc) Hw Hres Hmt Hl Hmeta)
    as [(_ & Hok & Ew & Hmsg & Hs & Hk & Hfr) Htr]. fold o e in Hok, Ew, Hmsg, Hs, Hk, Hfr, Htr.
  split.
  - eapply Forall_impl; [exact Htr|]. intros wd' Hi.
    apply (interrupted_delivers r w wd es l ls e wd' max); try done. cbn. lia.
  - destruct (append_readers w (o_self o) wd (o_world o) es [e] Hw Hok) with (r := r) (l := l) (ls := ls)
      as (l' & ls' & R1 & R2 & _); try done; [by rewrite Ew|by apply frame_grows|by right|].
    eapply delivers_reaches; [by eapply frame_calm|exact R1| |done]. rewrite R2. unfold messages.
    cbn [List.filter]. change (is_user e) with true. cbn [map]. by rewrite Hmsg.
Qed.

(** C20: readers do not notice that the writer moves to the next region: at every point of the move
    they are delivered exactly the messages that were ahead of them. *)
Theorem region_move_is_invisible_to_readers r (w : Writer) wd es l ls max :
  calm wd -> writer_ok w wd es -> reaches r w wd es l ls ->
  (w_next_hdr_pos w / w_region_size w + 2) * w_region_size w <= I64_MAX -> 0 <= max ->
  let old := route_messages wd l ls in
  let o := roll_over_region w wd in
  Forall (fun wd' => exists t, delivers r wd' old t max) (o_trace o) /\
  delivers r (o_world o) old (slot_of (o_self o) (o_world o) (es ++ [skip_entry w])) max.
Proof.
  intros Hc Hw Hr Hroom Hmax old o.
  destruct (roll_over_run w wd es Hc Hw Hroom) as [(_ & Hok & _ & _ & Hsc & Hs & Hg & Hk) Htr].
  fold o in Hok, Hsc, Hs, Hg, Hk, Htr. split.
  - eapply Forall_impl; [exact Htr|]. intros wd' Hi.
    assert (Hl : 0 <= mh_length (en_head (skip_entry w))).
    { pose proof (sg_room _ _ _ _ (wk_segment _ _ _ Hw)) as Hro. change ROLL_TOTAL with 56 in Hro.
      cbn. change HEADER_SLOT with 16. lia. }
    destruct (interrupted_delivers r w wd es l ls (skip_entry w) wd' max Hc Hw Hr) as [Hd|[t Hd]]; try done.
    + by eapply skip_next_ok.
    + change (users [skip_entry w]) with 0. rewrite Z.add_0_r. by eapply reaches_index.
    + by eexists.
    + exists t. change (messages (data_of wd (w_file w)) [skip_entry w]) with (@nil Message) in Hd.
      by rewrite app_nil_r in Hd.
  - destruct (proj1 (skip_carried w wd es (o_self o) (o_world o) Hw Hok Hsc Hs Hg Hk) r l ls Hr I) as (l' & ls' & R1 & R2 & _).
    eapply delivers_reaches; [by eapply grows_calm|exact R1| |done]. by rewrite R2, app_nil_r.
Qed.

(** C21: readers do not notice that the writer rolls to its next file: at every point of the roll,
    retention included, a reader whose file is kept is delivered exactly the messages that were ahead
    of it, and once the roll has returned its route ends at the first record of the new file, numbered
    from the index after the last one of the old. *)
Theorem roll_is_invisible_to_readers r (w : Writer) wd es l ls id rest len max :
  calm wd -> writer_ok w wd es -> can_roll w wd id rest len -> keep_ok w ->
  reaches r w wd es l ls -> retains w (lg_sequence l) -> 0 <= max ->
  let old := route_messages wd l ls in
  let o := roll_file w wd in
  Forall (fun wd' => exists t, delivers r wd' old t max) (o_trace o) /\
  delivers r (o_world o) old (slot_of (o_self o) (o_world o) []) max /\
  lg_index (slot_of (o_self o) (o_world o) []) = next_index w wd es.
Proof.
  intros Hc Hw Hcr Hk Hr Hret Hmax old o.
  destruct (roll_file_run w wd es id rest len Hc Hw Hcr Hk) as [(_ & Hro) Htr]. fold o in Hro, Htr.
  assert (Hat : forall wd', roll_frame w wd wd' -> roll_safe w es (generation_of w wd) (edge_of w wd id) wd' ->
    exists t, delivers r wd' old t max).
  { intros wd' Hf Hs. destruct (roll_reaches r w wd es l ls id rest len wd' Hr Hret Hw Hcr Hf Hs) as (l' & ls' & R1 & R2 & _).
    eexists. eapply delivers_route; [by apply (rf_oracle _ _ _ Hf)|done..]. }
  split_and!.
  - eapply Forall_impl; [exact Htr|]. intros wd' [Hs Hf]. by apply Hat.
  - destruct (rolled_readers w (o_self o) wd (o_world o) es id rest len Hw Hcr Hk Hro r l ls Hr Hret)
      as (l' & ls' & R1 & R2 & _).
    apply (delivers_reaches _ _ _ _ _ _ _ _ (ro_calm _ _ _ _ _ _ _ Hro) R1); [|done]. by rewrite R2, app_nil_r.
  - destruct Hro as [Ew _ (i & Hsb & _) _ _ _ _ _ _ _ _]. cbn [slot_of lg_index]. unfold next_index. rewrite Ew.
    change (w_file (rolled_writer w id (w_next wd) len)) with (w_next wd). change (users []) with 0.
    rewrite (sb_base _ _ _ _ _ _ Hsb). cbn. rewrite (sg_count _ _ _ _ (wk_segment _ _ _ Hw)). lia.
Qed.

End theorems.

(** ** Witnesses *)

Lemma try_read_delivers_the_next_message_witness :
  exists r' v, runs try_read rd1 wd2 (Ok (Some v)) r' /\ r_position r' = 101.
Proof.
  destruct (try_read_delivers_the_next_message rd1 wd2 _ _ wd2_calm rd1_ahead) as (v & r' & Hrun & Hm).
  change (route_messages wd2 (leg0 [channel_entry; entry1] 288) []) with [message_of (data_of wd2 1) entry1] in Hm.
  destruct Hm as [(view & -> & _) Hgo]. exists r', view. split; [exact Hrun|].
  rewrite (go_index _ _ _ _ _ _ Hgo). reflexivity.
Defined.

Lemma owned_batch_delivers_in_order_witness :
  batch_delivers rd1 wd2 (leg0 [channel_entry; entry1] 288) []
    (route_messages wd2 (leg0 [channel_entry; entry1] 288) []) 10.
Proof. apply (owned_batch_delivers_in_order rd1 wd2 _ [] 10 wd2_calm rd1_ahead). lia. Defined.

Lemma peek_does_not_consume_witness :
  exists r' m, runs peek_header rd1 wd2 (Ok (Some m)) r' /\ r_position r' = 100.
Proof.
  destruct (peek_does_not_consume rd1 wd2 _ _ wd2_calm rd1_ahead) as (r' & Hrun & _ & _ & Hp).
  exists r', (peeked (message_of (data_of wd2 1) entry1)). split; [exact Hrun|exact Hp].
Defined.

Lemma rd1_w1 : reaches rd1 w1 wd1 [] (leg0 [channel_entry] 208) [].
Proof. apply rd1_follows. by right. Qed.

Lemma rd1_w0 : reaches rd1 w0 wd0 [] (leg0 [channel_entry] 208) [].
Proof. apply rd1_follows. by left. Qed.

Lemma w1_next : next_index w1 wd1 [] + 1 < 2 ^ 64.
Proof. by vm_compute. Qed.

Lemma commit_reaches_readers_whole_witness :
  let o := Writer_commit 5 60 9 w1 wd1 in
  delivers rd1 (o_world o)
    (route_messages wd1 (leg0 [channel_entry] 208) [] ++ [MkMessage 5 9 (peek (data_of wd1 (w_file w1)) (w_next_hdr_pos w1 + HEADER_SLOT) (Z.to_nat 60))])
    (slot_of (o_self o) (o_world o) ([] ++ [new_entry w1 5 60 9])) 10.
Proof.
  apply (commit_reaches_readers_whole rd1 w1 wd1 [] (leg0 [channel_entry] 208) [] 100 5 60 9 10);
    [done|exact w1_ok|exact w1_reserved|exact rd1_w1|lia|lia|lia|exact w1_next|lia].
Defined.

Lemma region_move_is_invisible_to_readers_witness :
  Forall (fun wd' => exists t, delivers rd1 wd' (route_messages wd0 (leg0 [channel_entry] 208) []) t 10)
    (o_trace (roll_over_region w0 wd0)).
Proof.
  apply (region_move_is_invisible_to_readers rd1 w0 wd0 [] (leg0 [channel_entry] 208) [] 10);
    [exact wd0_calm|exact w0_ok|exact rd1_w0|by vm_compute|lia].
Defined.

Lemma roll_is_invisible_to_readers_witness :
  Forall (fun wd' => exists t, delivers rd1 wd' (route_messages wd0 (leg0 [channel_entry] 208) []) t 10)
    (o_trace (roll_file w0 wd0)).
Proof.
  apply (roll_is_invisible_to_readers rd1 w0 wd0 [] (leg0 [channel_entry] 208) [] (id_of 2) [id_of 3] 8192 10);
    [exact wd0_calm|exact w0_ok|exact w0_can_roll|exact w0_keep|exact rd1_w0|by vm_compute|lia].
Defined.
