(* ===== verification/OpenTheorems.v ===== *)
(** * What opening, seeking and the index queries guarantee

    A reader built on a channel, or moved within it, stands exactly before the record it asked for,
    across the files of the channel; an index that is not in the channel is refused, and a refused
    reader stays where it was. *)

From Stdlib Require Import String.
From S2P Require Import Prelude Bytes Crc32c Effects Region Channel V4 V4Facts Names Segment Helper Prefault Writer MapAhead Reader Chain RegionFacts SegmentFacts WriterInv CommitFacts ReserveFacts PrepareFacts RollFacts RecoverFacts ReaderFacts Route RouteFacts OpenFacts LocateFacts SeekFacts Carry Carried Joining WriterFacts Demo ReaderTheorems.

#[local] Open Scope string_scope.
#[local] Open Scope list_scope.
#[local] Open Scope Z_scope.

Section theorems.
Context `{EnvOk}.
Implicit Types (r : Reader) (l : Leg) (ls : list Leg).

(** The reader [r] is at the record [p] of the channel: its position is [p], and it is delivered the
    records from [p] on. *)
Definition reads_from r (wd wd' : world) l ls (p : Z) : Prop :=
  r_position r = p /\ same_files wd wd' /\ lg_index l <= p <= lg_index (tip l ls) /\
  forall max, 0 <= max -> delivers r wd' (drop (Z.to_nat (p - lg_index l)) (route_messages wd l ls)) (tip l ls) max.

Lemma opened_reads_from wd base rs gen l ls mode p r wd' :
  calm wd -> channel_at wd base rs gen l ls -> asked mode (lg_index l) (lg_index (tip l ls)) = Some p ->
  opened_at wd base rs gen l ls p r wd' -> reads_from r wd wd' l ls p.
Proof.
  intros Hc Hch Ha Hat. pose proof (opened_same_files _ _ _ _ _ _ _ _ _ Hat) as Hsf.
  assert (Hc' : calm wd').
  { destruct Hat as [[-> | ->] _ _ _ _ _ _]; [done|by apply ticked_calm]. }
  destruct Hat as [_ (l' & ls' & Hon & [Ht _] & Hm) Hp _ _ _ _].
  pose proof (route_index _ _ _ _ _ _ (cn_route _ _ _ _ _ _ Hch)) as Hix.
  refine (conj Hp (conj Hsf (conj _ _))).
  - apply (asked_kept mode); [lia|done].
  - intros max Hmax. rewrite <- Hm. by eapply delivers_route.
Qed.

(** C22: a reader built on a channel of any number of files stands at its first record, at its end or
    exactly before the record whose index it asks for, and from there receives every later record;
    an index the channel no longer holds, or does not hold yet, is refused with the error that says
    which. *)
Theorem opening_finds_the_record b wd rs gen l ls :
  calm wd -> channel_at wd (rb_path b) rs gen l ls -> rb_helper b = None ->
  rb_expected_generation b = None \/ rb_expected_generation b = Some gen ->
  (rb_mode b = Live -> lg_sequence (last_leg l ls) < U64_MAX) ->
  let o := ReaderBuilder_build b tt wd in
  match asked (rb_mode b) (lg_index l) (lg_index (tip l ls)) with
  | Some p => exists r, o_res o = Ok r /\ reads_from r wd (o_world o) l ls p
  | None => exists index, rb_mode b = At index /\ o_world o = wd /\
      o_res o = Err (if index <? lg_index l then IndexPruned_into_io index (lg_index l)
                     else err_invalid_input "record is past the channel head")
  end.
Proof.
  intros Hc Hch Hh Heg Hlive o. pose proof (reader_build_run b wd rs gen l ls tt Hc Hch Hh Heg Hlive) as Hb.
  destruct (asked _ _ _) as [p|] eqn:Ha.
  - destruct Hb as (r & wd' & Hrun & Hat & _). unfold o. rewrite Hrun. exists r. split; [done|].
    by eapply opened_reads_from.
  - destruct Hb as (index & Hm & Hrun). unfold o. rewrite Hrun. by exists index.
Qed.

(** C23: [seek], [rewind] and [seek_to_head] put the reader exactly before the record asked for, from
    wherever it stood; a refused seek leaves the reader and the files as they were. *)
Theorem seeking_moves_or_stays r wd rs l ls mode :
  calm wd -> channel_at wd (r_base_path r) rs (generation_cached r) l ls -> r_helper r = None ->
  (mode = Live -> lg_sequence (last_leg l ls) < U64_MAX) ->
  let o := match mode with At k => seek k | LateJoin => rewind | Live => seek_to_head end r wd in
  match asked mode (lg_index l) (lg_index (tip l ls)) with
  | Some p => o_res o = Ok tt /\ reads_from (o_self o) wd (o_world o) l ls p
  | None => o_self o = r /\ o_world o = wd /\ exists index, mode = At index /\
      o_res o = Err (if index <? lg_index l then IndexPruned_into_io index (lg_index l)
                     else err_invalid_input "record is past the channel head")
  end.
Proof.
  intros Hc Hch Hh Hlive o. assert (Eo : o = reopen mode r wd) by (by destruct mode). rewrite Eo.
  pose proof (reopen_run mode r wd rs l ls Hc Hch Hh Hlive) as Hb.
  destruct (asked _ _ _) as [p|] eqn:Ha.
  - destruct Hb as (r' & wd' & Hrun & Hat & _). rewrite Hrun. split; [done|]. by eapply opened_reads_from.
  - destruct Hb as (index & Hm & Hrun). rewrite Hrun. split_and!; [done|done|]. by exists index.
Qed.

(** C24: [tail_record_index] and [head_record_index] tell exactly which indices can be sought: both
    return, and a seek succeeds when and only when its index lies between them. *)
Theorem indices_tell_what_can_be_sought r wd rs l ls :
  calm wd -> channel_at wd (r_base_path r) rs (generation_cached r) l ls -> r_helper r = None ->
  exists first next, runs tail_record_index r wd (Ok first) r /\ runs head_record_index r wd (Ok next) r /\
    next - first = Z.of_nat (length (route_messages wd l ls)) /\
    forall k, o_res (seek k r wd) = Ok tt <-> first <= k <= next.
Proof.
  intros Hc Hch Hh. exists (lg_index l), (lg_index (tip l ls)).
  split_and!; [exact (tail_index_run r wd rs l ls Hc Hch)|exact (head_index_run r wd rs l ls Hc Hch)|..].
  - pose proof (route_index _ _ _ _ _ _ (cn_route _ _ _ _ _ _ Hch)). lia.
  - intros k. pose proof (reopen_run (At k) r wd rs l ls Hc Hch Hh ltac:(done)) as Hb. cbn [asked] in Hb. unfold seek.
    destruct (Z.leb_spec (lg_index l) k), (Z.leb_spec k (lg_index (tip l ls))); cbn [andb] in Hb.
    + destruct Hb as (r' & wd' & Hrun & _). rewrite Hrun. split; [lia|done].
    + destruct Hb as (index & _ & Hrun). rewrite Hrun. split; [done|lia].
    + destruct Hb as (index & _ & Hrun). rewrite Hrun. split; [done|lia].
    + destruct Hb as (index & _ & Hrun). rewrite Hrun. split; [done|lia].
Qed.

End theorems.

(** ** Witnesses *)

Definition leg1 : Leg := leg0 [channel_entry; entry1] 288.

Lemma wd2_channel : channel_at wd2 "c" 4096 7 leg1 [].
Proof.
  pose proof rd1_ahead as [Hst Hrt]. constructor.
  - by vm_compute.
  - by vm_compute.
  - constructor.
    + vm_compute. reflexivity.
    + exists (Identity_initial (id_of 1)). split; [|vm_compute; reflexivity]. constructor; vm_compute; reflexivity.
    + vm_compute. reflexivity.
    + vm_compute. reflexivity.
    + exact (st_leg _ _ _ Hst).
  - exact Hrt.
  - vm_compute. reflexivity.
  - vm_compute. reflexivity.
  - vm_compute. reflexivity.
Qed.

Definition builder_at (k : Z) : ReaderBuilder := MkReaderBuilder "c" (At k) None (Some 7) None Immediate.

Lemma opening_finds_the_record_witness :
  (exists r, o_res (ReaderBuilder_build (builder_at 101) tt wd2) = Ok r /\
    reads_from r wd2 (o_world (ReaderBuilder_build (builder_at 101) tt wd2)) leg1 [] 101) /\
  (exists index, At 99 = At index /\ o_world (ReaderBuilder_build (builder_at 99) tt wd2) = wd2 /\
    o_res (ReaderBuilder_build (builder_at 99) tt wd2) =
      Err (if index <? 100 then IndexPruned_into_io index 100 else err_invalid_input "record is past the channel head")).
Proof.
  split.
  - exact (opening_finds_the_record (builder_at 101) wd2 4096 7 leg1 [] wd2_calm wd2_channel eq_refl
             (or_intror eq_refl) ltac:(discriminate)).
  - exact (opening_finds_the_record (builder_at 99) wd2 4096 7 leg1 [] wd2_calm wd2_channel eq_refl
             (or_intror eq_refl) ltac:(discriminate)).
Defined.

Lemma seeking_moves_or_stays_witness :
  (o_res (rewind rd1 wd2) = Ok tt /\ reads_from (o_self (rewind rd1 wd2)) wd2 (o_world (rewind rd1 wd2)) leg1 [] 100) /\
  o_self (seek 102 rd1 wd2) = rd1.
Proof.
  split.
  - exact (seeking_moves_or_stays rd1 wd2 4096 leg1 [] LateJoin wd2_calm wd2_channel eq_refl ltac:(discriminate)).
  - exact (proj1 (seeking_moves_or_stays rd1 wd2 4096 leg1 [] (At 102) wd2_calm wd2_channel eq_refl ltac:(discriminate))).
Defined.

Lemma indices_tell_what_can_be_sought_witness :
  exists first next, runs tail_record_index rd1 wd2 (Ok first) rd1 /\ runs head_record_index rd1 wd2 (Ok next) rd1 /\
    next - first = 1 /\ forall k, o_res (seek k rd1 wd2) = Ok tt <-> first <= k <= next.
Proof. exact (indices_tell_what_can_be_sought rd1 wd2 4096 leg1 [] wd2_calm wd2_channel eq_refl). Defined.
