(* ===== verification/Broadcast.v ===== *)
(** * The channel as a log

    What a channel promises: a log that one writer appends to and that each reader reads from its
    own position.  A writer and any number of readers, run by the operations of the library, refine
    it: every run of theirs is a run of the log, over regions, files and retention. *)

From S2P Require Import Prelude Bytes Crc32c Effects Region Channel V4 V4Facts Names NamesFacts Segment Helper MapAhead Reader Chain RegionFacts SegmentFacts Prefault Writer WriterInv CommitFacts ReserveFacts PrepareFacts RollFacts RecoverFacts ReaderFacts Route RouteFacts OpenFacts LocateFacts SeekFacts Carry Carried Joining WriterFacts.

#[local] Open Scope Z_scope.

(** ** The log *)

(** The messages of the channel from the index [lo_first] on, the index of the first one that is
    still kept for new readers, and the index each reader is at. *)
Record Log := MkLog { lo_first : Z; lo_messages : list Message; lo_kept : Z; lo_positions : list Z }.

Definition lo_next (a : Log) : Z := lo_first a + Z.of_nat (length (lo_messages a)).

Inductive Event :=
  | Sent (m : Message)
  | Received (i : nat) (max : Z) (ms : list Message)
  | Looked (i : nat) (h : option PeekedHeader)
  | Polled (i : nat) (ready : bool)
  | Joined (mode : ReaderMode) (p : Z)
  | Sought (i : nat) (mode : ReaderMode) (p : Z)
  | Refused (mode : ReaderMode) (e : io_error)
  | Told (i : nat) (tail head : Z).

Definition ahead (a : Log) (p : Z) : list Message := drop (Z.to_nat (p - lo_first a)) (lo_messages a).

Definition append (m : Message) (kept : Z) (a : Log) : Log :=
  MkLog (lo_first a) (lo_messages a ++ [m]) kept (lo_positions a).

Definition move (i : nat) (p : Z) (a : Log) : Log :=
  MkLog (lo_first a) (lo_messages a) (lo_kept a) (<[i := p]> (lo_positions a)).

Definition join (p : Z) (a : Log) : Log :=
  MkLog (lo_first a) (lo_messages a) (lo_kept a) (lo_positions a ++ [p]).

Inductive log_step : Log -> Event -> Log -> Prop :=
  | log_sent a m kept : lo_kept a <= kept <= lo_next a + 1 -> log_step a (Sent m) (append m kept a)
  | log_received a i p max ms :
      lo_positions a !! i = Some p -> ms = take (Z.to_nat max) (ahead a p) ->
      log_step a (Received i max ms) (move i (p + Z.of_nat (length ms)) a)
  | log_looked a i p :
      lo_positions a !! i = Some p -> log_step a (Looked i (peeked <$> head (ahead a p))) a
  | log_polled a i p :
      lo_positions a !! i = Some p -> log_step a (Polled i (bool_decide (ahead a p <> []))) a
  | log_joined a mode p :
      asked mode (lo_kept a) (lo_next a) = Some p -> log_step a (Joined mode p) (join p a)
  | log_sought a i p mode q :
      lo_positions a !! i = Some p -> asked mode (lo_kept a) (lo_next a) = Some q ->
      log_step a (Sought i mode q) (move i q a)
  | log_refused a k :
      asked (At k) (lo_kept a) (lo_next a) = None -> log_step a (Refused (At k) (refusal k (lo_kept a))) a
  | log_told a i p :
      lo_positions a !! i = Some p -> log_step a (Told i (lo_kept a) (lo_next a)) a.

(** ** The system *)

Record System := MkSystem { sy_writer : Writer; sy_world : world; sy_readers : list Reader }.

(** The writer may send a message of type [mt] with the user word [meta] and this payload: the
    message and the disk allow it, and retention keeps the file of every reader. *)
Record sendable `{Env} (s : System) (mt meta : Z) (payload : list Z) : Prop := {
  se_admissible : admissible (sy_writer s) (Z.of_nat (length payload));
  se_room : has_room (sy_writer s) (sy_world s);
  se_type : 0 <= mt < 2 ^ 16;
  se_meta : 0 <= meta < 2 ^ 64;
  se_payload : Forall is_byte payload;
  se_index : let d := data_of (sy_world s) (w_file (sy_writer s)) in
             get 8 d OFF_base_record_index + get 8 d OFF_message_count + 1 < 2 ^ 64;
  se_readers : Forall (fun r => retains (sy_writer s) (r_file_sequence r)) (sy_readers s)
}.

(** The files are not numbered up to the last number: [Live] looks for the file after the last. *)
Definition numbered (s : System) (mode : ReaderMode) : Prop :=
  mode = Live -> w_file_sequence (sy_writer s) < U64_MAX.

(** A reader of the writer's channel, with no helper; the caller expects its generation or none. *)
Record joinable `{Env} (s : System) (b : ReaderBuilder) : Prop := {
  jo_path : rb_path b = w_base_path (sy_writer s);
  jo_helper : rb_helper b = None;
  jo_generation : rb_expected_generation b = None \/
    rb_expected_generation b = Some (get 8 (data_of (sy_world s) (w_file (sy_writer s))) OFF_generation);
  jo_mode : numbered s (rb_mode b)
}.

(** One call by the writer or by the reader [i]; what the event shows is what the call gave. *)
Inductive sys_step `{Env} : System -> Event -> System -> Prop :=
  | sys_send s mt meta payload :
      let o := send mt meta payload (sy_writer s) (sy_world s) in
      sendable s mt meta payload -> o_res o = Ok tt ->
      sys_step s (Sent (MkMessage mt meta payload)) (MkSystem (o_self o) (o_world o) (sy_readers s))
  | sys_read s i r v ms :
      let o := try_read r (sy_world s) in
      sy_readers s !! i = Some r -> o_res o = Ok v -> Forall2 (shows (o_world o)) (option_list v) ms ->
      sys_step s (Received i 1 ms) (MkSystem (sy_writer s) (o_world o) (<[i := o_self o]> (sy_readers s)))
  | sys_read_owned s i r v ms :
      let o := try_read_owned r (sy_world s) in
      sy_readers s !! i = Some r -> o_res o = Ok v -> Forall2 (owned_shows (o_world o)) (option_list v) ms ->
      sys_step s (Received i 1 ms) (MkSystem (sy_writer s) (o_world o) (<[i := o_self o]> (sy_readers s)))
  | sys_batch s i r max vs ms :
      let o := owned_batch (Some max) r (sy_world s) in
      sy_readers s !! i = Some r -> 0 <= max -> o_res o = Ok vs -> Forall2 (owned_shows (o_world o)) vs ms ->
      sys_step s (Received i max ms) (MkSystem (sy_writer s) (o_world o) (<[i := o_self o]> (sy_readers s)))
  | sys_peek s i r h :
      let o := peek_header r (sy_world s) in
      sy_readers s !! i = Some r -> o_res o = Ok h ->
      sys_step s (Looked i h) (MkSystem (sy_writer s) (o_world o) (<[i := o_self o]> (sy_readers s)))
  | sys_poll s i r b :
      let o := poll_for_user_message r (sy_world s) in
      sy_readers s !! i = Some r -> o_res o = Ok b ->
      sys_step s (Polled i b) (MkSystem (sy_writer s) (o_world o) (<[i := o_self o]> (sy_readers s)))
  | sys_join s b r :
      let o := ReaderBuilder_build b tt (sy_world s) in
      joinable s b -> o_res o = Ok r ->
      sys_step s (Joined (rb_mode b) (r_position r)) (MkSystem (sy_writer s) (o_world o) (sy_readers s ++ [r]))
  | sys_join_refused s b e :
      let o := ReaderBuilder_build b tt (sy_world s) in
      joinable s b -> o_res o = Err e ->
      sys_step s (Refused (rb_mode b) e) (MkSystem (sy_writer s) (o_world o) (sy_readers s))
  | sys_seek s i r mode :
      let o := reopen mode r (sy_world s) in
      sy_readers s !! i = Some r -> numbered s mode -> o_res o = Ok tt ->
      sys_step s (Sought i mode (r_position (o_self o)))
        (MkSystem (sy_writer s) (o_world o) (<[i := o_self o]> (sy_readers s)))
  | sys_seek_refused s i r mode e :
      let o := reopen mode r (sy_world s) in
      sy_readers s !! i = Some r -> numbered s mode -> o_res o = Err e ->
      sys_step s (Refused mode e) (MkSystem (sy_writer s) (o_world o) (<[i := o_self o]> (sy_readers s)))
  | sys_told s i r t h :
      let o := tail_record_index r (sy_world s) in
      let o' := head_record_index (o_self o) (o_world o) in
      sy_readers s !! i = Some r -> o_res o = Ok t -> o_res o' = Ok h ->
      sys_step s (Told i t h) (MkSystem (sy_writer s) (o_world o') (<[i := o_self o']> (sy_readers s))).

Inductive steps {S} (step : S -> Event -> S -> Prop) : S -> list Event -> S -> Prop :=
  | steps_nil s : steps step s [] s
  | steps_cons s e s1 es s2 : step s e s1 -> steps step s1 es s2 -> steps step s (e :: es) s2.

(** ** The abstraction *)

(** The reader [r], which has no helper, is at the index [p] of the log. *)
Definition reader_at `{Env} (w : Writer) (wd : world) (es : list Entry) (a : Log) (r : Reader) (p : Z) : Prop :=
  exists l ls, reaches r w wd es l ls /\ r_position r = p /\ lo_first a <= p /\ route_messages wd l ls = ahead a p /\
    r_helper r = None.

(** What a directory scan finds is what the log keeps for new readers. *)
Definition kept_by `{Env} (w : Writer) (wd : world) (es : list Entry) (a : Log) : Prop :=
  exists l ls, holds w wd es l ls /\ lg_index l = lo_kept a /\ lo_first a <= lo_kept a /\
    route_messages wd l ls = ahead a (lo_kept a).

Definition refines `{Env} (s : System) (a : Log) : Prop :=
  calm (sy_world s) /\ exists es, writer_ok (sy_writer s) (sy_world s) es /\
    next_index (sy_writer s) (sy_world s) es = lo_next a /\ kept_by (sy_writer s) (sy_world s) es a /\
    Forall2 (reader_at (sy_writer s) (sy_world s) es a) (sy_readers s) (lo_positions a).

Section facts.
Context `{EnvOk}.
Implicit Types (s : System) (a : Log) (r : Reader).

(** A view shows one message. *)
Lemma shows_unique wd v m m' : shows wd v m -> shows wd v m' -> m = m'.
Proof.
  intros [Hh Hp] [Hh' Hp']. unfold reads in *. rewrite Hh in Hh'. rewrite Hp in Hp'.
  destruct m, m'. unfold header_of in Hh'. cbn in *. congruence.
Qed.

Lemma shows_unique_list {A} wd (f : A -> MessageRef) vs ms ms' :
  Forall2 (fun v => shows wd (f v)) vs ms -> Forall2 (fun v => shows wd (f v)) vs ms' -> ms = ms'.
Proof.
  intros H1. revert ms'. induction H1 as [|v m vs ms Hm _ IH]; intros ms' H2; inversion H2; subst; [done|].
  f_equal; [by eapply shows_unique|auto].
Qed.

Lemma drop_take_length {A} k (l : list A) : drop k l = drop (length (take k l)) l.
Proof. rewrite length_take. destruct (Nat.le_ge_cases k (length l)); [by rewrite Nat.min_l|]. rewrite Nat.min_r, !drop_ge by lia. done. Qed.

(** After reading [ms] of what is ahead, the reader is [ms] further. *)
Lemma reader_goes_on w wd es a r p r' l ls k :
  reaches r w wd es l ls -> r_position r = p -> lo_first a <= p -> route_messages wd l ls = ahead a p ->
  r_helper r = None -> goes_on r wd l ls (drop k (ahead a p)) r' ->
  reader_at w wd es a r' (p + Z.of_nat (length (take k (ahead a p)))).
Proof.
  intros Hr Hp Hle Hm Hh [(l' & ls' & Hr' & Hm' & Ht & Hf) [S1 S0 S2 S3 S4 S5 S6] Hi].
  assert (Hpos : r_position r' = p + Z.of_nat (length (take k (ahead a p)))).
  { rewrite Hi. destruct (rc_route _ _ _ _ _ _ Hr) as [Hst Hrt].
    pose proof (route_index _ _ _ _ _ _ Hrt) as Hix. rewrite Hm in Hix.
    rewrite <- (st_index _ _ _ Hst), Hp in Hix. rewrite <- Hix, length_drop, length_take. lia. }
  exists l', ls'. split_and!; [|done|lia| |congruence].
  - destruct Hr as [_ Hfiles ? ? ? Htip]. constructor; try congruence.
    rewrite Forall_forall in Hfiles. apply Forall_forall. intros x Hx.
    assert (Hin : lg_file x ∈ map lg_file (l' :: ls')) by (by apply list_elem_of_fmap_2).
    apply Hf, list_elem_of_fmap in Hin as (y & -> & Hy). by apply Hfiles.
  - rewrite Hm', drop_take_length. unfold ahead. rewrite drop_drop. f_equal. lia.
Qed.

(** A step of the reader [i] that leaves the writer and the world alone. *)
Lemma refines_reader s a i r p r' p' :
  refines s a -> sy_readers s !! i = Some r -> lo_positions a !! i = Some p ->
  (forall es l ls, reaches r (sy_writer s) (sy_world s) es l ls -> r_position r = p -> lo_first a <= p ->
     route_messages (sy_world s) l ls = ahead a p -> r_helper r = None -> reader_at (sy_writer s) (sy_world s) es a r' p') ->
  refines (MkSystem (sy_writer s) (sy_world s) (<[i := r']> (sy_readers s))) (move i p' a).
Proof.
  intros (Hc & es & Hw & Hix & Hk & Hall) Hi Hp Hr. split; [done|]. exists es. split_and!; [done|done|exact Hk|].
  apply Forall2_insert; [done|]. destruct (Forall2_lookup_l _ _ _ _ _ Hall Hi) as (p0 & Hp0 & l & ls & H1 & H2 & H3 & H4 & H5).
  assert (p0 = p) as -> by congruence. by eapply Hr.
Qed.

Lemma refines_lookup s a i r :
  refines s a -> sy_readers s !! i = Some r -> exists p l ls, lo_positions a !! i = Some p /\
    on_route r (sy_world s) l ls /\ route_messages (sy_world s) l ls = ahead a p.
Proof.
  intros (Hc & es & Hw & Hix & Hk & Hall) Hi.
  destruct (Forall2_lookup_l _ _ _ _ _ Hall Hi) as (p0 & Hp0 & l & ls & H1 & H2 & H3 & H4 & H5).
  exists p0, l, ls. split_and!; [done|apply H1|done].
Qed.

Lemma move_same i p a : lo_positions a !! i = Some p -> move i p a = a.
Proof. intros Hp. destruct a. unfold move. cbn in *. by rewrite list_insert_id. Qed.

(** What reading a message at a time delivers. *)
Lemma read_refines {A} (f : A -> MessageRef) (m : M Reader (option A)) s a i r v ms :
  (forall l ls, calm (sy_world s) -> on_route r (sy_world s) l ls ->
     read_result (fun x => shows (sy_world s) (f x)) m r (sy_world s) l ls) ->
  refines s a -> sy_readers s !! i = Some r ->
  let o := m r (sy_world s) in
  o_res o = Ok v -> Forall2 (fun x => shows (o_world o) (f x)) (option_list v) ms ->
  exists a', log_step a (Received i 1 ms) a' /\
    refines (MkSystem (sy_writer s) (o_world o) (<[i := o_self o]> (sy_readers s))) a'.
Proof.
  intros Hread Href Hi o Hres Hms. destruct (refines_lookup _ _ _ _ Href Hi) as (p & l0 & ls0 & Hp & Hon & Hm).
  assert (Hgo : exists r', o = Outcome (Ok v) r' (sy_world s) [] /\ ms = take 1 (ahead a p) /\
    forall es l ls, reaches r (sy_writer s) (sy_world s) es l ls -> route_messages (sy_world s) l ls = ahead a p ->
      goes_on r (sy_world s) l ls (drop 1 (ahead a p)) r').
  { destruct (Hread l0 ls0 (proj1 Href) Hon) as (v0 & r' & Hrun & Hm0). unfold runs in Hrun. unfold o in *. rewrite Hrun in *.
    cbn in Hres. injection Hres as <-. exists r'. split; [done|]. rewrite Hm in Hm0. cbn in Hms.
    split.
    - destruct (ahead a p) as [|msg rest].
      + destruct Hm0 as [-> _]. by inversion Hms.
      + destruct Hm0 as [(x & -> & Hx) _]. cbn. rewrite firstn_O. eapply (shows_unique_list _ f); [exact Hms|]. constructor; [exact Hx|constructor].
    - intros es l ls Hr Hm1. destruct (Hread l ls (proj1 Href) (rc_route _ _ _ _ _ _ Hr)) as (v1 & r1 & Hrun1 & Hm2).
      unfold runs in Hrun1. rewrite Hrun in Hrun1. injection Hrun1 as <- <-. rewrite Hm1 in Hm2.
      destruct (ahead a p); apply Hm2. }
  destruct Hgo as (r' & Ho & Hms' & Hgo). rewrite Ho. cbn [o_world o_self].
  exists (move i (p + Z.of_nat (length ms)) a). split; [by apply log_received|].
  eapply refines_reader; [done..|]. intros es l ls Hr Hpos Hle Hm1 Hh. rewrite Hms'.
  eapply reader_goes_on; [exact Hr|done..|]. by apply (Hgo es).
Qed.

Lemma batch_refines s a i r max vs ms :
  refines s a -> sy_readers s !! i = Some r -> 0 <= max ->
  let o := owned_batch (Some max) r (sy_world s) in
  o_res o = Ok vs -> Forall2 (owned_shows (o_world o)) vs ms ->
  exists a', log_step a (Received i max ms) a' /\
    refines (MkSystem (sy_writer s) (o_world o) (<[i := o_self o]> (sy_readers s))) a'.
Proof.
  intros Href Hi Hmax o Hres Hms. destruct (refines_lookup _ _ _ _ Href Hi) as (p & l0 & ls0 & Hp & Hon & Hm).
  assert (Hgo : exists r', o = Outcome (Ok vs) r' (sy_world s) [] /\ ms = take (Z.to_nat max) (ahead a p) /\
    forall es l ls, reaches r (sy_writer s) (sy_world s) es l ls -> route_messages (sy_world s) l ls = ahead a p ->
      goes_on r (sy_world s) l ls (drop (Z.to_nat max) (ahead a p)) r').
  { destruct (owned_batch_run r (sy_world s) l0 ls0 max (proj1 Href) Hon Hmax) as (r' & out & Hrun & Hall & _).
    unfold runs in Hrun. unfold o in *. rewrite Hrun in *. cbn in Hres. injection Hres as <-. exists r'.
    split; [done|]. rewrite Hm in Hall. split; [by eapply (shows_unique_list _ OwnedMessage_as_ref)|].
    intros es l ls Hr Hm1.
    destruct (owned_batch_run r (sy_world s) l ls max (proj1 Href) (rc_route _ _ _ _ _ _ Hr) Hmax) as (r1 & out1 & Hrun1 & _ & Hg).
    unfold runs in Hrun1. rewrite Hrun in Hrun1. injection Hrun1 as <- <-. by rewrite Hm1 in Hg. }
  destruct Hgo as (r' & Ho & Hms' & Hgo). rewrite Ho. cbn [o_world o_self].
  exists (move i (p + Z.of_nat (length ms)) a). split; [by apply log_received|].
  eapply refines_reader; [done..|]. intros es l ls Hr Hpos Hle Hm1 Hh. rewrite Hms'.
  eapply reader_goes_on; [exact Hr|done..|]. by apply (Hgo es).
Qed.

(** Looking at what is ahead. *)
Lemma look_refines s a i r :
  refines s a -> sy_readers s !! i = Some r ->
  exists p rl rp, lo_positions a !! i = Some p /\
    peek_header r (sy_world s) = Outcome (Ok (peeked <$> head (ahead a p))) rl (sy_world s) [] /\
    poll_for_user_message r (sy_world s) = Outcome (Ok (bool_decide (ahead a p <> []))) rp (sy_world s) [] /\
    refines (MkSystem (sy_writer s) (sy_world s) (<[i := rl]> (sy_readers s))) a /\
    refines (MkSystem (sy_writer s) (sy_world s) (<[i := rp]> (sy_readers s))) a.
Proof.
  intros Href Hi. destruct (refines_lookup _ _ _ _ Href Hi) as (p & l0 & ls0 & Hp & Hon & Hm).
  destruct (peek_run r (sy_world s) l0 ls0 (proj1 Href) Hon) as (r' & Hpeek & Hpoll & _). rewrite Hm in Hpeek, Hpoll.
  exists p, r', r'. split_and!; [done|exact Hpeek|exact Hpoll|..];
    (rewrite <- (move_same i p a Hp); eapply refines_reader; [done..|]; intros es l ls Hr Hpos Hle Hm1 Hh;
     destruct (peek_run r (sy_world s) l ls (proj1 Href) (rc_route _ _ _ _ _ _ Hr)) as (r1 & Hpeek1 & _ & Hg);
     unfold runs in Hpeek, Hpeek1; rewrite Hpeek in Hpeek1; injection Hpeek1 as _ <-; rewrite Hm1 in Hg;
     pose proof (reader_goes_on _ _ es a r p r' l ls 0 Hr Hpos Hle Hm1 Hh Hg) as Hat; cbn in Hat; by rewrite Z.add_0_r in Hat).
Qed.

(** The record kept first may move on when the writer rolls. *)
Lemma send_refines s a mt meta payload :
  refines s a -> sendable s mt meta payload ->
  let o := send mt meta payload (sy_writer s) (sy_world s) in
  o_res o = Ok tt /\ exists kept, lo_kept a <= kept <= lo_next a + 1 /\
    refines (MkSystem (o_self o) (o_world o) (sy_readers s)) (append (MkMessage mt meta payload) kept a).
Proof.
  intros (Hc & es & Hw & Hix & (l0 & ls0 & Hh & Hk1 & Hk2 & Hk3) & Hall) [Had Hroom Hmt Hmeta Hpay Hidx Hret] o.
  destruct (send_run _ _ _ mt meta payload Hc Hw Had Hroom Hmt Hmeta Hpay) as [(Hr & Hc' & es' & Hw' & Hn & _ & Hca) _].
  split; [done|]. cbn in Hidx. rewrite (sg_count _ _ _ _ (wk_segment _ _ _ Hw)) in Hidx. specialize (Hca Hidx).
  destruct (proj2 Hca l0 ls0 Hh) as (l1 & ls1 & k & Hh1 & Hm1 & Hk4 & Hk5).
  assert (Hlen : lo_kept a + Z.of_nat (length (ahead a (lo_kept a))) = lo_next a).
  { rewrite <- Hk1, <- Hix, <- (holds_next _ _ _ _ _ Hh), <- Hk3 at 1.
    rewrite Hk1, <- Hk1. pose proof (route_index _ _ _ _ _ _ (cn_route _ _ _ _ _ _ (hl_channel _ _ _ _ _ Hh))). lia. }
  assert (Hadd : forall p, lo_first a <= p <= lo_next a -> forall k', ahead (append (MkMessage mt meta payload) k' a) p = ahead a p ++ [MkMessage mt meta payload]).
  { intros p Hp k'. unfold ahead, lo_next in *. cbn. rewrite drop_app_le; [done|lia]. }
  rewrite Hk3, length_app in Hk4. cbn [length] in Hk4.
  exists (lg_index l1). split; [lia|]. split; [done|]. exists es'. split_and!; [done| | |].
  - cbn [sy_writer sy_world]. unfold o. rewrite Hn, Hix. unfold lo_next. cbn [append lo_first lo_messages].
    rewrite length_app. cbn [length]. lia.
  - exists l1, ls1. split_and!; [done|done|cbn; lia|]. cbn [sy_writer sy_world lo_kept append]. unfold o. rewrite Hm1, Hk3.
    rewrite <- (Hadd (lo_kept a) ltac:(lia) (lg_index l1)). unfold ahead. cbn [append lo_first lo_messages].
    rewrite drop_drop. f_equal. lia.
  - rewrite Forall_forall in Hret. apply Forall2_same_length_lookup_2; [by apply Forall2_length in Hall|].
    intros i r p Hi Hp. destruct (Forall2_lookup_lr _ _ _ _ _ _ Hall Hi Hp) as (l & ls & H1 & H2 & H3 & H4 & H5).
    assert (Hrt : retains (sy_writer s) (lg_sequence l)).
    { rewrite <- (st_sequence _ _ _ (proj1 (rc_route _ _ _ _ _ _ H1))). apply Hret. by apply list_elem_of_lookup_2 with i. }
    destruct (proj1 Hca r l ls H1 Hrt) as (l' & ls' & R1 & R2 & R3). exists l', ls'. split_and!; [done|done|done| |done].
    cbn [sy_world]. unfold o. rewrite R2, H4, Hadd; [done|].
    destruct (rc_route _ _ _ _ _ _ H1) as [Hst Hrt']. pose proof (route_index _ _ _ _ _ _ Hrt') as Hx.
    rewrite <- (st_index _ _ _ Hst), H2, (rc_tip _ _ _ _ _ _ H1) in Hx. cbn in Hx. lia.
Qed.

(** The clock does not matter. *)
Lemma refines_same s a wd :
  refines s a -> same_files (sy_world s) wd -> calm wd -> refines (MkSystem (sy_writer s) wd (sy_readers s)) a.
Proof.
  intros (_ & es & Hw & Hix & (l0 & ls0 & Hh & Hk1 & Hk2 & Hk3) & Hall) Hsf Hc. pose proof (sf_inodes _ _ Hsf) as Ei.
  split; [done|]. exists es. split_and!.
  - by eapply writer_ok_same_files.
  - by rewrite (next_index_same _ _ _ _ Hsf).
  - exists l0, ls0. split_and!; [by eapply holds_same|done|done|]. by rewrite (route_messages_same (sy_world s)).
  - eapply Forall2_impl; [exact Hall|]. intros r p (l & ls & H1 & H2 & H3 & H4 & H5). exists l, ls.
    split_and!; [by eapply reaches_same|done|done| |done]. by rewrite (route_messages_same (sy_world s)).
Qed.

(** The channel of the system, as the directory shows it. *)
Lemma refines_channel s a :
  refines s a -> exists es l ls, holds (sy_writer s) (sy_world s) es l ls /\ lg_index l = lo_kept a /\
    lo_first a <= lo_kept a /\ route_messages (sy_world s) l ls = ahead a (lo_kept a) /\
    lg_index (tip l ls) = lo_next a /\ lg_sequence (last_leg l ls) = w_file_sequence (sy_writer s).
Proof.
  intros (_ & es & _ & Hix & (l & ls & Hh & Hk) & _). exists es, l, ls.
  split_and!; [done|apply Hk|apply Hk|apply Hk| |by eapply holds_last]. by rewrite (holds_next _ _ _ _ _ Hh).
Qed.

(** A reader opened where a mode asks stands there in the log. *)
Lemma opened_refines s a l ls mode p r wd es :
  refines s a -> holds (sy_writer s) (sy_world s) es l ls -> lg_index l = lo_kept a -> lo_first a <= lo_kept a ->
  route_messages (sy_world s) l ls = ahead a (lo_kept a) ->
  asked mode (lo_kept a) (lo_next a) = Some p -> lg_index (tip l ls) = lo_next a ->
  opened_at (sy_world s) (w_base_path (sy_writer s)) (w_region_size (sy_writer s))
    (get 8 (data_of (sy_world s) (w_file (sy_writer s))) OFF_generation) l ls p r wd ->
  refines (MkSystem (sy_writer s) wd (sy_readers s)) a /\
  forall es', next_index (sy_writer s) wd es' = lo_next a -> reader_at (sy_writer s) wd es' a r p.
Proof.
  intros Href Hh Hk1 Hk2 Hk3 Hp Ht Hat.
  pose proof (opened_same_files _ _ _ _ _ _ _ _ _ Hat) as Hsf.
  assert (Hc : calm wd).
  { destruct Hat as [[-> | ->] _ _ _ _ _ _]; [apply Href|apply ticked_calm, Href]. }
  split; [by apply refines_same|]. intros es' Hn.
  destruct (opened_reaches _ _ _ _ _ _ _ _ Hh Hat) as (l' & ls' & Hr & Hm).
  pose proof (route_index _ _ _ _ _ _ (cn_route _ _ _ _ _ _ (hl_channel _ _ _ _ _ Hh))) as Hix.
  assert (Hb : lo_kept a <= p <= lo_next a) by (apply (asked_kept mode); [lia|done]).
  exists l', ls'. split_and!; [|apply Hat|lia| |apply Hat].
  - destruct Hr as [? ? ? ? ? Htip]. constructor; try done. rewrite Htip. unfold slot_of. rewrite Hn.
    rewrite (next_index_same _ _ _ _ Hsf), <- (holds_next _ _ _ _ _ Hh), Ht. done.
  - rewrite Hm, Hk3. unfold ahead. rewrite drop_drop. f_equal. lia.
Qed.

Lemma join_refines s a b :
  refines s a -> joinable s b ->
  match asked (rb_mode b) (lo_kept a) (lo_next a) with
  | Some p => exists r wd, ReaderBuilder_build b tt (sy_world s) = Outcome (Ok r) tt wd [] /\ r_position r = p /\
      refines (MkSystem (sy_writer s) wd (sy_readers s ++ [r])) (join p a)
  | None => exists k, rb_mode b = At k /\
      ReaderBuilder_build b tt (sy_world s) = Outcome (Err (refusal k (lo_kept a))) tt (sy_world s) []
  end.
Proof.
  intros Href [Jp Jh Jg Jm]. destruct (refines_channel _ _ Href) as (es & l & ls & Hh & Hk1 & Hk2 & Hk3 & Ht & Hsq).
  pose proof (hl_channel _ _ _ _ _ Hh) as Hch. rewrite <- Jp in Hch.
  pose proof (reader_build_run b (sy_world s) _ _ l ls tt (proj1 Href) Hch Jh Jg ltac:(by rewrite Hsq)) as Hb.
  rewrite Hk1, Ht in Hb. destruct (asked _ _ _) as [p|] eqn:Ha; [|done].
  destruct Hb as (r & wd & Hrun & Hat & _). rewrite Jp in Hat. exists r, wd. split_and!; [done|apply Hat|].
  destruct (opened_refines _ _ _ _ _ _ _ _ _ Href Hh Hk1 Hk2 Hk3 Ha Ht Hat) as [(Hc & es' & Hw & Hix & Hk & Hall) Hr].
  split; [done|]. exists es'. split_and!; [done|done|exact Hk|].
  apply Forall2_app; [exact Hall|]. constructor; [|constructor]. by apply (Hr es').
Qed.

Lemma seek_refines s a i r mode :
  refines s a -> sy_readers s !! i = Some r -> numbered s mode ->
  exists p, lo_positions a !! i = Some p /\
  match asked mode (lo_kept a) (lo_next a) with
  | Some q => exists r' wd, reopen mode r (sy_world s) = Outcome (Ok tt) r' wd [] /\ r_position r' = q /\
      refines (MkSystem (sy_writer s) wd (<[i := r']> (sy_readers s))) (move i q a)
  | None => exists k, mode = At k /\ reopen mode r (sy_world s) = Outcome (Err (refusal k (lo_kept a))) r (sy_world s) []
  end.
Proof.
  intros Href Hi Hnum. destruct (refines_channel _ _ Href) as (es & l & ls & Hh & Hk1 & Hk2 & Hk3 & Ht & Hsq).
  pose proof Href as (Hc0 & es0 & _ & _ & _ & Hall0).
  destruct (Forall2_lookup_l _ _ _ _ _ Hall0 Hi) as (p & Hp & lr & lsr & Hr & _ & _ & _ & Hhelp). exists p. split; [done|].
  pose proof (hl_channel _ _ _ _ _ Hh) as Hch. destruct Hr as [_ _ _ Eb Eg _].
  rewrite <- Eb, <- Eg in Hch.
  pose proof (reopen_run mode r (sy_world s) _ l ls Hc0 Hch Hhelp ltac:(by rewrite Hsq)) as Hb.
  rewrite Hk1, Ht in Hb. destruct (asked _ _ _) as [q|] eqn:Ha; [|done].
  destruct Hb as (r' & wd & Hrun & Hat & _). rewrite Eb, Eg in Hat. exists r', wd. split_and!; [done|apply Hat|].
  destruct (opened_refines _ _ _ _ _ _ _ _ _ Href Hh Hk1 Hk2 Hk3 Ha Ht Hat) as [(Hc & es' & Hw & Hix & Hk & Hall) Hr].
  split; [done|]. exists es'. split_and!; [done|done|exact Hk|]. apply Forall2_insert; [exact Hall|]. by apply (Hr es').
Qed.

Lemma told_refines s a i r :
  refines s a -> sy_readers s !! i = Some r -> exists p, lo_positions a !! i = Some p /\
    tail_record_index r (sy_world s) = Outcome (Ok (lo_kept a)) r (sy_world s) [] /\
    head_record_index r (sy_world s) = Outcome (Ok (lo_next a)) r (sy_world s) [].
Proof.
  intros Href Hi. destruct (refines_channel _ _ Href) as (es & l & ls & Hh & Hk1 & Hk2 & Hk3 & Ht & Hsq).
  pose proof Href as (Hc & es0 & _ & _ & _ & Hall).
  destruct (Forall2_lookup_l _ _ _ _ _ Hall Hi) as (p & Hp & lr & lsr & [_ _ _ Eb Eg _] & _). exists p.
  pose proof (hl_channel _ _ _ _ _ Hh) as Hch. rewrite <- Eb, <- Eg in Hch. rewrite <- Hk1, <- Ht.
  split_and!; [done|exact (tail_index_run r _ _ l ls Hc Hch)|exact (head_index_run r _ _ l ls Hc Hch)].
Qed.

(** Every step of the system is one of the log. *)
Lemma step_refines s a e s' :
  refines s a -> sys_step s e s' -> exists a', log_step a e a' /\ refines s' a'.
Proof.
  intros Href Hs. destruct Hs as [s mt meta payload o Hse Ho|s i r v ms o Hi Hv Hms|s i r v ms o Hi Hv Hms
    |s i r max vs ms o Hi Hmax Hv Hms|s i r h o Hi Hh|s i r b o Hi Hb|s b r o Hj Hr|s b e o Hj He
    |s i r mode o Hi Hn Hr|s i r mode e o Hi Hn He|s i r t h o o' Hi Ht Hh].
  - destruct (send_refines _ _ _ _ _ Href Hse) as (_ & k & Hk & Hr). eexists. split; [by apply log_sent|done].
  - eapply (read_refines id); try done. intros. by apply try_read_run.
  - eapply (read_refines OwnedMessage_as_ref); try done. intros. by apply try_read_owned_run.
  - by eapply batch_refines.
  - destruct (look_refines _ _ _ _ Href Hi) as (p & rl & rp & Hp & E & _ & Hr & _). unfold o in *. rewrite E in *.
    injection Hh as <-. eexists. split; [by apply log_looked|done].
  - destruct (look_refines _ _ _ _ Href Hi) as (p & rl & rp & Hp & _ & E & _ & Hr). unfold o in *. rewrite E in *.
    injection Hb as <-. eexists. split; [by apply log_polled|done].
  - pose proof (join_refines _ _ _ Href Hj) as Hgo. unfold o in *. destruct (asked _ _ _) as [p|] eqn:Ha.
    + destruct Hgo as (r' & wd & E & Hp & Hgo). rewrite E in *. injection Hr as <-. rewrite Hp.
      eexists. split; [by apply log_joined|done].
    + destruct Hgo as (k & _ & E). rewrite E in Hr. done.
  - pose proof (join_refines _ _ _ Href Hj) as Hgo. unfold o in *. destruct (asked _ _ _) as [p|] eqn:Ha.
    + destruct Hgo as (r' & wd & E & _). rewrite E in He. done.
    + destruct Hgo as (k & Hm & E). rewrite E in *. injection He as <-. rewrite Hm in *.
      exists a. split; [by apply log_refused|]. by destruct s.
  - destruct (seek_refines _ _ _ _ _ Href Hi Hn) as (p & Hp & Hgo). unfold o in *. destruct (asked _ _ _) as [q|] eqn:Ha.
    + destruct Hgo as (r' & wd & E & Hq & Hgo). rewrite E in *. cbn [o_self o_world]. rewrite Hq.
      eexists. split; [by eapply log_sought|done].
    + destruct Hgo as (k & _ & E). rewrite E in Hr. done.
  - destruct (seek_refines _ _ _ _ _ Href Hi Hn) as (p & Hp & Hgo). unfold o in *. destruct (asked _ _ _) as [q|] eqn:Ha.
    + destruct Hgo as (r' & wd & E & _). rewrite E in He. done.
    + destruct Hgo as (k & -> & E). rewrite E in *. injection He as <-.
      exists a. split; [by apply log_refused|]. cbn [o_self o_world]. rewrite list_insert_id by done. by destruct s.
  - destruct (told_refines _ _ _ _ Href Hi) as (p & Hp & Et & Eh). unfold o', o in *. rewrite Et in *.
    cbn [o_self o_world] in *. rewrite Eh in *. injection Ht as <-. injection Hh as <-.
    exists a. split; [by eapply log_told|]. cbn [o_self o_world]. rewrite list_insert_id by done. by destruct s.
Qed.

(** ** Runs of the log *)

Definition sent (es : list Event) : list Message := flat_map (fun e => match e with Sent m => [m] | _ => [] end) es.

Definition received (i : nat) (es : list Event) : list Message :=
  flat_map (fun e => match e with Received j _ ms => if decide (i = j) then ms else [] | _ => [] end) es.

(** The reader [i] is not moved by a seek. *)
Definition stays (i : nat) (es : list Event) : Prop :=
  Forall (fun e => match e with Sought j _ _ => j <> i | _ => True end) es.

Lemma log_stays a e a' i p :
  log_step a e a' -> lo_positions a !! i = Some p -> stays i [e] -> lo_first a <= p <= lo_next a ->
  exists p', lo_positions a' !! i = Some p' /\ lo_first a' = lo_first a /\
    lo_messages a' = lo_messages a ++ sent [e] /\ p' = p + Z.of_nat (length (received i [e])) /\
    lo_first a' <= p' <= lo_next a' /\ ahead a p ++ sent [e] = received i [e] ++ ahead a' p'.
Proof.
  intros He Hp Hst Hle. unfold lo_next in *.
  destruct He as [a m k Hk|a j pj max ms Hj ->|a j pj Hj|a j pj Hj|a mode q Hq|a j pj mode q Hj Hq|a k Hk|a j pj Hj];
    cbn; rewrite ?app_nil_r; try (exists p; split_and!; try done; lia).
  - exists p. split_and!; [done..|lia|lia|rewrite length_app; lia|]. unfold ahead. cbn. rewrite drop_app_le; [done|lia].
  - destruct (decide (i = j)) as [<-|Hne].
    + assert (pj = p) as -> by congruence. rewrite ?app_nil_r.
      assert (Hl : Z.of_nat (length (take (Z.to_nat max) (ahead a p))) <= Z.of_nat (length (lo_messages a)) - (p - lo_first a)).
      { unfold ahead. rewrite length_take, length_drop. lia. }
      exists (p + Z.of_nat (length (take (Z.to_nat max) (ahead a p)))).
      split_and!; [|done|done|done|lia|lia|].
      * apply list_lookup_insert_eq. by apply lookup_lt_Some in Hj.
      * rewrite <- (take_drop (Z.to_nat max) (ahead a p)) at 1. f_equal. rewrite drop_take_length.
        unfold ahead. cbn. rewrite drop_drop. f_equal. lia.
    + exists p. cbn. split_and!; try done; [|lia..]. by rewrite list_lookup_insert_ne.
  - exists p. split_and!; try done; [|lia..]. rewrite lookup_app_l; [done|]. by apply lookup_lt_Some in Hp.
  - exists p. split_and!; try done; [|lia..]. rewrite list_lookup_insert_ne; [done|]. by inversion Hst.
Qed.

Lemma log_runs a es a' i p :
  steps log_step a es a' -> lo_positions a !! i = Some p -> stays i es -> lo_first a <= p <= lo_next a ->
  exists p', lo_positions a' !! i = Some p' /\ lo_first a' = lo_first a /\
    lo_messages a' = lo_messages a ++ sent es /\ p' = p + Z.of_nat (length (received i es)) /\
    lo_first a' <= p' <= lo_next a' /\ ahead a p ++ sent es = received i es ++ ahead a' p'.
Proof.
  intros Hs. revert p. induction Hs as [a|a e a1 es a2 He Hs IH]; intros p Hp Hst Hle.
  { cbn. exists p. rewrite !app_nil_r. split_and!; [done|done|done|lia|lia|lia|done]. }
  inversion Hst as [|? ? Hst1 Hst2]; subst.
  destruct (log_stays _ _ _ _ _ He Hp (Forall_cons_2 _ _ _ Hst1 (Forall_nil_2 _)) Hle)
    as (p1 & Hp1 & Hf1 & Hm1 & Ep1 & Hb1 & Ha1).
  destruct (IH p1 Hp1 Hst2 Hb1) as (p2 & Hp2 & Hf2 & Hm2 & Ep2 & Hb2 & Ha2).
  assert (Es : sent (e :: es) = sent [e] ++ sent es) by (unfold sent; cbn; by rewrite app_nil_r).
  assert (Er : received i (e :: es) = received i [e] ++ received i es) by (unfold received; cbn; by rewrite app_nil_r).
  exists p2. rewrite Es, Er, length_app. split_and!; [done|congruence|by rewrite Hm2, Hm1, app_assoc|lia|lia|lia|].
  by rewrite !app_assoc, Ha1, <- !app_assoc, Ha2.
Qed.

End facts.
