(* ===== verification/BroadcastTheorems.v ===== *)
(** * What the channel promises

    The writer and its readers together: they refine a log, readers receive what was sent, in order
    and without gaps, and each of them can always receive the rest. *)

From Stdlib Require Import String.
From S2P Require Import Prelude Bytes Crc32c Effects Region Channel V4 V4Facts Names NamesFacts Segment Helper MapAhead Reader Chain RegionFacts SegmentFacts Prefault Writer WriterInv CommitFacts ReserveFacts PrepareFacts RollFacts RecoverFacts ReaderFacts Route RouteFacts OpenFacts LocateFacts SeekFacts Carry Carried Joining BuildFacts WriterFacts Broadcast Demo.

#[local] Open Scope string_scope.
#[local] Open Scope list_scope.
#[local] Open Scope Z_scope.

Section theorems.
Context `{EnvOk}.
Implicit Types (s : System) (a : Log).

Lemma steps_refine s es s' : steps sys_step s es s' -> forall a, refines s a ->
  exists a', steps log_step a es a' /\ refines s' a'.
Proof.
  induction 1 as [s|s e s1 es s2 He _ IH]; intros a Hr; [exists a; split; [constructor|done]|].
  destruct (step_refines _ _ _ _ Hr He) as (a1 & Ha1 & Hr1). destruct (IH a1 Hr1) as (a2 & Ha2 & Hr2).
  exists a2. split; [by econstructor|done].
Qed.

(** The positions of a log that a system refines lie in it. *)
Lemma refines_position s a i p :
  refines s a -> lo_positions a !! i = Some p ->
  lo_first a <= p <= lo_next a /\ is_Some (sy_readers s !! i).
Proof.
  intros (_ & es & _ & Hix & _ & Hall) Hp. destruct (Forall2_lookup_r _ _ _ _ _ Hall Hp) as (r & Hi & l & ls & H1 & H2 & H3 & H4 & _).
  split; [|by exists r]. split; [done|]. destruct (rc_route _ _ _ _ _ _ H1) as [Hst Hrt].
  pose proof (route_index _ _ _ _ _ _ Hrt) as Hx. rewrite <- (st_index _ _ _ Hst), H2, (rc_tip _ _ _ _ _ _ H1) in Hx.
  cbn in Hx. lia.
Qed.

(** C1: a writer and its readers refine the log: whatever they do, in whatever order, over regions,
    rolls and retention, what they give is what the log gives for the same sequence of events, and
    the state they reach again stands for the state of the log. *)
Theorem channel_refines_the_log s a es s' :
  refines s a -> steps sys_step s es s' -> exists a', steps log_step a es a' /\ refines s' a'.
Proof. intros Hr Hs. by apply (steps_refine s es s'). Qed.

(** C2: over any run in which it does not seek, a reader receives, in order, a prefix of the messages ahead of it at the start
    followed by those the writer sends in the run: nothing lost, repeated, reordered or changed. *)
Theorem readers_receive_what_is_sent s a es s' i p :
  refines s a -> steps sys_step s es s' -> lo_positions a !! i = Some p -> stays i es ->
  received i es `prefix_of` ahead a p ++ sent es.
Proof.
  intros Hr Hs Hp Hst. destruct (steps_refine _ _ _ Hs a Hr) as (a' & Ha & Hr').
  destruct (refines_position _ _ _ _ Hr Hp) as [Hb _].
  destruct (log_runs _ _ _ i p Ha Hp Hst Hb) as (p' & _ & _ & _ & _ & _ & E). exists (ahead a' p'). done.
Qed.

(** C3: no message is withheld: after any run, each reader that did not seek has a call that returns, and then it has
    received everything that was ahead of it and everything sent since. *)
Theorem readers_can_catch_up s a es s' i p :
  refines s a -> steps sys_step s es s' -> lo_positions a !! i = Some p -> stays i es ->
  exists max ms s'', sys_step s' (Received i max ms) s'' /\ received i es ++ ms = ahead a p ++ sent es.
Proof.
  intros Hr Hs Hp Hst. destruct (steps_refine _ _ _ Hs a Hr) as (a' & Ha & Hr').
  destruct (refines_position _ _ _ _ Hr Hp) as [Hb _].
  destruct (log_runs _ _ _ i p Ha Hp Hst Hb) as (p' & Hp' & _ & _ & _ & _ & E).
  destruct (refines_position _ _ _ _ Hr' Hp') as [_ [r Hi]].
  destruct (refines_lookup _ _ _ _ Hr' Hi) as (p0 & l & ls & Hp0 & Hon & Hm). assert (p0 = p') as -> by congruence.
  set (max := Z.of_nat (length (ahead a' p'))).
  destruct (owned_batch_run r (sy_world s') l ls max (proj1 Hr') Hon ltac:(lia)) as (r' & out & Hrun & Hall & _).
  rewrite Hm in Hall. unfold max in Hall. rewrite Nat2Z.id, firstn_all in Hall.
  exists max, (ahead a' p'). eexists. split; [|by symmetry].
  unfold runs in Hrun. apply (sys_batch s' i r max out (ahead a' p')); [done|lia|by rewrite Hrun|by rewrite Hrun].
Qed.

(** C4: building a channel where there is none gives the empty log: the writer returned, with the
    readers that will join it, refines it from the base index the caller chose. *)
Theorem a_new_channel_is_the_empty_log b wd id rest len :
  calm wd -> creatable b wd id rest len ->
  let o := WriterBuilder_build b tt wd in
  exists w, o_res o = Ok w /\
    refines (MkSystem w (o_world o) []) (MkLog (wb_base_record_index b) [] (wb_base_record_index b) []).
Proof.
  intros Hc Hcr o. destruct (build_run b wd id rest len Hc Hcr) as [(Hr & Hc' & Hw & Hh & Hn & _) _].
  eexists. split; [exact Hr|]. split; [exact Hc'|]. exists []. split_and!; [exact Hw| | |constructor].
  - cbn [sy_writer sy_world]. unfold o. rewrite Hn. unfold lo_next. cbn. lia.
  - exists (first_leg b id (w_next wd)), []. split_and!; [exact Hh|done|cbn; lia|]. rewrite route_messages_nil. unfold ahead. cbn [lo_messages]. by rewrite drop_nil.
Qed.

(** C25: whenever others look while a channel is being built, they find none of its segments, or its
    whole first segment under its final name. *)
Theorem a_new_channel_appears_whole b wd id rest len :
  calm wd -> creatable b wd id rest len ->
  Forall (whole_or_none b id len) (o_trace (WriterBuilder_build b tt wd)).
Proof. intros Hc Hcr. apply (build_run b wd id rest len Hc Hcr). Qed.

(** C26: the sweep of stale attempts removes exactly the files with attempt names: every segment of
    the channel, and every other entry of the directory, stays at every step. *)
Theorem sweep_removes_only_attempts base wd :
  calm wd ->
  let o := sweep_stale_partial_files base tt wd in
  o_res o = Ok tt /\
  (forall name, w_dir (o_world o) !! name =
     if is_partial_segment_name name base && is_file (w_dir wd !! name) then None else w_dir wd !! name) /\
  Forall (fun wd' => w_inodes wd' = w_inodes wd /\ forall seq, 0 <= seq <= U64_MAX ->
     w_dir wd' !! channel_file_name base seq = w_dir wd !! channel_file_name base seq) (o_trace o).
Proof.
  intros Hc o. destruct (sweep_run base tt wd (spared base wd) Hc (fun _ x => x)) as [(Hr & _ & _ & Hd) Ht].
  split_and!; [done|done|]. eapply Forall_impl; [exact Ht|]. intros wd' [Hs _ Hi _ _]. split; [done|]. intros seq Hseq.
  apply Hs. assert (Hz : id_ok (zeros 16)) by (split; [done|apply zeros_byte]).
  apply (attempt_names_are_apart base seq (zeros 16) Hseq Hz).
Qed.

End theorems.

(** ** Witnesses *)

Definition sys0 : System := MkSystem w0 wd0 [rd1].
Definition log0 : Log := MkLog 100 [] 100 [100].

Lemma sys0_refines : refines sys0 log0.
Proof.
  split; [exact wd0_calm|]. exists []. split_and!; [exact w0_ok|vm_compute; reflexivity| |].
  - exists (leg0 [channel_entry] 208), []. split_and!; [exact w0_holds|done|cbn; lia|vm_compute; reflexivity].
  - constructor; [|constructor]. exists (leg0 [channel_entry] 208), [].
    split_and!; [apply rd1_follows; by left|vm_compute; reflexivity|cbn; lia|vm_compute; reflexivity|done].
Qed.

Lemma sys0_sendable : sendable sys0 7 9 [1; 2; 3].
Proof.
  constructor; [apply w0_admissible; cbn; lia|exact w0_room|lia|lia|repeat constructor; lia|by vm_compute|].
  constructor; [by vm_compute|constructor].
Qed.

Definition message0 : Message := MkMessage 7 9 [1; 2; 3].

Definition sys1 : System :=
  let o := send 7 9 [1; 2; 3] w0 wd0 in MkSystem (o_self o) (o_world o) [rd1].

Lemma sys0_sends : steps sys_step sys0 [Sent message0] sys1.
Proof.
  apply (steps_cons sys_step sys0 (Sent message0) sys1 [] sys1); [|constructor].
  exact (sys_send sys0 7 9 [1; 2; 3] sys0_sendable (proj1 (send_refines sys0 log0 7 9 [1; 2; 3] sys0_refines sys0_sendable))).
Qed.

Lemma sys0_stays : stays 0 [Sent message0].
Proof. by repeat constructor. Qed.

Lemma sys1_joinable : joinable sys1 (ReaderBuilder_new "c").
Proof. constructor; [by vm_compute|done|by left|discriminate]. Qed.

(** A run that sends, opens a second reader at the start and moves the first one back to it. *)
Lemma sys0_runs : exists k s, steps sys_step sys0 [Sent message0; Joined LateJoin k; Sought 0 LateJoin k] s.
Proof.
  destruct (send_refines sys0 log0 7 9 [1; 2; 3] sys0_refines sys0_sendable) as (Hok & k & _ & Hr1).
  destruct (join_refines _ _ (ReaderBuilder_new "c") Hr1 sys1_joinable) as (r & wd & Hrun & Hp & Hr2).
  destruct (seek_refines _ _ 0 rd1 LateJoin Hr2 eq_refl ltac:(discriminate)) as (p & _ & r' & wd' & Hrun' & Hp' & _).
  set (s2 := MkSystem (sy_writer sys1) wd [rd1; r]).
  change (ReaderBuilder_build (ReaderBuilder_new "c") tt (sy_world sys1) = Outcome (Ok r) tt wd []) in Hrun.
  change (reopen LateJoin rd1 (sy_world s2) = Outcome (Ok tt) r' wd' []) in Hrun'.
  exists k, (MkSystem (sy_writer s2) wd' [r'; r]).
  apply (steps_cons sys_step _ _ sys1); [exact (sys_send sys0 7 9 [1; 2; 3] sys0_sendable Hok)|].
  apply (steps_cons sys_step _ _ s2); [|apply (steps_cons sys_step _ _ (MkSystem (sy_writer s2) wd' [r'; r])); [|constructor]].
  - pose proof (sys_join sys1 (ReaderBuilder_new "c") r sys1_joinable) as Hs. cbn zeta in Hs. rewrite Hrun in Hs.
    specialize (Hs eq_refl). rewrite Hp in Hs. exact Hs.
  - pose proof (sys_seek s2 0 rd1 LateJoin eq_refl ltac:(discriminate)) as Hs. cbn zeta in Hs. rewrite Hrun' in Hs.
    specialize (Hs eq_refl). cbn [o_self] in Hs. rewrite Hp' in Hs. exact Hs.
Qed.

Lemma channel_refines_the_log_witness :
  exists k s a', steps log_step log0 [Sent message0; Joined LateJoin k; Sought 0 LateJoin k] a' /\ refines s a'.
Proof.
  destruct sys0_runs as (k & s & Hs). exists k, s. exact (channel_refines_the_log sys0 log0 _ s sys0_refines Hs).
Defined.

Lemma readers_receive_what_is_sent_witness :
  received 0 [Sent message0] `prefix_of` ahead log0 100 ++ sent [Sent message0].
Proof. exact (readers_receive_what_is_sent sys0 log0 _ sys1 0 100 sys0_refines sys0_sends eq_refl sys0_stays). Defined.

Lemma readers_can_catch_up_witness :
  exists max s'', sys_step sys1 (Received 0 max [message0]) s''.
Proof.
  destruct (readers_can_catch_up sys0 log0 _ sys1 0 100 sys0_refines sys0_sends eq_refl sys0_stays) as (max & ms & s'' & Hs & E).
  exists max, s''. change (ms = [message0]) in E. subst ms. exact Hs.
Defined.

Lemma builder0_creates : creatable builder0 world0 (id_of 1) [id_of 2; id_of 3] 8192.
Proof.
  constructor; try (by vm_compute); try done.
  - right. by vm_compute.
  - apply zeros_name_ok.
  - split; [apply (id_of_ok 1); lia|by vm_compute].
Qed.

Lemma a_new_channel_is_the_empty_log_witness :
  exists w, o_res built = Ok w /\ refines (MkSystem w (o_world built) []) (MkLog 100 [] 100 []).
Proof. exact (a_new_channel_is_the_empty_log builder0 world0 _ _ _ ltac:(done) builder0_creates). Defined.

Lemma a_new_channel_appears_whole_witness : Forall (whole_or_none builder0 (id_of 1) 8192) (o_trace built).
Proof. exact (a_new_channel_appears_whole builder0 world0 _ _ _ ltac:(done) builder0_creates). Defined.

(** A directory with a segment, a stale attempt of it and a file of someone else. *)
Definition littered : world :=
  World {["c" := DFile 1; "c.7.partial" := DFile 2; "notes" := DFile 3]} ∅ 4 0 (Oracle [] [] [] []) [].

Lemma sweep_removes_only_attempts_witness :
  let o := sweep_stale_partial_files "c" tt littered in
  w_dir (o_world o) !! "c.7.partial" = None /\ w_dir (o_world o) !! "c" = Some (DFile 1) /\
  w_dir (o_world o) !! "notes" = Some (DFile 3).
Proof.
  destruct (sweep_removes_only_attempts "c" littered ltac:(done)) as (_ & Hd & _).
  split_and!; rewrite Hd; vm_compute; reflexivity.
Defined.
