(* ===== verification/HelperTheorems.v ===== *)
(** * What the writer's helper guarantees

    The helper never brings back a segment retention removed, prepares segments as the handshake
    says, and keeps its queues accounted and bounded. *)

From Stdlib Require Import String.
From S2P Require Import Prelude Bytes Effects Region Channel V4 V4Facts Names NamesFacts Segment Helper Prefault Chain RegionFacts PrefaultFacts SegmentFacts WriterInv PrepareFacts RollFacts Handshake Demo.

#[local] Open Scope string_scope.
#[local] Open Scope list_scope.
#[local] Open Scope Z_scope.

Section theorems.
Context `{EnvOk}.

(** C30: however the writer and its helper interleave, and wherever the helper fails, a segment that
    retention has unlinked never has its name in the directory again, and the helper is never about
    to install one that retention has decided to unlink. *)
Theorem removed_segments_stay_removed q n a :
  rtc shake_step (start q n) a ->
  (forall k, k ∈ k_removed a -> k ∉ k_names a) /\
  (forall k, k ∈ k_doomed a -> k_pc a <> Installing k) /\
  forall b, rtc shake_step a b -> k_removed a ⊆ k_removed b /\ forall k, k ∈ k_removed a -> k ∉ k_names b.
Proof.
  intros Ha. pose proof (reachable_ok _ _ Ha (start_ok q n)) as Hok. split_and!.
  - apply (so_removed _ Hok).
  - intros k Hk. apply (so_dropped _ Hok k). by left.
  - intros b Hb. assert (Hsub : k_removed a ⊆ k_removed b).
    { clear -Hb. induction Hb as [a|a b c Hs _ IH]; [done|]. etransitivity; [|exact IH].
      destruct Hs as [Hs|[Hs|Hs]]; destruct Hs; cbn; try done. apply union_subseteq_r. }
    split; [done|]. intros k Hk. apply (so_removed _ (reachable_ok _ _ Hb Hok)). by apply Hsub.
Qed.

(** C31: [prepare_segment] makes its accesses to the state it shares with the writer in the order the
    handshake asks for, whatever it meets: it is the run of its stages, and from any state of the
    writer, when nobody interferes within a stage and no call fails, each stage is the step of the
    handshake for its place, from announcing, checking, installing and clearing to testing again and
    offering, or leaves everything the handshake knows as it was where its place is none; no other
    segment's name changes on the way.  And if the writer has not claimed the segment after the
    helper's, and its name is free, the call installs it, offers it and ends with nothing in flight. *)
Theorem prepare_segment_follows_the_handshake :
  (forall spec s ahead p wd, prepare_segment spec s ahead p wd = run_stages spec s ahead p wd) /\
  (forall spec s ahead g p wd v q d x u,
     calm wd -> prepared_for spec p wd s ahead g ->
     let o := stage spec s ahead g p wd in
     let a := shake_of p wd (pc_of s g) v q d x u in
     let b := shake_of (o_self o) (o_world o) (pc_after s (o_res o)) v q d x u in
     (a = b \/ helper_step a b) /\
     Forall (fun wd' => names_of wd' (p_base_path p) = names_of wd (p_base_path p) \/
       names_of wd' (p_base_path p) = {[s]} ∪ names_of wd (p_base_path p)) (o_trace o)) /\
  (forall spec s ahead p wd id rest len,
     calm wd -> can_prepare spec p wd s (hs_instance (p_segment p)) ahead id rest len ->
     hs_sequence (p_segment p) + 1 = s -> p_claimed p < s -> p_ready_sequence p <> s -> p_refused p <> Some s ->
     (forall n, p_ready p = Some n -> ns_sequence n <= p_claimed p) -> s ∉ names_of wd (p_base_path p) ->
     let o := prepare_segment spec s ahead p wd in
     o_res o = Ok tt /\ ns_sequence <$> p_ready (o_self o) = Some s /\ p_ready_sequence (o_self o) = s /\
     p_in_flight (o_self o) = NONE /\ names_of (o_world o) (p_base_path p) = {[s]} ∪ names_of wd (p_base_path p)).
Proof.
  split_and!.
  - apply prepare_segment_stages.
  - intros spec s ahead g p wd v q d x u Hc Hg. destruct (stage_step spec p wd s ahead g v q d x u Hc Hg) as [(_ & Hs) Ht]. by split.
  - intros spec s ahead p wd id rest len Hc Hcan H1 H2 H3 H4 H5 H6.
    by destruct (prepare_segment_offers spec p wd s ahead id rest len Hc Hcan H1 H2 H3 H4 H5 H6) as [Hq _].
Qed.

(** C33: whatever the system calls return and others do in between, the queue of what the writer left
    and the queue of segments to delete stay within their bounds, the number of descriptors queued
    is exact and at most [2 * SMALL_QUEUE], and no hand-over fails. *)
Theorem helper_queues_stay_accounted (S : Type) base sequence instance file file_len region index size
    regions spec unmap helper (s : S) w p0 cs p :
  match regions with Some n => 0 <= n | None => True end ->
  o_res (Prefaulter_start base sequence instance file file_len region index size regions spec unmap helper s w) = Ok p0 ->
  calls p0 cs p ->
  accounts_ok (bound (p_retired p0)) p /\ forall c w', o_res (call c p w') = Ok tt.
Proof.
  intros Hn Hs Hcs. assert (Hok : accounts_ok (bound (p_retired p0)) p).
  { eapply calls_ok; [exact Hcs|].
    assert (Hp0 : exists f, Prefaulter_start base sequence instance file file_len region index size regions spec unmap helper s w = f /\
      (forall p, o_res f = Ok p -> items (p_retired p) = [] /\ p_queued_files p = 0 /\ p_doomed p = Bounded_new DOOMED_QUEUE /\
        bound (p_retired p) = saturating_add (retire_bound unmap regions) (2 * SMALL_QUEUE))).
    { eexists. split; [done|]. unfold Prefaulter_start, bind. destruct (try_clone file s w) as [[h|e|y] s1 w1 t1]; cbn; [|done..].
      destruct (spawn helper s1 w1) as [[[]|e|y] s2 w2 t2]; cbn; [|done..].
      by intros p1 [= <-]. }
    destruct Hp0 as (f & Hf & Hp0). rewrite Hf in Hs. destruct (Hp0 _ Hs) as (E1 & E2 & E3 & E4).
    assert (Hb : 0 <= bound (p_retired p0)).
    { rewrite E4. unfold saturating_add, retire_bound. change SMALL_QUEUE with 8. unfold USIZE_MAX, U64_MAX. destruct unmap, regions; lia. }
    constructor; rewrite ?E1, ?E2, ?E3; cbn; [done|change SMALL_QUEUE with 8; lia|done|lia|done]. }
  split; [done|]. intros c w'. apply (call_ok _ c p w' Hok).
Qed.

End theorems.

(** ** Witnesses *)

Lemma removed_segments_stay_removed_witness :
  exists a, rtc shake_step (start 5 {[5]}) a /\ 5 ∈ k_removed a /\ forall b, rtc shake_step a b -> 5 ∉ k_names b.
Proof.
  set (a := MkShake (Ended 6 true) Steady false 6 6 None 6 (({[6]} ∪ {[5]}) ∖ {[5]}) [] (({[5]} ∪ ∅) ∖ {[5]}) ({[5]} ∪ ∅)).
  assert (Ha : rtc shake_step (start 5 {[5]}) a).
  { eapply rtc_l; [left; apply (h_announce 6)|]. eapply rtc_l; [left; apply h_pass; lia|].
    eapply rtc_l; [right; left; apply w_claim|].
    eapply rtc_l; [left; apply (h_install 6 true); by intros ?%elem_of_singleton|].
    eapply rtc_l; [right; left; apply w_roll; [lia|apply elem_of_union_l, elem_of_singleton; lia]|].
    eapply rtc_l; [right; left; apply (w_look 5); lia|]. eapply rtc_l; [right; left; by apply (w_doom 5)|].
    eapply rtc_l; [right; right; apply (u_unlink 5), elem_of_union_l, elem_of_singleton; done|]. apply rtc_refl. }
  assert (H5 : 5 ∈ k_removed a) by (apply elem_of_union_l, elem_of_singleton; done).
  exists a. split; [exact Ha|]. split; [exact H5|]. intros b Hb.
  exact (proj2 (proj2 (proj2 (removed_segments_stay_removed 5 {[5]} a Ha)) b Hb) 5 H5).
Defined.

Definition spec0 : SegmentSpec := MkSpec "c" 8192 0 (zeros 48) 7.

(** The helper of [w0], just started. *)
Definition helper0 : Shared :=
  MkShared Failure_default 4096 (Some 2) Immediate (HSegment 0 (id_of 1) 1 8192) false (Some (Mapping 1 0 4096)) 0 0 None
    (Bounded_new 80) 0 0 0 (Some spec0) None None false 0 NONE NONE "c" (Bounded_new DOOMED_QUEUE) None false.

Lemma helper0_started :
  o_res (Prefaulter_start "c" 0 (id_of 1) 1 8192 (Mapping 1 0 4096) 0 4096 (Some 2) (Some spec0) Immediate (on_core 3) tt wd0) = Ok helper0.
Proof. vm_compute. reflexivity. Qed.

Lemma helper0_prepares : can_prepare spec0 helper0 wd0 1 (id_of 1) 65536 (id_of 2) [id_of 3] 8192.
Proof.
  constructor; try (vm_compute; reflexivity); try (by vm_compute).
  - apply zeros_name_ok.
  - apply (id_of_ok 1). lia.
  - split; [apply (id_of_ok 2); lia|by vm_compute].
Qed.

Lemma prepare_segment_follows_the_handshake_witness :
  (let o := prepare_segment spec0 1 65536 helper0 wd0 in
   ns_sequence <$> p_ready (o_self o) = Some 1 /\ names_of (o_world o) "c" = {[1]} ∪ names_of wd0 "c") /\
  (let o := stage spec0 1 65536 (AtInstall (id_of 1)) helper0 wd0 in
   exists a b, a = shake_of helper0 wd0 (Installing 1) Steady 0 [] ∅ ∅ /\
     b = shake_of (o_self o) (o_world o) (pc_after 1 (o_res o)) Steady 0 [] ∅ ∅ /\ (a = b \/ helper_step a b)).
Proof.
  destruct prepare_segment_follows_the_handshake as (_ & Hstage & Hoffer). split.
  - destruct (Hoffer spec0 1 65536 helper0 wd0 (id_of 2) [id_of 3] 8192 wd0_calm helper0_prepares) as (_ & H1 & _ & _ & H2);
      [done|cbn; lia|by vm_compute|done|by intros n|intros [_ [y Hy]]%elem_of_names; vm_compute in Hy; discriminate|]. by split.
  - intros o. eexists _, _. split; [done|]. split; [done|].
    exact (proj1 (Hstage spec0 1 65536 (AtInstall (id_of 1)) helper0 wd0 Steady 0 [] ∅ ∅ wd0_calm
      (ex_intro _ (id_of 2) (ex_intro _ [id_of 3] (ex_intro _ 8192 helper0_prepares))))).
Defined.

(** A move to the next region, a roll, a segment to delete and a turn of the thread. *)
Definition calls0 : list Call :=
  [CMoved (Mapping 1 4096 4096) 1 (Mapping 1 0 4096);
   CRolled 1 (id_of 2) 2 8192 (Mapping 2 0 4096) 0 [Mapping 1 4096 4096] 1 None; CUnlink 0; CRelease].

Lemma helper_queues_stay_accounted_witness : exists p, calls helper0 calls0 p /\ accounts_ok 80 p.
Proof.
  assert (Hc : exists p, calls helper0 calls0 p).
  { eexists. do 4 apply calls_cons with (w := wd0). constructor. }
  destruct Hc as [p Hc]. exists p. split; [exact Hc|].
  exact (proj1 (helper_queues_stay_accounted unit "c" 0 (id_of 1) 1 8192 (Mapping 1 0 4096) 0 4096 (Some 2) (Some spec0)
    Immediate (on_core 3) tt wd0 helper0 calls0 p ltac:(cbv; discriminate) helper0_started Hc)).
Defined.
