(* ===== verification/WakeFacts.v ===== *)
(** * Waiting for messages (src/lib.rs: wait_for_message, read_blocking; src/wake.rs)

    On a calm world whose clock does not run backwards: a wait with a message ahead returns at once,
    and one without returns when its time is up, after a bounded number of turns.  A commit of a
    writer that wakes its readers ends a sleep. *)

From S2P Require Import Prelude Bytes Effects Region Channel V4 Names Segment Helper MapAhead Reader Wake Chain RegionFacts SegmentFacts Prefault Writer WriterInv CommitFacts ReaderFacts Route RouteFacts OpenFacts LocateFacts Joining.

#[local] Open Scope list_scope.
#[local] Open Scope Z_scope.

(** ** Time *)

(** A calm world with a monotonic clock. *)
Record clocked (w : world) : Prop := {
  ck_calm : calm w;
  ck_ticks : Forall (Z.le 0) (o_ticks (w_oracle w))
}.

(** [w'] is [w] with the clock further on. *)
Record later (w w' : world) : Prop := {
  lt_files : same_files w w';
  lt_clocked : clocked w';
  lt_clock : w_clock w <= w_clock w'
}.

#[export] Instance same_files_sym : Symmetric same_files.
Proof. intros w1 w2 []. by constructor. Qed.

#[export] Instance same_files_trans : Transitive same_files.
Proof. intros w1 w2 w3 [] []. constructor; congruence. Qed.

#[export] Instance later_trans : Transitive later.
Proof. intros w1 w2 w3 [] []. constructor; [by etrans|done|lia]. Qed.

Lemma later_refl w : clocked w -> later w w.
Proof. intros Hw. by constructor. Qed.

Lemma ticked_later w : clocked w -> later w (ticked w).
Proof.
  intros [Hc Ht]. constructor; [apply ticked_same_files|constructor; [by apply ticked_calm|]|];
    unfold ticked, now, consume; destruct (o_ticks (w_oracle w)) as [|d rest] eqn:E; cbn; rewrite ?E; try done;
    first [by inversion Ht|lia|inversion Ht; lia].
Qed.

Lemma now_run {S} (s : S) w : now s w = Outcome (Ok (w_clock (ticked w))) s (ticked w) [].
Proof. unfold ticked, now, consume. by destruct (o_ticks (w_oracle w)). Qed.

(** The world after [d] nanoseconds. *)
Definition slept (d : Z) (w : world) : world := set_clock (w_clock w + d) w.

Lemma slept_later d w : clocked w -> 0 <= d -> later w (slept d w).
Proof. intros [] ?. constructor; [by constructor|by constructor|cbn; lia]. Qed.

Section waiting.
Context `{EnvOk}.
Implicit Types (r : Reader) (w : world) (l : Leg) (ls : list Leg).

(** ** The wake word *)

Definition word_of w (f : Z) : Z := get 4 (data_of w f) OFF_wake_word.

Lemma stands_len r w l : stands r w l -> rs_ok page_size /\ page_size <= len_of w (r_file r).
Proof.
  intros Hs. pose proof (st_reader _ _ _ Hs) as Hr. destruct (page_rs_ok _ (ro_rs _ _ _ _ Hr)) as [Hp Hle].
  split; [done|]. pose proof (ro_in _ _ _ _ Hr) as Hin. pose proof (chain_le _ _ _ _ _ (ro_chain _ _ _ _ Hr)).
  pose proof (ro_pos _ _ _ _ Hr). pose proof (rs_pos _ (ro_rs _ _ _ _ Hr)). unfold in_file in Hin.
  pose proof (Z.div_pos (lg_end l) (region_size_cached r)). nia.
Qed.

Lemma reads_word {S} (s : S) r w l :
  calm w -> stands r w l -> reads (load_wake_word (r_header r)) s w (Ok (word_of w (r_file r))).
Proof.
  intros Hc Hs. destruct (stands_len _ _ _ Hs) as [Hp Hl]. rewrite (ro_header _ _ _ _ (st_reader _ _ _ Hs)).
  by apply (reads_head (r_file r) page_size OFF_wake_word 4 (get 4)); [|apply Hc|..].
Qed.

Lemma reads_wake_word_if_waking r w l :
  calm w -> stands r w l ->
  exists v, reads wake_word_if_waking r w (Ok v) /\ (v = None \/ SUPPORTED = true /\ v = Some (word_of w (r_file r))).
Proof.
  intros Hc Hs. destruct (stands_len _ _ _ Hs) as [Hp Hl].
  destruct (negb SUPPORTED || wake_untrusted r) eqn:E.
  { exists None. split; [|by left]. eapply reads_seq; [apply reads_self|]. rewrite E. apply reads_ret. }
  assert (Hf : reads (load_wake_flags (r_header r)) r w (Ok (get 1 (data_of w (r_file r)) OFF_wake_flags))).
  { rewrite (ro_header _ _ _ _ (st_reader _ _ _ Hs)).
    by apply (reads_head (r_file r) page_size OFF_wake_flags 1 (get 1)); [|apply Hc|..]. }
  destruct (Z.land (get 1 (data_of w (r_file r)) OFF_wake_flags) WAKE_FLAG_WAKES =? 0) eqn:Ef.
  - exists None. split; [|by left]. eapply reads_seq; [apply reads_self|]. rewrite E.
    eapply reads_seq; [exact Hf|]. rewrite Ef. apply reads_ret.
  - exists (Some (word_of w (r_file r))). split.
    + eapply reads_seq; [apply reads_self|]. rewrite E. eapply reads_seq; [exact Hf|]. rewrite Ef.
      eapply reads_seq; [by eapply reads_word|]. apply reads_ret.
    + right. bools. split; [by destruct SUPPORTED|done].
Qed.

(** What a futex call over a word compares. *)
Definition holds w (q : RegionMapping * Z) : Prop :=
  accessible q.1 OFF_wake_word 4 w = true /\
  get 4 (data_of w (rm_ino q.1)) (region_offset q.1 + OFF_wake_word) = q.2.

Lemma page_holds f w : rs_ok page_size -> page_size <= len_of w f -> holds w (Mapping f 0 page_size, word_of w f).
Proof.
  intros Hp Hl. split; [|done].
  assert (Hb : backed (Mapping f 0 page_size) OFF_wake_word 4 w) by by apply head_backed.
  by apply backed_accessible.
Qed.

Lemma stands_holds r w l : stands r w l -> holds w (r_header r, word_of w (r_file r)).
Proof. intros Hs. destruct (stands_len _ _ _ Hs). rewrite (ro_header _ _ _ _ (st_reader _ _ _ Hs)). by apply page_holds. Qed.

Lemma words_hold_all w words : Forall (holds w) words -> words_hold words w = Some true.
Proof. induction 1 as [|[m v] words [Ha Hg] _ IH]; [done|]. cbn in *. rewrite Ha, Hg, Z.eqb_refl. done. Qed.

(** A sleep on words that nobody changes or wakes lasts its time. *)
Lemma futex_out {S} (s : S) w words nap :
  calm w -> Forall (holds w) words ->
  futex_wait words nap s w = Outcome (Ok (inl TimedOut)) s (slept nap w) [].
Proof.
  intros Hc Hh. unfold futex_wait.
  rewrite (bind_outcome _ _ _ _ _ _ _ (reads_attempt_ok _ _ _ _ (reads_syscall s w Hc))).
  rewrite (reads_bind _ _ _ _ _ (reads_ask _ _ _)), words_hold_all by done.
  rewrite (reads_bind _ _ _ _ _ (reads_ask _ _ _)), (bind_outcome _ _ _ _ _ _ _ (reads_interfere s w (proj1 Hc))).
  by rewrite (reads_bind _ _ _ _ _ (reads_ask _ _ _)), Nat.ltb_irrefl.
Qed.

Lemma wait_out r w l nap :
  clocked w -> stands r w l -> SUPPORTED = true ->
  wait (r_header r) (word_of w (r_file r)) nap r w = Outcome (Ok TimedOut) r (slept nap w) [].
Proof.
  intros [Hc _] Hs Hsup. unfold wait. rewrite Hsup. cbn [negb].
  assert (Hf : futex_wait [(r_header r, word_of w (r_file r))] nap r w = Outcome (Ok (inl TimedOut)) r (slept nap w) []).
  { apply futex_out; [done|]. apply Forall_singleton. by eapply stands_holds. }
  by rewrite (bind_outcome _ _ _ _ _ _ _ Hf).
Qed.

(** ** A turn of the wait *)

Lemma poll_empty r w l ls :
  calm w -> on_route r w l ls -> route_messages w l ls = [] ->
  exists r', runs poll_for_user_message r w (Ok false) r' /\ same_reader r r' /\ on_route r' w (tip l ls) [].
Proof.
  intros Hc Hr Hm. pose proof (scan_run false r w l ls Hc Hr) as Hs. pose proof (next_on_spec w l ls) as Hn.
  unfold scanned in Hs. destruct (next_on l ls) as [[[[e es] l1] ls']|].
  - destruct Hn as (_ & _ & Hn & _). by rewrite Hn in Hm.
  - destruct Hs as (r' & _ & Hp1 & Hp2 & Hp3). by exists r'.
Qed.

Lemma tip_empty w l ls : route_messages w (tip l ls) [] = [].
Proof. done. Qed.

(** [time_left] before and after the deadline. *)
Lemma time_left_run {S} dl (s : S) w :
  time_left (Some dl) s w =
    Outcome (Ok (if dl <=? w_clock (ticked w) then None else Some (dl - w_clock (ticked w)))) s (ticked w) [].
Proof.
  unfold time_left. rewrite (bind_outcome _ _ _ _ _ _ _ (now_run s w)).
  destruct (Z.leb_spec dl (w_clock (ticked w))).
  - replace (Z.max 0 (dl - w_clock (ticked w))) with 0 by lia. done.
  - rewrite Z.max_r by lia. replace (dl - w_clock (ticked w) =? 0) with false by (symmetry; apply Z.eqb_neq; lia). done.
Qed.

Lemma sleep_run {S} (s : S) d w : calm w -> sleep d s w = Outcome (Ok tt) s (slept d w) [].
Proof. intros [Hq _]. unfold sleep. by rewrite (bind_outcome _ _ _ _ _ _ _ (reads_interfere s w Hq)). Qed.

(** What a turn without a message ahead does: it ends the wait once the deadline has passed; else
    time passes, or the reader has moved to the last file of its route. *)
Definition turned (dl b : Z) r w l ls (o : outcome Reader (Z + bool)) : Prop :=
  exists r' w', on_route r' w' (tip l ls) [] /\ same_reader r r' /\ later w w' /\
    (o = Outcome (Ok (inr false)) r' w' [] /\ dl <= w_clock w' \/
     w_clock w < dl /\ exists b', BACKOFF_START <= b' /\ o = Outcome (Ok (inl b')) r' w' [] /\
       (r_file_sequence r <> lg_sequence (tip l ls) \/ Z.min (w_clock w + BACKOFF_START) dl <= w_clock w')).

(** The files of a route have sequences of their own. *)
Lemma tip_file w base rs gen l ls :
  route w base rs gen l ls -> lg_sequence (tip l ls) = lg_sequence l -> lg_file (tip l ls) = lg_file l.
Proof.
  intros Hr E. assert (Hle : forall a bs, route w base rs gen a bs -> lg_sequence a <= lg_sequence (tip a bs)).
  { intros a bs. induction 1 as [a _|a b bs (edge & i & Hh) _ IH]; [cbn; lia|].
    destruct (hp_next _ _ _ _ _ _ _ _ Hh) as (Hx & _). change (tip a (b :: bs)) with (tip b bs). lia. }
  destruct Hr as [a Ha|a b bs (edge & i & Hh) Hb]; [done|].
  destruct (hp_next _ _ _ _ _ _ _ _ Hh) as (Hx & _). pose proof (Hle _ _ Hb).
  change (tip a (b :: bs)) with (tip b bs) in E. lia.
Qed.

(** The word seen before a look at the route is the one after it, if the reader is still in the file. *)
Lemma word_kept r r' w w' l ls :
  same_files w w' -> on_route r w l ls -> on_route r' w' (tip l ls) [] -> r_file_sequence r' = r_file_sequence r ->
  word_of w (r_file r) = word_of w' (r_file r').
Proof.
  intros Hw Hr Hr' Esq. unfold word_of. rewrite (data_of_same w w') by apply Hw.
  rewrite (st_file _ _ _ (proj1 Hr)), (st_file _ _ _ (proj1 Hr')). f_equal. f_equal. symmetry.
  apply (tip_file w _ _ _ _ _ (proj2 Hr)).
  by rewrite <- (st_sequence _ _ _ (proj1 Hr)), <- (st_sequence _ _ _ (proj1 Hr')).
Qed.

(** A turn that sleeps. *)
Lemma turned_slept dl b b' nap r r' w l ls :
  clocked w -> on_route r' w (tip l ls) [] -> same_reader r r' -> BACKOFF_START <= b' ->
  w_clock (ticked w) < dl -> 0 <= nap -> Z.min BACKOFF_START (dl - w_clock (ticked w)) <= nap ->
  turned dl b r w l ls (Outcome (Ok (inl b')) r' (slept nap (ticked w)) []).
Proof.
  intros Hw Hr Hs Hb Hdl Hnap Hmin. pose proof (ticked_later _ Hw) as Hl1.
  pose proof (slept_later nap _ (lt_clocked _ _ Hl1) Hnap) as Hl2.
  pose proof (transitivity Hl1 Hl2) as Hl. pose proof (lt_clock _ _ Hl1).
  exists r', (slept nap (ticked w)). split_and!; [eapply on_route_same; [apply Hl|done]|done|done|].
  right. split; [lia|]. exists b'. split_and!; [done|done|]. right. cbn. lia.
Qed.

Lemma wait_turn dl b r w l ls :
  clocked w -> on_route r w l ls -> route_messages w l ls = [] -> BACKOFF_START <= b ->
  turned dl b r w l ls (wait_step (Some dl) b r w).
Proof.
  intros Hw Hr Hm Hb. pose proof (ck_calm _ Hw) as Hc.
  destruct (reads_wake_word_if_waking r w l Hc (proj1 Hr)) as (seen & Hseen & Hword).
  destruct (poll_empty _ _ _ _ Hc Hr Hm) as (r1 & Hpoll & Hs1 & Hr1).
  pose proof (ticked_later _ Hw) as Hlt. pose proof (lt_clock _ _ Hlt) as Hck.
  unfold wait_step. rewrite (bind_outcome _ _ _ _ _ _ _ (runs_self r w)). cbv zeta.
  rewrite (bind_outcome _ _ _ _ _ _ _ Hseen), (bind_outcome _ _ _ _ _ _ _ Hpoll).
  rewrite (bind_outcome _ _ _ _ _ _ _ (time_left_run dl r1 w)).
  assert (Hr2 : on_route r1 (ticked w) (tip l ls) []) by (eapply on_route_same; [apply Hlt|done]).
  destruct (Z.leb_spec dl (w_clock (ticked w))) as [Hdl|Hdl].
  { exists r1, (ticked w). split_and!; [done..|]. by left. }
  destruct seen as [v|].
  2: { rewrite (bind_outcome _ _ _ _ _ _ _ (sleep_run r1 _ (ticked w) (ck_calm _ (lt_clocked _ _ Hlt)))).
       apply (turned_slept dl b _ _ r r1); try done; unfold BACKOFF_START, BACKOFF_CAP in *; lia. }
  destruct Hword as [?|[Hsup [= ->]]]; [done|].
  rewrite (bind_outcome _ _ _ _ _ _ _ (runs_self r1 (ticked w))).
  destruct (Z.eqb_spec (r_file_sequence r1) (r_file_sequence r)) as [Esq|Esq]; cbn [negb].
  2: { exists r1, (ticked w). split_and!; [done..|]. right. split; [lia|]. exists b. split_and!; [done|done|].
       left. rewrite <- (st_sequence _ _ _ (proj1 Hr1)). congruence. }
  pose proof (word_kept r r1 w (ticked w) l ls (lt_files _ _ Hlt) Hr Hr2 Esq) as Ew.
  set (nap := Z.min (dl - w_clock (ticked w)) WAKE_SLEEP_CAP). rewrite Ew.
  rewrite (bind_outcome _ _ _ _ _ _ _ (wait_out r1 (ticked w) _ nap (lt_clocked _ _ Hlt) (proj1 Hr2) Hsup)).
  assert (Hn : 0 <= nap /\ Z.min BACKOFF_START (dl - w_clock (ticked w)) <= nap)
    by (unfold nap, WAKE_SLEEP_CAP, BACKOFF_START; lia).
  destruct Hn as [Hn1 Hn2].
  destruct (nap =? WAKE_SLEEP_CAP); [|by apply (turned_slept dl b _ _ r r1)].
  pose proof (slept_later nap _ (lt_clocked _ _ Hlt) Hn1) as Hl2.
  assert (Hr3 : on_route r1 (slept nap (ticked w)) (tip l ls) []) by (eapply on_route_same; [apply Hl2|done]).
  destruct (poll_empty _ _ _ _ (ck_calm _ (lt_clocked _ _ Hl2)) Hr3 eq_refl) as (r2 & Hp2 & Hs2 & Hr4).
  rewrite (bind_outcome _ _ _ _ _ _ _ Hp2), tip_tip in *.
  apply (turned_slept dl b _ _ r r2); try done; [|exact (transitivity Hs1 Hs2)].
  eapply on_route_same; [|exact Hr4].
  pose proof (transitivity Hlt Hl2) as Hl3. destruct (lt_files _ _ Hl3) as [Ed Ei En].
  by constructor; rewrite ?Ed, ?Ei, ?En.
Qed.

(** ** The whole wait *)

(** What the wait ends with when no message comes: [false], not before the deadline. *)
Definition timed_out (dl : Z) r w l ls (o : outcome Reader bool) : Prop :=
  exists r' w', o = Outcome (Ok false) r' w' [] /\ on_route r' w' (tip l ls) [] /\ same_reader r r' /\
    later w w' /\ dl <= w_clock w'.

(** In the last file of the route, [k] times the shortest sleep before the deadline. *)
Lemma wait_at_tip dl k : forall b r w l fuel,
  clocked w -> on_route r w (tip l []) [] -> BACKOFF_START <= b ->
  dl <= w_clock w + Z.of_nat k * BACKOFF_START -> (k < fuel)%nat ->
  timed_out dl r w (tip l []) [] (loop_with fuel (wait_step (Some dl)) b r w).
Proof.
  induction k as [|k IH]; intros b r w l fuel Hw Hr Hb Hdl Hf; (destruct fuel as [|fuel]; [lia|]);
    pose proof (wait_turn dl b r w _ [] Hw Hr eq_refl Hb) as (r1 & w1 & Hr1 & Hs1 & Hl1 & [(Eo & Hend)|(Hbefore & b' & Hb' & Eo & Hmove)]);
    cbn [loop_with]; rewrite (bind_outcome _ _ _ _ _ _ _ Eo); rewrite tip_tip in *.
  1, 3: exists r1, w1; rewrite tip_tip; by split_and!.
  - unfold BACKOFF_START in *. lia.
  - destruct Hmove as [Hmove|Hmove]; [by rewrite (st_sequence _ _ _ (proj1 Hr)) in Hmove|].
    assert (Hdl' : dl <= w_clock w1 + Z.of_nat k * BACKOFF_START) by (unfold BACKOFF_START in *; lia).
    destruct (IH b' r1 w1 l fuel (lt_clocked _ _ Hl1) Hr1 Hb' Hdl' ltac:(lia)) as (r2 & w2 & E2 & Hr2 & Hs2 & Hl2 & Hd2).
    exists r2, w2. split_and!; [done|done|exact (transitivity Hs1 Hs2)|exact (transitivity Hl1 Hl2)|done].
Qed.

(** Turns enough for a timeout. *)
Definition wait_turns (timeout : option Z) : nat :=
  match timeout with None => 1 | Some d => Z.to_nat (d / BACKOFF_START) + 3 end.

Lemma wait_loop dl d r w l ls fuel :
  clocked w -> on_route r w l ls -> route_messages w l ls = [] -> dl <= w_clock w + d -> 0 <= d ->
  (wait_turns (Some d) <= fuel)%nat ->
  timed_out dl r w l ls (loop_with fuel (wait_step (Some dl)) BACKOFF_START r w).
Proof.
  intros Hw Hr Hm Hdl Hd Hf. unfold wait_turns in Hf. destruct fuel as [|fuel]; [lia|].
  pose proof (wait_turn dl BACKOFF_START r w l ls Hw Hr Hm ltac:(lia))
    as (r1 & w1 & Hr1 & Hs1 & Hl1 & [(Eo & Hend)|(Hbefore & b' & Hb' & Eo & _)]);
    cbn [loop_with]; rewrite (bind_outcome _ _ _ _ _ _ _ Eo); [exists r1, w1; by split_and!|].
  set (k := Datatypes.S (Z.to_nat (d / BACKOFF_START))).
  assert (Hk : dl <= w_clock w1 + Z.of_nat k * BACKOFF_START).
  { unfold k. pose proof (lt_clock _ _ Hl1). unfold BACKOFF_START. zlia. }
  pose proof (wait_at_tip dl k b' r1 w1 (tip l ls) fuel (lt_clocked _ _ Hl1)) as Htip. rewrite tip_tip in Htip.
  destruct (Htip Hr1 Hb' Hk ltac:(lia)) as (r2 & w2 & E2 & Hr2 & Hs2 & Hl2 & Hd2). rewrite tip_tip in Hr2.
  exists r2, w2. split_and!; [done|done|exact (transitivity Hs1 Hs2)|exact (transitivity Hl1 Hl2)|done].
Qed.

(** The world in which a wait with a message ahead returns. *)
Definition asked_time (timeout : option Z) w : world :=
  match timeout with None => w | Some _ => ticked w end.

Lemma asked_later timeout w : clocked w -> later w (asked_time timeout w).
Proof. intros Hw. destruct timeout; [by apply ticked_later|by apply later_refl]. Qed.

Definition deadline_fits (timeout : option Z) w : Prop :=
  match timeout with None => True | Some d => 0 <= d /\ w_clock (ticked w) + d < INSTANT_END end.

Lemma deadline_run {S} timeout (s : S) w :
  deadline_fits timeout w ->
  deadline_of timeout s w = Outcome (Ok ((fun d => w_clock (ticked w) + d) <$> timeout)) s (asked_time timeout w) [].
Proof.
  destruct timeout as [d|]; [|done]. intros [Hd Hfit]. unfold deadline_of.
  rewrite (bind_outcome _ _ _ _ _ _ _ (now_run s w)).
  replace (w_clock (ticked w) + d >=? INSTANT_END) with false; [done|].
  symmetry. rewrite Z.geb_leb. apply Z.leb_gt. lia.
Qed.

(** With a message ahead the first look finds it, and no time is spent. *)
Lemma wait_finds timeout fuel r w l ls :
  clocked w -> on_route r w l ls -> route_messages w l ls <> [] -> deadline_fits timeout w -> (1 <= fuel)%nat ->
  let w' := asked_time timeout w in
  exists r', wait_for_message fuel timeout r w = Outcome (Ok true) r' w' [] /\
    goes_on r w' l ls (route_messages w' l ls) r'.
Proof.
  intros Hw Hr Hm Hfit Hf w'. pose proof (asked_later timeout w Hw) as Hl. fold w' in Hl.
  assert (Hr' : on_route r w' l ls) by (eapply on_route_same; [apply Hl|done]).
  assert (Em : route_messages w' l ls = route_messages w l ls) by (apply route_messages_same, Hl).
  destruct (peek_run r w' l ls (ck_calm _ (lt_clocked _ _ Hl)) Hr') as (r1 & _ & Hpoll & Hg).
  rewrite bool_decide_eq_true_2 in Hpoll by (by rewrite Em).
  destruct (reads_wake_word_if_waking r w' l (ck_calm _ (lt_clocked _ _ Hl)) (proj1 Hr')) as (seen & Hseen & _).
  exists r1. split; [|done]. unfold wait_for_message.
  rewrite (bind_outcome _ _ _ _ _ _ _ (deadline_run timeout r w Hfit)). fold w'.
  destruct fuel as [|fuel]; [lia|]. cbn [loop_with].
  assert (Hstep : wait_step ((fun d => w_clock (ticked w) + d) <$> timeout) BACKOFF_START r w' = Outcome (Ok (inr true)) r1 w' []).
  { unfold wait_step. rewrite (bind_outcome _ _ _ _ _ _ _ (runs_self r w')). cbv zeta.
    by rewrite (bind_outcome _ _ _ _ _ _ _ Hseen), (bind_outcome _ _ _ _ _ _ _ Hpoll). }
  by rewrite (bind_outcome _ _ _ _ _ _ _ Hstep).
Qed.

(** Without one, the wait lasts its time. *)
Lemma wait_times_out d fuel r w l ls :
  clocked w -> on_route r w l ls -> route_messages w l ls = [] -> deadline_fits (Some d) w ->
  (wait_turns (Some d) <= fuel)%nat ->
  timed_out (w_clock (ticked w) + d) r w l ls (wait_for_message fuel (Some d) r w).
Proof.
  intros Hw Hr Hm Hfit Hf. pose proof (ticked_later _ Hw) as Hl.
  unfold wait_for_message. rewrite (bind_outcome _ _ _ _ _ _ _ (deadline_run (Some d) r w Hfit)).
  cbn [asked_time fmap option_fmap option_map].
  destruct (wait_loop (w_clock (ticked w) + d) d r (ticked w) l ls fuel) as (r' & w' & E & Hr' & Hs & Hl' & Hdl);
    [apply Hl|by eapply on_route_same; [apply Hl|]|by rewrite (route_messages_same w) by apply Hl|lia|apply Hfit|done|].
  exists r', w'. split_and!; [done..|exact (transitivity Hl Hl')|done].
Qed.

(** ** Being woken *)

(** The world once others have had their next turn. *)
Definition interfered w : world := o_world (interfere (S := unit) tt w).

(** How often those asleep on the word of [f] have been woken. *)
Definition wakes_on (f : Z) w : nat := wakes_so_far [(Mapping f 0 page_size, 0)] w.

(** [w'] agrees with [w] about the word of [f]: its value, and the wake-ups so far. *)
Definition same_word (f : Z) w w' : Prop := word_of w' f = word_of w f /\ wakes_on f w' = wakes_on f w.

(** A call of [wait] on the word of [f] in world [w], which no failure interrupts: the kernel compares
    the word where [from] has it, and what others do while the caller sleeps takes it to where [to]
    has it. *)
Record asleep (f : Z) (from to w : world) : Prop := {
  al_healthy : healthy w;
  al_page : page_size <= len_of (interfered w) f;
  al_compared : same_word f from (interfered w);
  al_ended : same_word f to (interfered (interfered w))
}.

Lemma events_keep evs w :
  w_clock (foldl apply_event w evs) = w_clock w /\ w_oracle (foldl apply_event w evs) = w_oracle w.
Proof. revert w. induction evs as [|ev evs IH]; intros w; [done|]. cbn [foldl]. destruct (IH (apply_event w ev)) as [-> ->]. by destruct ev. Qed.

Lemma interfered_keeps w : w_clock (interfered w) = w_clock w /\ (healthy w -> healthy (interfered w)).
Proof.
  unfold interfered, interfere, healthy. destruct (o_events (w_oracle w)) as [|evs rest]; [done|]. cbn [o_world].
  destruct (events_keep evs (set_oracle (set_events rest (w_oracle w)) w)) as [-> ->]. done.
Qed.

Lemma wp_interfered {S} (s : S) w (Q : res unit -> S -> world -> Prop) :
  Q (Ok tt) s (interfered w) -> wp interfere s w Q (fun _ => True).
Proof.
  unfold wp, interfered, interfere. intros HQ. destruct (o_events (w_oracle w)); (split; [done|by repeat constructor]).
Qed.

(** A sleeper for whom the word is another one when the kernel compares it, or whom somebody wakes, is
    told to look again, with no time lost. *)
Lemma wait_woken {S} (s : S) f v nap from to w :
  rs_ok page_size -> SUPPORTED = true -> asleep f from to w ->
  word_of from f <> v \/ (wakes_on f from < wakes_on f to)%nat ->
  wp (wait (Mapping f 0 page_size) v nap) s w (fun x s' w' => x = Ok Changed /\ s' = s /\ w_clock w' = w_clock w) (fun _ => True).
Proof.
  intros Hrs Hsup [Hh Hp [Ew1 En1] [_ En2]] Hor.
  destruct (interfered_keeps w) as [Ec1 Hh1]. destruct (interfered_keeps (interfered w)) as [Ec2 _].
  unfold wait. rewrite Hsup. cbn [negb]. apply wp_bind. unfold futex_wait. apply wp_bind, wp_attempt.
  apply wp_bind, wp_interfered. apply wp_may_fail_healthy; [by apply Hh1|]. apply wp_bind, wp_ask.
  destruct (page_holds f (interfered w) Hrs Hp) as [Ha Hg]. cbn [fst snd rm_ino region_offset] in Ha, Hg.
  cbn [words_hold rm_ino region_offset]. rewrite Ha, Hg, Ew1. destruct (Z.eqb_spec (word_of from f) v) as [Ev|_].
  2: { apply wp_ret, wp_ret. by split_and!. }
  destruct Hor as [Hne|Hlt]; [done|]. apply wp_bind, wp_ask. apply wp_bind, wp_interfered. apply wp_bind, wp_ask.
  change (wakes_so_far [(Mapping f 0 page_size, v)]) with (wakes_on f). rewrite En1, En2.
  apply Nat.ltb_lt in Hlt as ->. apply wp_ret, wp_ret. split_and!; [done|done|congruence].
Qed.

End waiting.
