(* ===== verification/GroupFacts.v ===== *)
(** * Waiting on several readers (src/lib.rs: wait_any; src/wake.rs: wait_any)

    [wait_any] over readers that each stand on a route of their own, on a calm world whose clock does
    not run backwards: what a look at every reader finds, and what a turn without a message does. *)

From S2P Require Import Prelude Bytes Effects Region Channel V4 Names Segment Helper MapAhead Reader Wake Chain RegionFacts SegmentFacts WriterInv ReaderFacts Route RouteFacts OpenFacts LocateFacts Joining WakeFacts.

#[local] Open Scope list_scope.
#[local] Open Scope Z_scope.

(** A reader's route: the leg it is on and those after it. *)
Abbreviation path := (Leg * list Leg)%type.

Section group.
Context `{EnvOk}.
Implicit Types (r : Reader) (rs : list Reader) (w : world) (p : path) (ps : list path).

(** ** The readers and their routes *)

Definition on_path w r p : Prop := on_route r w p.1 p.2.
Definition ahead_of w p : list Message := route_messages w p.1 p.2.
Definition path_end p : path := (tip p.1 p.2, []).
Definition nothing_ahead w ps : Prop := Forall (fun p => ahead_of w p = []) ps.

(** The first route with a message ahead. *)
Definition first_ahead w ps : option nat := fst <$> list_find (fun p => ahead_of w p <> []) ps.

Lemma path_end_end p : path_end (path_end p) = path_end p.
Proof. unfold path_end. cbn [fst snd]. by rewrite tip_tip. Qed.

Lemma first_ahead_cons w p ps :
  first_ahead w (p :: ps) = if decide (ahead_of w p <> []) then Some 0%nat else Datatypes.S <$> first_ahead w ps.
Proof.
  unfold first_ahead. cbn [list_find]. destruct (decide (ahead_of w p <> [])); [done|].
  by destruct (list_find _ ps) as [[]|].
Qed.

Lemma first_ahead_none w ps : first_ahead w ps = None <-> nothing_ahead w ps.
Proof.
  unfold first_ahead, nothing_ahead. rewrite fmap_None, list_find_None, !Forall_forall.
  split; intros Hp p Hin; specialize (Hp p Hin); [by apply dec_stable|]. by intros Hn.
Qed.

Lemma ahead_same w w' p : same_files w w' -> ahead_of w' p = ahead_of w p.
Proof. intros Hs. by apply route_messages_same, Hs. Qed.

Lemma first_ahead_same w w' ps : same_files w w' -> first_ahead w' ps = first_ahead w ps.
Proof.
  intros Hs. induction ps as [|p ps IH]; [done|]. rewrite !first_ahead_cons, IH, (ahead_same w w') by done. done.
Qed.

Lemma paths_same w w' rs ps : same_files w w' -> Forall2 (on_path w) rs ps -> Forall2 (on_path w') rs ps.
Proof. intros Hs Hr. eapply Forall2_impl; [exact Hr|]. intros r p Hp. by eapply on_route_same. Qed.

(** What a look at a reader leaves of it: where it was, or the end of its route if nothing is ahead. *)
Definition looked w r p r' : Prop :=
  goes_on r w p.1 p.2 (ahead_of w p) r' /\ (ahead_of w p = [] -> on_path w r' (path_end p)).

Lemma poll_looks w r p :
  calm w -> on_path w r p ->
  exists r', runs poll_for_user_message r w (Ok (bool_decide (ahead_of w p <> []))) r' /\ looked w r p r'.
Proof.
  intros Hc Hr. destruct (peek_run r w p.1 p.2 Hc Hr) as (r1 & _ & Hp1 & Hg1).
  exists r1. split; [done|]. split; [done|]. intros He.
  destruct (poll_empty r w p.1 p.2 Hc Hr He) as (r2 & Hp2 & _ & Hr2).
  unfold runs in Hp1, Hp2. rewrite Hp1 in Hp2. by injection Hp2 as _ ->.
Qed.

(** ** Running a method of one of them *)

Lemma runs_on_nth {A} (m : M Reader A) pre r rest nw w x r' :
  runs m r w x r' ->
  runs (on_nth (List.length pre) m) (MkWaiters (pre ++ r :: rest) nw) w x (MkWaiters (pre ++ r' :: rest) nw).
Proof.
  intros Hm. unfold runs, on_nth. cbn [readers NO_WAITV].
  rewrite list_lookup_middle, Hm by done. cbn [o_res o_self o_world o_trace].
  by rewrite insert_app_r_alt, Nat.sub_diag by done.
Qed.

(** One look at every reader: the first with a message ahead. *)
Lemma poll_first_run w rs ps : calm w -> Forall2 (on_path w) rs ps ->
  forall pre nw, exists rs',
    runs (poll_first (seq (List.length pre) (List.length rs))) (MkWaiters (pre ++ rs) nw) w
      (Ok (Nat.add (List.length pre) <$> first_ahead w ps)) (MkWaiters (pre ++ rs') nw) /\
    Forall3 (fun r p r' => goes_on r w p.1 p.2 (ahead_of w p) r') rs ps rs' /\
    (first_ahead w ps = None -> Forall3 (looked w) rs ps rs').
Proof.
  intros Hc. induction 1 as [|r p rs ps Hr Hrs IH]; intros pre nw.
  { exists []. split; [apply runs_ret|]. split; [|intros _]; constructor. }
  destruct (poll_looks w r p Hc Hr) as (r' & Hpoll & Hl). rewrite first_ahead_cons.
  cbn [List.length seq poll_first]. destruct (decide (ahead_of w p <> [])) as [Hne|He].
  - rewrite bool_decide_eq_true_2 in Hpoll by done. exists (r' :: rs). cbn [fmap option_fmap option_map].
    rewrite Nat.add_0_r. split_and!; [|constructor; [apply Hl|]|done].
    + eapply runs_seq; [by apply runs_on_nth|]. apply runs_ret.
    + clear IH. induction Hrs; constructor; [by apply goes_on_refl|done].
  - rewrite bool_decide_eq_false_2 in Hpoll by done. destruct (IH (pre ++ [r']) nw) as (rs' & Hrun & Hg & Hn).
    exists (r' :: rs'). rewrite length_app in Hrun. cbn [List.length] in Hrun.
    rewrite Nat.add_1_r, <- !app_assoc in Hrun. cbn [app] in Hrun.
    split_and!; [|constructor; [apply Hl|done]|].
    + eapply runs_seq; [by apply runs_on_nth|]. cbn.
      replace (Nat.add (List.length pre) <$> (Datatypes.S <$> first_ahead w ps))
        with (Nat.add (Datatypes.S (List.length pre)) <$> first_ahead w ps); [done|].
      destruct (first_ahead w ps); cbn; [|done]. by rewrite Nat.add_succ_r.
    + intros E. constructor; [done|]. apply Hn. by destruct (first_ahead w ps).
Qed.

(** ** The words they would sleep on *)

(** What [words_seen] saw of a reader. *)
Definition saw w r (v : Z * option Z) : Prop :=
  v.1 = r_file_sequence r /\ (v.2 = None \/ SUPPORTED = true /\ v.2 = Some (word_of w (r_file r))).

Lemma words_seen_run w rs ps : calm w -> Forall2 (on_path w) rs ps ->
  forall pre nw, exists seen,
    runs (words_seen (seq (List.length pre) (List.length rs))) (MkWaiters (pre ++ rs) nw) w (Ok seen) (MkWaiters (pre ++ rs) nw) /\
    Forall2 (saw w) rs seen.
Proof.
  intros Hc. induction 1 as [|r p rs ps Hr Hrs IH]; intros pre nw; [exists []; by split|].
  destruct (reads_wake_word_if_waking r w p.1 Hc (proj1 Hr)) as (v & Hv & Hw).
  destruct (IH (pre ++ [r]) nw) as (seen & Hrun & Hs). rewrite length_app in Hrun. cbn [List.length] in Hrun.
  rewrite Nat.add_1_r, <- !app_assoc in Hrun. cbn [app] in Hrun.
  exists ((r_file_sequence r, v) :: seen). split; [|by constructor].
  cbn [List.length seq words_seen]. eapply runs_seq; [apply runs_on_nth|].
  { eapply runs_seq; [apply runs_self|]. eapply runs_seq; [apply runs_reads, Hv|apply runs_ret]. }
  eapply runs_seq; [exact Hrun|apply runs_ret].
Qed.

(** The words of readers that are still in the file they were in hold what was seen. *)
Lemma words_of_hold w w' rs ps rs' seen :
  same_files w w' -> Forall2 (on_path w) rs ps -> Forall3 (looked w) rs ps rs' ->
  nothing_ahead w ps -> Forall2 (saw w) rs seen ->
  Forall (holds w') (words_of rs' seen).
Proof.
  intros Hw Hr Hl Hn Hs. revert seen Hs Hr Hn.
  induction Hl as [|r p r' rs ps rs' Hp Hl IH]; intros seen Hs Hr Hn; [constructor|].
  inversion Hs as [|? [q v] ? seen' [Hq Hv] Hs']; subst. inversion Hr; inversion Hn; subst. cbn [fst snd] in *.
  unfold words_of. cbn [combine omap list_omap].
  destruct (Z.eqb_spec (r_file_sequence r') q) as [Eq|_]; [|by apply IH].
  destruct v as [x|]; [|by apply IH]. destruct Hv as [|[_ [= ->]]]; [done|].
  constructor; [|by apply IH]. cbn [fst snd].
  assert (Hr' : on_route r' w' (tip p.1 p.2) []) by (eapply on_route_same; [exact Hw|by apply Hp]).
  rewrite (word_kept r r' w w' p.1 p.2) by (done || congruence). eapply stands_holds, Hr'.
Qed.

(** ** A turn of the wait *)

(** The readers at the ends of their routes. *)
Definition at_ends w rs ps rs' : Prop := Forall3 (fun r p r' => same_reader r r' /\ on_path w r' (path_end p)) rs ps rs'.

Lemma at_ends_paths w rs ps rs' : at_ends w rs ps rs' -> Forall2 (on_path w) rs' (path_end <$> ps).
Proof. induction 1 as [|r p r' rs ps rs' [_ Hr] _ IH]; constructor; done. Qed.

Lemma at_ends_later w w' rs ps rs' : same_files w w' -> at_ends w rs ps rs' -> at_ends w' rs ps rs'.
Proof.
  intros Hs Ha. eapply Forall3_impl; [exact Ha|]. intros r p r' [H1' H2']. split; [done|]. by eapply on_route_same.
Qed.

Lemma looked_at_ends w rs ps rs' : nothing_ahead w ps -> Forall3 (looked w) rs ps rs' -> at_ends w rs ps rs'.
Proof.
  intros Hn Hl. revert Hn. induction Hl as [|r p r' rs ps rs' [Hg Hp] _ IH]; intros Hn; inversion Hn; subst; constructor.
  - split; [apply Hg|by apply Hp].
  - by apply IH.
Qed.

Lemma ends_nothing_ahead w ps : nothing_ahead w (path_end <$> ps).
Proof. unfold nothing_ahead. apply Forall_fmap, Forall_true. intros p. apply tip_empty. Qed.

Lemma at_ends_again w w' rs ps rs' rs'' :
  at_ends w rs ps rs' -> at_ends w' rs' (path_end <$> ps) rs'' -> at_ends w' rs ps rs''.
Proof.
  intros Ha. revert rs''. induction Ha as [|r p r' rs ps rs' [Hs _] _ IH]; intros rs'' Hb; inversion Hb as [|? ? ? ? ? ? [Hs' Hr']]; subst; constructor.
  - rewrite path_end_end in Hr'. split; [exact (transitivity Hs Hs')|done].
  - by apply IH.
Qed.

Lemma at_ends_go_on w0 w rs ps rs' :
  same_files w0 w -> Forall2 (on_path w0) rs ps -> nothing_ahead w0 ps -> at_ends w rs ps rs' ->
  Forall3 (fun r p r' => goes_on r w p.1 p.2 (ahead_of w p) r') rs ps rs'.
Proof.
  intros Hw Hr Hn Ha. revert Hr Hn. induction Ha as [|r p r' rs ps rs' [Hs Hp] _ IH]; intros Hr Hn;
    inversion Hr; inversion Hn as [|? ? He]; subst; constructor; [|by apply IH].
  rewrite (ahead_same w0 w), He by done. exact (goes_on_route r r' w _ _ _ [] Hp (along_tip _ _) Hs).
Qed.

(** One look at every reader when nothing is ahead of any. *)
Lemma poll_nothing ws w ps :
  calm w -> Forall2 (on_path w) (readers ws) ps -> nothing_ahead w ps ->
  exists rs', runs (poll_first (seq 0 (List.length (readers ws)))) ws w (Ok None) (MkWaiters rs' (NO_WAITV ws)) /\
    Forall3 (looked w) (readers ws) ps rs'.
Proof.
  intros Hc Hr Hn. destruct (poll_first_run w (readers ws) ps Hc Hr [] (NO_WAITV ws)) as (rs' & Hrun & _ & Hl).
  apply first_ahead_none in Hn as E. rewrite E in Hrun. exists rs'. split; [by destruct ws|by apply Hl].
Qed.

(** What such a turn does: it ends the wait once the deadline has passed; else time passes. *)
Definition any_turned (dl : Z) (ws : Waiters) w ps (o : outcome Waiters (Z + option nat)) : Prop :=
  exists rs' w', at_ends w' (readers ws) ps rs' /\ later w w' /\
    (o = Outcome (Ok (inr None)) (MkWaiters rs' (NO_WAITV ws)) w' [] /\ dl <= w_clock w' \/
     exists b', BACKOFF_START <= b' /\ o = Outcome (Ok (inl b')) (MkWaiters rs' (NO_WAITV ws)) w' [] /\
       w_clock w < dl /\ Z.min (w_clock w + BACKOFF_START) dl <= w_clock w').

Lemma any_slept dl b' nap ws w ps rs' :
  clocked w -> at_ends w (readers ws) ps rs' -> BACKOFF_START <= b' ->
  w_clock (ticked w) < dl -> 0 <= nap -> Z.min BACKOFF_START (dl - w_clock (ticked w)) <= nap ->
  any_turned dl ws w ps (Outcome (Ok (inl b')) (MkWaiters rs' (NO_WAITV ws)) (slept nap (ticked w)) []).
Proof.
  intros Hw Ha Hb Hdl Hnap Hmin. pose proof (ticked_later _ Hw) as Hl1. pose proof (lt_clock _ _ Hl1).
  pose proof (slept_later nap _ (lt_clocked _ _ Hl1) Hnap) as Hl2. pose proof (transitivity Hl1 Hl2) as Hl.
  exists rs', (slept nap (ticked w)). split_and!; [by eapply at_ends_later; [apply Hl|]|done|].
  right. exists b'. split_and!; [done|done|lia|cbn; lia].
Qed.

(** A sleep on several words that nobody changes lasts its time. *)
Lemma waitv_out ws w words nap :
  calm w -> words <> [] -> waitv_available ws = true ->
  Forall (holds w) words ->
  waitv words nap ws w = Outcome (Ok TimedOut) ws (slept nap w) [].
Proof.
  intros Hc Hne Ha Hh. unfold waitv. rewrite (bind_outcome _ _ _ _ _ _ _ (runs_self ws w)).
  destruct words as [|q words]; [done|]. rewrite Ha. cbn [negb].
  by rewrite (bind_outcome _ _ _ _ _ _ _ (futex_out ws w (q :: words) nap Hc Hh)).
Qed.

Lemma any_turn dl b ws w ps :
  clocked w -> Forall2 (on_path w) (readers ws) ps -> nothing_ahead w ps -> BACKOFF_START <= b ->
  any_turned dl ws w ps (any_step (Some dl) b ws w).
Proof.
  intros Hw Hr Hn Hb. pose proof (ck_calm _ Hw) as Hc. pose proof (ticked_later _ Hw) as Hlt.
  destruct (words_seen_run w (readers ws) ps Hc Hr [] (NO_WAITV ws)) as (seen & Hseen & Hsaw).
  cbn [List.length app] in Hseen. assert (Hws : MkWaiters (readers ws) (NO_WAITV ws) = ws) by by destruct ws.
  rewrite Hws in Hseen.
  destruct (poll_nothing ws w ps Hc Hr Hn) as (rs' & Hpoll & Hl). pose proof (looked_at_ends _ _ _ _ Hn Hl) as Ha.
  set (ws' := MkWaiters rs' (NO_WAITV ws)) in *.
  assert (Hends : at_ends (ticked w) (readers ws) ps rs') by (eapply at_ends_later; [apply Hlt|done]).
  unfold any_step. rewrite (bind_outcome _ _ _ _ _ _ _ (runs_self ws w)). cbv zeta.
  rewrite (bind_outcome _ _ _ _ _ _ _ Hseen), (bind_outcome _ _ _ _ _ _ _ Hpoll).
  rewrite (bind_outcome _ _ _ _ _ _ _ (time_left_run dl ws' w)).
  destruct (Z.leb_spec dl (w_clock (ticked w))) as [Hdl|Hdl].
  { exists rs', (ticked w). split_and!; [done..|]. by left. }
  rewrite (bind_outcome _ _ _ _ _ _ _ (runs_self ws' (ticked w))). change (readers ws') with rs'.
  pose proof (words_of_hold w (ticked w) _ ps rs' seen (lt_files _ _ Hlt) Hr Hl Hn Hsaw) as Hhold.
  set (words := words_of rs' seen) in *. set (n := Z.of_nat (List.length words)).
  set (all_wake := n =? Z.of_nat (List.length rs')).
  destruct (negb (n =? 0) && (n <=? WAITV_MAX) && waitv_available ws') eqn:Ef.
  2: { rewrite andb_false_r.
       rewrite (bind_outcome _ _ _ _ _ _ _ (runs_ret Unsupported ws' (ticked w))).
       rewrite (bind_outcome _ _ _ _ _ _ _ (sleep_run ws' _ (ticked w) (ck_calm _ (lt_clocked _ _ Hlt)))).
       apply any_slept; try done; unfold BACKOFF_START, BACKOFF_CAP in *; lia. }
  rewrite andb_true_r. set (nap := Z.min _ _).
  assert (Hnap : 0 <= nap /\ Z.min BACKOFF_START (dl - w_clock (ticked w)) <= nap)
    by (unfold nap, WAKE_SLEEP_CAP, BACKOFF_START in *; destruct all_wake; lia).
  destruct Hnap as [Hnap Hmin]. assert (Hne : words <> []) by (intros E; unfold n in Ef; by rewrite E in Ef).
  apply andb_prop in Ef as [_ Hwv].
  rewrite (bind_outcome _ _ _ _ _ _ _ (waitv_out ws' (ticked w) words nap (ck_calm _ (lt_clocked _ _ Hlt)) Hne Hwv Hhold)).
  destruct (all_wake && (nap =? WAKE_SLEEP_CAP)).
  2: { apply any_slept; try done; unfold BACKOFF_START, BACKOFF_CAP in *; lia. }
  pose proof (slept_later nap _ (lt_clocked _ _ Hlt) Hnap) as Hl2.
  assert (Hpaths : Forall2 (on_path (slept nap (ticked w))) rs' (path_end <$> ps)).
  { apply at_ends_paths with (readers ws). by eapply at_ends_later; [apply Hl2|]. }
  destruct (poll_nothing ws' _ _ (ck_calm _ (lt_clocked _ _ Hl2)) Hpaths (ends_nothing_ahead _ ps)) as (rs2 & Hp2 & Hlk).
  replace (List.length (readers ws)) with (List.length (readers ws')) by (symmetry; by eapply Forall3_length_lr).
  rewrite (bind_outcome _ _ _ _ _ _ _ Hp2). change (NO_WAITV ws') with (NO_WAITV ws).
  apply any_slept; try done. eapply at_ends_again; [done|].
  eapply at_ends_later; [|by eapply looked_at_ends; [apply ends_nothing_ahead|]].
  symmetry. apply (lt_files _ _ (transitivity Hlt Hl2)).
Qed.

(** ** The whole wait *)

(** What the wait ends with when nothing comes: [None], not before the deadline. *)
Definition all_timed_out (dl : Z) ws w ps (o : outcome Waiters (option nat)) : Prop :=
  exists rs' w', o = Outcome (Ok None) (MkWaiters rs' (NO_WAITV ws)) w' [] /\ at_ends w' (readers ws) ps rs' /\
    later w w' /\ dl <= w_clock w'.

(** [k] times the shortest sleep before the deadline. *)
Lemma any_loop dl k : forall b ws w ps fuel,
  clocked w -> Forall2 (on_path w) (readers ws) ps -> nothing_ahead w ps -> BACKOFF_START <= b ->
  dl <= w_clock w + Z.of_nat k * BACKOFF_START -> (k < fuel)%nat ->
  all_timed_out dl ws w ps (loop_with fuel (any_step (Some dl)) b ws w).
Proof.
  induction k as [|k IH]; intros b ws w ps fuel Hw Hr Hn Hb Hdl Hf; (destruct fuel as [|fuel]; [lia|]);
    destruct (any_turn dl b ws w ps Hw Hr Hn Hb) as (rs1 & w1 & Ha1 & Hl1 & [(Eo & Hend)|(b' & Hb' & Eo & Hbefore & Hmove)]);
    cbn [loop_with]; rewrite (bind_outcome _ _ _ _ _ _ _ Eo).
  1, 3: exists rs1, w1; by split_and!.
  - unfold BACKOFF_START in *. lia.
  - destruct (IH b' (MkWaiters rs1 (NO_WAITV ws)) w1 (path_end <$> ps) fuel) as (rs2 & w2 & E2 & Ha2 & Hl2 & Hd2);
      [apply Hl1|by eapply at_ends_paths|apply ends_nothing_ahead|done|unfold BACKOFF_START in *; lia|lia|].
    exists rs2, w2. split_and!; [done|by eapply at_ends_again|exact (transitivity Hl1 Hl2)|done].
Qed.

Lemma any_times_out d fuel ws w ps :
  clocked w -> Forall2 (on_path w) (readers ws) ps -> ps <> [] -> nothing_ahead w ps -> deadline_fits (Some d) w ->
  (wait_turns (Some d) <= fuel)%nat ->
  all_timed_out (w_clock (ticked w) + d) ws w ps (wait_any fuel (Some d) ws w).
Proof.
  intros Hw Hr Hne Hn Hfit Hf. pose proof (ticked_later _ Hw) as Hl. unfold wait_any.
  rewrite (bind_outcome _ _ _ _ _ _ _ (runs_self ws w)). destruct (readers ws) as [|r rs] eqn:Ers; [by inversion Hr|].
  rewrite (bind_outcome _ _ _ _ _ _ _ (deadline_run (Some d) ws w Hfit)). rewrite <- Ers in *.
  cbn [asked_time fmap option_fmap option_map]. unfold wait_turns in Hf.
  destruct (any_loop (w_clock (ticked w) + d) (Z.to_nat (d / BACKOFF_START) + 1) BACKOFF_START ws (ticked w) ps fuel)
    as (rs' & w' & E & Ha & Hl' & Hdl);
    [apply Hl|by eapply paths_same; [apply Hl|]| |done| |lia|].
  - eapply Forall_impl; [exact Hn|]. intros p. by rewrite (ahead_same w) by apply Hl.
  - destruct Hfit as [Hd _]. unfold BACKOFF_START. zlia.
  - exists rs', w'. split_and!; [done|done|exact (transitivity Hl Hl')|done].
Qed.

(** With a message ahead of one of them the first look finds it, and no time is spent. *)
Lemma any_finds timeout fuel ws w ps i :
  clocked w -> Forall2 (on_path w) (readers ws) ps -> first_ahead w ps = Some i -> deadline_fits timeout w -> (1 <= fuel)%nat ->
  let w' := asked_time timeout w in
  exists rs', wait_any fuel timeout ws w = Outcome (Ok (Some i)) (MkWaiters rs' (NO_WAITV ws)) w' [] /\
    Forall3 (fun r p r' => goes_on r w' p.1 p.2 (ahead_of w' p) r') (readers ws) ps rs'.
Proof.
  intros Hw Hr Hi Hfit Hf w'. pose proof (asked_later timeout w Hw) as Hl. fold w' in Hl.
  pose proof (ck_calm _ (lt_clocked _ _ Hl)) as Hc.
  pose proof (paths_same w w' _ _ (lt_files _ _ Hl) Hr) as Hr'.
  rewrite <- (first_ahead_same w w') in Hi by apply Hl.
  assert (Hws : MkWaiters (readers ws) (NO_WAITV ws) = ws) by by destruct ws.
  destruct (words_seen_run w' (readers ws) ps Hc Hr' [] (NO_WAITV ws)) as (seen & Hseen & _).
  destruct (poll_first_run w' (readers ws) ps Hc Hr' [] (NO_WAITV ws)) as (rs' & Hpoll & Hg & _).
  cbn [List.length app] in Hseen, Hpoll. rewrite Hws in *. rewrite Hi in Hpoll. cbn in Hpoll.
  exists rs'. split; [|done]. unfold wait_any. rewrite (bind_outcome _ _ _ _ _ _ _ (runs_self ws w)).
  destruct (readers ws) as [|r rs] eqn:Ers; [inversion Hr; subst; done|].
  rewrite (bind_outcome _ _ _ _ _ _ _ (deadline_run timeout ws w Hfit)). fold w'. rewrite <- Ers in *.
  destruct fuel as [|fuel]; [lia|]. cbn [loop_with].
  assert (Hstep : any_step ((fun d => w_clock (ticked w) + d) <$> timeout) BACKOFF_START ws w' =
    Outcome (Ok (inr (Some i))) (MkWaiters rs' (NO_WAITV ws)) w' []).
  { unfold any_step. rewrite (bind_outcome _ _ _ _ _ _ _ (runs_self ws w')). cbv zeta.
    by rewrite (bind_outcome _ _ _ _ _ _ _ Hseen), (bind_outcome _ _ _ _ _ _ _ Hpoll). }
  by rewrite (bind_outcome _ _ _ _ _ _ _ Hstep).
Qed.

End group.
