(* ===== verification/WakeTheorems.v ===== *)
(** * What waiting guarantees

    A wait returns with the next message, or after its time and not before, and a commit ends it. *)

From S2P Require Import Prelude Bytes Effects Region Channel V4 Names Segment Helper MapAhead Reader Wake Chain RegionFacts SegmentFacts Prefault Writer WriterInv CommitFacts ReaderFacts Route RouteFacts OpenFacts LocateFacts Carry Carried Joining WakeFacts GroupFacts Demo.

#[local] Open Scope list_scope.
#[local] Open Scope Z_scope.

Section theorems.
Context `{EnvOk}.
Implicit Types (r : Reader) (l : Leg) (ls : list Leg).

(** Once a commit has bumped the word, its message is found by whoever looks. *)
Lemma committed_found r (w w' : Writer) wd wi es l ls mt len meta timeout fuel :
  clocked wd -> writer_ok w wd es -> reaches r w wd es l ls -> next_index w wd es + 1 < 2 ^ 64 ->
  committed_post w wd es mt len meta (Ok tt) w' wi -> (1 <= fuel)%nat -> deadline_fits timeout wi ->
  exists r', wait_for_message fuel timeout r wi = Outcome (Ok true) r' (asked_time timeout wi) [].
Proof.
  intros [Hc Ht] Hw Hr Hix (_ & Hok & -> & Hmsg & Hs & Hk & Hfr & _) Hf Hfit. set (e := new_entry w mt len meta) in *.
  set (w' := set_next_hdr_pos _ _) in *.
  destruct (append_readers w w' wd wi es [e] Hw Hok) with (r := r) (l := l) (ls := ls)
    as (l' & ls' & R1 & R2 & _); try done; [by apply frame_grows|by right|].
  assert (Hck : clocked wi).
  { constructor; [by eapply frame_calm|]. by rewrite (fr_oracle _ _ _ Hfr). }
  destruct (wait_finds timeout fuel r wi l' ls' Hck (rc_route _ _ _ _ _ _ R1)) as (r' & E & _);
    [|done..|by exists r'].
  rewrite R2. unfold messages. cbn [List.filter]. change (is_user e) with true. cbn [map]. by destruct (route_messages wd l ls).
Qed.

(** And the word is no longer what it was. *)
Lemma committed_word (w w' : Writer) wd wi es mt len meta :
  w_wake w = true -> committed_post w wd es mt len meta (Ok tt) w' wi ->
  word_of wi (w_file w) <> word_of wd (w_file w).
Proof.
  intros Hwake (_ & _ & _ & _ & _ & _ & _ & Hword). unfold word_of at 1. rewrite Hword, Hwake. unfold word_of.
  pose proof (get_range 4 (data_of wd (w_file w)) OFF_wake_word) as Hg.
  change (256 ^ Z.of_nat 4) with 4294967296 in Hg. unfold wrap. change (2 ^ 32) with 4294967296. zlia.
Qed.

(** C27: [read_blocking] returns the next message ahead, if there is one, and at once; else it waits,
    asleep or polling, returns nothing, and not before its time is up; [wait_turns] turns of its
    loop are enough, whether the platform has a futex and the writer wakes or not. *)
Theorem read_blocking_delivers_or_times_out r wd l ls timeout fuel :
  clocked wd -> on_route r wd l ls -> deadline_fits timeout wd ->
  (timeout <> None \/ route_messages wd l ls <> []) -> (wait_turns timeout <= fuel)%nat ->
  exists v r' wd', read_blocking fuel timeout r wd = Outcome (Ok v) r' wd' [] /\ later wd wd' /\
    match route_messages wd l ls with
    | [] => v = None /\ goes_on r wd' l ls [] r' /\
        forall d, timeout = Some d -> w_clock wd + d <= w_clock wd'
    | m :: ms => (exists view, v = Some view /\ shows wd' view m) /\ goes_on r wd' l ls ms r' /\
        wd' = asked_time timeout wd
    end.
Proof.
  intros Hw Hr Hfit Hsome Hf. pose proof (asked_later timeout wd Hw) as Hl.
  destruct (route_messages wd l ls) as [|m ms] eqn:Em.
  - destruct timeout as [d|]; [|by destruct Hsome].
    destruct (wait_times_out d fuel r wd l ls Hw Hr Em Hfit Hf) as (r' & w' & E & Hr' & Hs & Hl' & Hdl).
    exists None, r', w'. split_and!; [|done|done| |].
    + unfold read_blocking. by rewrite (bind_outcome _ _ _ _ _ _ _ E).
    + exact (goes_on_route r r' w' l ls _ [] Hr' (along_tip l ls) Hs).
    + intros d' [= <-]. pose proof (lt_clock _ _ Hl). cbn in *. lia.
  - assert (Hf1 : (1 <= fuel)%nat) by (destruct timeout; cbn in Hf; lia).
    destruct (wait_finds timeout fuel r wd l ls Hw Hr ltac:(by rewrite Em) Hfit Hf1) as (r1 & E & Hg).
    set (w' := asked_time timeout wd) in *.
    rewrite (route_messages_same wd w') in Hg by apply Hl. rewrite Em in Hg.
    destruct Hg as [(l1 & ls1 & Hr1 & Hm1 & Hal) Hs1 _].
    destruct (try_read_run r1 w' l1 ls1 (ck_calm _ (lt_clocked _ _ Hl)) Hr1) as (v & r2 & Hread & Hres).
    rewrite Hm1 in Hres. destruct Hres as ((view & -> & Hshow) & Hg2).
    exists (Some view), r2, w'. split_and!; [|done|by exists view|by eapply goes_on_trans|done].
    unfold read_blocking. rewrite (bind_outcome _ _ _ _ _ _ _ E). by rewrite (bind_outcome _ _ _ _ _ _ _ Hread).
Qed.

(** C28: a commit ends every wait.  When the writer wakes its readers, a reader that saw the wake word
    before the commit and then calls [wait] is told to look again, with no time lost, wherever in the
    commit the kernel compares the word, if the rest of the commit is done while the reader sleeps:
    a word that has already changed keeps it awake, and else the call that wakes sleepers is still
    to come.  In both cases there is something to see: wherever in the commit the word has changed, a reader that looks
    finds the message at once.  And with or without waking, a reader that looks after the commit
    finds it, and spends no time. *)
Theorem a_commit_ends_every_wait r (w : Writer) wd es l ls n mt len meta :
  clocked wd -> writer_ok w wd es -> reserved w wd n -> reaches r w wd es l ls ->
  0 <= mt < 2 ^ 16 -> 0 <= len <= n -> 0 <= meta < 2 ^ 64 -> next_index w wd es + 1 < 2 ^ 64 ->
  let o := Writer_commit mt len meta w wd in
  let v := word_of wd (w_file w) in
  let finds wi := forall timeout fuel, (1 <= fuel)%nat -> deadline_fits timeout wi ->
    exists r', wait_for_message fuel timeout r wi = Outcome (Ok true) r' (asked_time timeout wi) [] in
  (w_wake w = true -> SUPPORTED = true ->
   forall wi, In wi (wd :: o_trace o) ->
     (forall (s : Reader) nap wr, asleep (w_file w) wi (o_world o) wr ->
        let o' := wait (Mapping (w_file w) 0 page_size) v nap s wr in
        o_res o' = Ok Changed /\ w_clock (o_world o') = w_clock wr) /\
     (word_of wi (w_file w) <> v -> finds wi)) /\
  finds (o_world o).
Proof.
  intros [Hc Ht] Hw Hres Hr Hmt Hlen Hmeta Hix o v finds.
  destruct (commit_run_word w wd es n mt len meta (proj1 Hc) Hw Hres Hmt Hlen Hmeta) as [[Hpost Hcalls] Htrace].
  fold o in Hpost, Hcalls, Htrace.
  assert (Hfinds : forall w' wi, committed_post w wd es mt len meta (Ok tt) w' wi -> finds wi).
  { intros w' wi Hi timeout fuel Hf Hfit. by eapply committed_found. }
  split; [|eapply (Hfinds (o_self o)); by split; [|apply Hpost]].
  intros Hwake Hsup wi Hin. assert (Hwi : waking w wd es mt len meta wi).
  { destruct Hin as [<-|Hin]; [by left|]. rewrite List.Forall_forall in Htrace. by apply Htrace. }
  assert (Hlt : (wakes_on (w_file w) wd < wakes_on (w_file w) (o_world o))%nat).
  { unfold wakes_on, wakes_so_far. rewrite Hcalls. unfold woken_calls. rewrite Hwake, Hsup. cbn. rewrite !Z.eqb_refl. cbn. lia. }
  split.
  - intros s nap wr Ha. destruct (stands_len _ _ _ (proj1 (rc_route _ _ _ _ _ _ Hr))) as [Hps _].
    destruct (wait_woken s (w_file w) v nap wi (o_world o) wr Hps Hsup Ha) as [(H1' & _ & H2') _]; [|done].
    destruct Hwi as [[_ Ec]|(_ & Hi & _)]; [right|left].
    + unfold wakes_on, wakes_so_far in *. by rewrite Ec.
    + eapply committed_word; [exact Hwake|exact Hi].
  - intros Hne. destruct Hwi as [[E _]|(_ & Hi & _)]; [by destruct Hne|by eapply Hfinds].
Qed.

(** C29: [wait_any] over readers names the first with a message ahead of it, if there is one, and at
    once; else it waits, asleep on their wake words or polling, names none, and not before its time is
    up; [wait_turns] turns of its loop are enough.  No reader loses a message to it, and a call without
    readers is an error. *)
Theorem wait_any_names_the_first_or_times_out (ws : Waiters) wd (ps : list path) timeout fuel :
  clocked wd -> Forall2 (on_path wd) (readers ws) ps -> ps <> [] -> deadline_fits timeout wd ->
  (timeout <> None \/ first_ahead wd ps <> None) -> (wait_turns timeout <= fuel)%nat ->
  (forall nw, wait_any fuel timeout (MkWaiters [] nw) wd =
     Outcome (Err (err_invalid_input "wait_any needs at least one reader")) (MkWaiters [] nw) wd []) /\
  exists rs' wd', wait_any fuel timeout ws wd = Outcome (Ok (first_ahead wd ps)) (MkWaiters rs' (NO_WAITV ws)) wd' [] /\
    later wd wd' /\ Forall3 (fun r p r' => goes_on r wd' p.1 p.2 (ahead_of wd' p) r') (readers ws) ps rs' /\
    match first_ahead wd ps with
    | Some _ => wd' = asked_time timeout wd
    | None => forall d, timeout = Some d -> w_clock wd + d <= w_clock wd'
    end.
Proof.
  intros Hw Hr Hne Hfit Hsome Hf. split; [done|]. pose proof (asked_later timeout wd Hw) as Hl.
  destruct (first_ahead wd ps) as [i|] eqn:Ei.
  - assert (Hf1 : (1 <= fuel)%nat) by (destruct timeout; cbn in Hf; lia).
    destruct (any_finds timeout fuel ws wd ps i Hw Hr Ei Hfit Hf1) as (rs' & E & Hg).
    exists rs', (asked_time timeout wd). by split_and!.
  - destruct timeout as [d|]; [|by destruct Hsome]. apply first_ahead_none in Ei as Hn.
    destruct (any_times_out d fuel ws wd ps Hw Hr Hne Hn Hfit Hf) as (rs' & w' & E & Ha & Hl' & Hdl).
    exists rs', w'. split_and!; [done|done|by eapply at_ends_go_on; [apply Hl'|..]|].
    intros d' [= <-]. pose proof (lt_clock _ _ Hl). cbn in *. lia.
Qed.

End theorems.

(** ** Witnesses *)

Lemma clocked0 w : calm w -> o_ticks (w_oracle w) = [] -> clocked w.
Proof. intros Hc Ht. constructor; [done|by rewrite Ht]. Qed.

Lemma wd1_clocked : clocked wd1.
Proof. by apply clocked0. Qed.

Lemma wd2_clocked : clocked wd2.
Proof. by apply clocked0. Qed.

Lemma rd1_w1_route : on_route rd1 wd1 (leg0 [channel_entry] 208) [].
Proof. apply (rc_route _ w1 _ []), rd1_follows. by right. Qed.

(** With a message ahead, and without one for a second. *)
Definition second : option Z := Some 1000000000.

Lemma second_fits : deadline_fits second wd1 /\ deadline_fits second wd2.
Proof. split; (split; [lia|by vm_compute]). Qed.

Lemma messages0 :
  route_messages wd1 (leg0 [channel_entry] 208) [] = [] /\
  route_messages wd2 (leg0 [channel_entry; entry1] 288) [] = [message_of (data_of wd2 1) entry1].
Proof. by split. Qed.

Lemma read_blocking_delivers_or_times_out_witness :
  exists fuel,
    (exists v r', read_blocking fuel second rd1 wd2 = Outcome (Ok (Some v)) r' (ticked wd2) []) /\
    exists r' wd', read_blocking fuel second rd1 wd1 = Outcome (Ok None) r' wd' [] /\
      w_clock wd1 + 1000000000 <= w_clock wd'.
Proof.
  destruct second_fits as [Hs1 Hs2]. destruct messages0 as [Hm1 Hm2].
  assert (Hsome : forall ms : list Message, second <> None \/ ms <> []) by (intros ms; left; discriminate).
  assert (Hex : exists fuel, (wait_turns second <= fuel)%nat) by (eexists; apply le_n).
  destruct Hex as [fuel Hf]. exists fuel. split.
  - pose proof (read_blocking_delivers_or_times_out rd1 wd2 _ _ second fuel
      wd2_clocked rd1_ahead Hs2 (Hsome _) Hf) as Hread.
    rewrite Hm2 in Hread. destruct Hread as (v & r' & wd' & E & _ & (view & -> & _) & _ & ->).
    exists view, r'. exact E.
  - pose proof (read_blocking_delivers_or_times_out rd1 wd1 _ _ second fuel
      wd1_clocked rd1_w1_route Hs1 (Hsome _) Hf) as Hread.
    rewrite Hm1 in Hread. destruct Hread as (v & r' & wd' & E & _ & -> & _ & Ht).
    exists r', wd'. split; [exact E|]. exact (Ht _ eq_refl).
Defined.

(** A reader that falls asleep on [w1]'s word before the commit, and sleeps while the bump and the call
    that wakes it arrive. *)
Definition sleeping : world :=
  set_oracle (set_events [[]; [EvStore 1 OFF_wake_word [1; 0; 0; 0]; EvWake 1 OFF_wake_word]] (w_oracle wd1)) wd1.

Lemma sleeping_asleep : asleep 1 wd1 (o_world (Writer_commit 5 60 9 w1 wd1)) sleeping.
Proof. constructor; [reflexivity|by vm_compute|split; vm_compute; reflexivity|split; vm_compute; reflexivity]. Qed.

Lemma a_commit_ends_every_wait_witness :
  let o' := wait (Mapping 1 0 page_size) (word_of wd1 1) 10000000 rd1 sleeping in
  o_res o' = Ok Changed /\ w_clock (o_world o') = w_clock sleeping.
Proof.
  assert (Hc : clocked wd1) by exact wd1_clocked.
  destruct (a_commit_ends_every_wait rd1 w1 wd1 [] (leg0 [channel_entry] 208) [] 100 5 60 9 Hc w1_ok w1_reserved) as [Hwoken _].
  - apply rd1_follows. by right.
  - lia.
  - lia.
  - lia.
  - by vm_compute.
  - exact (proj1 (Hwoken eq_refl eq_refl wd1 (in_eq wd1 _)) rd1 10000000 sleeping sleeping_asleep).
Defined.

(** Two readers of one channel, the first of which has read its message: the second is named.  Without
    the message both wait for a second. *)
Definition rd2 : Reader := Eval vm_compute in o_self (try_read rd1 wd2).

Lemma rd2_behind : exists p : path, on_path wd2 rd2 p /\ ahead_of wd2 p = [].
Proof.
  destruct (try_read_run rd1 wd2 _ _ (ck_calm _ wd2_clocked) rd1_ahead) as (v & r' & Hrun & Hres).
  rewrite (proj2 messages0) in Hres. destruct Hres as [_ [(l' & ls' & Hr & Hm & _) _ _]].
  exists (l', ls'). split; [|exact Hm]. replace rd2 with r'; [exact Hr|].
  change rd2 with (o_self (try_read rd1 wd2)). unfold runs in Hrun. by rewrite Hrun.
Qed.

Lemma first_of_both p : ahead_of wd2 p = [] -> first_ahead wd2 [p; (leg0 [channel_entry; entry1] 288, [])] = Some 1%nat.
Proof.
  intros Hp. rewrite !first_ahead_cons, Hp, decide_False by (intros Hn; by apply Hn).
  by rewrite decide_True by (unfold ahead_of; cbn [fst snd]; by rewrite (proj2 messages0)).
Qed.

Lemma first_of_none : first_ahead wd1 [(leg0 [channel_entry] 208, []); (leg0 [channel_entry] 208, [])] = None.
Proof. apply first_ahead_none. by repeat constructor. Qed.

Lemma wait_any_names_the_first_or_times_out_witness :
  exists fuel,
    (exists rs', wait_any fuel second (MkWaiters [rd2; rd1] false) wd2 = Outcome (Ok (Some 1%nat)) (MkWaiters rs' false) (ticked wd2) []) /\
    exists rs' wd', wait_any fuel second (MkWaiters [rd1; rd1] false) wd1 = Outcome (Ok None) (MkWaiters rs' false) wd' [] /\
      w_clock wd1 + 1000000000 <= w_clock wd'.
Proof.
  destruct second_fits as [Hs1 Hs2]. destruct rd2_behind as (p2 & Hr2 & Hp2).
  assert (Hex : exists fuel, (wait_turns second <= fuel)%nat) by (eexists; apply le_n).
  destruct Hex as [fuel Hf]. exists fuel. split.
  - destruct (wait_any_names_the_first_or_times_out (MkWaiters [rd2; rd1] false) wd2 [p2; (leg0 [channel_entry; entry1] 288, [])] second fuel
      wd2_clocked) as [_ (rs' & wd' & E & _ & _ & Hend)];
      [constructor; [exact Hr2|constructor; [exact rd1_ahead|constructor]]|discriminate|exact Hs2|left; discriminate|exact Hf|].
    rewrite first_of_both in E, Hend by exact Hp2. rewrite Hend in E. exists rs'. exact E.
  - destruct (wait_any_names_the_first_or_times_out (MkWaiters [rd1; rd1] false) wd1 [(leg0 [channel_entry] 208, []); (leg0 [channel_entry] 208, [])] second fuel
      wd1_clocked) as [_ (rs' & wd' & E & _ & _ & Hend)];
      [constructor; [exact rd1_w1_route|constructor; [exact rd1_w1_route|constructor]]|discriminate|exact Hs1|left; discriminate|exact Hf|].
    rewrite first_of_none in E, Hend. exists rs', wd'. split; [exact E|]. exact (Hend _ eq_refl).
Defined.
