(* ===== verification/AheadFacts.v ===== *)
(** * Readers with a helper (src/map_ahead.rs)

    What the helper's shared state promises the reader, and that a reader which holds that promise
    does what a reader without a helper does. *)

From Stdlib Require Import String.
From S2P Require Import Prelude Bytes Effects Region Channel V4 Names Segment Helper MapAhead Reader Wake Chain RegionFacts SegmentFacts Prefault Writer WriterInv CommitFacts ReaderFacts Route RouteFacts OpenFacts LocateFacts Joining WakeFacts.

#[local] Open Scope string_scope.
#[local] Open Scope list_scope.
#[local] Open Scope Z_scope.

(** ** Operations that look at the files only *)

(** [m] neither looks at [self] nor changes anything; on a calm world its result depends on the files. *)
Definition steady {A} (m : forall S, M S A) : Prop :=
  forall S S' (s : S) (s' : S') w w', calm w -> calm w' -> same_files w w' ->
    exists x, m S s w = Outcome x s w [] /\ m S' s' w' = Outcome x s' w' [].

Create HintDb steady.

Section steady.
Context `{Env}.

Lemma steady_ret {A} (a : A) : steady (fun _ => ret a).
Proof. intros S S' s s' w w' _ _ _. by exists (Ok a). Qed.

Lemma steady_lift {A} (x : res A) : steady (fun _ => lift x).
Proof. intros S S' s s' w w' _ _ _. by exists x. Qed.

Lemma steady_bind {A B} (m : forall S, M S A) (k : forall S, A -> M S B) :
  steady m -> (forall a, steady (fun S => k S a)) -> steady (fun S => bind (m S) (k S)).
Proof.
  intros Hm Hk S S' s s' w w' Hc Hc' Hsf. destruct (Hm S S' s s' w w' Hc Hc' Hsf) as (x & E & E').
  destruct x as [a|e|y].
  - rewrite (bind_outcome _ _ _ _ _ _ _ E), (bind_outcome _ _ _ _ _ _ _ E'). by apply Hk.
  - exists (Err e). unfold bind. by rewrite E, E'.
  - exists (Die y). unfold bind. by rewrite E, E'.
Qed.

Lemma steady_interfere : steady (fun S => interfere).
Proof.
  intros S S' s s' w w' [Hq _] [Hq' _] _. exists (Ok tt). unfold quiet, interfere in *. by rewrite Hq, Hq'.
Qed.

Lemma steady_syscall : steady (fun S => syscall).
Proof.
  intros S S' s s' w w' Hc Hc' _. exists (Ok tt). split; by apply reads_syscall.
Qed.

Lemma steady_ask {A} (f : world -> A) :
  (forall w w', same_files w w' -> f w' = f w) -> steady (fun _ => ask f).
Proof. intros Hf S S' s s' w w' _ _ Hsf. exists (Ok (f w)). unfold ask. by rewrite (Hf w w'). Qed.

Lemma same_inode w w' i : same_files w w' -> data_of w' i = data_of w i /\ len_of w' i = len_of w i.
Proof. intros [_ Ei _]. unfold data_of, len_of, inode_of. by rewrite Ei. Qed.

#[local] Transparent view.
Lemma steady_view {A} m off n (f : bytes -> Z -> A) : steady (fun _ => view m off n f).
Proof.
  apply (steady_bind (fun _ => interfere)); [apply steady_interfere|]. intros _.
  apply (steady_bind (fun _ => ask _)).
  - apply steady_ask. intros w w' Hsf. unfold accessible. by rewrite (proj2 (same_inode w w' _ Hsf)).
  - intros b. destruct (negb (in_mapping m off n)); [apply (steady_lift (Die _))|].
    destruct b; [|apply (steady_lift (Die _))]. apply steady_ask. intros w w' Hsf.
    by rewrite (proj1 (same_inode w w' _ Hsf)).
Qed.
#[local] Opaque view.

End steady.

#[export] Hint Resolve steady_ret steady_lift steady_syscall steady_interfere steady_view : steady.

(** Operations built from steady ones, and matches between them. *)
Ltac steady :=
  cbv zeta;
  first
    [ solve [eauto with steady]
    | apply (steady_bind (fun _ => _)); [steady|intros ?; steady]
    | match goal with |- steady (fun _ => match ?x with _ => _ end) => destruct x; steady end ].

Section steady_operations.
Context `{Env}.

Lemma steady_throw {A} e : steady (fun S => throw (A := A) (S := S) e).
Proof. apply steady_lift. Qed.
Lemma steady_die {A} y : steady (fun S => die (A := A) (S := S) y).
Proof. apply steady_lift. Qed.
Lemma steady_div_guard y : steady (fun S => div_guard (S := S) y).
Proof. unfold div_guard, die. steady. Qed.
Lemma steady_entry name : steady (fun S => entry (S := S) name).
Proof. apply steady_ask. intros w w' [Ed _ _]. by rewrite Ed. Qed.
#[local] Hint Resolve steady_throw steady_die steady_entry : steady.
Lemma steady_open name : steady (fun S => open (S := S) name).
Proof. unfold open. steady. Qed.
Lemma steady_create_read_only f off rs : steady (fun S => create_read_only (S := S) f off rs).
Proof. unfold create_read_only, mmap. steady. Qed.
Lemma steady_channel_path base seq : steady (fun S => make_channel_file_path (S := S) base seq).
Proof. unfold make_channel_file_path, is_dir. steady. Qed.
Lemma steady_is_committed m off : steady (fun S => is_committed (S := S) m off).
Proof. unfold is_committed, load_u8. steady. Qed.
Lemma steady_parsed_header_type m off : steady (fun S => parsed_header_type (S := S) m off).
Proof. unfold parsed_header_type, load_u8. steady. Qed.
Lemma steady_validate m : steady (fun S => validate_v4_prefix (S := S) m).
Proof. unfold validate_v4_prefix, load_length, load_u32, load_ext. steady. Qed.
Lemma steady_is_published m : steady (fun S => is_published (S := S) m).
Proof. unfold is_published, load_state, load_u8. steady. Qed.
Lemma steady_scan_fuel : steady (fun S => ask (S := S) scan_fuel).
Proof. apply steady_ask. intros w w' [_ Ei _]. unfold scan_fuel. by rewrite Ei. Qed.

End steady_operations.

#[export] Hint Resolve steady_throw steady_die steady_div_guard steady_open steady_create_read_only
  steady_channel_path steady_is_committed steady_parsed_header_type steady_validate steady_is_published
  steady_scan_fuel : steady.
#[export] Hint Unfold load_length load_u16 load_u32 load_u64 load load_base_record_index load_message_count
  load_channel_header load_wake_flags load_wake_word : steady.

(** ** The promise *)

(** The reader [r] with the helper whose shared state is [a]. *)
Definition helped (a : Ahead) (r : Reader) : Reader := set_map_ahead (Some a) r.

(** The fields the helper is not one of. *)
Ltac plain_fields := repeat match goal with |- context [?f (helped ?a ?r)] => change (f (helped a r)) with (f r) end.

Section promise.
Context `{Env}.

(** What the helper opened ahead: its first region and header mapped, its identity read from it; and
    a file that took its name since is of another instance. *)
Record opened_ok (r : Reader) (w : world) (n : AheadSegment) : Prop := {
  oo_region0 : as_region0 n = Mapped (as_sequence n) 0 (Mapping (as_file n) 0 (region_size_cached r));
  oo_header : as_header n = Mapping (as_file n) 0 page_size;
  oo_identity : reads (validate_v4_prefix (Mapping (as_file n) 0 (region_size_cached r))) tt w (Ok (as_identity n));
  oo_replaced : forall f i,
    w_dir w !! channel_file_name (r_base_path r) (as_sequence n) = Some (DFile f) -> f <> as_file n ->
    reads (validate_v4_prefix (Mapping f 0 (region_size_cached r))) tt w (Ok i) -> instance i <> instance (as_identity n)
}.

(** The reader [r] without its helper, and the helper's thread: its shared state, and the files it
    holds for the segment the reader is in and the next one. *)
Record promised (t : AheadThread) (r : Reader) (w : world) : Prop := {
  pm_plain : r_map_ahead r = None;
  pm_region_size : a_region_size (t_shared t) = region_size_cached r;
  pm_base_path : a_base_path (t_shared t) = r_base_path r;
  pm_want : a_want_sequence (t_shared t) = r_file_sequence r;
  pm_ready y : a_ready (t_shared t) = Some y ->
    y_file_sequence y <= r_file_sequence r /\
    (y_file_sequence y = r_file_sequence r ->
     y_mapping y = Mapping (r_file r) (u64 (y_region_idx y * region_size_cached r)) (region_size_cached r));
  pm_next n : a_next_segment (t_shared t) = Some n -> opened_ok r w n;
  pm_upcoming n f : a_next_segment (t_shared t) = Some n -> t_upcoming t = Some (as_sequence n, f) -> f = as_file n;
  pm_rolled s file : a_rolled (t_shared t) = Some (s, file) ->
    s <= r_file_sequence r /\
    (s = r_file_sequence r ->
     match file with
     | Some f => f = r_file r
     | None => forall f, t_upcoming t = Some (s, f) -> f = r_file r
     end);
  pm_segment s f : t_segment t = Some (s, f) ->
    s <= r_file_sequence r /\ (a_rolled (t_shared t) = None -> s = r_file_sequence r -> f = r_file r)
}.

Definition with_shared (a : Ahead) (t : AheadThread) : AheadThread :=
  MkThread a (t_segment t) (t_upcoming t) (t_done t) (t_looked_for_next t).

End promise.

(** ** Simulation *)

(** Wherever [m1], run by the reader alone, returns a value that satisfies [P], [m2] run by the
    reader with its helper returns the same, and leaves it the same reader with a helper that keeps
    its promise; the thread's own variables are not touched. *)
Definition like `{Env} {A} (P : A -> Prop) (m1 m2 : M Reader A) : Prop :=
  forall t r w v r1 w1 tr,
    calm w -> promised t r w -> m1 r w = Outcome (Ok v) r1 w1 tr ->
    calm w1 /\ same_files w w1 /\
    (P v -> exists a, m2 (helped (t_shared t) r) w = Outcome (Ok v) (helped a r1) w1 tr /\
      promised (with_shared a t) r1 w1).

Abbreviation alike := (like (fun _ => True)).

Section like.
Context `{Env}.

#[local] Instance same_files_refl : Reflexive same_files.
Proof. done. Qed.

(** A step that returned: what came before it. *)
Lemma bind_Ok {S A B} (m : M S A) (k : A -> M S B) s w v s2 w2 tr :
  bind m k s w = Outcome (Ok v) s2 w2 tr ->
  exists x s1 w1 tr1 tr2, m s w = Outcome (Ok x) s1 w1 tr1 /\ k x s1 w1 = Outcome (Ok v) s2 w2 tr2 /\ tr = tr1 ++ tr2.
Proof.
  unfold bind. destruct (m s w) as [[x|e|y] s1 w1 tr1]; cbn; [|done..].
  destruct (k x s1 w1) as [r s' w' tr2] eqn:E. cbn. intros [= -> -> -> <-]. by exists x, s1, w1, tr1, tr2.
Qed.

Lemma like_weaken {A} (P Q : A -> Prop) m1 m2 : like P m1 m2 -> (forall v, Q v -> P v) -> like Q m1 m2.
Proof.
  intros Hm HPQ t r w v r1 w1 tr Hc Hp E. destruct (Hm t r w v r1 w1 tr Hc Hp E) as (H1' & H2' & H3').
  split_and!; [done|done|]. auto.
Qed.

(** In a sequence, either the first part is alike and the rest is, or the rest gives nothing to
    compare. *)
Lemma like_bind_if {A B} (P : A -> Prop) (Q : B -> Prop) (m1 m2 : M Reader A) (k1 k2 : A -> M Reader B) :
  like P m1 m2 ->
  (forall x, P x /\ like Q (k1 x) (k2 x) \/
     forall r w v r1 w1 tr, calm w -> k1 x r w = Outcome (Ok v) r1 w1 tr -> calm w1 /\ same_files w w1 /\ ~ Q v) ->
  like Q (bind m1 k1) (bind m2 k2).
Proof.
  intros Hm Hk t r w v r2 w2 tr Hc Hp E.
  destruct (bind_Ok _ _ _ _ _ _ _ _ E) as (x & r1 & w1 & tr1 & tr2 & E1 & E2 & ->).
  destruct (Hm t r w x r1 w1 tr1 Hc Hp E1) as (Hc1 & Hsf1 & Hm').
  destruct (Hk x) as [[HP Hk']|Hno].
  - destruct (Hm' HP) as (a & Ea & Hp1). destruct (Hk' (with_shared a t) r1 w1 v r2 w2 tr2 Hc1 Hp1 E2) as (Hc2 & Hsf2 & Hk'').
    split_and!; [done|exact (transitivity Hsf1 Hsf2)|]. intros HQ. destruct (Hk'' HQ) as (a' & Ea' & Hp2). exists a'. split; [|exact Hp2].
    by eapply bind_outcome_trace.
  - destruct (Hno _ _ _ _ _ _ Hc1 E2) as (Hc2 & Hsf2 & HQ). split_and!; [done|exact (transitivity Hsf1 Hsf2)|]. by intros ?.
Qed.

Lemma like_bind {A B} (Q : B -> Prop) (m1 m2 : M Reader A) (k1 k2 : A -> M Reader B) :
  alike m1 m2 -> (forall x, like Q (k1 x) (k2 x)) -> like Q (bind m1 k1) (bind m2 k2).
Proof. intros Hm Hk. apply (like_bind_if (fun _ => True)); [done|]. intros x. by left. Qed.

Lemma like_ret {A} (Q : A -> Prop) a : like Q (ret a) (ret a).
Proof.
  intros t r w v r1 w1 tr Hc Hp [= <- <- <- <-]. split_and!; [done|done|]. intros _. exists (t_shared t). split; [done|]. by destruct t.
Qed.

Lemma like_fails {A} (Q : A -> Prop) (m1 m2 : M Reader A) : (forall r w, exists x, m1 r w = Outcome x r w [] /\ forall a, x <> Ok a) -> like Q m1 m2.
Proof. intros Hf t r w v r1 w1 tr _ _ E. destruct (Hf r w) as (x & Ex & Hx). rewrite Ex in E. injection E as E _ _ _. by destruct (Hx v). Qed.

(** A promise on the same files. *)
Lemma promised_same t r w w' : calm w -> calm w' -> same_files w w' -> promised t r w -> promised t r w'.
Proof.
  intros Hc Hc' Hsf []. constructor; try done. intros n Hn. destruct (pm_next0 n Hn) as [? ? Hid Hrep].
  constructor; try done.
  - destruct (steady_validate (Mapping (as_file n) 0 (region_size_cached r)) unit unit tt tt w w' Hc Hc' Hsf) as (x & E & E').
    unfold reads in *. rewrite Hid in E. by injection E as <-.
  - intros f i Hd Hf Hi. destruct (steady_validate (Mapping f 0 (region_size_cached r)) unit unit tt tt w w' Hc Hc' Hsf) as (x & E & E').
    unfold reads in *. rewrite Hi in E'. injection E' as <-. rewrite (sf_dir _ _ Hsf) in Hd. by apply (Hrep f i).
Qed.

Lemma like_steady {A} (Q : A -> Prop) (m : forall S, M S A) : steady m -> like Q (m Reader) (m Reader).
Proof.
  intros Hm t r w v r1 w1 tr Hc Hp E.
  destruct (Hm Reader Reader r (helped (t_shared t) r) w w Hc Hc ltac:(done)) as (x & E1 & E2).
  rewrite E1 in E. injection E as -> <- <- <-. split_and!; [done|done|]. intros _.
  exists (t_shared t). split; [done|]. by destruct t.
Qed.

(** The clock. *)
Lemma like_now (Q : Z -> Prop) : like Q now now.
Proof.
  intros t r w v r1 w1 tr Hc Hp E. rewrite (now_run r w) in E. injection E as <- <- <- <-.
  pose proof (ticked_calm _ Hc) as Hc'. pose proof (ticked_same_files w) as Hsf.
  split; [exact Hc'|]. split; [exact Hsf|]. intros _. exists (t_shared t). split; [apply (now_run (helped (t_shared t) r))|].
  destruct t. by apply (promised_same _ r w).
Qed.

Lemma like_pass d (Q : unit -> Prop) : like Q (pass d) (pass d).
Proof.
  intros t r w v r1 w1 tr Hc Hp [= <- <- <- <-].
  assert (Hc' : calm (set_clock (w_clock w + d) w)) by done.
  assert (Hsf : same_files w (set_clock (w_clock w + d) w)) by (by constructor).
  split; [exact Hc'|]. split; [exact Hsf|]. intros _. exists (t_shared t). split; [done|].
  destruct t. by apply (promised_same _ r w).
Qed.

(** What the reader is does not depend on its helper. *)
Lemma like_self {A} (Q : A -> Prop) (k1 k2 : Reader -> M Reader A) :
  (forall r a, like Q (k1 r) (k2 (helped a r))) -> like Q (bind self k1) (bind self k2).
Proof.
  intros Hk t r w v r1 w1 tr Hc Hp E. rewrite (bind_outcome _ _ _ _ _ _ _ (runs_self r w)) in E.
  destruct (Hk r (t_shared t) t r w v r1 w1 tr Hc Hp E) as (Hc1 & Hsf & Hres). split_and!; [done|done|].
  intros HQ. destruct (Hres HQ) as (a & Ea & Hp1). exists a. split; [|done].
  by rewrite (bind_outcome _ _ _ _ _ _ _ (runs_self (helped (t_shared t) r) w)).
Qed.

(** The fields the promise names. *)
Record same_place (r r' : Reader) : Prop := {
  sp_ahead : r_map_ahead r' = r_map_ahead r;
  sp_region_size : region_size_cached r' = region_size_cached r;
  sp_base_path : r_base_path r' = r_base_path r;
  sp_sequence : r_file_sequence r' = r_file_sequence r;
  sp_file : r_file r' = r_file r
}.

Lemma promised_place t r r' w : promised t r w -> same_place r r' -> promised t r' w.
Proof.
  intros [K1 K2 K3 K4 K5 K6 K7 K8 K9] [E1 E2 E3 E4 E5].
  constructor; rewrite ?E1, ?E2, ?E3, ?E4, ?E5; try done.
  intros n Hn. destruct (K6 n Hn). constructor; by rewrite ?E2, ?E3.
Qed.

(** An assignment to another field. *)
Lemma like_modify (Q : unit -> Prop) f :
  (forall r a, f (helped a r) = helped a (f r)) -> (forall r, same_place r (f r)) -> like Q (modify f) (modify f).
Proof.
  intros Hf Hk t r w v r1 w1 tr Hc Hp [= <- <- <- <-]. split_and!; [done|done|]. intros _. exists (t_shared t).
  split; [unfold modify; by rewrite Hf|]. destruct t. by eapply promised_place.
Qed.

Lemma like_attempt {A} (m1 m2 : M Reader A) :
  alike m1 m2 -> (forall r w e r1 w1 tr, calm w -> m1 r w = Outcome (Err e) r1 w1 tr -> calm w1 /\ same_files w w1) ->
  like (fun x => match x with inl _ => True | inr _ => False end) (attempt m1) (attempt m2).
Proof.
  intros Hm He t r w v r1 w1 tr Hc Hp E. unfold attempt in *. destruct (m1 r w) as [[x|e|y] s' w' tr'] eqn:E1; cbn in E; [..|done].
  - injection E as <- <- <- <-. destruct (Hm t r w x s' w' tr' Hc Hp E1) as (Hc1 & Hsf & Hres). split_and!; [done|done|].
    intros _. destruct (Hres I) as (a & Ea & Hp1). exists a. split; [by rewrite Ea|done].
  - injection E as <- <- <- <-. destruct (He _ _ _ _ _ _ Hc E1) as [Hc1 Hsf]. split_and!; [done|done|]. by intros [].
Qed.

Lemma like_loop {A} n (b1 b2 : M Reader (option A)) : alike b1 b2 -> alike (loop n b1) (loop n b2).
Proof.
  intros Hb. induction n as [|n IH]; [by apply like_fails; intros r w; exists (Die OutOfFuel)|].
  cbn [loop]. apply like_bind; [exact Hb|]. intros [x|]; [apply like_ret|exact IH].
Qed.

Lemma like_loop_with {V A} (Q : A -> Prop) n (b1 b2 : V -> M Reader (V + A)) v :
  (forall a, Q a \/ ~ Q a) ->
  (forall v, like (fun x => match x with inl _ => True | inr a => Q a end) (b1 v) (b2 v)) ->
  like Q (loop_with n b1 v) (loop_with n b2 v).
Proof.
  intros Hdec Hb. revert v. induction n as [|n IH]; intros v; [by apply like_fails; intros r w; exists (Die OutOfFuel)|].
  cbn [loop_with]. eapply like_bind_if; [apply Hb|]. intros [v'|a]; [left; by split|].
  destruct (Hdec a) as [HQ|HQ]; [left; split; [done|apply like_ret]|right].
  intros r w x r1 w1 tr Hc [= <- <- <- <-]. by split_and!.
Qed.

Lemma like_for_each {X} (l : list X) (f : X -> M Reader unit) : (forall x, alike (f x) (f x)) -> alike (for_each l f) (for_each l f).
Proof.
  intros Hf. induction l as [|x l IH]; [apply like_ret|]. cbn [for_each]. apply like_bind; [apply Hf|]. intros _. exact IH.
Qed.

Lemma like_when (b : bool) (m1 m2 : M Reader unit) : alike m1 m2 -> alike (when b m1) (when b m2).
Proof. intros Hm. destruct b; [exact Hm|apply like_ret]. Qed.

(** Steps that look at the files only. *)
Lemma like_view {A} (Q : A -> Prop) m off n f : like Q (view m off n f) (view m off n f).
Proof. apply (like_steady _ (fun S => view m off n f)), steady_view. Qed.
Lemma like_throw {A} (Q : A -> Prop) e : like Q (throw e) (throw e).
Proof. apply (like_steady _ (fun S => throw e)), steady_throw. Qed.
Lemma like_die {A} (Q : A -> Prop) y : like Q (die y) (die y).
Proof. apply (like_steady _ (fun S => die y)), steady_die. Qed.
Lemma like_lift {A} (Q : A -> Prop) x : like Q (lift x) (lift x).
Proof. apply (like_steady _ (fun S => lift x)), steady_lift. Qed.

End like.
