(* ===== verification/AheadReads.v ===== *)
(** * What a reader with a helper does (src/map_ahead.rs, src/lib.rs: map_region, open_successor)

    Each operation of a reader that asks its helper, and then each way of reading: with the helper it
    returns what it returns without. *)

From Stdlib Require Import String.
From S2P Require Import Prelude Bytes Effects Region Channel V4 Names Segment Helper MapAhead Reader Wake Chain RegionFacts SegmentFacts ReaderFacts Route RouteFacts OpenFacts LocateFacts Joining WakeFacts AheadFacts.

#[local] Open Scope string_scope.
#[local] Open Scope list_scope.
#[local] Open Scope Z_scope.

Section reads.
Context `{Env}.

(** ** Mapping a region *)

(** The shared state with other regions ready, or other queues. *)
Record at_rest (a a' : Ahead) : Prop := {
  ar_region_size : a_region_size a' = a_region_size a;
  ar_base_path : a_base_path a' = a_base_path a;
  ar_want : a_want_sequence a' = a_want_sequence a;
  ar_ready : a_ready a' = a_ready a \/ a_ready a' = None;
  ar_next : a_next_segment a' = a_next_segment a \/ a_next_segment a' = None;
  ar_rolled : a_rolled a' = a_rolled a
}.

Lemma promised_at_rest t r w a' :
  promised t r w -> at_rest (t_shared t) a' -> promised (with_shared a' t) r w.
Proof.
  intros [] [E1 E2 E3 Er En E6]. destruct t as [a seg up d lk]. cbn in *.
  constructor; cbn; rewrite ?E1, ?E2, ?E3, ?E6; try done.
  - intros y Hy. destruct Er as [Er|Er]; [rewrite Er in Hy; auto|congruence].
  - intros n Hn. destruct En as [En|En]; [rewrite En in Hn; auto|congruence].
  - intros n f Hn. destruct En as [En|En]; [rewrite En in Hn; eauto|congruence].
Qed.

Lemma at_rest_refl a : at_rest a a.
Proof. constructor; auto. Qed.

Lemma with_shared_with a a' t : with_shared a (with_shared a' t) = with_shared a t.
Proof. done. Qed.

Lemma run_on_ahead {A} (m : M Ahead A) a r w v a' w' tr :
  m a w = Outcome (Ok v) a' w' tr -> on_ahead m (helped a r) w = Outcome (Ok (Some v)) (helped a' r) w' tr.
Proof. intros E. unfold on_ahead. cbn. by rewrite E. Qed.

Lemma run_on_ahead_plain {A} (m : M Ahead A) r w : r_map_ahead r = None -> on_ahead m r w = Outcome (Ok None) r w [].
Proof. intros E. unfold on_ahead. by rewrite E. Qed.

Lemma take_run s i a w :
  exists v a', ahead_take s i a w = Outcome (Ok v) a' w [] /\ at_rest a a' /\
    match v with
    | Some m => exists y, a_ready a = Some y /\ y_file_sequence y = s /\ y_region_idx y = i /\ y_mapping y = m
    | None => True
    end.
Proof.
  unfold ahead_take. rewrite (bind_outcome _ _ _ _ a a w eq_refl).
  destruct (a_ready a) as [y|] eqn:E; [|exists None, a; split_and!; [done|apply at_rest_refl|done]].
  destruct ((y_file_sequence y =? s) && (y_region_idx y =? i)) eqn:Ey; [|exists None, a; split_and!; [done|apply at_rest_refl|done]].
  bools. exists (Some (y_mapping y)), (set_ready None a). split; [done|]. split; [constructor; auto|]. by exists y.
Qed.

Lemma moved_run s i a w : ahead_moved s i a w = Outcome (Ok tt) (set_want s (i + 1) a) w [].
Proof. done. Qed.

Lemma create_read_only_Ok {S} f off rs (s : S) w v s1 w1 tr :
  calm w -> create_read_only f off rs s w = Outcome (Ok v) s1 w1 tr -> v = Mapping f off rs /\ s1 = s /\ w1 = w /\ tr = [].
Proof.
  intros Hc E. destruct (bind_Ok _ _ _ _ _ _ _ _ E) as (x & s2 & w2 & t1 & t2 & E1 & E2 & ->).
  unfold lift in E1. injection E1 as _ <- <- <-. unfold mmap in E2.
  rewrite (bind_outcome _ _ _ _ _ _ _ (reads_syscall s w Hc)) in E2. by injection E2 as <- <- <- <-.
Qed.

Lemma map_region_alike t r w i v r1 w1 tr :
  calm w -> promised t r w -> map_region (r_file r) (r_file_sequence r) i r w = Outcome (Ok v) r1 w1 tr ->
  r1 = r /\ w1 = w /\ tr = [] /\
  exists a, map_region (r_file r) (r_file_sequence r) i (helped (t_shared t) r) w = Outcome (Ok v) (helped a r) w [] /\
    promised (with_shared a t) r w.
Proof.
  intros Hc Hp E. unfold map_region in *. rewrite (bind_outcome _ _ _ _ _ _ _ (runs_self r w)) in E.
  rewrite (bind_outcome _ _ _ _ _ _ _ (run_on_ahead_plain _ r w (pm_plain _ _ _ Hp))) in E.
  destruct (bind_Ok _ _ _ _ _ _ _ _ E) as (m & r2 & w2 & t1 & t2 & E1 & E2 & ->).
  destruct (create_read_only_Ok _ _ _ _ _ _ _ _ _ Hc E1) as (Em & -> & -> & ->).
  rewrite (bind_outcome _ _ _ _ _ _ _ (run_on_ahead_plain _ r w (pm_plain _ _ _ Hp))) in E2.
  injection E2 as <- <- <- <-. split_and!; [done..|].
  destruct (take_run (r_file_sequence r) i (t_shared t) w) as (v & a & Et & Ha & Hv).
  pose proof (promised_at_rest t r w a Hp Ha) as Hp1. exists (set_want (r_file_sequence r) (i + 1) a). split.
  - rewrite (bind_outcome _ _ _ _ _ _ _ (runs_self (helped (t_shared t) r) w)).
    rewrite (bind_outcome _ _ _ _ _ _ _ (run_on_ahead _ _ r w _ _ _ _ Et)).
    assert (Hm : (match v with Some map => ret map
                  | None => create_read_only (r_file r) (u64 (i * region_size_cached r)) (region_size_cached r) end)
                 (helped a r) w = Outcome (Ok m) (helped a r) w []).
    { destruct v as [m'|].
      - destruct Hv as (y & Hy & Hs & Hi & <-). destruct (pm_ready _ _ _ Hp y Hy) as [_ Hr].
        rewrite (Hr Hs), Hi, <- Em. done.
      - destruct (steady_create_read_only (r_file r) (u64 (i * region_size_cached r)) (region_size_cached r)
          Reader Reader r (helped a r) w w Hc Hc ltac:(by constructor)) as (x & X1 & X2).
        rewrite E1 in X1. injection X1 as <-. exact X2. }
    destruct v; rewrite (bind_outcome _ _ _ _ _ _ _ Hm); done.
  - destruct t as [a0 seg up d lk]. apply (promised_at_rest (MkThread a seg up d lk) r w); [exact Hp1|].
    constructor; auto. cbn. symmetry. apply (pm_want _ _ _ Hp1).
Qed.

Lemma like_switch_region i : alike (Reader_switch_region i) (Reader_switch_region i).
Proof.
  intros t r w v r1 w1 tr Hc Hp E. unfold Reader_switch_region in *.
  rewrite (bind_outcome _ _ _ _ _ _ _ (runs_self r w)) in E.
  rewrite (bind_outcome _ _ _ _ _ _ _ (runs_self (helped (t_shared t) r) w)).
  assert (Hmap : bind (map_region (r_file r) (r_file_sequence r) i) (fun m => push_map (Mapped (r_file_sequence r) i m)) r w
                   = Outcome (Ok v) r1 w1 tr ->
    calm w1 /\ same_files w w1 /\ (True -> exists a,
      bind (map_region (r_file r) (r_file_sequence r) i) (fun m => push_map (Mapped (r_file_sequence r) i m))
        (helped (t_shared t) r) w = Outcome (Ok v) (helped a r1) w1 tr /\ promised (with_shared a t) r1 w1)).
  { clear E. intros E. destruct (bind_Ok _ _ _ _ _ _ _ _ E) as (m & r2 & w2 & t1 & t2 & E1 & E2 & ->).
    destruct (map_region_alike t r w i m r2 w2 t1 Hc Hp E1) as (-> & -> & -> & a & Ea & Hp1).
    injection E2 as <- <- <- <-. split; [done|]. split; [by constructor|]. intros _. exists a. split.
    - by rewrite (bind_outcome _ _ _ _ _ _ _ Ea).
    - by eapply promised_place. }
  cbv zeta in *. change (current_map (helped (t_shared t) r)) with (current_map r).
  destruct (current_map r) as [l|]; [|by apply Hmap].
  change (r_file_sequence (helped (t_shared t) r)) with (r_file_sequence r).
  destruct ((m_file_sequence l =? r_file_sequence r) && (m_region_idx l =? i)); [|by apply Hmap].
  injection E as <- <- <- <-. split; [done|]. split; [by constructor|]. intros _. exists (t_shared t).
  split; [done|]. by destruct t.
Qed.

(** ** Handing over what was left *)

Lemma retire_run ls a w :
  exists a', ahead_retire ls a w = Outcome (Ok tt) a' w [] /\ at_rest a a'.
Proof.
  unfold ahead_retire. rewrite (bind_outcome _ _ _ _ a a w eq_refl). destruct (Failure_stopped (a_failure a)).
  - eexists. split; [reflexivity|]. constructor; auto.
  - destruct (push_all (a_retired a) ls false) as [q full]. rewrite (bind_outcome _ _ _ _ tt (set_retired q a) w eq_refl).
    destruct full; (eexists; split; [reflexivity|]; constructor; auto).
Qed.

Lemma at_rest_trans a1 a2 a3 : at_rest a1 a2 -> at_rest a2 a3 -> at_rest a1 a3.
Proof. intros [? ? ? X4 X5 ?] [? ? ? Y4 Y5 ?]. constructor; first [congruence|intuition congruence]. Qed.

(** Letting go of a mapping: the helper's queues change, and nothing else of it. *)
Lemma retire_step m r a w :
  r_map_ahead r = None ->
  exists h a', Reader_retire m r w = Outcome (Ok tt) (set_r_held h r) w [] /\
    Reader_retire m (helped a r) w = Outcome (Ok tt) (helped a' (set_r_held h r)) w [] /\ at_rest a a'.
Proof.
  intros Hp. unfold Reader_retire. rewrite (bind_outcome _ _ _ _ _ _ _ (runs_self r w)), (bind_outcome _ _ _ _ _ _ _ (runs_self (helped a r) w)).
  change (r_unmap (helped a r)) with (r_unmap r). change (r_file_sequence (helped a r)) with (r_file_sequence r).
  destruct (bool_decide (r_unmap r = AtFileRoll) && (m_file_sequence m =? r_file_sequence r)).
  - exists (r_held r ++ [m]), a. split_and!; [done|done|apply at_rest_refl].
  - destruct (retire_run [RetiredRegion m] a w) as (a' & Ea & Hr). exists (r_held r), a'.
    rewrite (bind_outcome _ _ _ _ _ _ _ (run_on_ahead_plain _ r w Hp)), (bind_outcome _ _ _ _ _ _ _ (run_on_ahead _ _ r w _ _ _ _ Ea)).
    split_and!; [by destruct r|by destruct r|done].
Qed.

Lemma retire_steps ms r a w :
  r_map_ahead r = None ->
  exists h a', for_each ms Reader_retire r w = Outcome (Ok tt) (set_r_held h r) w [] /\
    for_each ms Reader_retire (helped a r) w = Outcome (Ok tt) (helped a' (set_r_held h r)) w [] /\ at_rest a a'.
Proof.
  revert r a. induction ms as [|m ms IH]; intros r a Hp.
  - exists (r_held r), a. split_and!; [by destruct r|by destruct r|apply at_rest_refl].
  - destruct (retire_step m r a w Hp) as (h & a1 & E1 & E2 & Ha).
    destruct (IH (set_r_held h r) a1 Hp) as (h' & a2 & E3 & E4 & Ha'). exists h', a2. cbn [for_each].
    rewrite (bind_outcome _ _ _ _ _ _ _ E1), (bind_outcome _ _ _ _ _ _ _ E2). split_and!; [done|done|by eapply at_rest_trans].
Qed.

Lemma retire_all_run r a w v r1 w1 tr :
  r_map_ahead r = None -> retire_all_but_last r w = Outcome (Ok v) r1 w1 tr ->
  w1 = w /\ tr = [] /\ same_place r r1 /\
  exists a', retire_all_but_last (helped a r) w = Outcome (Ok v) (helped a' r1) w [] /\ at_rest a a'.
Proof.
  intros Hp E. unfold retire_all_but_last in *. rewrite (bind_outcome _ _ _ _ _ _ _ (runs_self r w)) in E.
  rewrite (bind_outcome _ _ _ _ _ _ _ (runs_self (helped a r) w)).
  change (current_map (helped a r)) with (current_map r). destruct (current_map r) as [l|]; [|done].
  change (bind (modify (set_maps [l])) (fun _ => for_each (popped (maps r)) Reader_retire) (helped a r) w)
    with (bind (modify (set_maps [l])) (fun _ => for_each (popped (maps r)) Reader_retire) (set_map_ahead (Some a) r) w).
  rewrite (bind_outcome _ _ _ _ _ _ _ (runs_modify (set_maps [l]) r w)) in E.
  change (maps (helped a r)) with (maps r). rewrite (bind_outcome _ _ _ _ _ _ _ (runs_modify (set_maps [l]) (helped a r) w)).
  destruct (retire_steps (popped (maps r)) (set_maps [l] r) a w Hp) as (h & a' & E1 & E2 & Ha).
  rewrite E1 in E. injection E as <- <- <- <-. split_and!; [done|done|by constructor|]. by exists a'.
Qed.

Lemma like_retire_all_but_last : alike retire_all_but_last retire_all_but_last.
Proof.
  intros t r w v r1 w1 tr Hc Hp E.
  destruct (retire_all_run r (t_shared t) w v r1 w1 tr (pm_plain _ _ _ Hp) E) as (-> & -> & Hs & a & Ea & Ha).
  split; [done|]. split; [by constructor|]. intros _. exists a. split; [done|].
  by eapply promised_place; [apply promised_at_rest|].
Qed.

Lemma like_prune : alike prune_to_current prune_to_current.
Proof.
  apply like_self. intros r a. change (current_map (helped a r)) with (current_map r).
  destruct (current_map r) as [l|]; [|apply like_die].
  apply like_bind; [apply (like_steady _ (fun S => div_guard _)), steady_div_guard|]. intros _. cbv zeta.
  change (r_read_position (helped a r)) with (r_read_position r).
  change (region_size_cached (helped a r)) with (region_size_cached r).
  change (r_file_sequence (helped a r)) with (r_file_sequence r). change (maps (helped a r)) with (maps r).
  destruct (_ || _); [apply (like_steady _ (fun S => die _)), steady_die|].
  destruct (1 <? _)%nat; [apply like_retire_all_but_last|apply like_ret].
Qed.

(** ** Opening the successor *)

(** A step that looks at the files only, in a run that goes on. *)
Lemma steady_step {A B S} (m : forall S, M S A) (k : A -> M S B) (s : S) w v s1 w1 tr :
  steady m -> calm w -> bind (m S) k s w = Outcome (Ok v) s1 w1 tr ->
  exists x, (forall S' (s' : S'), m S' s' w = Outcome (Ok x) s' w []) /\ k x s w = Outcome (Ok v) s1 w1 tr.
Proof.
  intros Hm Hc E. destruct (Hm S S s s w w Hc Hc ltac:(by constructor)) as ([x|e|y] & E1 & _);
    [|unfold bind in E; by rewrite E1 in E|unfold bind in E; by rewrite E1 in E].
  exists x. split; [|by rewrite (bind_outcome _ _ _ _ _ _ _ E1) in E].
  intros S' s'. destruct (Hm S S' s s' w w Hc Hc ltac:(by constructor)) as (x' & E1' & E2'). rewrite E1 in E1'. by injection E1' as <-.
Qed.

(** What opens the file of the name. *)
Definition open_here (r : Reader) (ns : Z) {S} : M S (Z * MappedRegion * option (RegionMapping * Identity)) :=
  file_path <- make_channel_file_path (r_base_path r) ns ;;
  file <- open file_path ;;
  map <- create_read_only file 0 (region_size_cached r) ;;
  ret (file, Mapped ns 0 map, None).

Lemma steady_open_here r ns : steady (fun S => open_here r ns (S := S)).
Proof. unfold open_here. steady. Qed.

(** The file a name stands for. *)
Lemma named_file {A S} base ns (k : Z -> M S A) (s : S) w v s1 w1 tr :
  calm w -> bind (make_channel_file_path base ns) (fun path => bind (open path) k) s w = Outcome (Ok v) s1 w1 tr ->
  exists file, w_dir w !! channel_file_name base ns = Some (DFile file) /\ k file s w = Outcome (Ok v) s1 w1 tr.
Proof.
  intros Hc E. destruct (steady_step (fun S => make_channel_file_path _ _) _ s w v s1 w1 tr (steady_channel_path _ _) Hc E) as (path & Ep & E').
  assert (Hpath : path = channel_file_name base ns).
  { specialize (Ep S s). unfold make_channel_file_path, is_dir, entry in Ep. unfold bind, ask in Ep. cbn in Ep.
    destruct (w_dir w !! base) as [[]|]; cbn in Ep; by injection Ep. }
  subst path. destruct (steady_step (fun S => open _) _ s w v s1 w1 tr (steady_open _) Hc E') as (file & Ef & E'').
  exists file. split; [|exact E'']. specialize (Ef S s). unfold open in Ef.
  rewrite (bind_outcome _ _ _ _ _ _ _ (reads_syscall s w Hc)) in Ef.
  unfold entry in Ef. rewrite (bind_outcome _ _ _ _ _ _ _ (reads_ask _ s w)) in Ef.
  destruct (w_dir w !! channel_file_name base ns) as [[ino|]|]; [by injection Ef as ->|done|done].
Qed.

Lemma open_here_Ok {S} r ns (s : S) w x s1 w1 tr :
  calm w -> open_here r ns s w = Outcome (Ok x) s1 w1 tr ->
  exists file, x = (file, Mapped ns 0 (Mapping file 0 (region_size_cached r)), None) /\
    w_dir w !! channel_file_name (r_base_path r) ns = Some (DFile file).
Proof.
  intros Hc E. destruct (named_file _ _ _ _ _ _ _ _ _ Hc E) as (file & Hfile & E'').
  destruct (bind_Ok _ _ _ _ _ _ _ _ E'') as (map & s2 & w2 & t1 & t2 & E1 & E2 & ->).
  destruct (create_read_only_Ok _ _ _ _ _ _ _ _ _ Hc E1) as (-> & -> & -> & ->).
  injection E2 as <- <- <- <-. by exists file.
Qed.

Lemma take_segment_run s a w :
  exists v a', ahead_take_segment s a w = Outcome (Ok v) a' w [] /\ at_rest a a' /\
    match v with Some n => a_next_segment a = Some n /\ as_sequence n = s | None => True end.
Proof.
  unfold ahead_take_segment. rewrite (bind_outcome _ _ _ _ a a w eq_refl).
  destruct (a_next_segment a) as [n|] eqn:E; [|exists None, a; split_and!; [done|apply at_rest_refl|done]].
  destruct (Z.eqb_spec (as_sequence n) s); [|exists None, a; split_and!; [done|apply at_rest_refl|done]].
  exists (Some n), (set_next_segment None a). split; [done|]. split; [constructor; auto|done].
Qed.

(** With the helper: the file of the name too, or the one opened ahead, which the edge names. *)
Lemma successor_file_alike t r w edge ps ns pi x r1 w1 tr :
  calm w -> promised t r w -> successor_file edge ps ns pi r w = Outcome (Ok x) r1 w1 tr ->
  r1 = r /\ w1 = w /\ tr = [] /\
  (exists file, x = (file, Mapped ns 0 (Mapping file 0 (region_size_cached r)), None) /\
    w_dir w !! channel_file_name (r_base_path r) ns = Some (DFile file)) /\
  exists a x', successor_file edge ps ns pi (helped (t_shared t) r) w = Outcome (Ok x') (helped a r) w [] /\
    at_rest (t_shared t) a /\
    (x' = x \/ exists n, x' = (as_file n, as_region0 n, Some (as_header n, as_identity n)) /\
       a_next_segment (t_shared t) = Some n /\ as_sequence n = ns /\ RollEdge_names edge ps pi (as_identity n) = true).
Proof.
  intros Hc Hp E. unfold successor_file in *. rewrite (bind_outcome _ _ _ _ _ _ _ (runs_self r w)) in E.
  rewrite (bind_outcome _ _ _ _ _ _ _ (run_on_ahead_plain _ r w (pm_plain _ _ _ Hp))) in E.
  change (open_here r ns r w = Outcome (Ok x) r1 w1 tr) in E.
  assert (Eh : forall r' : Reader, open_here r ns r' w = Outcome (Ok x) r' w [] /\ r1 = r /\ w1 = w /\ tr = []).
  { intros r'. destruct (steady_open_here r ns Reader Reader r r' w w Hc Hc ltac:(by constructor)) as (y & Y1 & Y2).
    rewrite E in Y1. injection Y1 as <- -> -> ->. by split_and!. }
  destruct (Eh r) as (_ & -> & -> & ->). split_and!; [done..|by eapply open_here_Ok|].
  destruct (take_segment_run ns (t_shared t) w) as (v & a & Et & Hr & Hv).
  rewrite (bind_outcome _ _ _ _ _ _ _ (runs_self (helped (t_shared t) r) w)).
  rewrite (bind_outcome _ _ _ _ _ _ _ (run_on_ahead _ _ r w _ _ _ _ Et)).
  destruct v as [n|].
  2: { exists a, x. split; [exact (proj1 (Eh (helped a r)))|]. split; [done|by left]. }
  destruct Hv as [Hn Hs]. destruct (RollEdge_names edge ps pi (as_identity n)) eqn:En.
  - exists a, (as_file n, as_region0 n, Some (as_header n, as_identity n)). split; [done|]. split; [done|]. right. by exists n.
  - destruct (retire_run [RetiredSegment n] a w) as (a' & Ea & Hr'). exists a', x.
    rewrite (bind_outcome _ _ _ _ _ _ _ (run_on_ahead _ _ r w _ _ _ _ Ea)).
    split; [exact (proj1 (Eh (helped a' r)))|]. split; [|by left].
    destruct Hr as [X1 X2 X3 X4 X5 X6], Hr' as [Y1 Y2 Y3 Y4 Y5 Y6]. constructor; first [congruence|intuition congruence].
Qed.

(** Two successors that differ in who opened them only. *)
Definition opened_by (b : bool) (n : Successor) : Successor :=
  MkSuccessor (su_sequence n) (su_instance n) b (su_file n) (su_region0 n) (su_header n) (su_channel_name n) (su_base_record_index n).

(** The part of [open_successor] after the file is open. *)
Definition check_successor (r : Reader) (ps ns : Z) (pi : InstanceId) (edge : RollEdge) (expected : option Z)
    (opened : Z * MappedRegion * option (RegionMapping * Identity)) {S} : M S Successor :=
  let '(file, region0, checked) := opened in
  let page0 := m_mapping region0 in
  identity <- (match checked with
               | Some (_, identity) => ret identity
               | None =>
                   t <- parsed_header_type page0 0 ;;
                   if bool_decide (t <> Channel) then throw (err_other "next file missing Channel header")
                   else
                     ch <- load_channel_header page0 ;;
                     lift (validate_channel_header ch (region_size_cached r) ns) ;;
                     validate_v4_prefix page0
               end) ;;
  if negb (RollEdge_names edge ps pi identity) then
    throw (err_invalid_data "the segment is not the instance the Roll names")
  else
    published <- is_published page0 ;;
    if negb published then throw (err_invalid_data "segment is not published, but a Roll leads to it")
    else
      ch <- load_channel_header page0 ;;
      if bool_decide (Some (ch_base_record_index ch) <> expected)
         || negb (ch_base_record_index ch =? next_base_record_index edge) then
        throw (err_invalid_data "base_record_index discontinuity")
      else if negb (ch_generation ch =? generation_cached r) then
        throw (err_invalid_data "generation mismatch")
      else
        header <- (match checked with
                   | Some (header, _) => ret header
                   | None => create_read_only file 0 page_size
                   end) ;;
        ret (MkSuccessor ns (instance identity) (if checked then true else false) file
               region0 header (ch_channel_name ch) (ch_base_record_index ch)).

Lemma steady_check r ps ns pi edge expected opened : steady (fun S => check_successor r ps ns pi edge expected opened (S := S)).
Proof. destruct opened as [[file region0] checked]. unfold check_successor, load_channel_header. steady. Qed.

(** A file opened here that passes the checks is the instance the edge names; and it passes them when
    it was opened ahead, with the identity it had then. *)
Lemma check_successor_Ok r ps ns pi edge expected file n w :
  calm w ->
  (forall S (s : S), check_successor r ps ns pi edge expected (file, Mapped ns 0 (Mapping file 0 (region_size_cached r)), None) s w
     = Outcome (Ok n) s w []) ->
  exists i,
    (forall S (s : S), validate_v4_prefix (Mapping file 0 (region_size_cached r)) s w = Outcome (Ok i) s w []) /\
    RollEdge_names edge ps pi i = true /\ su_sequence n = ns /\ su_file n = file /\ su_opened_ahead n = false /\
    forall S (s : S), check_successor r ps ns pi edge expected
      (file, Mapped ns 0 (Mapping file 0 (region_size_cached r)), Some (Mapping file 0 page_size, i)) s w
      = Outcome (Ok (opened_by true n)) s w [].
Proof.
  intros Hc Hn. pose proof (Hn unit tt) as E. unfold check_successor in E. cbn [m_mapping] in E.
  destruct (bind_Ok _ _ _ _ _ _ _ _ E) as (i & s1 & w1 & t1 & t2 & E1 & E2 & Et).
  assert (Hi : (forall S (s : S), validate_v4_prefix (Mapping file 0 (region_size_cached r)) s w = Outcome (Ok i) s w []) /\ s1 = tt /\ w1 = w).
  { destruct (steady_step (fun S => parsed_header_type _ _) _ tt w _ _ _ _ (steady_parsed_header_type _ _) Hc E1) as (ty & _ & E1a).
    destruct (bool_decide (ty <> Channel)); [done|].
    destruct (steady_step (fun S => load_channel_header _) _ tt w _ _ _ _ (steady_view _ _ _ _) Hc E1a) as (ch & _ & E1b).
    destruct (steady_step (fun S => lift _) _ tt w _ _ _ _ (steady_lift _) Hc E1b) as (u & _ & E1c).
    split_and!; [|by destruct s1|].
    - intros S s. destruct (steady_validate (Mapping file 0 (region_size_cached r)) unit S tt s w w Hc Hc ltac:(by constructor)) as (y & Y1 & Y2).
      rewrite E1c in Y1. by injection Y1 as <- _ _ _.
    - destruct (steady_validate (Mapping file 0 (region_size_cached r)) unit unit tt tt w w Hc Hc ltac:(by constructor)) as (y & Y1 & _).
      rewrite E1c in Y1. by injection Y1. }
  destruct Hi as (Hi & -> & ->). exists i. split; [exact Hi|].
  destruct (RollEdge_names edge ps pi i) eqn:En; cbn [negb] in E2; [|done].
  destruct (steady_step (fun S => is_published _) _ tt w _ _ _ _ (steady_is_published _) Hc E2) as (pub & Epub & E3).
  destruct pub; cbn [negb] in E3; [|done].
  destruct (steady_step (fun S => load_channel_header _) _ tt w _ _ _ _ (steady_view _ _ _ _) Hc E3) as (ch & Ech & E4).
  destruct (_ || _) eqn:Eb; [done|]. destruct (negb (ch_generation ch =? generation_cached r)) eqn:Eg; [done|].
  destruct (bind_Ok _ _ _ _ _ _ _ _ E4) as (h & s2 & w2 & t3 & t4 & E5 & E6 & _).
  destruct (create_read_only_Ok _ _ _ _ _ _ _ _ _ Hc E5) as (-> & -> & -> & ->). injection E6 as <- _.
  split_and!; [done..|]. intros S s. unfold check_successor. cbn [m_mapping].
  rewrite (bind_outcome _ _ _ _ i s w eq_refl), En. cbn [negb].
  rewrite (bind_outcome _ _ _ _ _ _ _ (Epub S s)). cbn [negb]. rewrite (bind_outcome _ _ _ _ _ _ _ (Ech S s)), Eb, Eg. done.
Qed.

Lemma open_successor_alike t r w ph ps pi edge n r1 w1 tr :
  calm w -> promised t r w -> open_successor ph ps pi edge r w = Outcome (Ok n) r1 w1 tr ->
  r1 = r /\ w1 = w /\ tr = [] /\ ps < su_sequence n /\ su_opened_ahead n = false /\
  exists a b, open_successor ph ps pi edge (helped (t_shared t) r) w = Outcome (Ok (opened_by b n)) (helped a r) w [] /\
    at_rest (t_shared t) a /\
    (b = true -> forall f, t_upcoming t = Some (su_sequence n, f) -> f = su_file n).
Proof.
  intros Hc Hp E. unfold open_successor in *. rewrite (bind_outcome _ _ _ _ _ _ _ (runs_self r w)) in E.
  rewrite (bind_outcome _ _ _ _ _ _ _ (runs_self (helped (t_shared t) r) w)).
  destruct (steady_step (fun S => load_base_record_index _) _ r w _ _ _ _ (steady_view _ _ _ _) Hc E) as (base & Eb & E1).
  rewrite (bind_outcome _ _ _ _ _ _ _ (Eb _ (helped (t_shared t) r))). clear E.
  destruct (steady_step (fun S => load_message_count _) _ r w _ _ _ _ (steady_view _ _ _ _) Hc E1) as (count & Ec & E2).
  rewrite (bind_outcome _ _ _ _ _ _ _ (Ec _ (helped (t_shared t) r))). clear E1. cbv zeta in *.
  destruct (steady_step (fun S => lift _) _ r w _ _ _ _ (steady_lift _) Hc E2) as (ns & En & E3).
  rewrite (bind_outcome _ _ _ _ _ _ _ (En _ (helped (t_shared t) r))). clear E2.
  destruct (bind_Ok _ _ _ _ _ _ _ _ E3) as (x & r2 & w2 & t1 & t2 & E4 & E5 & ->). clear E3.
  destruct (successor_file_alike t r w _ _ _ _ _ _ _ _ Hc Hp E4) as (-> & -> & -> & (file & -> & Hdir) & a & x' & Ex & Ha & Hx).
  set (expected := checked_add base count) in *.
  change (check_successor r ps ns pi edge expected (file, Mapped ns 0 (Mapping file 0 (region_size_cached r)), None) r w
    = Outcome (Ok n) r1 w1 t2) in E5.
  assert (Hn : forall S (s : S), check_successor r ps ns pi edge expected
      (file, Mapped ns 0 (Mapping file 0 (region_size_cached r)), None) s w = Outcome (Ok n) s w [] /\ r1 = r /\ w1 = w /\ t2 = []).
  { intros S s. destruct (steady_check r ps ns pi edge expected (file, Mapped ns 0 (Mapping file 0 (region_size_cached r)), None)
      Reader S r s w w Hc Hc ltac:(by constructor)) as (y & Y1 & Y2).
    rewrite E5 in Y1. injection Y1 as <- -> -> ->. by split_and!. }
  destruct (Hn Reader r) as (_ & -> & -> & ->). clear E5.
  rewrite (bind_outcome _ _ _ _ _ _ _ Ex).
  change (region_size_cached (helped (t_shared t) r)) with (region_size_cached r).
  change (generation_cached (helped (t_shared t) r)) with (generation_cached r).
  destruct (check_successor_Ok _ _ _ _ _ _ _ _ w Hc (fun S s => proj1 (Hn S s))) as (i & Hi & Hnames & Es & Ef & Eo & Hahead).
  assert (Hns : ps < ns).
  { specialize (En unit tt). unfold lift in En. injection En as En. destruct (checked_add ps 1) as [k|] eqn:Ek; [|done].
    unfold checked_add in Ek. destruct (ps + 1 <=? U64_MAX); [|done]. injection Ek as <-.
    destruct (ps + 1 =? next_sequence edge); [|done]. injection En as <-. lia. }
  split_and!; [done..|congruence|done|]. destruct Hx as [->|(n0 & -> & Hn0 & Hs0 & Hnames0)].
  { exists a, false. split_and!; [|done|done]. destruct n. cbn in Eo. subst. exact (proj1 (Hn Reader (helped a r))). }
  (* the edge names one instance, and one file has it *)
  destruct (pm_next _ _ _ Hp n0 Hn0) as [O1 O2 O3 O4].
  assert (Hinst : instance i = instance (as_identity n0)).
  { unfold RollEdge_names in Hnames, Hnames0. bools. repeat match goal with H : bool_decide _ = true |- _ => apply bool_decide_eq_true in H end. congruence. }
  assert (Hf : file = as_file n0).
  { destruct (Z.eq_dec file (as_file n0)) as [|Hne]; [done|]. exfalso. rewrite <- Hs0 in Hdir. by apply (O4 file i Hdir Hne (Hi unit tt)). }
  assert (Hid : i = as_identity n0).
  { pose proof (Hi unit tt) as Hi'. rewrite Hf in Hi'. unfold reads in O3. rewrite Hi' in O3. by injection O3. }
  exists a, true. split_and!; [|done|].
  - rewrite O1, O2, <- Hf, <- Hid, Hs0. exact (Hahead Reader (helped a r)).
  - intros _ f Hup. rewrite Es, <- Hs0 in Hup. rewrite Ef, Hf. by apply (pm_upcoming _ _ _ Hp n0 f).
Qed.

(** Telling the helper of a roll. *)
Lemma rolled_run b b' old oh a r w v r1 w1 tr :
  calm w -> r_map_ahead r = None -> Reader_rolled b' old oh r w = Outcome (Ok v) r1 w1 tr ->
  r1 = set_r_held [] r /\ w1 = w /\ tr = [] /\
  exists a', Reader_rolled b old oh (helped a r) w = Outcome (Ok v) (helped a' (set_r_held [] r)) w [] /\
    a_region_size a' = a_region_size a /\ a_base_path a' = a_base_path a /\ a_want_sequence a' = r_file_sequence r /\
    a_ready a' = a_ready a /\ a_next_segment a' = a_next_segment a /\
    a_rolled a' = Some (r_file_sequence r, if b then None else Some (r_file r)).
Proof.
  intros Hc Hp E. unfold Reader_rolled in *. rewrite (bind_outcome _ _ _ _ _ _ _ (runs_self r w)) in E.
  rewrite (bind_outcome _ _ _ _ _ _ _ (run_on_ahead_plain _ r w Hp)) in E. injection E as <- <- <- <-.
  split_and!; [done..|]. rewrite (bind_outcome _ _ _ _ _ _ _ (runs_self (helped a r) w)).
  change (r_file_sequence (helped a r)) with (r_file_sequence r). change (r_file (helped a r)) with (r_file r).
  change (r_held (helped a r)) with (r_held r).
  set (a1 := set_want (r_file_sequence r) 1 (set_rolled (Some (r_file_sequence r, if b then None else Some (r_file r))) a)).
  assert (Er : ahead_rolled (r_file_sequence r) (if b then None else Some (r_file r)) a w = Outcome (Ok tt) a1 w []).
  { unfold ahead_rolled. destruct b; [done|].
    assert (Hcl : attempt (bind syscall (fun _ => ret (r_file r))) a w = Outcome (Ok (inl (r_file r))) a w []).
    { apply reads_attempt_ok. eapply reads_seq; [by apply reads_syscall|]. done. }
    by rewrite (bind_outcome _ _ _ _ _ _ _ Hcl). }
  assert (Hret : exists a', ahead_retire (map RetiredRegion (r_held r) ++ [RetiredFile old; RetiredHeader oh]) a1 w = Outcome (Ok tt) a' w [] /\
     exists q n, a' = set_saturated n (set_retired q a1)).
  { unfold ahead_retire. rewrite (bind_outcome _ _ _ _ a1 a1 w eq_refl). destruct (Failure_stopped (a_failure a1)).
    - eexists. split; [reflexivity|]. by exists (MkBounded [] (bound (a_retired a1))), (a_saturated a1).
    - destruct (push_all (a_retired a1) _ false) as [q full]. rewrite (bind_outcome _ _ _ _ tt (set_retired q a1) w eq_refl).
      destruct full; (eexists; split; [reflexivity|]); [by exists q, (a_saturated a1 + 1)|by exists q, (a_saturated a1)]. }
  destruct Hret as (a' & Ea & q & k & ->). eexists. split.
  - assert (Hb : bind (ahead_rolled (r_file_sequence r) (if b then None else Some (r_file r)))
        (fun _ => ahead_retire (map RetiredRegion (r_held r) ++ [RetiredFile old; RetiredHeader oh])) a w
        = Outcome (Ok tt) (set_saturated k (set_retired q a1)) w []) by (by rewrite (bind_outcome _ _ _ _ _ _ _ Er)).
    by rewrite (bind_outcome _ _ _ _ _ _ _ (run_on_ahead _ _ r w _ _ _ _ Hb)).
  - by split_and!.
Qed.

(** Following a [Roll]. *)
Lemma like_open_next_file edge : alike (open_next_file edge) (open_next_file edge).
Proof.
  intros t r w v r1 w1 tr Hc Hp E. unfold open_next_file in *. rewrite (bind_outcome _ _ _ _ _ _ _ (runs_self r w)) in E.
  rewrite (bind_outcome _ _ _ _ _ _ _ (runs_self (helped (t_shared t) r) w)).
  destruct (bind_Ok _ _ _ _ _ _ _ _ E) as (n & r2 & w2 & t1 & t2 & E1 & E2 & ->). clear E.
  destruct (open_successor_alike t r w _ _ _ _ _ _ _ _ Hc Hp E1) as (-> & -> & -> & Hns & Hflag & a & b & Ea & Ha & Hup).
  rewrite (bind_outcome _ _ _ _ _ _ _ Ea). clear Ea E1.
  set (r3 := set_maps (maps r ++ [su_region0 n]) (enter_segment (su_file n) (su_header n) (su_instance n) false None
    (su_channel_name n) (su_base_record_index n) (set_cursor 0 (su_base_record_index n) (su_sequence n) r))).
  assert (Hr3 : r_map_ahead r3 = None) by apply (pm_plain _ _ _ Hp).
  rewrite (bind_outcome _ _ _ _ _ _ _ (runs_modify _ _ w)), (bind_outcome _ _ _ _ _ _ _ (runs_modify _ _ w)) in E2. unfold push_map in E2 |- *.
  rewrite (bind_outcome _ _ _ _ _ _ _ (runs_modify _ _ w)) in E2.
  rewrite (bind_outcome _ _ _ _ _ _ _ (runs_modify _ _ w)), (bind_outcome _ _ _ _ _ _ _ (runs_modify _ _ w)).
  rewrite (bind_outcome _ _ _ _ _ _ _ (runs_modify _ _ w)). cbv beta.
  destruct (bind_Ok _ _ _ _ _ _ _ _ E2) as (u & r4 & w4 & t3 & t4 & E3 & E4 & ->). clear E2.
  destruct (retire_all_run r3 a w u r4 w4 t3 Hr3 E3) as (-> & -> & [S1 S2 S3 S4 S5] & a' & Ea' & Ha').
  match goal with |- context [bind retire_all_but_last _ ?s w] => change s with (helped a r3) end.
  rewrite (bind_outcome _ _ _ _ _ _ _ Ea'). clear Ea' E3.
  destruct (rolled_run b (su_opened_ahead n) (r_file r) (r_header r) a' r4 w v r1 w1 t4 Hc ltac:(congruence) E4)
    as (-> & -> & -> & a4 & E5 & R1 & R2 & R3 & R4 & R5 & R6).
  split; [done|]. split; [by constructor|]. intros _. exists a4.
  change (su_opened_ahead (opened_by b n)) with b. change (r_file (helped (t_shared t) r)) with (r_file r).
  change (r_header (helped (t_shared t) r)) with (r_header r). split; [exact E5|].
  apply (promised_place _ r4); [|by constructor].
  pose proof (at_rest_trans _ _ _ Ha Ha') as [A1 A2 _ A4 A5 _]. clear Ha Ha'.
  assert (F1 : r_file_sequence r4 = su_sequence n) by (rewrite S4; done).
  assert (F2 : r_file r4 = su_file n) by (rewrite S5; done).
  assert (F3 : region_size_cached r4 = region_size_cached r) by (rewrite S2; done).
  assert (F4 : r_base_path r4 = r_base_path r) by (rewrite S3; done).
  destruct Hp as [K1 K2 K3 K4 K5 K6 K7 K8 K9].
  constructor; cbn [with_shared t_shared t_segment t_upcoming]; rewrite ?F1, ?F2, ?F3, ?F4.
  - congruence.
  - congruence.
  - congruence.
  - congruence.
  - intros y Hy. rewrite R4 in Hy. destruct A4 as [A4|A4]; [|congruence]. rewrite A4 in Hy. destruct (K5 y Hy). lia.
  - intros x Hx. rewrite R5 in Hx. destruct A5 as [A5|A5]; [|congruence]. rewrite A5 in Hx.
    destruct (K6 x Hx). constructor; by rewrite ?F3, ?F4.
  - intros x f Hx. rewrite R5 in Hx. destruct A5 as [A5|A5]; [|congruence]. rewrite A5 in Hx. by apply K7.
  - intros s file Hs. rewrite R6, F1, F2 in Hs. injection Hs as <- <-. split; [lia|]. intros _. destruct b; [by apply Hup|done].
  - intros s f Hs. destruct (K9 s f Hs). split; [lia|]. rewrite R6. done.
Qed.


(** ** Reading *)

Lemma like_header_info off : alike (current_message_header_info off) (current_message_header_info off).
Proof.
  apply like_self. intros r a. plain_fields. destruct (current_map r) as [l|]; [|apply like_throw]. cbv zeta.
  apply like_bind; [apply (like_steady _ (fun S => is_committed _ off)), steady_is_committed|]. intros c.
  destruct (negb c); [apply like_ret|]. apply like_bind; [apply like_view|]. intros n.
  apply like_bind; [apply (like_steady _ (fun S => parsed_header_type _ off)), steady_parsed_header_type|]. intros ty.
  apply like_bind; [apply like_view|]. intros mt. apply like_bind; [apply like_view|]. intros um. apply like_ret.
Qed.

Lemma like_roll_edge i off n : alike (roll_edge i off n) (roll_edge i off n).
Proof.
  apply like_self. intros r a. plain_fields. destruct (maps r !! i) as [l|]; [|apply like_die].
  cbv zeta. destruct (_ >? _); [apply like_throw|]. apply like_bind; [apply like_view|]. intros body. apply like_lift.
Qed.

Lemma like_step_over next : alike (step_over next) (step_over next).
Proof.
  apply like_self. intros r a. plain_fields. destruct (is_multiple_of _ _); [|by apply like_modify].
  apply like_bind; [apply like_switch_region|]. intros _. apply like_bind; [by apply like_modify|]. intros _. apply like_prune.
Qed.

Lemma like_scan_step consume : alike (scan_step consume) (scan_step consume).
Proof.
  apply like_self. intros r a. plain_fields. apply like_bind; [apply like_header_info|].
  intros [hdr|]; [|apply like_ret]. destruct (_ >? _); [apply like_throw|].
  cbv zeta. destruct (s_header_type hdr).
  2: { apply like_bind; [|intros _; apply like_ret]. apply like_when. apply like_bind; [apply like_when, like_switch_region|].
       intros _. apply like_bind; [by apply like_modify|]. intros _. by apply like_modify. }
  3: { apply like_bind; [apply like_roll_edge|]. intros edge. apply like_bind; [apply like_open_next_file|]. intros _. apply like_ret. }
  all: apply like_bind; [apply like_step_over|intros _; apply like_ret].
Qed.

Lemma like_scan consume : alike (scan_to_user_record consume) (scan_to_user_record consume).
Proof.
  apply like_bind; [apply like_prune|]. intros _. apply like_bind; [apply (like_steady _ (fun S => ask scan_fuel)), steady_scan_fuel|].
  intros fuel. apply like_loop, like_scan_step.
Qed.

Lemma like_advance : alike advance_to_user_record advance_to_user_record.
Proof. apply like_bind; [apply like_scan|]. intros found. apply like_ret. Qed.

Lemma like_try_read : alike try_read try_read.
Proof.
  apply like_bind; [apply like_advance|]. intros [loc|]; [|apply like_ret]. apply like_self. intros r a. plain_fields.
  destruct (maps r !! _); [apply like_ret|apply like_die].
Qed.

Lemma like_try_read_owned : alike try_read_owned try_read_owned.
Proof.
  apply like_bind; [apply like_advance|]. intros [loc|]; [|apply like_ret]. apply like_self. intros r a. plain_fields.
  destruct (maps r !! _); [apply like_ret|apply like_die].
Qed.

Lemma like_peek : alike peek_header peek_header.
Proof. apply like_bind; [apply like_scan|]. intros found. apply like_ret. Qed.

Lemma like_poll : alike poll_for_user_message poll_for_user_message.
Proof.
  apply like_bind; [apply like_prune|]. intros _. apply like_bind; [apply (like_steady _ (fun S => ask scan_fuel)), steady_scan_fuel|].
  intros fuel. apply like_loop. apply like_self. intros r a. plain_fields. apply like_bind; [apply like_header_info|].
  intros [hdr|]; [|apply like_ret]. destruct (_ >? _); [apply like_throw|].
  cbv zeta. destruct (s_header_type hdr).
  2: apply like_ret.
  3: { apply like_bind; [apply like_roll_edge|]. intros edge. apply like_bind; [apply like_open_next_file|]. intros _. apply like_ret. }
  all: apply like_bind; [apply like_step_over|intros _; apply like_ret].
Qed.

End reads.

(** ** Waiting *)

Section waits.
Context `{Env}.

Lemma steady_attempt {A} (m : forall S, M S A) : steady m -> steady (fun S => attempt (m S)).
Proof.
  intros Hm S S' s s' w w' Hc Hc' Hsf. destruct (Hm S S' s s' w w' Hc Hc' Hsf) as (x & E & E').
  unfold attempt. rewrite E, E'. destruct x as [a|e|y]; eexists; split; reflexivity.
Qed.

Lemma like_ask {A} (f : world -> A) : alike (ask f) (ask f).
Proof.
  intros t r w v r1 w1 tr Hc Hp [= <- <- <- <-]. split; [done|]. split; [by constructor|].
  intros _. exists (t_shared t). split; [done|]. by destruct t.
Qed.

Lemma like_futex_wait l d : alike (futex_wait l d) (futex_wait l d).
Proof.
  unfold futex_wait. apply like_bind; [apply (like_steady _ (fun S => attempt syscall)), steady_attempt, steady_syscall|]. intros [u|e].
  - apply like_bind; [apply like_ask|]. intros [[]|]; try apply like_ret.
    apply like_bind; [apply like_ask|]. intros before.
    apply like_bind; [apply (like_steady _ (fun S => interfere)), steady_interfere|]. intros _.
    apply like_bind; [apply like_ask|]. intros after. destruct (Nat.ltb _ _); [apply like_ret|].
    apply like_bind; [apply like_pass|]. intros _. apply like_ret.
  - destruct (waited_of e) as [[]|]; try apply like_ret. apply like_bind; [apply like_pass|]. intros _. apply like_ret.
Qed.

Lemma like_wait m v d : alike (wait m v d) (wait m v d).
Proof.
  unfold wait. destruct (negb SUPPORTED); [apply like_ret|]. apply like_bind; [apply like_futex_wait|].
  intros [x|e]; [apply like_ret|apply like_throw].
Qed.

Lemma like_wake_word : alike wake_word_if_waking wake_word_if_waking.
Proof.
  apply like_self. intros r a. plain_fields. destruct (_ || _); [apply like_ret|]. apply like_bind; [apply like_view|]. intros f.
  destruct (_ =? 0); [apply like_ret|]. apply like_bind; [apply like_view|]. intros x. apply like_ret.
Qed.

Lemma like_distrust s v : alike (distrust_flag_if_unwoken s v) (distrust_flag_if_unwoken s v).
Proof.
  apply like_self. intros r a. plain_fields. destruct (negb _); [apply like_ret|]. apply like_bind; [apply like_view|]. intros x.
  destruct (negb _); [apply like_ret|]. by destruct (bool_decide _); apply like_modify.
Qed.

Lemma like_time_left d : alike (time_left d) (time_left d).
Proof. destruct d as [d|]; [|apply like_ret]. apply like_bind; [apply like_now|]. intros t. apply like_ret. Qed.

Lemma like_deadline d : alike (deadline_of d) (deadline_of d).
Proof.
  destruct d as [d|]; [|apply like_ret]. apply like_bind; [apply like_now|]. intros t. destruct (_ >=? _); [apply like_die|apply like_ret].
Qed.

Lemma like_sleep d : alike (sleep d) (sleep d).
Proof. apply like_bind; [apply (like_steady _ (fun S => interfere)), steady_interfere|]. intros _. apply like_pass. Qed.

Lemma like_wait_step d b : alike (wait_step d b) (wait_step d b).
Proof.
  apply like_self. intros r a. plain_fields. cbv zeta. apply like_bind; [apply like_wake_word|]. intros seen.
  apply like_bind; [apply like_poll|]. intros [|]; [apply like_ret|]. apply like_bind; [apply like_time_left|].
  intros [remaining|]; [|apply like_ret]. destruct seen as [v|].
  2: { apply like_bind; [apply like_sleep|]. intros _. apply like_ret. }
  apply like_self. intros r' a'. plain_fields. destruct (negb _); [apply like_ret|]. apply like_bind; [apply like_wait|]. intros [| |].
  - apply like_ret.
  - destruct (_ =? _); [|apply like_ret]. apply like_bind; [apply like_poll|]. intros [|]; [|apply like_ret].
    apply like_bind; [apply like_distrust|]. intros _. apply like_ret.
  - apply like_bind; [by apply like_modify|]. intros _. apply like_ret.
Qed.

Lemma like_wait_for_message fuel d : alike (wait_for_message fuel d) (wait_for_message fuel d).
Proof.
  apply like_bind; [apply like_deadline|]. intros deadline. apply like_loop_with; [by left|]. intros b.
  eapply like_weaken; [apply like_wait_step|done].
Qed.

Lemma like_read_blocking fuel d : alike (read_blocking fuel d) (read_blocking fuel d).
Proof.
  apply like_bind; [apply like_wait_for_message|]. intros [|]; [|apply like_ret]. apply like_bind; [apply like_try_read|].
  intros [m|]; [apply like_ret|apply like_die].
Qed.

End waits.
