(* ===== verification/AheadRuns.v ===== *)
(** * Runs of a reader with a helper (src/map_ahead.rs, src/lib.rs)

    Calls of the reader, turns of its helper and changes others make, in any order. *)

From Stdlib Require Import String.
From S2P Require Import Prelude Bytes Effects Region Channel V4 Names Segment Helper MapAhead Reader Wake Chain RegionFacts SegmentFacts ReaderFacts Route RouteFacts OpenFacts LocateFacts Joining WakeFacts AheadFacts AheadReads.

#[local] Open Scope string_scope.
#[local] Open Scope list_scope.
#[local] Open Scope Z_scope.

Section runs.
Context `{Env}.

(** ** Steps that only read *)

(** A step whose end depends on the files only, and which leaves the world alone. *)
Definition settled {S A} (m : M S A) : Prop :=
  forall s w w', calm w -> calm w' -> same_files w w' ->
    exists x s1, m s w = Outcome x s1 w [] /\ m s w' = Outcome x s1 w' [].

Lemma settled_pure {S A} (m : M S A) (f : S -> res A * S) :
  (forall s w, m s w = Outcome (f s).1 (f s).2 w []) -> settled m.
Proof. intros Hm s w w' _ _ _. exists (f s).1, (f s).2. by rewrite !Hm. Qed.

Lemma settled_steady {S A} (m : forall S, M S A) : steady m -> settled (m S).
Proof.
  intros Hm s w w' Hc Hc' Hsf. destruct (Hm S S s s w w' Hc Hc' Hsf) as (x & E & E'). by exists x, s.
Qed.

Lemma settled_bind {S A B} (m : M S A) (k : A -> M S B) : settled m -> (forall a, settled (k a)) -> settled (bind m k).
Proof.
  intros Hm Hk s w w' Hc Hc' Hsf. destruct (Hm s w w' Hc Hc' Hsf) as (x & s1 & E & E').
  destruct x as [a|e|y].
  - rewrite (bind_outcome _ _ _ _ _ _ _ E), (bind_outcome _ _ _ _ _ _ _ E'). by apply Hk.
  - exists (Err e), s1. unfold bind. by rewrite E, E'.
  - exists (Die y), s1. unfold bind. by rewrite E, E'.
Qed.

Lemma settled_ret {S A} (a : A) : settled (ret (S := S) a).
Proof. by apply (settled_pure _ (fun s => (Ok a, s))). Qed.
Lemma settled_lift {S A} (x : res A) : settled (lift (S := S) x).
Proof. by apply (settled_pure _ (fun s => (x, s))). Qed.
Lemma settled_throw {S A} e : settled (throw (S := S) (A := A) e).
Proof. by apply settled_lift. Qed.
Lemma settled_die {S A} y : settled (die (S := S) (A := A) y).
Proof. by apply settled_lift. Qed.
Lemma settled_modify {S} (f : S -> S) : settled (modify f).
Proof. by apply (settled_pure _ (fun s => (Ok tt, f s))). Qed.

Lemma settled_self {S A} (k : S -> M S A) : (forall s, settled (k s)) -> settled (bind self k).
Proof. intros Hk. apply settled_bind; [by apply (settled_pure _ (fun s => (Ok s, s)))|done]. Qed.

Lemma settled_attempt {S A} (m : M S A) : settled m -> settled (attempt m).
Proof.
  intros Hm s w w' Hc Hc' Hsf. destruct (Hm s w w' Hc Hc' Hsf) as (x & s1 & E & E').
  unfold attempt. rewrite E, E'. destruct x; eexists _, _; split; reflexivity.
Qed.

Lemma settled_when {S} (b : bool) (m : M S unit) : settled m -> settled (when b m).
Proof. intros Hm. destruct b; [done|apply settled_ret]. Qed.

Lemma settled_loop {S A} n (b : M S (option A)) : settled b -> settled (loop n b).
Proof.
  intros Hb. induction n as [|n IH]; [apply (settled_die OutOfFuel)|]. cbn [loop]. apply settled_bind; [exact Hb|].
  intros [x|]; [apply settled_ret|exact IH].
Qed.

Lemma settled_loop_with {S V A} n (b : V -> M S (V + A)) v : (forall v, settled (b v)) -> settled (loop_with n b v).
Proof.
  intros Hb. revert v. induction n as [|n IH]; intros v; [apply (settled_die OutOfFuel)|]. cbn [loop_with].
  apply settled_bind; [apply Hb|]. intros [x|x]; [apply IH|apply settled_ret].
Qed.

Lemma settled_for_each {S X} (l : list X) (f : X -> M S unit) : (forall x, settled (f x)) -> settled (for_each l f).
Proof.
  intros Hf. induction l as [|x l IH]; [apply settled_ret|]. cbn [for_each]. apply settled_bind; [apply Hf|]. intros _. exact IH.
Qed.

Lemma settled_on_ahead {A} (m : M Ahead A) : settled m -> settled (on_ahead m).
Proof.
  intros Hm r w w' Hc Hc' Hsf. unfold on_ahead. destruct (r_map_ahead r) as [a|]; [|by eexists _, _].
  destruct (Hm a w w' Hc Hc' Hsf) as (x & s1 & E & E'). rewrite E, E'. by eexists _, _.
Qed.

Create HintDb settled discriminated.
#[local] Hint Constants Opaque : settled.
#[local] Hint Resolve settled_ret settled_lift settled_throw settled_die settled_modify : settled.

Lemma settled_view {S A} m off n (f : bytes -> Z -> A) : settled (view (S := S) m off n f).
Proof. apply (settled_steady (fun S => view m off n f)), steady_view. Qed.
Lemma settled_is_committed {S} m off : settled (is_committed (S := S) m off).
Proof. apply (settled_steady (fun S => is_committed m off)), steady_is_committed. Qed.
Lemma settled_parsed_header_type {S} m off : settled (parsed_header_type (S := S) m off).
Proof. apply (settled_steady (fun S => parsed_header_type m off)), steady_parsed_header_type. Qed.
Lemma settled_validate {S} m : settled (validate_v4_prefix (S := S) m).
Proof. apply (settled_steady (fun S => validate_v4_prefix m)), steady_validate. Qed.
Lemma settled_is_published {S} m : settled (is_published (S := S) m).
Proof. apply (settled_steady (fun S => is_published m)), steady_is_published. Qed.
Lemma settled_create_read_only {S} f off rs : settled (create_read_only (S := S) f off rs).
Proof. apply (settled_steady (fun S => create_read_only f off rs)), steady_create_read_only. Qed.
Lemma settled_channel_path {S} b n : settled (make_channel_file_path (S := S) b n).
Proof. apply (settled_steady (fun S => make_channel_file_path b n)), steady_channel_path. Qed.
Lemma settled_open {S} f : settled (open (S := S) f).
Proof. apply (settled_steady (fun S => open f)), steady_open. Qed.
Lemma settled_div_guard {S} y : settled (div_guard (S := S) y).
Proof. apply (settled_steady (fun S => div_guard y)), steady_div_guard. Qed.
Lemma settled_syscall {S} : settled (syscall (S := S)).
Proof. apply (settled_steady (fun S => syscall)), steady_syscall. Qed.
Lemma settled_fuel {S} : settled (ask (S := S) scan_fuel).
Proof. apply (settled_steady (fun S => ask scan_fuel)), steady_scan_fuel. Qed.
#[local] Hint Resolve settled_view settled_is_committed settled_parsed_header_type settled_validate settled_is_published
  settled_create_read_only settled_channel_path settled_open settled_div_guard settled_syscall settled_fuel : settled.

(** Take an operation apart to steps that are known. *)
Ltac settle :=
  cbv zeta;
  lazymatch goal with
  | |- settled (bind self _) => apply settled_self; intros ?; settle
  | |- settled (bind _ _) => apply settled_bind; [settle|intros ?; settle]
  | |- settled (when _ _) => apply settled_when; settle
  | |- settled (attempt _) => apply settled_attempt; settle
  | |- settled (on_ahead _) => apply settled_on_ahead; settle
  | |- settled (match ?x with _ => _ end) => destruct x; settle
  | |- _ => solve [auto with nocore settled]
  end.

Lemma settled_retire_queue ls : settled (ahead_retire ls).
Proof. unfold ahead_retire. settle. Qed.
Lemma settled_rolled_queue s f : settled (ahead_rolled s f).
Proof. unfold ahead_rolled, ahead_moved. settle. Qed.
#[local] Hint Resolve settled_retire_queue settled_rolled_queue : settled.
Lemma settled_retire m : settled (Reader_retire m).
Proof. unfold Reader_retire. settle. Qed.
Lemma settled_retire_all_but_last : settled retire_all_but_last.
Proof.
  apply settled_self. intros r. destruct (current_map r); [|settle]. apply settled_bind; [settle|]. intros _. apply settled_for_each, settled_retire.
Qed.
#[local] Hint Resolve settled_retire settled_retire_all_but_last : settled.
Lemma settled_prune : settled prune_to_current.
Proof. unfold prune_to_current. settle. Qed.
Lemma settled_map_region f s i : settled (map_region f s i).
Proof. unfold map_region, ahead_take, ahead_moved. settle. Qed.
#[local] Hint Resolve settled_prune settled_map_region : settled.
Lemma settled_switch_region i : settled (Reader_switch_region i).
Proof. unfold Reader_switch_region, push_map. settle. Qed.
#[local] Hint Resolve settled_switch_region : settled.
Lemma settled_header_info off : settled (current_message_header_info off).
Proof. unfold current_message_header_info, load_length, load_u16, load_u32, load_u64. settle. Qed.
Lemma settled_roll_edge i off n : settled (roll_edge i off n).
Proof. unfold roll_edge, load. settle. Qed.
Lemma settled_open_successor h s i e : settled (open_successor h s i e).
Proof. unfold open_successor, successor_file, ahead_take_segment, load_base_record_index, load_message_count, load_channel_header, load_u64. settle. Qed.
#[local] Hint Resolve settled_header_info settled_roll_edge settled_open_successor : settled.
Lemma settled_open_next_file e : settled (open_next_file e).
Proof. unfold open_next_file, push_map, Reader_rolled. settle. Qed.
#[local] Hint Resolve settled_open_next_file : settled.
Lemma settled_step_over n : settled (step_over n).
Proof. unfold step_over. settle. Qed.
#[local] Hint Resolve settled_step_over : settled.
Lemma settled_scan_step c : settled (scan_step c).
Proof. unfold scan_step. settle. Qed.
Lemma settled_scan c : settled (scan_to_user_record c).
Proof. unfold scan_to_user_record. do 2 (apply settled_bind; [settle|intros ?]). apply settled_loop, settled_scan_step. Qed.
#[local] Hint Resolve settled_scan : settled.
Lemma settled_try_read : settled try_read.
Proof. unfold try_read, advance_to_user_record. settle. Qed.
Lemma settled_try_read_owned : settled try_read_owned.
Proof. unfold try_read_owned, advance_to_user_record. settle. Qed.
Lemma settled_peek : settled peek_header.
Proof. unfold peek_header. settle. Qed.
Lemma settled_poll : settled poll_for_user_message.
Proof.
  unfold poll_for_user_message. do 2 (apply settled_bind; [settle|intros ?]). apply settled_loop. unfold poll_step. settle.
Qed.
#[local] Hint Resolve settled_try_read settled_try_read_owned settled_peek settled_poll : settled.
Lemma settled_owned_batch max : settled (owned_batch max).
Proof.
  unfold owned_batch, read_owned_into. cbv zeta. apply settled_bind; [|intros ?; settle].
  destruct (_ =? 0); [settle|]. apply settled_bind; [settle|]. intros n. apply settled_loop_with.
  intros v. unfold read_owned_step. settle.
Qed.
#[local] Hint Resolve settled_owned_batch : settled.

(** Reading several stops at the first error, and where the reader alone ended without one, so does
    the reader with its helper. *)
Lemma like_read_owned_into out max :
  like (fun x => exists n, x.2 = inl n) (read_owned_into out max) (read_owned_into out max).
Proof.
  unfold read_owned_into. cbv zeta. destruct (_ =? 0); [apply like_ret|].
  apply like_bind; [apply (like_steady _ (fun S => ask scan_fuel)), steady_scan_fuel|]. intros fuel.
  apply like_loop_with; [intros [? [n|e]]; [left; by exists n|right; by intros [? ?]]|]. intros [out' n].
  unfold read_owned_step. destruct (negb _); [apply like_ret|].
  eapply like_bind_if.
  - apply like_attempt; [apply like_try_read_owned|]. intros r w e r1 w1 tr Hc E.
    destruct (settled_try_read_owned r w w Hc Hc ltac:(by constructor)) as (x & s1 & E' & _). rewrite E in E'.
    injection E' as _ _ -> _. by split; [|constructor].
  - intros [[m|]|e]; [left; split; [done|apply like_ret]..|right].
    intros r w v r1 w1 tr Hc [= <- <- <- <-]. split_and!; [done|by constructor|]. by intros [? ?].
Qed.

Lemma like_owned_batch max : alike (owned_batch max) (owned_batch max).
Proof.
  unfold owned_batch. eapply like_bind_if; [apply like_read_owned_into|]. intros [out [n|e]].
  - left. split; [by exists n|apply like_ret].
  - right. done.
Qed.


(** ** The helper's turn *)

(** What [open_next] gives is what the name stands for now. *)
Lemma steady_ok {A} (m : forall S, M S A) : steady m -> steady (fun S => ok (m S)).
Proof.
  intros Hm. unfold ok. apply (steady_bind (fun S => attempt (m S))); [by apply steady_attempt|]. intros a. apply steady_ret.
Qed.

Lemma steady_metadata_len f : steady (fun S => metadata_len (S := S) f).
Proof.
  unfold metadata_len. apply (steady_bind (fun S => syscall)); [apply steady_syscall|]. intros _.
  apply steady_ask. intros w w' Hsf. exact (proj2 (same_inode w w' f Hsf)).
Qed.

Lemma steady_open_next base size sequence : steady (fun S => open_next (S := S) base size sequence).
Proof.
  unfold open_next, load_channel_header. apply (steady_ok (fun S => bind (make_channel_file_path base sequence) _)).
  apply (steady_bind (fun S => make_channel_file_path base sequence)); [apply steady_channel_path|]. intros path.
  apply (steady_bind (fun S => open path)); [apply steady_open|]. intros file.
  apply (steady_bind (fun S => metadata_len file)); [apply steady_metadata_len|]. intros len. steady.
Qed.

Lemma ok_run {S A} (m : M S A) s w v s1 w1 tr :
  ok m s w = Outcome (Ok (Some v)) s1 w1 tr -> m s w = Outcome (Ok v) s1 w1 tr.
Proof.
  unfold ok, bind, attempt. destruct (m s w) as [[a|e|y] s' w' tr']; cbn; [|done..]. rewrite app_nil_r. by intros [= -> -> -> ->].
Qed.

Lemma open_next_opens r sequence n w :
  calm w -> (forall S (s : S), open_next (r_base_path r) (region_size_cached r) sequence s w = Outcome (Ok (Some n)) s w []) ->
  as_sequence n = sequence /\ opened_ok r w n.
Proof.
  intros Hc Hn. specialize (Hn unit tt). apply ok_run in Hn.
  destruct (named_file _ _ _ _ _ _ _ _ _ Hc Hn) as (file & Hfile & H2).
  destruct (steady_step (fun S => metadata_len _) _ tt w _ _ _ _ (steady_metadata_len _) Hc H2) as (len & _ & H3).
  destruct (len <? _); [done|].
  destruct (bind_Ok _ _ _ _ _ _ _ _ H3) as (region0 & s1 & w1 & t1 & t2 & E1 & H4 & _).
  destruct (create_read_only_Ok _ _ _ _ _ _ _ _ _ Hc E1) as (-> & -> & -> & ->).
  destruct (steady_step (fun S => parsed_header_type _ _) _ tt w _ _ _ _ (steady_parsed_header_type _ _) Hc H4) as (ty & _ & H5).
  destruct (bool_decide (ty <> Channel)); [done|].
  destruct (steady_step (fun S => load_channel_header _) _ tt w _ _ _ _ (steady_view _ _ _ _) Hc H5) as (ch & _ & H6).
  destruct (steady_step (fun S => lift _) _ tt w _ _ _ _ (steady_lift _) Hc H6) as (u & _ & H7).
  destruct (steady_step (fun S => validate_v4_prefix _) _ tt w _ _ _ _ (steady_validate _) Hc H7) as (i & Ei & H8).
  destruct (steady_step (fun S => syscall) _ tt w _ _ _ _ steady_syscall Hc H8) as (u' & _ & H9).
  destruct (bind_Ok _ _ _ _ _ _ _ _ H9) as (header & s2 & w2 & t3 & t4 & E2 & H10 & _).
  destruct (create_read_only_Ok _ _ _ _ _ _ _ _ _ Hc E2) as (-> & -> & -> & ->).
  destruct (steady_step (fun S => syscall) _ tt w _ _ _ _ steady_syscall Hc H10) as (u'' & _ & H11).
  injection H11 as <- _. split; [done|]. constructor; [done..| |].
  - exact (Ei unit tt).
  - intros f j Hd Hf _. cbn in Hd, Hf. congruence.
Qed.

(** Whatever [m] ends with, the world is calm, its files are the same and the promise is kept. *)
Definition keeps {A} (r : Reader) (o : outcome AheadThread A) (w : world) : Prop :=
  calm (o_world o) /\ same_files w (o_world o) /\ promised (o_self o) r (o_world o).

Section turn.
Variables (t : AheadThread) (r : Reader) (w : world).
Hypotheses (Hc : calm w) (Hp : promised t r w).

Lemma follow_run : exists t', follow_reader t w = Outcome (Ok tt) t' w [] /\ promised t' r w /\ a_rolled (t_shared t') = None.
Proof.
  unfold follow_reader. rewrite (bind_outcome _ _ _ _ _ _ _ (runs_self _ w)).
  destruct (a_rolled (t_shared t)) as [[seq file]|] eqn:E; [|by exists t].
  destruct Hp as [K1 K2 K3 K4 K5 K6 K7 K8 K9]. destruct t as [a seg up d lk].
  cbn [t_shared t_segment t_upcoming] in *. rewrite E in K8.
  destruct (K8 seq file eq_refl) as [Hle Hf]. eexists. split; [reflexivity|]. destruct file as [f|]; split; [|done| |done].
  - constructor; cbn; try done. intros s f' [= <- <-]. by split.
  - constructor; cbn; try done. intros s f. destruct up as [[s' f']|]; [|done].
    destruct (Z.eqb_spec s' seq) as [->|]; [|done]. intros [= <- <-]. split; [done|]. intros _ Hs. by apply (Hf Hs f').
Qed.

Lemma map_wanted_keeps idx len : keeps r (map_wanted (r_file r) (r_file_sequence r) idx len t w) w.
Proof.
  unfold map_wanted. rewrite (bind_outcome _ _ _ _ _ _ _ (runs_self _ w)). cbv zeta.
  destruct (_ && _); [|by split_and!].
  destruct (steady_create_read_only (r_file r) (u64 (idx * a_region_size (t_shared t))) (a_region_size (t_shared t))
    AheadThread AheadThread t t w w Hc Hc ltac:(by constructor)) as (x & E & _).
  destruct x as [m|e|y]; [|unfold bind; rewrite E; by split_and!|unfold bind; rewrite E; by split_and!].
  rewrite (bind_outcome _ _ _ _ _ _ _ E). destruct (create_read_only_Ok _ _ _ _ _ _ _ _ _ Hc E) as (-> & _ & _ & _).
  rewrite (bind_outcome _ _ _ _ _ _ _ (reads_syscall t w Hc)).
  destruct Hp as [K1 K2 K3 K4 K5 K6 K7 K8 K9]. destruct t as [a seg up d lk]. cbn in *.
  split_and!; [done|by constructor|]. constructor; cbn; try done.
  intros y [= <-]. cbn. split; [lia|]. intros _. by rewrite K2.
Qed.

Lemma look_for_next_keeps idx len : keeps r (look_for_next (r_file_sequence r) idx len t w) w.
Proof.
  unfold look_for_next. rewrite (bind_outcome _ _ _ _ _ _ _ (runs_self _ w)). cbv zeta.
  assert (Ht : exists time w1, (if len <? u64 ((idx + 1) * a_region_size (t_shared t)) then now else ret (t_looked_for_next t)) t w
      = Outcome (Ok time) t w1 [] /\ calm w1 /\ same_files w w1).
  { destruct (_ <? _); [|by exists (t_looked_for_next t), w]. exists (w_clock (ticked w)), (ticked w).
    split; [apply now_run|]. split; [by apply ticked_calm|apply ticked_same_files]. }
  destruct Ht as (time & w1 & E1 & Hc1 & Hsf1). rewrite (bind_outcome _ _ _ _ _ _ _ E1).
  pose proof (promised_same _ _ _ _ Hc Hc1 Hsf1 Hp) as Hp1.
  destruct (_ && _); [|by split_and!].
  rewrite (bind_outcome _ _ _ _ _ _ _ (now_run _ w1)).
  pose proof (ticked_calm _ Hc1) as Hc2. pose proof (transitivity Hsf1 (ticked_same_files w1)) as Hsf2.
  pose proof (promised_same _ _ _ _ Hc1 Hc2 (ticked_same_files w1) Hp1) as Hp2. set (w2 := ticked w1) in *. clearbody w2.
  destruct (steady_open_next (a_base_path (t_shared t)) (a_region_size (t_shared t)) (r_file_sequence r + 1)
    AheadThread AheadThread t t w2 w2 Hc2 Hc2 ltac:(by constructor)) as (x & E2 & _).
  destruct x as [next|e|y]; [|unfold bind at 1; rewrite E2; by split_and!|unfold bind at 1; rewrite E2; by split_and!].
  rewrite (bind_outcome _ _ _ _ _ _ _ E2).
  assert (E3 : (match next with Some n => ok (syscall ;; ret (as_file n)) | None => ret None end) t w2
      = Outcome (Ok (as_file <$> next)) t w2 []).
  { destruct next as [n|]; [|done]. unfold ok. rewrite (bind_outcome _ _ _ _ (inl (as_file n)) t w2); [done|].
    apply (reads_attempt_ok (syscall ;; ret (as_file n))). eapply reads_seq; [by apply reads_syscall|]. done. }
  rewrite (bind_outcome _ _ _ _ _ _ _ E3). clear E3.
  destruct Hp2 as [K1 K2 K3 K4 K5 K6 K7 K8 K9]. destruct t as [a seg up d lk]. cbn in *.
  split; [exact Hc2|]. split; [exact Hsf2|]. destruct next as [n|]; [|by constructor].
  assert (Hn : as_sequence n = r_file_sequence r + 1 /\ opened_ok r w2 n).
  { apply open_next_opens; [done|]. intros S s. rewrite <- K2, <- K3.
    destruct (steady_open_next (a_base_path a) (a_region_size a) (r_file_sequence r + 1)
      AheadThread S (MkThread a seg up d lk) s w2 w2 Hc2 Hc2 ltac:(by constructor)) as (x & X1 & X2).
    rewrite E2 in X1. injection X1 as <-. exact X2. }
  destruct Hn as [Hs Hn]. constructor; cbn; try done.
  - intros n' [= <-]. exact Hn.
  - intros n' f [= <-] [= <-]. done.
  - intros s file Hr. destruct (K8 s file Hr) as [Hle Hf]. split; [done|]. intros ->. specialize (Hf eq_refl).
    destruct file as [f|]; [done|]. intros f [= Hs' _]. lia.
Qed.
End turn.

Lemma keeps_bind {A B} r (m : M AheadThread A) (k : A -> M AheadThread B) t w :
  keeps r (m t w) w -> (forall a t1 w1, calm w1 -> promised t1 r w1 -> keeps r (k a t1 w1) w1) -> keeps r (bind m k t w) w.
Proof.
  intros (Hc1 & Hsf1 & Hp1) Hk. unfold bind. destruct (m t w) as [[a|e|y] t1 w1 tr]; cbn in *; [|by split_and!..].
  destruct (Hk a t1 w1 Hc1 Hp1) as (Hc2 & Hsf2 & Hp2). split; [exact Hc2|]. split; [exact (transitivity Hsf1 Hsf2)|exact Hp2].
Qed.

(** A turn of the helper, however it ends. *)
Lemma turn_keeps t r w : calm w -> promised t r w -> keeps r (ahead_turn t w) w.
Proof.
  intros Hc Hp. destruct (follow_run t r w Hp) as (t1 & E1 & Hp1 & Hr1). unfold ahead_turn.
  rewrite (bind_outcome _ _ _ _ _ _ _ E1), (bind_outcome _ _ _ _ _ _ _ (runs_self t1 w)). cbv zeta.
  apply keeps_bind.
  2: { intros _ t2 w2 Hc2 Hp2. split; [done|]. split; [done|]. apply (promised_at_rest t2 r w2); [done|]. constructor; auto. }
  destruct (t_segment t1) as [[seq file]|] eqn:Eseg; [|by split_and!].
  destruct (Z.eqb_spec seq (a_want_sequence (t_shared t1))) as [Eq|_]; [|by split_and!].
  destruct (pm_segment _ _ _ Hp1 _ _ Eseg) as [_ Hfile]. pose proof (pm_want _ _ _ Hp1) as Hw. rewrite Hw in Eq |- *.
  rewrite (Hfile Hr1 Eq).
  destruct (steady_metadata_len (r_file r) AheadThread AheadThread t1 t1 w w Hc Hc ltac:(by constructor)) as (x & E2 & _).
  destruct x as [len|e|y]; [|unfold bind at 1; rewrite E2; by split_and!|unfold bind at 1; rewrite E2; by split_and!].
  rewrite (bind_outcome _ _ _ _ _ _ _ E2).
  apply keeps_bind; [by apply map_wanted_keeps|]. intros _ t2 w2 Hc2 Hp2. by apply look_for_next_keeps.
Qed.

(** ** Starting the helper *)

Lemma steady_spawn h : steady (fun S => spawn (S := S) h).
Proof.
  unfold spawn, pin. apply (steady_bind (fun S => syscall)); [apply steady_syscall|]. intros _.
  destruct (h_core h); [|steady]. destruct (_ >=? _); [steady|].
  apply (steady_bind (fun S => attempt syscall)); [apply steady_attempt, steady_syscall|]. intros [?|?]; steady.
Qed.

Lemma start_promises r w r' w' tr helper time :
  calm w -> r_map_ahead r = None -> r_helper r = Some helper -> start_map_ahead r w = Outcome (Ok tt) r' w' tr ->
  exists a, r' = helped a r /\ w' = w /\ tr = [] /\ promised (first_thread time a) r w.
Proof.
  intros Hc Hr Hh E. unfold start_map_ahead in E. rewrite (bind_outcome _ _ _ _ _ _ _ (runs_self r w)), Hh in E. cbv zeta in E.
  destruct (bind_Ok _ _ _ _ _ _ _ _ E) as (a & r1 & w1 & t1 & t2 & E1 & E2 & ->). injection E2 as <- <- <-. clear E.
  unfold MapAhead_start in E1. cbv zeta in E1.
  destruct (steady_step (fun S => metadata_len _) _ r w _ _ _ _ (steady_metadata_len _) Hc E1) as (len & _ & E2).
  destruct (steady_step (fun S => div_guard _) _ r w _ _ _ _ (steady_div_guard _) Hc E2) as (u & _ & E3).
  assert (Hcl : steady (fun S => bind (S := S) syscall (fun _ => ret (r_file r)))).
  { apply (steady_bind (fun S => syscall)); [apply steady_syscall|]. intros _. apply steady_ret. }
  destruct (steady_step (fun S => bind (S := S) syscall (fun _ => ret (r_file r))) _ r w _ _ _ _ Hcl Hc E3) as (clone & Ecl & E4).
  assert (clone = r_file r) as ->.
  { specialize (Ecl unit tt). rewrite (bind_outcome _ _ _ _ _ _ _ (reads_syscall tt w Hc)) in Ecl. by injection Ecl. }
  destruct (steady_step (fun S => spawn _) _ r w _ _ _ _ (steady_spawn _) Hc E4) as (u' & _ & E5).
  injection E5 as <- <- <- <-. eexists. split; [reflexivity|]. split; [done|]. split; [done|].
  constructor; cbn; try done. intros s file [= <- <-]. done.
Qed.

(** ** Runs *)

Inductive Reading := TryRead | TryReadOwned | PeekHeader | Poll | OwnedBatch (max : option Z).

(** What a call gave the caller. *)
Inductive Answer :=
  | GotMessage (m : option MessageRef)
  | GotOwned (m : option OwnedMessage)
  | GotHeader (h : option PeekedHeader)
  | Ready (b : bool)
  | GotBatch (ms : list OwnedMessage).

Definition reading (c : Reading) : M Reader Answer :=
  match c with
  | TryRead => m <- try_read ;; ret (GotMessage m)
  | TryReadOwned => m <- try_read_owned ;; ret (GotOwned m)
  | PeekHeader => h <- peek_header ;; ret (GotHeader h)
  | Poll => b <- poll_for_user_message ;; ret (Ready b)
  | OwnedBatch max => ms <- owned_batch max ;; ret (GotBatch ms)
  end.

(** The helper takes a turn, others change the world, or the reader is called. *)
Inductive Turn := HelperTurns | Others (w : world) | Calls (c : Reading).

(** The answers a reader without a helper gives, up to the first call that fails, and whether one does. *)
Fixpoint alone (ts : list Turn) (r : Reader) (w : world) : list Answer * bool :=
  match ts with
  | [] => ([], false)
  | HelperTurns :: ts => alone ts r w
  | Others w' :: ts => alone ts r w'
  | Calls c :: ts =>
      let o := reading c r w in
      match o_res o with
      | Ok v => let vs := alone ts (o_self o) (o_world o) in (v :: vs.1, vs.2)
      | _ => ([], true)
      end
  end.

(** Those of the reader with a helper: [t] is the thread, and the state they share. *)
Fixpoint beside (ts : list Turn) (t : AheadThread) (r : Reader) (w : world) : list Answer * bool :=
  match ts with
  | [] => ([], false)
  | HelperTurns :: ts => let o := ahead_turn t w in beside ts (o_self o) r (o_world o)
  | Others w' :: ts => beside ts t r w'
  | Calls c :: ts =>
      let o := reading c (helped (t_shared t) r) w in
      match o_res o, r_map_ahead (o_self o) with
      | Ok v, Some a =>
          let vs := beside ts (with_shared a t) (set_map_ahead None (o_self o)) (o_world o) in (v :: vs.1, vs.2)
      | _, _ => ([], true)
      end
  end.

(** The second reader answers as the first one does for as long as that one answers. *)
Definition agrees (vs vs' : list Answer * bool) : Prop :=
  if vs.2 then exists more, vs'.1 = vs.1 ++ more else vs' = vs.

Lemma agrees_cons v vs vs' : agrees vs vs' -> agrees (v :: vs.1, vs.2) (v :: vs'.1, vs'.2).
Proof.
  unfold agrees. cbn. destruct (vs.2) eqn:E; [|intros ->; by rewrite E]. intros [more ->]. by exists more.
Qed.

(** A change others make: what a file's header says of its identity stays, and a file that takes a
    name, or becomes a segment under it, is of an instance no other file is of. *)
Record keeps_identities (w w' : world) : Prop := {
  ki_same f rs i :
    reads (validate_v4_prefix (Mapping f 0 rs)) tt w (Ok i) -> reads (validate_v4_prefix (Mapping f 0 rs)) tt w' (Ok i);
  ki_named name f rs i :
    w_dir w' !! name = Some (DFile f) -> reads (validate_v4_prefix (Mapping f 0 rs)) tt w' (Ok i) ->
    w_dir w !! name = Some (DFile f) /\ reads (validate_v4_prefix (Mapping f 0 rs)) tt w (Ok i) \/
    forall g j, g <> f -> reads (validate_v4_prefix (Mapping g 0 rs)) tt w' (Ok j) -> instance j <> instance i
}.

Fixpoint others_ok (w : world) (ts : list Turn) : Prop :=
  match ts with
  | [] => True
  | Others w' :: ts => calm w' /\ keeps_identities w w' /\ others_ok w' ts
  | _ :: ts => others_ok w ts
  end.

Lemma promised_others t r w w' : promised t r w -> keeps_identities w w' -> promised t r w'.
Proof.
  intros [K1 K2 K3 K4 K5 K6 K7 K8 K9] [Hs Hn]. constructor; try done. intros n E. destruct (K6 n E) as [O1 O2 O3 O4].
  constructor; [done..|by apply Hs|]. intros f i Hd Hf Hi. destruct (Hn _ _ _ _ Hd Hi) as [[Hd' Hi']|Hother].
  - by apply (O4 f i).
  - intros E'. exact (Hother (as_file n) (as_identity n) (not_eq_sym Hf) (Hs _ _ _ O3) (eq_sym E')).
Qed.

(** ** Identities in the bytes *)

#[local] Transparent view.
Lemma view_kept {A S} m off n (f : bytes -> Z -> A) (s : S) w w' :
  calm w -> calm w' -> len_of w' (rm_ino m) = len_of w (rm_ino m) ->
  f (data_of w' (rm_ino m)) (region_offset m + off) = f (data_of w (rm_ino m)) (region_offset m + off) ->
  exists x, view m off n f s w = Outcome x s w [] /\ view m off n f s w' = Outcome x s w' [] /\
    match x with Ok a => a = f (data_of w (rm_ino m)) (region_offset m + off) | _ => True end.
Proof.
  intros [Hq _] [Hq' _] Hl Hf. unfold view.
  rewrite (bind_outcome _ _ _ _ _ _ _ (reads_interfere s w Hq)), (bind_outcome _ _ _ _ _ _ _ (reads_interfere s w' Hq')).
  rewrite !(bind_outcome _ _ _ _ _ _ _ (reads_ask _ _ _)). unfold accessible. rewrite Hl.
  destruct (negb (in_mapping m off n)); [by exists (Die (Panicked "access outside the mapping"))|].
  destruct (_ <=? _); [|by exists (Die SigBus)].
  exists (Ok (f (data_of w (rm_ino m)) (region_offset m + off))). split; [done|]. split; [|done].
  unfold ask. by rewrite Hf.
Qed.
#[local] Opaque view.

(** A file that validates has the length and the extension of a v4 segment, and so it does wherever
    these bytes and the file's length are the same. *)
Lemma validate_bytes f rs w i :
  calm w -> reads (validate_v4_prefix (Mapping f 0 rs)) tt w (Ok i) ->
  get 4 (data_of w f) 4 = CHANNEL_PAYLOAD_V4 /\ ext_identity (ext_at (data_of w f) EXT_FILE_OFFSET) = Ok i.
Proof.
  intros Hc E. unfold reads, validate_v4_prefix, load_length, load_u32 in E.
  destruct (view_kept (Mapping f 0 rs) (0 + 4) 4 (get 4) tt w w Hc Hc eq_refl eq_refl) as (x & E1 & _ & Hx).
  destruct x as [l|e|y]; [|unfold bind in E; by rewrite E1 in E..].
  rewrite (bind_outcome _ _ _ _ _ _ _ E1) in E. cbn [rm_ino region_offset] in Hx. subst l.
  destruct (Z.eqb_spec (get 4 (data_of w f) (0 + (0 + 4))) CHANNEL_PAYLOAD_V4) as [El|]; cbn [negb] in E; [|done].
  split; [exact El|]. unfold load_ext in E.
  destruct (view_kept (Mapping f 0 rs) EXT_FILE_OFFSET 64 ext_at tt w w Hc Hc eq_refl eq_refl) as (x & E2 & _ & Hx).
  destruct x as [e|e|y]; [|unfold bind in E; by rewrite E2 in E..].
  rewrite (bind_outcome _ _ _ _ _ _ _ E2) in E. cbn [rm_ino region_offset] in Hx. subst e. by injection E.
Qed.

Lemma validate_kept f rs w w' i :
  calm w -> calm w' -> len_of w' f = len_of w f -> get 4 (data_of w' f) 4 = get 4 (data_of w f) 4 ->
  ext_at (data_of w' f) EXT_FILE_OFFSET = ext_at (data_of w f) EXT_FILE_OFFSET ->
  reads (validate_v4_prefix (Mapping f 0 rs)) tt w (Ok i) -> reads (validate_v4_prefix (Mapping f 0 rs)) tt w' (Ok i).
Proof.
  intros Hc Hc' Hl H4 He E. unfold reads, validate_v4_prefix, load_length, load_u32, load_ext in *.
  destruct (view_kept (Mapping f 0 rs) (0 + 4) 4 (get 4) tt w w' Hc Hc' Hl H4) as (x & E1 & E1' & _).
  destruct x as [l|e|y]; [|unfold bind in E; by rewrite E1 in E..].
  rewrite (bind_outcome _ _ _ _ _ _ _ E1) in E. rewrite (bind_outcome _ _ _ _ _ _ _ E1').
  destruct (negb _); [done|].
  destruct (view_kept (Mapping f 0 rs) EXT_FILE_OFFSET 64 ext_at tt w w' Hc Hc' Hl He) as (x & E2 & E2' & _).
  destruct x as [e|e|y]; [|unfold bind in E; by rewrite E2 in E..].
  rewrite (bind_outcome _ _ _ _ _ _ _ E2) in E. rewrite (bind_outcome _ _ _ _ _ _ _ E2').
  unfold lift in *. by injection E as ->.
Qed.

(** Identities are kept between worlds that agree up to the clock. *)
Lemma reads_same_files {A} (m : forall S, M S A) w w' v :
  steady m -> calm w -> calm w' -> same_files w w' -> reads (m unit) tt w (Ok v) -> reads (m unit) tt w' (Ok v).
Proof.
  intros Hm Hc Hc' Hsf E. destruct (Hm unit unit tt tt w w' Hc Hc' Hsf) as (x & E1 & E2).
  unfold reads in *. rewrite E in E1. by injection E1 as <-.
Qed.

Lemma keeps_identities_same w0 w w' :
  calm w0 -> calm w -> same_files w0 w -> keeps_identities w0 w' -> keeps_identities w w'.
Proof.
  intros Hc0 Hc Hsf [Hs Hn]. constructor.
  - intros f rs i Hi. apply Hs. eapply (reads_same_files (fun S => validate_v4_prefix _)), Hi; [apply steady_validate|done|done|].
    by symmetry.
  - intros name f rs i Hd Hi. destruct (Hn name f rs i Hd Hi) as [[Hd' Hi']|?]; [left|by right]. split.
    + by rewrite (sf_dir _ _ Hsf).
    + eapply (reads_same_files (fun S => validate_v4_prefix _)), Hi'; [apply steady_validate|done..].
Qed.

Lemma settled_reading c : settled (reading c).
Proof. destruct c; cbn [reading]; settle. Qed.

Lemma like_reading c : alike (reading c) (reading c).
Proof.
  destruct c; cbn [reading]; (apply like_bind; [|intros x; apply like_ret]).
  - apply like_try_read.
  - apply like_try_read_owned.
  - apply like_peek.
  - apply like_poll.
  - apply like_owned_batch.
Qed.

Lemma set_no_ahead r : r_map_ahead r = None -> set_map_ahead None r = r.
Proof. destruct r. cbn. by intros ->. Qed.

(** The reader alone in [w0], with its helper in a world that differs in the clock at most. *)
Lemma beside_alone ts t r w0 w :
  calm w0 -> calm w -> same_files w0 w -> promised t r w -> others_ok w0 ts ->
  agrees (alone ts r w0) (beside ts t r w).
Proof.
  revert t r w0 w. induction ts as [|[|w'|c] ts IH]; intros t r w0 w Hc0 Hc Hsf Hp Ho; [done| | |].
  - destruct (turn_keeps t r w Hc Hp) as (Hc1 & Hsf1 & Hp1). cbn [alone beside].
    apply IH; [done..|exact (transitivity Hsf Hsf1)|done|done].
  - destruct Ho as (Hc' & Hk & Ho). cbn [alone beside]. apply IH; try done.
    apply (promised_others t r w); [done|]. exact (keeps_identities_same w0 w w' Hc0 Hc Hsf Hk).
  - cbn [alone beside others_ok] in *. destruct (settled_reading c r w0 w Hc0 Hc Hsf) as (x & r1 & E1 & E2).
    rewrite E1. cbn. destruct x as [v|e|y]; [|by eexists..].
    destruct (like_reading c t r w v r1 w [] Hc Hp E2) as (_ & _ & Hl). destruct (Hl I) as (a & Ea & Hp1).
    rewrite Ea. cbn. change (set_map_ahead None (helped a r1)) with (set_map_ahead None r1).
    rewrite (set_no_ahead r1 (pm_plain _ _ _ Hp1)). by apply agrees_cons, IH.
Qed.

End runs.
