(* ===== verification/AheadTheorems.v ===== *)
(** * What a reader's helper guarantees

    A reader with a helper reads and waits as one without does, because what its helper prepares is
    what the reader would have made itself. *)

From Stdlib Require Import String.
From S2P Require Import Prelude Bytes Effects Region Channel V4 V4Facts Names Segment Helper MapAhead Prefault Writer Reader Wake Chain RegionFacts SegmentFacts Route RouteFacts OpenFacts LocateFacts Joining Demo AheadFacts AheadReads AheadRuns.

#[local] Open Scope string_scope.
#[local] Open Scope list_scope.
#[local] Open Scope Z_scope.

Section theorems.
Context `{Env}.

(** C35: a reader that has started its helper answers single reads, owned batches, peeks and polls as
    the reader without one does, in any sequence, however the helper's turns fall between them and
    whatever others write meanwhile, as long as what they write keeps the identities of the files
    there are and new files are new instances.  If no call of the lone reader fails, the answers
    are the same; if one does, they are the same up to it, and from there on the reader with the helper may
    go on where the lone one cannot, as it may already hold a segment retention has removed.
    (Batches of borrowed messages and seeks are not among the calls.) *)
Theorem a_helper_changes_nothing_a_reader_sees r w r' w' tr helper time ts :
  calm w -> r_map_ahead r = None -> r_helper r = Some helper -> start_map_ahead r w = Outcome (Ok tt) r' w' tr ->
  others_ok w ts ->
  exists a, r' = helped a r /\ w' = w /\
    let '(vs, failed) := alone ts r w in
    let '(vs', failed') := beside ts (first_thread time a) r w' in
    if failed then exists more, vs' = vs ++ more else vs' = vs /\ failed' = false.
Proof.
  intros Hc Hr Hh Hs Ho. destruct (start_promises r w r' w' tr helper time Hc Hr Hh Hs) as (a & -> & -> & _ & Hp).
  exists a. split; [done|]. split; [done|]. pose proof (beside_alone ts _ r w w Hc Hc ltac:(by constructor) Hp Ho) as Ha.
  unfold agrees in Ha. destruct (alone ts r w) as [vs []], (beside ts _ r w) as [vs' failed']; cbn in *; [done|by injection Ha as -> ->].
Qed.

(** C36: a turn of the reader's helper, however it ends, changes no file, and leaves the shared state
    true to its promise: the region offered for the reader's segment is the window of the file the
    reader is in, and the segment offered after it is mapped from the file of that name with the
    identity its header holds. *)
Theorem the_reader_helper_keeps_its_promise t r w :
  calm w -> promised t r w ->
  let o := ahead_turn t w in
  calm (o_world o) /\ same_files w (o_world o) /\ promised (o_self o) r (o_world o) /\
  (forall y, a_ready (t_shared (o_self o)) = Some y -> y_file_sequence y = r_file_sequence r ->
     y_mapping y = Mapping (r_file r) (u64 (y_region_idx y * region_size_cached r)) (region_size_cached r)) /\
  (forall n, a_next_segment (t_shared (o_self o)) = Some n ->
     m_mapping (as_region0 n) = Mapping (as_file n) 0 (region_size_cached r) /\
     reads (validate_v4_prefix (Mapping (as_file n) 0 (region_size_cached r))) tt (o_world o) (Ok (as_identity n))).
Proof.
  intros Hc Hp o. destruct (turn_keeps t r w Hc Hp) as (Hc1 & Hsf & Hp1). fold o in Hc1, Hsf, Hp1.
  split; [exact Hc1|]. split; [exact Hsf|]. split; [exact Hp1|]. split.
  - intros y Hy. exact (proj2 (pm_ready _ _ _ Hp1 y Hy)).
  - intros n Hn. destruct (pm_next _ _ _ Hp1 n Hn) as [-> _ Hi _]. by split.
Qed.

End theorems.

Section waiting.
Context `{Env}.

(** C37: whenever a blocking read of the lone reader returns, with the next message or, its time being
    up, without one, the same read of the reader with a helper returns the same, in the same world, and
    leaves the helper's promise kept.  (One direction only: where the lone reader's read fails, as when
    retention has removed its next segment, that of the reader with a helper may succeed.) *)
Theorem a_helper_changes_no_wait fuel timeout t r w v r1 w1 tr :
  calm w -> promised t r w -> read_blocking fuel timeout r w = Outcome (Ok v) r1 w1 tr ->
  exists a, read_blocking fuel timeout (helped (t_shared t) r) w = Outcome (Ok v) (helped a r1) w1 tr /\
    promised (with_shared a t) r1 w1.
Proof. intros Hc Hp E. destruct (like_read_blocking fuel timeout t r w v r1 w1 tr Hc Hp E) as (_ & _ & Hl). by apply Hl. Qed.

End waiting.

(** ** Witnesses *)

(** The reader of [Demo], with a helper asked for. *)
Definition rd_h : Reader := set_options None (Some inherit) Immediate None rd1.

(** The writer leaves its region, rolls, and sends a message in the next file. *)
Definition wA : Writer := Eval vm_compute in o_self (roll_over_region w2 wd2).
Definition wdA : world := Eval vm_compute in o_world (roll_over_region w2 wd2).
Definition sent_next : outcome Writer unit := (roll_file ;; try_reserve 40 ;; Writer_commit 7 32 1) wA wdA.
Definition wdB : world := Eval vm_compute in o_world sent_next.

Lemma sent_next_returns : o_res sent_next = Ok tt.
Proof. vm_compute. reflexivity. Qed.

Definition started_h : outcome Reader unit := start_map_ahead rd_h wd1.
Definition ahead0 : Ahead :=
  Eval vm_compute in match r_map_ahead (o_self started_h) with
                     | Some a => a
                     | None => MkAhead Failure_default 0 "" 0 0 None None None (MkBounded [] 0) 0 false
                     end.

Lemma started_h_run : started_h = Outcome (Ok tt) (helped ahead0 rd_h) wd1 [].
Proof. vm_compute. reflexivity. Qed.

Definition turns0 : list Turn :=
  [HelperTurns; Calls Poll; Others wdA; Calls PeekHeader; Calls TryRead; Calls Poll; HelperTurns; Others wdB;
   HelperTurns; Calls TryRead; HelperTurns; Calls Poll].

Definition answers0 : list Answer :=
  [Ready false; GotHeader (Some (Peeked 5 9 60)); GotMessage (Some (MkRef (Mapping 1 0 4096) 208 60)); Ready false;
   GotMessage (Some (MkRef (Mapping 2 0 4096) 208 32)); Ready false].

Lemma answers0_alone : alone turns0 rd_h wd1 = (answers0, false).
Proof. vm_compute. reflexivity. Qed.

Lemma absent f rs w i : calm w -> w_inodes w !! f = None -> reads (validate_v4_prefix (Mapping f 0 rs)) tt w (Ok i) -> False.
Proof.
  intros Hc Hf E. destruct (validate_bytes f rs w i Hc E) as [H4 _]. unfold data_of, inode_of in H4. rewrite Hf in H4.
  vm_compute in H4. discriminate H4.
Qed.

Definition only (f : Z) (w : world) : Prop := forall g, g <> f -> w_inodes w !! g = None.

Lemma only_1 w i : w_inodes w = {[1 := i]} -> only 1 w.
Proof. intros E g Hg. rewrite E. by apply lookup_singleton_None. Qed.

(** The identities of the files of the two segments. *)
Lemma same_identity_bytes :
  (len_of wdA 1 = len_of wd1 1 /\ get 4 (data_of wdA 1) 4 = get 4 (data_of wd1 1) 4 /\
   ext_at (data_of wdA 1) EXT_FILE_OFFSET = ext_at (data_of wd1 1) EXT_FILE_OFFSET) /\
  (len_of wdB 1 = len_of wdA 1 /\ get 4 (data_of wdB 1) 4 = get 4 (data_of wdA 1) 4 /\
   ext_at (data_of wdB 1) EXT_FILE_OFFSET = ext_at (data_of wdA 1) EXT_FILE_OFFSET).
Proof. split_and!; vm_compute; reflexivity. Qed.

Lemma one_file : only 1 wd1 /\ only 1 wdA.
Proof.
  split.
  - apply (only_1 wd1 (default (Inode 0 ∅) (w_inodes wd1 !! 1))). vm_compute. reflexivity.
  - apply (only_1 wdA (default (Inode 0 ∅) (w_inodes wdA !! 1))). vm_compute. reflexivity.
Qed.

Lemma calm1 : calm wd1. Proof. done. Qed.
Lemma calmA : calm wdA. Proof. done. Qed.
Lemma calmB : calm wdB. Proof. done. Qed.

(** What a world with one segment says of identities, and another in which that segment is the same. *)
Section identities.
Variables (wd wd' : world) (Hc : calm wd) (Hc' : calm wd') (Hone : only 1 wd).
Hypotheses (Hl : len_of wd' 1 = len_of wd 1) (Hg : get 4 (data_of wd' 1) 4 = get 4 (data_of wd 1) 4)
  (Hx : ext_at (data_of wd' 1) EXT_FILE_OFFSET = ext_at (data_of wd 1) EXT_FILE_OFFSET).

Lemma one_same f rs i :
  reads (validate_v4_prefix (Mapping f 0 rs)) tt wd (Ok i) -> reads (validate_v4_prefix (Mapping f 0 rs)) tt wd' (Ok i).
Proof.
  intros E. destruct (Z.eq_dec f 1) as [->|Hf]; [|destruct (absent f rs wd i Hc (Hone f Hf) E)].
  exact (validate_kept 1 rs wd wd' i Hc Hc' Hl Hg Hx E).
Qed.

Lemma one_back rs i :
  reads (validate_v4_prefix (Mapping 1 0 rs)) tt wd' (Ok i) -> reads (validate_v4_prefix (Mapping 1 0 rs)) tt wd (Ok i).
Proof. intros E. exact (validate_kept 1 rs wd' wd i Hc' Hc (eq_sym Hl) (eq_sym Hg) (eq_sym Hx) E). Qed.

Lemma commit_keeps : only 1 wd' -> w_dir wd' = w_dir wd -> keeps_identities wd wd'.
Proof.
  intros Hone' Hd. constructor; [exact one_same|]. intros name f rs i Hn E. left. split; [by rewrite <- Hd|].
  destruct (Z.eq_dec f 1) as [->|Hf]; [by apply one_back|]. destruct (absent f rs wd' i Hc' (Hone' f Hf) E).
Qed.

(** A second segment is of another instance than the first. *)
Lemma roll_keeps name i1 i2 :
  w_inodes wd' = {[1 := i1; 2 := i2]} -> w_dir wd' = <[name := DFile 2]> (w_dir wd) ->
  ext_identity (ext_at (i_data i1) EXT_FILE_OFFSET) = Ok (Identity_initial (id_of 1)) ->
  (exists j, ext_identity (ext_at (i_data i2) EXT_FILE_OFFSET) = Ok j /\ instance j = id_of 2) ->
  keeps_identities wd wd'.
Proof.
  intros Hin Hdir H1 (j2 & H2 & Hj2).
  assert (HB : forall g, g <> 1 -> g <> 2 -> w_inodes wd' !! g = None).
  { intros g Hg1 Hg2. rewrite Hin. rewrite lookup_insert_ne by (by apply not_eq_sym). by apply lookup_singleton_None, not_eq_sym. }
  assert (D1 : data_of wd' 1 = i_data i1) by (unfold data_of, inode_of; by rewrite Hin).
  assert (D2 : data_of wd' 2 = i_data i2) by (unfold data_of, inode_of; by rewrite Hin).
  constructor; [exact one_same|]. intros n f rs i Hd E. destruct (Z.eq_dec f 2) as [->|Hf2].
  - right. intros g j Hg2 Ej. destruct (validate_bytes _ _ _ _ Hc' E) as [_ E2]. rewrite D2, H2 in E2. injection E2 as <-.
    destruct (Z.eq_dec g 1) as [->|Hg1]; [|destruct (absent g rs wd' j Hc' (HB g Hg1 Hg2) Ej)].
    destruct (validate_bytes _ _ _ _ Hc' Ej) as [_ E1]. rewrite D1, H1 in E1. injection E1 as <-. rewrite Hj2. by vm_compute.
  - left. destruct (Z.eq_dec f 1) as [->|Hf1]; [|destruct (absent f rs wd' i Hc' (HB f Hf1 Hf2) E)].
    split; [|by apply one_back]. rewrite Hdir in Hd.
    apply lookup_insert_Some in Hd as [[_ Hd]|[_ Hd]]; [by injection Hd|exact Hd].
Qed.
End identities.

Lemma wd1_wdA : keeps_identities wd1 wdA.
Proof.
  destruct same_identity_bytes as [(L & G & X) _]. destruct one_file as [H1 HA].
  apply (commit_keeps wd1 wdA calm1 calmA H1 L G X HA). vm_compute. reflexivity.
Qed.

Lemma wdA_wdB : keeps_identities wdA wdB.
Proof.
  destruct same_identity_bytes as [_ (L & G & X)]. destruct one_file as [_ HA].
  apply (roll_keeps wdA wdB calmA calmB HA L G X (channel_file_name "c" 1) (inode_of wdB 1) (inode_of wdB 2)).
  - vm_compute. reflexivity.
  - vm_compute. reflexivity.
  - vm_compute. reflexivity.
  - eexists. split; vm_compute; reflexivity.
Qed.

Lemma turns0_ok : others_ok wd1 turns0.
Proof. exact (conj calmA (conj wd1_wdA (conj calmB (conj wdA_wdB I)))). Qed.

Lemma a_helper_changes_nothing_a_reader_sees_witness :
  exists a, beside turns0 (first_thread 0 a) rd_h wd1 = (answers0, false).
Proof.
  destruct (a_helper_changes_nothing_a_reader_sees rd_h wd1 (helped ahead0 rd_h) wd1 [] inherit 0 turns0
    calm1 eq_refl eq_refl started_h_run turns0_ok) as (a & _ & _ & Ha).
  exists a. rewrite answers0_alone in Ha. destruct (beside turns0 (first_thread 0 a) rd_h wd1) as [vs' failed'].
  destruct Ha as [-> ->]. reflexivity.
Defined.

Lemma thread0_promised : promised (first_thread 0 ahead0) rd_h wd1.
Proof.
  destruct (start_promises rd_h wd1 _ _ _ inherit 0 calm1 eq_refl eq_refl started_h_run) as (a & E & _ & _ & Hp).
  by injection E as <-.
Qed.

Lemma the_reader_helper_keeps_its_promise_witness :
  promised (o_self (ahead_turn (first_thread 0 ahead0) wd1)) rd_h wd1 /\
  exists y, a_ready (t_shared (o_self (ahead_turn (first_thread 0 ahead0) wd1))) = Some y /\ y_mapping y = Mapping 1 4096 4096.
Proof.
  destruct (the_reader_helper_keeps_its_promise (first_thread 0 ahead0) rd_h wd1 calm1 thread0_promised)
    as (_ & _ & Hp & Hy & _).
  split; [exact Hp|]. exists (MkReady 0 1 (Mapping 1 4096 4096)). split; [vm_compute; reflexivity|].
  exact (Hy (MkReady 0 1 (Mapping 1 4096 4096)) ltac:(vm_compute; reflexivity) eq_refl).
Defined.

(** A wait with the helper, for a message that is there. *)
Definition waited0 : outcome Reader (option MessageRef) := read_blocking 2 None rd_h wdA.

Lemma thread0_promised_A : promised (first_thread 0 ahead0) rd_h wdA.
Proof. exact (promised_others _ _ _ _ thread0_promised wd1_wdA). Qed.

Lemma a_helper_changes_no_wait_witness :
  exists a, o_res (read_blocking 2 None (helped ahead0 rd_h) wdA) = Ok (Some (MkRef (Mapping 1 0 4096) 208 60)) /\
    promised (with_shared a (first_thread 0 ahead0)) (o_self waited0) (o_world waited0).
Proof.
  assert (E : read_blocking 2 None rd_h wdA
    = Outcome (Ok (Some (MkRef (Mapping 1 0 4096) 208 60))) (o_self waited0) (o_world waited0) []) by (vm_compute; reflexivity).
  destruct (a_helper_changes_no_wait 2 None (first_thread 0 ahead0) rd_h wdA _ _ _ _ calmA thread0_promised_A E) as (a & Ea & Hp).
  exists a. split; [|exact Hp]. exact (f_equal o_res Ea).
Defined.
