(* ===== verification/BatchFacts.v ===== *)
(** * Reading a batch (src/lib.rs: Reader::try_read_batch, scan_batch, MessageBatch)

    A scan moves a cursor of its own over regions and files while the reader stays where it is; its
    end is committed to the reader at once.  The scan is on the route where a reader at its cursor
    would be. *)

From S2P Require Import Prelude Bytes Effects Region Channel V4 Names Segment Helper MapAhead Reader Chain RegionFacts SegmentFacts Prefault Writer WriterInv CommitFacts ReaderFacts Route RouteFacts Wake OpenFacts LocateFacts Joining WakeFacts AheadFacts AheadReads.

#[local] Open Scope Z_scope.

Section batch.
Context `{EnvOk}.
Implicit Types (r : Reader) (w : world) (l : Leg) (ls : list Leg) (b : BatchEnd).

(** ** Where a scan is *)

(** The reader at the scan's cursor. *)
Definition scan_reader r b : Reader :=
  let v := set_cursor (be_cursor b) (be_position b) (be_file_sequence b) r in
  match be_rolled b with
  | None => v
  | Some n =>
      enter_segment (su_file n) (su_header n) (su_instance n) false None (su_channel_name n) (su_base_record_index n) v
  end.

(** ... with the region of the cursor mapped. *)
Definition scan_place r b : Reader :=
  let v := scan_reader r b in set_maps [mapped_at v (be_cursor b)] v.

(** The fields a reader's place on its route consists of. *)
Record same_spot r r' : Prop := {
  ss_reader : same_reader r r';
  ss_sequence : r_file_sequence r' = r_file_sequence r;
  ss_file : r_file r' = r_file r;
  ss_pos : r_read_position r' = r_read_position r;
  ss_index : r_position r' = r_position r;
  ss_header : r_header r' = r_header r;
  ss_instance : r_instance r' = r_instance r;
  ss_map : current_map r' = current_map r
}.

Lemma on_route_spot r r' w l ls : on_route r w l ls -> same_spot r r' -> on_route r' w l ls.
Proof.
  intros [[[] ? ? ? ? ? ?] Hrt] [[Ea _ Eb Er _ Eg _] E1 E2 E3 E4 E5 E6 E7].
  assert (Hm : mapped_at r' (r_read_position r') = mapped_at r (r_read_position r)) by (unfold mapped_at; congruence).
  split; [|by rewrite Eb, Er, Eg].
  constructor; rewrite ?Eb, ?Er, ?E1, ?E2, ?E3, ?E4, ?E5, ?E6, ?E7; try done.
  constructor; rewrite ?Hm, ?Ea, ?Er, ?E2, ?E3, ?E4, ?E5, ?E7; done.
Qed.

(** ** Steps at the cursor, run by the reader *)

Lemma header_info_elsewhere r r' w off x :
  calm w -> current_map r' = current_map r ->
  runs (current_message_header_info off) r w (Ok x) r -> runs (current_message_header_info off) r' w (Ok x) r'.
Proof.
  intros Hc Hm E. unfold runs, current_message_header_info in *.
  rewrite (bind_outcome _ _ _ _ _ _ _ (runs_self r w)) in E. rewrite (bind_outcome _ _ _ _ _ _ _ (runs_self r' w)), Hm.
  destruct (current_map r) as [m|]; [|done].
  destruct (steady_step (fun S => is_committed _ off) _ r w _ _ _ _ (steady_is_committed _ _) Hc E) as (c & Ec & E1).
  rewrite (bind_outcome _ _ _ _ _ _ _ (Ec _ r')). destruct (negb c); [by injection E1 as <-|].
  destruct (steady_step (fun S => load_length _ off) _ r w _ _ _ _ (steady_view _ _ _ _) Hc E1) as (n & En & E2).
  rewrite (bind_outcome _ _ _ _ _ _ _ (En _ r')).
  destruct (steady_step (fun S => parsed_header_type _ off) _ r w _ _ _ _ (steady_parsed_header_type _ _) Hc E2) as (ty & Et & E3).
  rewrite (bind_outcome _ _ _ _ _ _ _ (Et _ r')).
  destruct (steady_step (fun S => load_u16 _ _) _ r w _ _ _ _ (steady_view _ _ _ _) Hc E3) as (mt & Emt & E4).
  rewrite (bind_outcome _ _ _ _ _ _ _ (Emt _ r')).
  destruct (steady_step (fun S => load_u64 _ _) _ r w _ _ _ _ (steady_view _ _ _ _) Hc E4) as (um & Eum & E5).
  rewrite (bind_outcome _ _ _ _ _ _ _ (Eum _ r')). by injection E5 as <-.
Qed.

Lemma roll_edge_elsewhere r r' w i i' off n x :
  calm w -> maps r' !! i' = maps r !! i ->
  runs (roll_edge i off n) r w (Ok x) r -> runs (roll_edge i' off n) r' w (Ok x) r'.
Proof.
  intros Hc Hm E. unfold runs, roll_edge in *.
  rewrite (bind_outcome _ _ _ _ _ _ _ (runs_self r w)) in E. rewrite (bind_outcome _ _ _ _ _ _ _ (runs_self r' w)), Hm.
  destruct (maps r !! i) as [m|]; [|done]. destruct (_ >? _); [done|].
  destruct (steady_step (fun S => load _ _ n) _ r w _ _ _ _ (steady_view _ _ _ _) Hc E) as (body & Eb & E1).
  rewrite (bind_outcome _ _ _ _ _ _ _ (Eb _ r')). unfold lift in *. by injection E1 as ->.
Qed.

Lemma open_successor_elsewhere r r' w h s i edge n :
  calm w -> same_reader r r' -> r_map_ahead r = None ->
  runs (open_successor h s i edge) r w (Ok n) r -> runs (open_successor h s i edge) r' w (Ok n) r'.
Proof.
  intros Hc [Ea _ Eb Er _ Eg _] Ha E. rewrite Ha in Ea. unfold runs, open_successor in *.
  rewrite (bind_outcome _ _ _ _ _ _ _ (runs_self r w)) in E. rewrite (bind_outcome _ _ _ _ _ _ _ (runs_self r' w)).
  destruct (steady_step (fun S => load_base_record_index _) _ r w _ _ _ _ (steady_view _ _ _ _) Hc E) as (base & Ebase & E1).
  rewrite (bind_outcome _ _ _ _ _ _ _ (Ebase _ r')).
  destruct (steady_step (fun S => load_message_count _) _ r w _ _ _ _ (steady_view _ _ _ _) Hc E1) as (count & Ec & E2).
  rewrite (bind_outcome _ _ _ _ _ _ _ (Ec _ r')). cbv zeta in *.
  destruct (steady_step (fun S => lift _) _ r w _ _ _ _ (steady_lift _) Hc E2) as (ns & En & E3).
  rewrite (bind_outcome _ _ _ _ _ _ _ (En _ r')).
  destruct (bind_Ok _ _ _ _ _ _ _ _ E3) as (x & r2 & w2 & t1 & t2 & E4 & E5 & _).
  unfold successor_file in *. rewrite (bind_outcome _ _ _ _ _ _ _ (runs_self r w)) in E4.
  rewrite (bind_outcome _ _ _ _ _ _ _ (run_on_ahead_plain _ r w Ha)) in E4. cbv zeta in E4.
  change (open_here r ns r w = Outcome (Ok x) r2 w2 t1) in E4.
  destruct (steady_open_here r ns Reader Reader r r' w w Hc Hc ltac:(by constructor)) as (y & Y1 & Y2).
  rewrite E4 in Y1. injection Y1 as <- -> -> ->.
  erewrite bind_outcome; [|rewrite (bind_outcome _ _ _ _ _ _ _ (runs_self r' w)),
    (bind_outcome _ _ _ _ _ _ _ (run_on_ahead_plain _ r' w Ea)), Eb, Er; exact Y2].
  change (check_successor r s ns i edge (checked_add base count) x r w = Outcome (Ok n) r w t2) in E5.
  destruct (steady_check r s ns i edge (checked_add base count) x Reader Reader r r' w w Hc Hc ltac:(by constructor)) as (z & Z1 & Z2).
  rewrite E5 in Z1. injection Z1 as <- _. rewrite Er, Eg. exact Z2.
Qed.

(** ** Along the route *)

Lemma along_rest l ls es n :
  n + users es = lg_index l + users (lg_entries l) -> along l ls (leg_rest es n l) ls.
Proof.
  intros Hn. split; [|done]. destruct ls; [|done]. unfold tip. cbn [last_leg leg_rest lg_index lg_entries].
  unfold leg_rest. cbn. f_equal. lia.
Qed.

Lemma along_hop l l' ls : along l (l' :: ls) l' ls.
Proof. split; [done|]. intros f Hf. by right. Qed.

(** The index after a record. *)
Definition index_after (l : Leg) (e : Entry) : Z := lg_index l + if is_user e then 1 else 0.

Lemma route_messages_step w l ls e es :
  lg_entries l = e :: es ->
  route_messages w l ls =
    (if is_user e then [message_of (data_of w (lg_file l)) e] else []) ++ route_messages w (leg_rest es (index_after l e) l) ls.
Proof.
  intros He. unfold route_messages, leg_messages. cbn [map concat lg_file leg_rest lg_entries]. rewrite He.
  unfold messages. cbn [List.filter]. by destruct (is_user e).
Qed.

Lemma scan_fields r b :
  let v := scan_reader r b in
  same_reader r v /\ r_file_sequence v = be_file_sequence b /\ r_read_position v = be_cursor b /\
  r_position v = be_position b /\ r_file v = default (r_file r) (su_file <$> be_rolled b) /\ maps v = maps r /\
  (r_header v, r_instance v) =
    match be_rolled b with Some n => (su_header n, su_instance n) | None => (r_header r, r_instance r) end.
Proof. unfold scan_reader. by destruct (be_rolled b). Qed.

(** The scan moved over the record at its cursor. *)
Lemma place_next r b w l ls e es :
  on_route (scan_place r b) w l ls -> lg_entries l = e :: es ->
  on_route (scan_place r (MkEnd (en_next e) (index_after l e) (be_file_sequence b) (be_rolled b) true)) w
    (leg_rest es (index_after l e) l) ls.
Proof.
  intros Hr He. set (b' := MkEnd _ _ _ _ _). pose proof Hr as [Hs _]. pose proof (st_reader _ _ _ Hs) as Hon. rewrite He in Hon.
  destruct (reader_on_head _ _ _ _ _ Hon) as (_ & _ & Hch & _ & _ & Hn0 & _).
  destruct (lk_index _ _ _ _ (st_leg _ _ _ Hs)) as [Hi0 Hi1]. rewrite He, users_cons in Hi1.
  pose proof (users_nonneg es). unfold index_after in *.
  assert (Hf : further (scan_place r b) (scan_place r b') (en_next e) (lg_index l + if is_user e then 1 else 0)).
  { exists [mapped_at (scan_place r b) (en_next e)], (r_held r). unfold scan_place, scan_reader. cbn [b' be_cursor be_position be_file_sequence be_rolled].
    by destruct (be_rolled b). }
  apply (on_route_rest (scan_place r b)); [done|by eapply further_same_reader| |rewrite He, users_cons; lia].
  destruct Hf as (ms & h & E). assert (Hms : ms = [mapped_at (scan_place r b) (en_next e)]).
  { apply (f_equal maps) in E. cbn in E. rewrite <- E. unfold scan_place, scan_reader. cbn [b' be_cursor be_position be_file_sequence be_rolled].
    by destruct (be_rolled b). }
  eapply stands_rest; [exact Hs|by exists ms, h| |by eapply leg_next; [exact (st_leg _ _ _ Hs)|]|destruct (is_user e); lia|lia].
  rewrite E, Hms. eapply reader_on_moved; [exact Hon|done|done|destruct (is_user e); lia|exact Hch].
Qed.

(** ** What was collected *)

(** The position [pos] of a batch is of a record that shows the message [m]. *)
Definition shown_at w r (pos : MsgPos) (m : Message) : Prop :=
  exists seg mp n, batch_segs r !! Z.to_nat (mp_seg pos) = Some seg /\ maps r !! bs_map_idx seg = Some mp /\
    mp_off pos + MESSAGE_HEADER_SIZE <= region_size (m_mapping mp) /\
    (forall S (s : S), reads (load_length (m_mapping mp) (mp_off pos)) s w (Ok n)) /\
    mp_off pos + HEADER_SLOT + n <= region_size (m_mapping mp) /\
    shows w (MkRef (m_mapping mp) (mp_off pos) n) m.

(** More was mapped and more segments were begun; those before are where they were. *)
Record more r r' : Prop := {
  mo_maps : exists ms, maps r' = maps r ++ ms;
  mo_segs i seg : batch_segs r !! i = Some seg ->
    exists seg', batch_segs r' !! i = Some seg' /\ bs_map_idx seg' = bs_map_idx seg
}.

Lemma shown_at_more w r r' pos m : more r r' -> shown_at w r pos m -> shown_at w r' pos m.
Proof.
  intros [[ms Hms] Hsg] (seg & mp & n & H1 & H2 & H3). destruct (Hsg _ _ H1) as (seg' & H1' & Hi).
  exists seg', mp, n. split; [done|]. rewrite Hi, Hms. split; [by apply lookup_app_l_Some|done].
Qed.

Lemma more_refl r : more r r.
Proof. constructor; [exists []; by rewrite app_nil_r|by eauto]. Qed.

Lemma more_trans r1 r2 r3 : more r1 r2 -> more r2 r3 -> more r1 r3.
Proof.
  intros [[m1 E1] S1] [[m2 E2] S2]. constructor.
  - exists (m1 ++ m2). by rewrite E2, E1, app_assoc.
  - intros i seg Hi. destruct (S1 _ _ Hi) as (s1 & H1 & E). destruct (S2 _ _ H1) as (s2 & H2 & E'). exists s2. by rewrite E', E.
Qed.

(** The end of a segment set. *)
Definition ended (e : Z) (r : Reader) : Reader :=
  set_batch_segs (alter (fun s => MkSeg (bs_map_idx s) (bs_start s) e) (List.length (batch_segs r) - 1)%nat (batch_segs r)) r.

Lemma run_set_seg_end e r w : runs (set_seg_end e) r w (Ok tt) (ended e r).
Proof. done. Qed.

Lemma ended_more e r : more r (ended e r).
Proof.
  constructor; [exists []; by rewrite app_nil_r|]. intros i seg Hi. cbn.
  destruct (decide (i = (List.length (batch_segs r) - 1)%nat)) as [->|Hne].
  - rewrite list_lookup_alter_eq, Hi. eexists. by split.
  - rewrite list_lookup_alter_ne by done. by exists seg.
Qed.

Lemma ended_segs e r : List.length (batch_segs (ended e r)) = List.length (batch_segs r).
Proof. cbn. apply length_alter. Qed.

(** ** The invariant of a scan *)

(** Changes to the mappings, the segments and the positions. *)
Definition edited r r' : Prop := exists ms segs ps, r' = set_maps ms (set_batch_segs segs (set_batch_pos ps r)).

Lemma edited_refl r : edited r r.
Proof. exists (maps r), (batch_segs r), (batch_pos r). by destruct r. Qed.

Lemma edited_trans r1 r2 r3 : edited r1 r2 -> edited r2 r3 -> edited r1 r3.
Proof. intros (a & b & c & ->) (a' & b' & c' & ->). by exists a', b', c'. Qed.

Lemma edited_ended e r : edited r (ended e r).
Proof. exists (maps r), (batch_segs (ended e r)), (batch_pos r). by destruct r. Qed.

Lemma edited_mapped r r' b p : edited r r' -> mapped_at (scan_reader r' b) p = mapped_at (scan_reader r b) p.
Proof. intros (a & s & c & ->). unfold scan_reader. by destruct (be_rolled b). Qed.

Lemma edited_place r r' b w l ls : edited r r' -> on_route (scan_place r b) w l ls -> on_route (scan_place r' b) w l ls.
Proof.
  intros He Hr. eapply on_route_spot; [exact Hr|]. pose proof (edited_mapped r r' b (be_cursor b) He) as Hm.
  destruct He as (a & s & c & ->). unfold scan_place, current_map in *.
  constructor; cbn [set_maps maps last]; [| | | | | | |by rewrite Hm]; unfold scan_reader; by destruct (be_rolled b).
Qed.

(** A user record leaves room in its region: each reservation leaves room for a [Roll]. *)
Definition inside (rs : Z) (l : Leg) : Prop :=
  Forall (fun e => is_user e = true -> en_next e mod rs <> 0) (lg_entries l).

(** The reader [r0] began a scan on the route [l0], [ls0]; it is [r] now, the scan at [b] on the route
    [l], [ls], and the messages [got] were collected. *)
Record scanning r0 w l0 ls0 r b l ls (got : list Message) : Prop := {
  sc_route : on_route (scan_place r b) w l ls;
  sc_from : edited r0 r;
  sc_messages : route_messages w l0 ls0 = got ++ route_messages w l ls;
  sc_along : along l0 ls0 l ls;
  sc_shown : Forall2 (shown_at w r) (batch_pos r) got;
  sc_inside : Forall (inside (region_size_cached r0)) (l :: ls);
  sc_still : be_progressed b = false ->
    b = MkEnd (r_read_position r0) (r_position r0) (r_file_sequence r0) None false /\ maps r = maps r0 /\ got = []
}.

(** In a region: it is mapped last, its segment is the last one. *)
Record in_region r0 w l0 ls0 r b l ls (got : list Message) (max : Z) : Prop := {
  ir_scanning : scanning r0 w l0 ls0 r b l ls got;
  ir_map : current_map r = Some (mapped_at (scan_reader r b) (be_cursor b));
  ir_seg : exists seg, last (batch_segs r) = Some seg /\ bs_map_idx seg = (List.length (maps r) - 1)%nat;
  ir_room : Z.of_nat (List.length got) < max
}.

Lemma edited_size r0 r : edited r0 r -> region_size_cached r = region_size_cached r0.
Proof. by intros (a & s & c & ->). Qed.

Lemma scanning_size r0 w l0 ls0 r b l ls got :
  scanning r0 w l0 ls0 r b l ls got -> region_size_cached (scan_place r b) = region_size_cached r0.
Proof.
  intros Hs. pose proof (edited_size _ _ (sc_from _ _ _ _ _ _ _ _ _ Hs)) as <-. unfold scan_place, scan_reader. by destruct (be_rolled b).
Qed.

Lemma scanning_more r0 w l0 ls0 r b l ls got r' :
  scanning r0 w l0 ls0 r b l ls got -> edited r r' -> more r r' -> batch_pos r' = batch_pos r ->
  (be_progressed b = false -> maps r' = maps r) -> scanning r0 w l0 ls0 r' b l ls got.
Proof.
  intros [S1 S2 S3 S4 S5 S6 S7] He Hm Hp Hk. constructor; try done.
  - by eapply edited_place.
  - by eapply edited_trans.
  - rewrite Hp. eapply Forall2_impl; [exact S5|]. intros pos m. by apply shown_at_more.
  - intros Hb. destruct (S7 Hb) as (-> & <- & ->). split_and!; [done|by apply Hk|done].
Qed.

Definition next_end b l e : BatchEnd := MkEnd (en_next e) (index_after l e) (be_file_sequence b) (be_rolled b) true.

(** What the record adds to a batch. *)
Definition message_in w l e : list Message := if is_user e then [message_of (data_of w (lg_file l)) e] else [].

Lemma scanning_next r0 w l0 ls0 r b l ls got e es r' pos :
  scanning r0 w l0 ls0 r b l ls got -> lg_entries l = e :: es -> edited r r' -> more r r' ->
  batch_pos r' = batch_pos r ++ pos -> Forall2 (shown_at w r') pos (message_in w l e) ->
  scanning r0 w l0 ls0 r' (next_end b l e) (leg_rest es (index_after l e) l) ls (got ++ message_in w l e).
Proof.
  intros [S1 S2 S3 S4 S5 S6 _] He Hed Hm Hp Hsh. constructor.
  - eapply edited_place; [exact Hed|]. by apply place_next.
  - by eapply edited_trans.
  - rewrite S3, (route_messages_step w l ls e es He), app_assoc. done.
  - eapply along_trans; [exact S4|]. apply along_rest. rewrite He, users_cons. unfold index_after. lia.
  - rewrite Hp. apply Forall2_app; [|done]. eapply Forall2_impl; [exact S5|]. intros ps m. by apply shown_at_more.
  - inversion S6 as [|? ? Hl Hls]; subst. constructor; [|done]. unfold inside in *. rewrite He in Hl. by inversion Hl.
  - done.
Qed.

(** ** One turn of the inner loop *)

(** The regions a scan from [p] can begin. *)
Definition regions_ahead (rs : Z) l ls (p : Z) : Z :=
  lg_end l / rs - p / rs + 1 + foldr (fun l n => lg_end l / rs + 1 + n) 0 ls.

Definition turned r0 w l0 ls0 (max : Z) r b l ls (x : BatchEnd * Z + BatchExit) r' : Prop :=
  let rs := region_size_cached r0 in
  match x with
  | inl (b', off) => exists l' got', in_region r0 w l0 ls0 r' b' l' ls got' max /\
      off = be_cursor b' - be_cursor b / rs * rs /\ be_cursor b' / rs = be_cursor b / rs /\
      be_cursor b + 16 <= be_cursor b' /\ (List.length (lg_entries l') < List.length (lg_entries l))%nat /\
      lg_end l' = lg_end l /\ batch_segs r' = batch_segs r /\ maps r' = maps r
  | inr (BreakScan b') => exists l' ls' got', scanning r0 w l0 ls0 r' b' l' ls' got' /\
      current_map r' = Some (mapped_at (scan_reader r' b') (be_cursor b')) /\
      (Z.of_nat (List.length got') = max \/ Z.of_nat (List.length got') < max /\ route_messages w l' ls' = [])
  | inr (ContinueScan b') => exists l' ls' got', scanning r0 w l0 ls0 r' b' l' ls' got' /\
      (exists p, current_map r' = Some (mapped_at (scan_reader r' b') p) /\ p <= be_cursor b' /\ be_progressed b' = true) /\
      Z.of_nat (List.length got') < max /\ (route_turns l' ls' < route_turns l ls)%nat /\
      List.length (batch_segs r') = List.length (batch_segs r) /\
      regions_ahead rs l' ls' (be_cursor b') + 1 <= regions_ahead rs l ls (be_cursor b)
  end.

(** The record at the cursor: where it lies in its region. *)
Lemma cursor_entry r0 w l0 ls0 r b l ls got e es :
  scanning r0 w l0 ls0 r b l ls got -> lg_entries l = e :: es ->
  let rs := region_size_cached r0 in
  rs_ok rs /\ reader_on (scan_place r b) w (e :: es) (lg_end l) /\ en_pos e = be_cursor b /\
  be_cursor b mod rs = be_cursor b - be_cursor b / rs * rs /\
  be_cursor b mod rs + 16 + mh_length (en_head e) <= rs /\ 0 <= mh_length (en_head e) /\
  be_cursor b + 16 <= en_next e <= lg_end l /\
  (if en_next e mod rs =? 0 then en_next e / rs = be_cursor b / rs + 1 else en_next e / rs = be_cursor b / rs) /\
  index_after l e < 2 ^ 64 /\ 0 <= lg_index l /\ be_position b = lg_index l.
Proof.
  intros Hsc He rs. pose proof (sc_route _ _ _ _ _ _ _ _ _ Hsc) as [Hs _]. pose proof (st_reader _ _ _ Hs) as Hon.
  rewrite He in Hon. pose proof (scanning_size _ _ _ _ _ _ _ _ _ Hsc) as Hrs.
  pose proof (scan_fields r b) as (_ & _ & Hpos & Hidx & _). cbv zeta in *.
  destruct (reader_on_head _ _ _ _ _ Hon) as (Hp & Hat & Hch & _ & _ & _ & _). pose proof (ro_rs _ _ _ _ Hon) as Hok.
  assert (Hcur : r_read_position (scan_place r b) = be_cursor b) by exact Hpos.
  rewrite Hrs in *. fold rs in Hat, Hch, Hok. rewrite Hcur in Hp. pose proof (rs_pos _ Hok).
  destruct (en_next_bounds _ _ _ Hat) as [Hb _]. pose proof (entry_length_nonneg _ _ _ Hat). pose proof (ea_fits _ _ _ Hat) as Hf.
  pose proof (next_in_region _ _ _ Hok Hat) as Hn. pose proof (chain_le _ _ _ _ _ Hch). change HEADER_SLOT with 16 in *.
  rewrite Hp in Hb, Hf, Hn. pose proof (Z.div_mod (be_cursor b) rs ltac:(lia)).
  destruct (lk_index _ _ _ _ (st_leg _ _ _ Hs)) as [Hi0 Hi1]. rewrite He, users_cons in Hi1. pose proof (users_nonneg es).
  pose proof (st_index _ _ _ Hs) as Hix. unfold index_after. split_and!; try done; try lia.
  rewrite <- Hix. symmetry. exact Hidx.
Qed.

(** On to the next record, in this region or in the next one. *)
Lemma go_on_run r0 w l0 ls0 max r b l ls got e es r1 got1 :
  in_region r0 w l0 ls0 r b l ls got max -> lg_entries l = e :: es ->
  scanning r0 w l0 ls0 r1 (next_end b l e) (leg_rest es (index_after l e) l) ls got1 ->
  Z.of_nat (List.length got1) < max -> batch_segs r1 = batch_segs r -> maps r1 = maps r ->
  let rs := region_size_cached r0 in
  let next_off := en_next e - be_cursor b / rs * rs in
  exists x r', runs (if next_off =? rs then set_seg_end next_off ;; ret (inr (ContinueScan (next_end b l e)))
                     else ret (inl (next_end b l e, next_off))) r1 w (Ok x) r' /\
    turned r0 w l0 ls0 max r b l ls x r'.
Proof.
  intros [Hsc Hmap Hseg _] He Hsc1 Hlt Hsg Hms rs next_off.
  destruct (cursor_entry _ _ _ _ _ _ _ _ _ _ _ Hsc He) as (Hok & _ & _ & _ & _ & _ & [Hc Hce] & Hreg & _). fold rs in Hok, Hreg.
  pose proof (rs_pos _ Hok) as Hrp. pose proof (Z.div_mod (en_next e) rs ltac:(lia)) as Hdm.
  assert (Hm1 : forall p, mapped_at (scan_reader r1 (next_end b l e)) p = mapped_at (scan_reader r b) p).
  { intros p. destruct (sc_from _ _ _ _ _ _ _ _ _ Hsc) as (a1 & a2 & a3 & ->).
    destruct (sc_from _ _ _ _ _ _ _ _ _ Hsc1) as (b1 & b2 & b3 & ->). unfold scan_reader. cbn [next_end be_rolled]. by destruct (be_rolled b). }
  assert (Hcm : current_map r1 = Some (mapped_at (scan_reader r1 (next_end b l e)) (be_cursor b))).
  { rewrite Hm1. unfold current_map in *. by rewrite Hms. }
  destruct (Z.eqb_spec next_off rs) as [Heq|Hne].
  - assert (Hz : en_next e mod rs = 0).
    { unfold next_off in Heq. replace (en_next e) with ((be_cursor b / rs + 1) * rs) by lia. by apply Z.mod_mul; lia. }
    rewrite Hz in Hreg. cbn in Hreg.
    eexists _, _. split; [eapply runs_seq; [apply run_set_seg_end|apply runs_ret]|].
    eexists _, _, _. split; [eapply scanning_more; [exact Hsc1|apply edited_ended|apply ended_more|done|done]|].
    split_and!; [|done|unfold route_turns; cbn [map leg_rest lg_entries]; rewrite !list_sum_cons, He; cbn [List.length]; lia
      |by rewrite ended_segs, Hsg|cbn; unfold regions_ahead; cbn [leg_rest lg_end]; fold rs; lia].
    exists (be_cursor b). split; [|cbn; split; [lia|done]]. rewrite (edited_mapped r1) by apply edited_ended. exact Hcm.
  - eexists _, _. split; [apply runs_ret|].
    assert (Hz : en_next e mod rs =? 0 = false).
    { apply Z.eqb_neq. intros Hz. rewrite Hz in Hreg. cbn in Hreg. unfold next_off in Hne. lia. }
    rewrite Hz in Hreg. exists (leg_rest es (index_after l e) l), got1. split_and!; [|done|exact Hreg|cbn; lia|cbn [leg_rest lg_entries]; rewrite He; cbn; lia|done|done|done].
    constructor; [exact Hsc1| |by rewrite Hsg, Hms|done]. rewrite Hcm. f_equal. unfold mapped_at, region_of.
    replace (region_size_cached (scan_reader r1 (next_end b l e))) with rs by (symmetry; exact (scanning_size _ _ _ _ _ _ _ _ _ Hsc1)).
    cbn [next_end be_cursor]. by rewrite Hreg.
Qed.

(** The call of a turn at the scan's cursor. *)
Definition turn_of (rs max : Z) r b : M Reader (BatchEnd * Z + BatchExit) :=
  batch_step max (be_cursor b / rs * rs) (Z.of_nat (List.length (batch_segs r) - 1)) (List.length (maps r) - 1)
    (b, be_cursor b - be_cursor b / rs * rs).

(** What the header read at the cursor is a reader's at its place. *)
Lemma header_at_cursor r0 w l0 ls0 r b l ls got x :
  calm w -> scanning r0 w l0 ls0 r b l ls got -> current_map r = Some (mapped_at (scan_reader r b) (be_cursor b)) ->
  runs (current_message_header_info (be_cursor b mod region_size_cached r0)) (scan_place r b) w (Ok x) (scan_place r b) ->
  runs (current_message_header_info (be_cursor b - be_cursor b / region_size_cached r0 * region_size_cached r0)) r w (Ok x) r.
Proof.
  intros Hc Hsc Hm Hrun. pose proof (sc_route _ _ _ _ _ _ _ _ _ Hsc) as [Hs _].
  pose proof (rs_pos _ (ro_rs _ _ _ _ (st_reader _ _ _ Hs))) as Hrp. rewrite (scanning_size _ _ _ _ _ _ _ _ _ Hsc) in Hrp.
  replace (be_cursor b - be_cursor b / region_size_cached r0 * region_size_cached r0) with (be_cursor b mod region_size_cached r0)
    by (pose proof (Z.div_mod (be_cursor b) (region_size_cached r0) ltac:(lia)); lia).
  eapply header_info_elsewhere; [exact Hc| |exact Hrun]. rewrite Hm. done.
Qed.

(** The position of a user record shows its message. *)
Lemma shown_here r0 w l0 ls0 r b l ls got max e es :
  calm w -> in_region r0 w l0 ls0 r b l ls got max -> lg_entries l = e :: es -> is_user e = true ->
  shown_at w r (MkPos (Z.of_nat (List.length (batch_segs r) - 1)) (be_cursor b - be_cursor b / region_size_cached r0 * region_size_cached r0))
    (message_of (data_of w (lg_file l)) e).
Proof.
  intros Hc [Hsc Hmap (seg & Hseg & Hidx) _] He Hu.
  destruct (cursor_entry _ _ _ _ _ _ _ _ _ _ _ Hsc He) as (Hok & Hon & Hp & Hmod & Hfit & Hlen & _).
  pose proof (scanning_size _ _ _ _ _ _ _ _ _ Hsc) as Hrs. set (rs := region_size_cached r0) in *. rewrite <- Hmod.
  destruct (reader_on_head _ _ _ _ _ Hon) as (_ & Hat & _ & Hin & _ & _ & _). rewrite Hrs, Hp in *.
  pose proof (sc_route _ _ _ _ _ _ _ _ _ Hsc) as [Hs _]. pose proof (st_file _ _ _ Hs) as Hf.
  exists seg, (mapped_at (scan_place r b) (en_pos e)), (mh_length (en_head e)). cbn [mp_seg mp_off]. split_and!.
  - rewrite Nat2Z.id. rewrite last_lookup in Hseg. rewrite <- Hseg. f_equal. lia.
  - rewrite Hidx, Hp. unfold current_map in Hmap. rewrite last_lookup in Hmap.
    replace (List.length (maps r) - 1)%nat with (Nat.pred (List.length (maps r))) by lia. rewrite Hmap. done.
  - change (region_size _) with (region_size_cached (scan_place r b)). rewrite Hrs. change MESSAGE_HEADER_SIZE with 16. lia.
  - intros S s. cbn [mapped_at m_mapping]. rewrite Hrs, Hp.
    pose proof (reads_load_length (r_file (scan_place r b)) rs (be_cursor b) s w Hok (proj1 Hc) Hin ltac:(lia)) as Hr.
    assert (E : get 4 (data_of w (r_file (scan_place r b))) (be_cursor b + 4) = mh_length (en_head e)).
    { rewrite <- (ea_head _ _ _ Hat), Hp. done. }
    by rewrite E in Hr.
  - change (region_size _) with (region_size_cached (scan_place r b)). rewrite Hrs. change HEADER_SLOT with 16. lia.
  - pose proof (view_shows (scan_place r b) w (e :: es) (lg_end l) e (proj1 Hc) Hon ltac:(left) Hu) as Hv.
    rewrite Hf in Hv. unfold ref_of, owned_of, OwnedMessage_as_ref in Hv. cbn [om_region om_header_offset om_payload_len] in Hv.
    rewrite Hrs, Hp in Hv. rewrite Hp. exact Hv.
Qed.

(** What a turn does at the record [e]: the next record starts at [next_off] in the region. *)
Definition on_to (rs next_off : Z) b l e : M Reader (BatchEnd * Z + BatchExit) :=
  if next_off =? rs then set_seg_end next_off ;; ret (inr (ContinueScan (next_end b l e)))
  else ret (inl (next_end b l e, next_off)).

Definition at_record (rs max next_off : Z) r b l e : M Reader (BatchEnd * Z + BatchExit) :=
  if is_user e then
    modify (set_batch_pos (batch_pos r ++
      [MkPos (Z.of_nat (List.length (batch_segs r) - 1)) (be_cursor b - be_cursor b / rs * rs)])) ;;
    if Z.of_nat (List.length (batch_pos r)) + 1 >=? max then
      set_seg_end next_off ;; ret (inr (BreakScan (next_end b l e)))
    else on_to rs next_off b l e
  else on_to rs next_off b l e.

Lemma turn_at_record r0 w l0 ls0 max r b l ls got e es x r' :
  calm w -> in_region r0 w l0 ls0 r b l ls got max -> lg_entries l = e :: es ->
  let rs := region_size_cached r0 in
  runs (at_record rs max (en_next e - be_cursor b / rs * rs) r b l e) r w (Ok x) r' ->
  runs (turn_of rs max r b) r w (Ok x) r'.
Proof.
  intros Hc [Hsc Hmap Hseg Hlt] He rs Hrun.
  destruct (cursor_entry _ _ _ _ _ _ _ _ _ _ _ Hsc He) as (_ & Hon & Hp & Hmod & Hfit & Hlen & _ & _ & Hidx & Hi0 & Hpos).
  pose proof (scanning_size _ _ _ _ _ _ _ _ _ Hsc) as Hrs. pose proof (edited_size _ _ (sc_from _ _ _ _ _ _ _ _ _ Hsc)) as Hrs'.
  destruct (reader_on_head _ _ _ _ _ Hon) as (_ & Hat & _). pose proof (runs_header _ w e es _ (proj1 Hc) Hon) as Hhead.
  change (r_read_position (scan_place r b)) with (r_read_position (scan_reader r b)) in Hhead.
  rewrite (proj1 (proj2 (proj2 (scan_fields r b)))), Hrs in Hhead.
  pose proof (header_at_cursor _ _ _ _ _ _ _ _ _ _ Hc Hsc Hmap Hhead) as Hinfo. fold rs in Hmod, Hfit, Hrs', Hinfo.
  unfold at_record, on_to in Hrun. unfold turn_of, batch_step. set (off := be_cursor b - be_cursor b / rs * rs) in *.
  eapply runs_seq; [apply runs_self|]. cbv zeta. rewrite Hrs'.
  replace (off + HEADER_SLOT >? rs) with false by (symmetry; rewrite Z.gtb_ltb; apply Z.ltb_ge; change HEADER_SLOT with 16; lia).
  eapply runs_seq; [exact Hinfo|]. cbv iota. cbn [scanned_of s_total_len s_header_type].
  replace (off + (HEADER_SLOT + mh_length (en_head e)) >? rs) with false
    by (symmetry; rewrite Z.gtb_ltb; apply Z.ltb_ge; change HEADER_SLOT with 16; lia).
  replace (align_up (be_cursor b / rs * rs + off + (HEADER_SLOT + mh_length (en_head e)))) with (en_next e)
    by (unfold off, en_next; f_equal; lia).
  unfold advance_batch. cbn [be_cursor be_position be_file_sequence be_rolled be_progressed].
  unfold next_end, index_after in *. destruct (is_user e) eqn:Hu.
  - rewrite (user_type _ _ e Hat Hu), Hpos, wrap_small by lia. exact Hrun.
  - rewrite Hpos. rewrite Z.add_0_r in Hrun. destruct (service_type _ _ e Hat Hu) as [-> | ->]; exact Hrun.
Qed.

(** A turn at a service record. *)
Lemma service_turn r0 w l0 ls0 max r b l ls got e es :
  calm w -> in_region r0 w l0 ls0 r b l ls got max -> lg_entries l = e :: es -> is_user e = false ->
  exists x r', runs (turn_of (region_size_cached r0) max r b) r w (Ok x) r' /\ turned r0 w l0 ls0 max r b l ls x r'.
Proof.
  intros Hc Hir He Hu. pose proof Hir as [Hsc _ _ Hlt].
  assert (Hsc1 : scanning r0 w l0 ls0 r (next_end b l e) (leg_rest es (index_after l e) l) ls got).
  { pose proof (scanning_next _ _ _ _ _ _ _ _ _ _ _ r [] Hsc He (edited_refl r) (more_refl r)) as Hn. unfold message_in in Hn.
    rewrite Hu, !app_nil_r in Hn. by apply Hn. }
  destruct (go_on_run r0 w l0 ls0 max r b l ls got e es r got Hir He Hsc1 Hlt eq_refl eq_refl) as (x & r' & Hrun & Ht).
  exists x, r'. split; [|exact Ht]. eapply turn_at_record; [exact Hc|exact Hir|exact He|]. unfold at_record. rewrite Hu. exact Hrun.
Qed.

(** A turn at a user record: collected, and the scan ends with the last one it may collect. *)
Lemma user_turn r0 w l0 ls0 max r b l ls got e es :
  calm w -> in_region r0 w l0 ls0 r b l ls got max -> lg_entries l = e :: es -> is_user e = true ->
  exists x r', runs (turn_of (region_size_cached r0) max r b) r w (Ok x) r' /\ turned r0 w l0 ls0 max r b l ls x r'.
Proof.
  intros Hc Hir He Hu. pose proof Hir as [Hsc Hmap _ Hlt].
  pose proof (shown_here _ _ _ _ _ _ _ _ _ _ _ _ Hc Hir He Hu) as Hshown.
  pose proof (edited_size _ _ (sc_from _ _ _ _ _ _ _ _ _ Hsc)) as Hrs'. set (rs := region_size_cached r0) in *.
  set (pos := MkPos _ _) in Hshown. set (m := message_of _ e) in Hshown. set (r1 := set_batch_pos (batch_pos r ++ [pos]) r).
  assert (Hed : edited r r1) by (exists (maps r), (batch_segs r), (batch_pos r ++ [pos]); by destruct r).
  assert (Hmore : more r r1) by (constructor; [exists []; by rewrite app_nil_r|by eauto]).
  assert (Hsc1 : scanning r0 w l0 ls0 r1 (next_end b l e) (leg_rest es (index_after l e) l) ls (got ++ [m])).
  { pose proof (scanning_next _ _ _ _ _ _ _ _ _ _ _ r1 [pos] Hsc He Hed Hmore eq_refl) as Hn. unfold message_in in Hn. rewrite Hu in Hn.
    apply Hn. constructor; [|constructor]. by eapply shown_at_more. }
  pose proof (Forall2_length _ _ _ (sc_shown _ _ _ _ _ _ _ _ _ Hsc)) as Hpl.
  destruct (Z.geb (Z.of_nat (List.length got) + 1) max) eqn:Hge.
  - destruct (cursor_entry _ _ _ _ _ _ _ _ _ _ _ Hsc He) as (_ & _ & _ & _ & _ & _ & _ & Hreg & _). fold rs in Hreg.
    assert (Hz : en_next e mod rs =? 0 = false).
    { apply Z.eqb_neq. pose proof (sc_inside _ _ _ _ _ _ _ _ _ Hsc) as Hin. inversion Hin as [|? ? Hl _]; subst.
      unfold inside in Hl. rewrite He in Hl. inversion Hl as [|? ? Hne _]; subst. by apply Hne. }
    rewrite Hz in Hreg. eexists _, _. split.
    + eapply turn_at_record; [exact Hc|exact Hir|exact He|]. unfold at_record. rewrite Hu.
      eapply runs_seq; [apply runs_modify|]. rewrite Hpl, Hge. eapply runs_seq; [apply run_set_seg_end|apply runs_ret].
    + exists (leg_rest es (index_after l e) l), ls, (got ++ [m]).
      split; [eapply scanning_more; [exact Hsc1|apply edited_ended|apply ended_more|done|done]|].
      split; [|left; rewrite length_app; cbn; apply Z.geb_le in Hge; lia].
      rewrite (edited_mapped r1) by apply edited_ended. rewrite (edited_mapped r r1) by done.
      change (current_map (ended _ _)) with (current_map r). rewrite Hmap. f_equal.
      unfold mapped_at, region_of, scan_reader. cbn [next_end be_cursor be_rolled be_file_sequence be_position].
      destruct (be_rolled b); cbn; rewrite Hrs'; by rewrite Hreg.
  - destruct (go_on_run r0 w l0 ls0 max r b l ls got e es r1 (got ++ [m]) Hir He Hsc1) as (x & r' & Hrun & Ht);
      [rewrite length_app; cbn; rewrite Z.geb_leb in Hge; apply Z.leb_gt in Hge; lia|done|done|].
    exists x, r'. split; [|exact Ht]. eapply turn_at_record; [exact Hc|exact Hir|exact He|]. unfold at_record. rewrite Hu.
    eapply runs_seq; [apply runs_modify|]. rewrite Hpl, Hge. exact Hrun.
Qed.

(** The cursor at the end of a leg. *)
Lemma end_room r0 w l0 ls0 r b l ls got :
  scanning r0 w l0 ls0 r b l ls got -> lg_entries l = [] ->
  let rs := region_size_cached r0 in
  0 < rs /\ be_cursor b = lg_end l /\ be_cursor b mod rs = be_cursor b - be_cursor b / rs * rs /\
  be_cursor b - be_cursor b / rs * rs + HEADER_SLOT <= rs.
Proof.
  intros Hsc He rs. pose proof (sc_route _ _ _ _ _ _ _ _ _ Hsc) as [Hs _].
  pose proof (st_reader _ _ _ Hs) as Hon. rewrite He in Hon. pose proof (ro_room _ _ _ _ Hon) as Hroom.
  pose proof (ro_chain _ _ _ _ Hon) as Hch. pose proof (rs_pos _ (ro_rs _ _ _ _ Hon)) as Hrp.
  rewrite (scanning_size _ _ _ _ _ _ _ _ _ Hsc) in *. fold rs in Hroom, Hrp, Hch.
  assert (Hcur : be_cursor b = lg_end l).
  { rewrite <- (proj1 (proj2 (proj2 (scan_fields r b)))). by inversion Hch. }
  rewrite <- Hcur in Hroom. pose proof (Z.div_mod (be_cursor b) rs ltac:(lia)). split_and!; lia.
Qed.

(** A turn at the end of the route: the scan ends. *)
Lemma end_turn r0 w l0 ls0 max r b l got :
  calm w -> in_region r0 w l0 ls0 r b l [] got max -> lg_entries l = [] ->
  exists x r', runs (turn_of (region_size_cached r0) max r b) r w (Ok x) r' /\ turned r0 w l0 ls0 max r b l [] x r'.
Proof.
  intros Hc [Hsc Hmap Hseg Hlt] He. pose proof (sc_route _ _ _ _ _ _ _ _ _ Hsc) as [Hs Hrt].
  pose proof (st_reader _ _ _ Hs) as Hon. rewrite He in Hon. inversion Hrt as [? Hend|]; subst.
  pose proof (scanning_size _ _ _ _ _ _ _ _ _ Hsc) as Hrs. pose proof (edited_size _ _ (sc_from _ _ _ _ _ _ _ _ _ Hsc)) as Hrs'.
  rewrite <- (st_file _ _ _ Hs) in Hend. pose proof (runs_header_end _ w _ (proj1 Hc) Hon Hend) as Hhead.
  change (r_read_position (scan_place r b)) with (r_read_position (scan_reader r b)) in Hhead.
  rewrite (proj1 (proj2 (proj2 (scan_fields r b)))), Hrs in Hhead.
  pose proof (header_at_cursor _ _ _ _ _ _ _ _ _ _ Hc Hsc Hmap Hhead) as Hinfo.
  destruct (end_room r0 w l0 ls0 r b l [] got Hsc He) as (_ & _ & _ & Hroom). set (rs := region_size_cached r0) in *.
  eexists _, _. split.
  - unfold turn_of, batch_step. eapply runs_seq; [apply runs_self|]. cbv zeta. rewrite Hrs'.
    replace (be_cursor b - be_cursor b / rs * rs + HEADER_SLOT >? rs) with false by (symmetry; rewrite Z.gtb_ltb; apply Z.ltb_ge; lia).
    eapply runs_seq; [exact Hinfo|]. cbv iota. eapply runs_seq; [apply run_set_seg_end|apply runs_ret].
  - exists l, [], got. split; [eapply scanning_more; [exact Hsc|apply edited_ended|apply ended_more|done|done]|].
    split; [rewrite (edited_mapped r) by apply edited_ended; exact Hmap|]. right. split; [done|].
    rewrite route_messages_nil. unfold leg_messages. by rewrite He.
Qed.

(** Where the scan is once it has opened the successor [n]. *)
Definition hop_end (n : Successor) : BatchEnd := MkEnd 0 (su_base_record_index n) (su_sequence n) (Some n) true.
Definition hopped (next_off : Z) (n : Successor) r : Reader := set_maps (maps r ++ [su_region0 n]) (ended next_off r).

Lemma hopped_more next_off n r : edited r (hopped next_off n r) /\ more r (hopped next_off n r).
Proof.
  split; [by exists (maps r ++ [su_region0 n]), (batch_segs (ended next_off r)), (batch_pos r)|].
  destruct (ended_more next_off r) as [_ Hs]. constructor; [by exists [su_region0 n]|exact Hs].
Qed.

(** The [Roll] at the cursor is read and followed. *)
Lemma batch_roll_run r0 w l0 ls0 r b l l' ls got edge i next_off :
  calm w -> scanning r0 w l0 ls0 r b l (l' :: ls) got -> current_map r = Some (mapped_at (scan_reader r b) (be_cursor b)) ->
  lg_entries l = [] ->
  hop_by w (r_base_path (scan_place r b)) (region_size_cached (scan_place r b)) (generation_cached (scan_place r b)) l l' edge i ->
  let rs := region_size_cached r0 in
  let n := successor_of rs (data_of w (lg_file l')) i l' in
  runs (batch_roll b (List.length (maps r) - 1) (be_cursor b / rs * rs + (be_cursor b - be_cursor b / rs * rs))
          (be_cursor b - be_cursor b / rs * rs) ROLL_PAYLOAD_V4 next_off) r w
    (Ok (ContinueScan (hop_end n))) (hopped next_off n r).
Proof.
  intros Hc Hsc Hmap He Hh rs n. pose proof (sc_route _ _ _ _ _ _ _ _ _ Hsc) as [Hs _].
  pose proof (st_reader _ _ _ Hs) as Hon. pose proof Hon as Hon'. rewrite He in Hon'.
  pose proof (scanning_size _ _ _ _ _ _ _ _ _ Hsc) as Hrs. pose proof (hp_roll _ _ _ _ _ _ _ _ Hh) as Hroll.
  rewrite <- (st_file _ _ _ Hs) in Hroll. destruct (hp_edge _ _ _ _ _ _ _ _ Hh) as [Hedge Hnone].
  pose proof (runs_roll_edge _ w _ edge (proj1 Hc) Hon' Hroll Hedge Hnone (hp_room _ _ _ _ _ _ _ _ Hh)) as Hre.
  pose proof (runs_open_successor _ w l l' edge i Hc Hs Hh) as Hopen.
  destruct (scan_fields r b) as (Hsame & Hseq & Hcur & _ & _ & _ & Hpair).
  destruct (end_room _ _ _ _ _ _ _ _ _ Hsc He) as (_ & _ & Hmod & _). fold rs in Hmod.
  change (r_read_position (scan_place r b)) with (r_read_position (scan_reader r b)) in Hre. rewrite Hcur, Hrs in Hre. fold rs in Hre. rewrite Hmod in Hre.
  rewrite Hrs in Hopen. fold rs n in Hopen.
  assert (Hidx : maps r !! (List.length (maps r) - 1)%nat = maps (scan_place r b) !! (List.length (maps (scan_place r b)) - 1)%nat).
  { rewrite (current_index r _ Hmap). done. }
  pose proof (roll_edge_elsewhere _ r w _ (List.length (maps r) - 1) _ _ _ Hc Hidx Hre) as Hre'.
  assert (Hback : same_reader (scan_place r b) r) by (destruct Hsame; by constructor).
  pose proof (open_successor_elsewhere _ r w _ _ _ _ _ Hc Hback (ro_ahead _ _ _ _ Hon) Hopen) as Hopen'.
  change (r_file_sequence (scan_place r b)) with (r_file_sequence (scan_reader r b)) in Hopen'. rewrite Hseq in Hopen'.
  change (r_header (scan_place r b)) with (r_header (scan_reader r b)) in Hopen'.
  change (r_instance (scan_place r b)) with (r_instance (scan_reader r b)) in Hopen'.
  unfold batch_roll. eapply runs_seq; [apply runs_self|].
  assert (Hrun : forall h j, (h, j) = (r_header (scan_reader r b), r_instance (scan_reader r b)) ->
    runs (attempt (edge <- roll_edge (List.length (maps r) - 1) (be_cursor b - be_cursor b / rs * rs) ROLL_PAYLOAD_V4 ;;
                   open_successor h (be_file_sequence b) j edge)) r w (Ok (inl n)) r).
  { intros h j [= -> ->]. apply runs_attempt. eapply runs_seq; [exact Hre'|exact Hopen']. }
  destruct (be_rolled b) as [m|];
    (eapply runs_seq; [by apply Hrun|]; cbv iota; eapply runs_seq; [apply run_set_seg_end|]; eapply runs_seq; [apply runs_modify|apply runs_ret]).
Qed.

(** The scan at the start of the next file. *)
Lemma scanning_hop r0 w l0 ls0 r b l l' ls got edge i next_off :
  scanning r0 w l0 ls0 r b l (l' :: ls) got -> lg_entries l = [] ->
  hop_by w (r_base_path (scan_place r b)) (region_size_cached (scan_place r b)) (generation_cached (scan_place r b)) l l' edge i ->
  let n := successor_of (region_size_cached r0) (data_of w (lg_file l')) i l' in
  scanning r0 w l0 ls0 (hopped next_off n r) (hop_end n) l' ls got.
Proof.
  intros Hsc He Hh n. pose proof (scanning_size _ _ _ _ _ _ _ _ _ Hsc) as Hrs.
  destruct Hsc as [[Hs Hrt] S2 S3 S4 S5 S6 _]. inversion Hrt as [|? ? ? _ Hrest]; subst.
  destruct (hopped_more next_off n r) as [Hed Hmo].
  constructor.
  - assert (Hsame : same_reader (scan_place r b) (scan_place (hopped next_off n r) (hop_end n)))
      by (constructor; unfold scan_place, scan_reader; by destruct (be_rolled b)).
    split; [|destruct Hsame as [_ _ -> -> _ -> _]; exact Hrest].
    apply (stands_hop _ _ w l l' edge i Hs Hh Hsame); try done. rewrite Hrs. unfold current_map. cbn.
    by rewrite <- (edited_size _ _ S2).
  - by eapply edited_trans.
  - rewrite S3, route_messages_cons. unfold leg_messages. by rewrite He.
  - eapply along_trans; [exact S4|apply along_hop].
  - eapply Forall2_impl; [exact S5|]. intros pos m. by apply shown_at_more.
  - by inversion S6.
  - done.
Qed.

(** A turn at a [Roll]: the scan goes on in the next file, whose first region is mapped. *)
Lemma hop_turn r0 w l0 ls0 max r b l l' ls got :
  calm w -> in_region r0 w l0 ls0 r b l (l' :: ls) got max -> lg_entries l = [] ->
  exists x r', runs (turn_of (region_size_cached r0) max r b) r w (Ok x) r' /\ turned r0 w l0 ls0 max r b l (l' :: ls) x r'.
Proof.
  intros Hc [Hsc Hmap Hseg Hlt] He. pose proof (sc_route _ _ _ _ _ _ _ _ _ Hsc) as [Hs Hrt].
  pose proof (st_reader _ _ _ Hs) as Hon. rewrite He in Hon. inversion Hrt as [|? ? ? (edge & i & Hh) Hrest]; subst.
  pose proof (scanning_size _ _ _ _ _ _ _ _ _ Hsc) as Hrs. pose proof (edited_size _ _ (sc_from _ _ _ _ _ _ _ _ _ Hsc)) as Hrs'.
  pose proof (hp_roll _ _ _ _ _ _ _ _ Hh) as Hroll. rewrite <- (st_file _ _ _ Hs) in Hroll.
  pose proof (runs_header_roll _ w _ edge (proj1 Hc) Hon Hroll) as Hhead.
  change (r_read_position (scan_place r b)) with (r_read_position (scan_reader r b)) in Hhead.
  rewrite (proj1 (proj2 (proj2 (scan_fields r b)))), Hrs in Hhead.
  pose proof (header_at_cursor _ _ _ _ _ _ _ _ _ _ Hc Hsc Hmap Hhead) as Hinfo.
  pose proof (hp_room _ _ _ _ _ _ _ _ Hh) as Hroom. change ROLL_TOTAL with 56 in Hroom.
  destruct (end_room _ _ _ _ _ _ _ _ _ Hsc He) as (Hrp & Hend & Hmod & Hfit). rewrite Hrs, <- Hend, Hmod in Hroom.
  eexists _, _. split.
  - unfold turn_of, batch_step. eapply runs_seq; [apply runs_self|]. cbv zeta. rewrite Hrs'. set (rs := region_size_cached r0) in *.
    replace (be_cursor b - be_cursor b / rs * rs + HEADER_SLOT >? rs) with false by (symmetry; rewrite Z.gtb_ltb; apply Z.ltb_ge; lia).
    eapply runs_seq; [exact Hinfo|]. cbv iota. change (s_total_len roll_scanned) with 56.
    replace (be_cursor b - be_cursor b / rs * rs + 56 >? rs) with false by (symmetry; rewrite Z.gtb_ltb; apply Z.ltb_ge; lia).
    change (s_header_type roll_scanned) with Roll. change (s_payload_len roll_scanned) with ROLL_PAYLOAD_V4. cbv iota.
    eapply runs_seq; [by eapply batch_roll_run|apply runs_ret].
  - eexists _, _, _. split; [eapply scanning_hop; done|]. split; [|split; [done|]]; [|split_and!].
    + exists 0. split; [|done]. unfold hopped, current_map. cbn [maps set_maps]. rewrite last_snoc. unfold mapped_at, region_of. cbn.
      by rewrite Hrs'.
    + unfold route_turns. cbn [map]. rewrite !list_sum_cons. lia.
    + apply ended_segs.
    + unfold regions_ahead. cbn [foldr hop_end be_cursor]. rewrite <- Hend, Z.div_0_l by lia. lia.
Qed.

(** ** The loops *)

Lemma turn_run r0 w l0 ls0 max r b l ls got :
  calm w -> in_region r0 w l0 ls0 r b l ls got max ->
  exists x r', runs (turn_of (region_size_cached r0) max r b) r w (Ok x) r' /\ turned r0 w l0 ls0 max r b l ls x r'.
Proof.
  intros Hc Hir. destruct (lg_entries l) as [|e es] eqn:He.
  - destruct ls as [|l' ls]; [by eapply end_turn|by eapply hop_turn].
  - destruct (is_user e) eqn:Hu; [by eapply user_turn|by eapply service_turn].
Qed.

(** The rest of a region. *)
Lemma region_run r0 w l0 ls0 max n r b l ls got :
  calm w -> in_region r0 w l0 ls0 r b l ls got max ->
  let rs := region_size_cached r0 in
  let off := be_cursor b - be_cursor b / rs * rs in
  rs - off < 16 * Z.of_nat n ->
  exists x r', runs (loop_with n (batch_step max (be_cursor b / rs * rs) (Z.of_nat (List.length (batch_segs r) - 1))
      (List.length (maps r) - 1)) (b, off)) r w (Ok x) r' /\
    turned r0 w l0 ls0 max r b l ls (inr x) r'.
Proof.
  intros Hc. revert r b l got. induction n as [|n IH]; intros r b l got Hir rs off Hn.
  { pose proof (sc_route _ _ _ _ _ _ _ _ _ (ir_scanning _ _ _ _ _ _ _ _ _ _ Hir)) as [Hs _].
    pose proof (rs_pos _ (ro_rs _ _ _ _ (st_reader _ _ _ Hs))) as Hrp.
    rewrite (scanning_size _ _ _ _ _ _ _ _ _ (ir_scanning _ _ _ _ _ _ _ _ _ _ Hir)) in Hrp. fold rs in Hrp.
    pose proof (Z.div_mod (be_cursor b) rs ltac:(lia)). pose proof (Z.mod_pos_bound (be_cursor b) rs). lia. }
  destruct (turn_run r0 w l0 ls0 max r b l ls got Hc Hir) as (x & r' & Hrun & Ht). fold rs in Hrun. unfold turn_of in Hrun. fold off in Hrun.
  destruct x as [[b' off']|x].
  - destruct Ht as (l' & got' & Hir' & -> & Hd & Hle & Hlen & Hend & Hsg & Hms). fold rs in Hd, Hrun.
    assert (Hoff : be_cursor b' - be_cursor b / rs * rs = be_cursor b' - be_cursor b' / rs * rs) by (by rewrite Hd).
    destruct (IH r' b' l' got' Hir') as (x & r'' & Hrun' & Ht'); [fold rs; rewrite <- Hoff; unfold off in Hn; lia|].
    fold rs in Hrun'. rewrite <- Hoff, Hd, Hsg, Hms in Hrun'.
    exists x, r''. split; [by eapply runs_loop_with_go|].
    destruct x as [b''|b'']; [exact Ht'|]. destruct Ht' as (l'' & ls'' & got'' & H1 & H2 & H3 & H4 & H5 & H6).
    exists l'', ls'', got''. split_and!; try done.
    + unfold route_turns in *. cbn [map] in *. rewrite !list_sum_cons in *. lia.
    + by rewrite H5, Hsg.
    + fold rs in H6 |- *. unfold regions_ahead in *. rewrite Hend, Hd in H6. lia.
  - exists x, r'. split; [by eapply runs_loop_with_end|exact Ht].
Qed.

(** How a scan ended. *)
Definition scan_ended r0 w l0 ls0 (max : Z) b' r' : Prop :=
  exists l' ls' got, scanning r0 w l0 ls0 r' b' l' ls' got /\
    current_map r' = Some (mapped_at (scan_reader r' b') (be_cursor b')) /\
    (Z.of_nat (List.length got) = max \/ Z.of_nat (List.length got) < max /\ route_messages w l' ls' = []).

(** Between two regions: the mapping is of one at or before the cursor, and the segments suffice. *)
Record between r0 w l0 ls0 (max : Z) r b l ls (got : list Message) : Prop := {
  bt_scanning : scanning r0 w l0 ls0 r b l ls got;
  bt_map : exists p, current_map r = Some (mapped_at (scan_reader r b) p) /\ p <= be_cursor b /\
             (be_progressed b = false -> p = be_cursor b);
  bt_room : Z.of_nat (List.length got) < max;
  bt_segs : Z.of_nat (List.length (batch_segs r)) + regions_ahead (region_size_cached r0) l ls (be_cursor b) <= U16_MAX + 1
}.

Lemma ensure_run r0 w l0 ls0 max r b l ls got :
  calm w -> between r0 w l0 ls0 max r b l ls got ->
  exists ms, let r' := set_maps (maps r ++ ms) r in
    runs (ensure_scan_region_mapped (su_file <$> be_rolled b) (be_file_sequence b) (be_cursor b / region_size_cached r0))
      r w (Ok tt) r' /\
    current_map r' = Some (mapped_at (scan_reader r' b) (be_cursor b)) /\ scanning r0 w l0 ls0 r' b l ls got.
Proof.
  intros Hc [Hsc (p & Hmap & Hle & Hp) _ _]. pose proof (sc_route _ _ _ _ _ _ _ _ _ Hsc) as [Hs _].
  pose proof (st_reader _ _ _ Hs) as Hon. pose proof (scanning_size _ _ _ _ _ _ _ _ _ Hsc) as Hrs.
  pose proof (edited_size _ _ (sc_from _ _ _ _ _ _ _ _ _ Hsc)) as Hrs'. destruct (scan_fields r b) as ([Ha _ _ Hz _ _ _] & Hseq & Hcur & _ & Hfile & _).
  set (v := scan_reader r b) in *. pose proof (rs_pos _ (ro_rs _ _ _ _ Hon)) as Hrp. rewrite Hrs in Hrp. set (rs := region_size_cached r0) in *.
  assert (Hed : forall ms, edited r (set_maps (maps r ++ ms) r)) by (intros ms; exists (maps r ++ ms), (batch_segs r), (batch_pos r); by destruct r).
  assert (Hmo : forall ms, more r (set_maps (maps r ++ ms) r)) by (intros ms; constructor; [by exists ms|by eauto]).
  assert (Hend : forall ms, current_map (set_maps (maps r ++ ms) r) = Some (mapped_at v (be_cursor b)) ->
    (be_progressed b = false -> ms = []) ->
    current_map (set_maps (maps r ++ ms) r) = Some (mapped_at (scan_reader (set_maps (maps r ++ ms) r) b) (be_cursor b)) /\
    scanning r0 w l0 ls0 (set_maps (maps r ++ ms) r) b l ls got).
  { intros ms Hm Hms. split; [by rewrite (edited_mapped r) by apply Hed|]. eapply scanning_more; [exact Hsc|apply Hed|apply Hmo|done|].
    intros Hb. rewrite (Hms Hb). cbn. apply app_nil_r. }
  assert (Hmr : runs (map_region (r_file v) (be_file_sequence b) (be_cursor b / rs)) r w (Ok (region_of (r_file v) rs (be_cursor b))) r).
  { pose proof (ro_rs _ _ _ _ Hon) as Hok. pose proof (ro_in _ _ _ _ Hon) as Hin. rewrite Hrs in Hok, Hin.
    pose proof (chain_le _ _ _ _ _ (ro_chain _ _ _ _ Hon)) as Hch. change (r_read_position (scan_place r b)) with (r_read_position v) in Hch.
    rewrite <- Hrs'. apply runs_map_region; [done|by rewrite Hrs'|rewrite <- Ha; apply (ro_ahead _ _ _ _ Hon)| | |apply (ro_len _ _ _ _ Hon)].
    - rewrite Hrs'. rewrite Hcur in Hch. exact (in_file_le _ _ _ _ Hok Hch Hin).
    - rewrite <- Hcur. apply (ro_pos _ _ _ _ Hon). }
  unfold ensure_scan_region_mapped. pose proof (Z.div_le_mono p (be_cursor b) rs ltac:(lia) Hle) as Hdiv.
  destruct (Z.eq_dec (p / rs) (be_cursor b / rs)) as [Hd|Hd].
  - exists []. cbv zeta. split; [|apply Hend; [|done]].
    + eapply runs_seq; [apply runs_self|]. rewrite Hmap. unfold mapped_at. cbn [m_file_sequence m_region_idx].
      rewrite Hz, Hrs', Hseq. fold rs. rewrite Hd, !Z.eqb_refl. cbn [andb]. rewrite app_nil_r. unfold runs. by destruct r.
    + rewrite app_nil_r. change (current_map (set_maps (maps r) r)) with (current_map r). rewrite Hmap. unfold mapped_at, region_of.
      rewrite Hz, Hrs'. fold rs. by rewrite Hd.
  - exists [mapped_at v (be_cursor b)]. cbv zeta. split; [|apply Hend; [apply last_snoc|]].
    + eapply runs_seq; [apply runs_self|]. cbv zeta. rewrite Hmap. unfold mapped_at at 1 2 3 4. cbn [m_file_sequence m_region_idx].
      rewrite Hz, Hrs', Hseq. fold rs. rewrite Z.eqb_refl. replace (p / rs =? be_cursor b / rs) with false by (symmetry; by apply Z.eqb_neq).
      replace (p / rs >? be_cursor b / rs) with false by (symmetry; rewrite Z.gtb_ltb; apply Z.ltb_ge; lia). cbn [andb].
      rewrite <- Hfile. eapply runs_seq; [exact Hmr|]. unfold mapped_at. rewrite Hz, Hrs', Hseq. done.
    + intros Hb. by rewrite (Hp Hb) in Hd.
Qed.

Lemma scan_regions r0 w l0 ls0 r b l ls got :
  scanning r0 w l0 ls0 r b l ls got -> 1 <= regions_ahead (region_size_cached r0) l ls (be_cursor b).
Proof.
  intros Hsc. pose proof (sc_route _ _ _ _ _ _ _ _ _ Hsc) as [Hs Hrt]. pose proof (st_reader _ _ _ Hs) as Hon.
  pose proof (rs_pos _ (ro_rs _ _ _ _ Hon)) as Hrp. pose proof (chain_le _ _ _ _ _ (ro_chain _ _ _ _ Hon)) as Hch.
  pose proof (route_legs _ _ _ _ _ _ Hrt) as Hls. rewrite (scanning_size _ _ _ _ _ _ _ _ _ Hsc) in *.
  change (r_read_position (scan_place r b)) with (r_read_position (scan_reader r b)) in Hch.
  rewrite (proj1 (proj2 (proj2 (scan_fields r b)))) in Hch. set (rs := region_size_cached r0) in *.
  unfold regions_ahead. pose proof (Z.div_le_mono _ _ rs ltac:(lia) Hch).
  assert (0 <= foldr (fun l n => lg_end l / rs + 1 + n) 0 ls); [|lia].
  clear -Hls Hrp. induction Hls as [|l' ls' Hl _ IH]; [done|]. cbn [foldr].
  pose proof (chain_le _ _ _ _ _ (lk_chain _ _ _ _ Hl)). pose proof (Z.div_pos (lg_end l') rs). lia.
Qed.

(** How the scan goes on after a region. *)
Definition leave_region (x : BatchExit) : BatchEnd + BatchEnd :=
  match x with BreakScan b => inr b | ContinueScan b => inl b end.

(** Mapping a region and beginning its segment. *)
Lemma enter_region r0 w l0 ls0 max r b l ls got :
  calm w -> between r0 w l0 ls0 max r b l ls got ->
  let rs := region_size_cached r0 in
  let region_start := be_cursor b / rs * rs in
  exists r', in_region r0 w l0 ls0 r' b l ls got max /\
    List.length (batch_segs r') = Datatypes.S (List.length (batch_segs r)) /\
    forall x r'', runs (loop_with (Z.to_nat (rs / 16 + 2))
        (batch_step max region_start (Z.of_nat (List.length (batch_segs r') - 1)) (List.length (maps r') - 1))
        (b, be_cursor b - region_start)) r' w (Ok x) r'' ->
      runs (batch_segment max b) r w (Ok (leave_region x)) r''.
Proof.
  intros Hc Hbt rs region_start. destruct (ensure_run _ _ _ _ _ _ _ _ _ _ Hc Hbt) as (ms & Hens & Hmap & Hsc).
  destruct Hbt as [Hsc0 _ Hlt Hsegs]. set (r1 := set_maps (maps r ++ ms) r) in *.
  pose proof (edited_size _ _ (sc_from _ _ _ _ _ _ _ _ _ Hsc0)) as Hrs'. fold rs in Hrs', Hens, Hsegs.
  pose proof (scan_regions _ _ _ _ _ _ _ _ _ Hsc0) as Hpos. fold rs in Hpos.
  pose proof (sc_route _ _ _ _ _ _ _ _ _ Hsc0) as [Hs0 _].
  pose proof (rs_pos _ (ro_rs _ _ _ _ (st_reader _ _ _ Hs0))) as Hrp. rewrite (scanning_size _ _ _ _ _ _ _ _ _ Hsc0) in Hrp. fold rs in Hrp.
  set (off := be_cursor b - region_start).
  set (seg := MkSeg (List.length (maps r1) - 1) off off). set (r2 := set_batch_segs (batch_segs r1 ++ [seg]) r1).
  assert (Hed : edited r1 r2) by (exists (maps r1), (batch_segs r1 ++ [seg]), (batch_pos r1); by destruct r).
  assert (Hmo : more r1 r2).
  { constructor; [exists []; by rewrite app_nil_r|]. intros i sg Hi. exists sg. split; [by apply lookup_app_l_Some|done]. }
  assert (Hlen : List.length (batch_segs r2) = Datatypes.S (List.length (batch_segs r))) by (cbn; rewrite length_app; cbn; lia).
  exists r2. split_and!; [|done|].
  - constructor; [by eapply scanning_more| |exists seg; split; [apply last_snoc|done]|done].
    rewrite (edited_mapped r1 r2) by done. exact Hmap.
  - intros x r' Hrun. unfold batch_segment. eapply runs_seq; [apply runs_self|]. cbv zeta. rewrite Hrs'. fold region_start off.
    eapply runs_seq; [apply runs_div_guard; lia|]. eapply runs_seq; [exact Hens|]. fold r1. eapply runs_seq; [apply runs_self|].
    change (batch_segs r1) with (batch_segs r). rewrite Z.gtb_ltb.
    replace (U16_MAX <? Z.of_nat (List.length (batch_segs r))) with false by (symmetry; apply Z.ltb_ge; lia).
    rewrite Hlen in Hrun. cbn [Nat.sub] in Hrun. rewrite Nat.sub_0_r in Hrun.
    eapply runs_seq; [apply runs_modify|]. eapply runs_seq; [exact Hrun|]. destruct x; apply runs_ret.
Qed.

(** One region of the scan. *)
Lemma batch_segment_run r0 w l0 ls0 max r b l ls got :
  calm w -> between r0 w l0 ls0 max r b l ls got ->
  exists x r', runs (batch_segment max b) r w (Ok x) r' /\
    match x with
    | inr b' => scan_ended r0 w l0 ls0 max b' r'
    | inl b' => exists l' ls' got', between r0 w l0 ls0 max r' b' l' ls' got' /\ (route_turns l' ls' < route_turns l ls)%nat
    end.
Proof.
  intros Hc Hbt. destruct (enter_region _ _ _ _ _ _ _ _ _ _ Hc Hbt) as (r2 & Hir & Hsg & Hrun). destruct Hbt as [Hsc _ Hlt Hsegs].
  pose proof (sc_route _ _ _ _ _ _ _ _ _ Hsc) as [Hs _].
  pose proof (rs_pos _ (ro_rs _ _ _ _ (st_reader _ _ _ Hs))) as Hrp. rewrite (scanning_size _ _ _ _ _ _ _ _ _ Hsc) in Hrp.
  destruct (region_run r0 w l0 ls0 max (Z.to_nat (region_size_cached r0 / 16 + 2)) r2 b l ls got Hc Hir) as (x & r' & Hloop & Ht).
  { set (rs := region_size_cached r0) in *. pose proof (Z.div_mod (be_cursor b) rs ltac:(lia)).
    pose proof (Z.mod_pos_bound (be_cursor b) rs ltac:(lia)). pose proof (Z.div_mod rs 16 ltac:(lia)).
    pose proof (Z.mod_pos_bound rs 16 ltac:(lia)). lia. }
  exists (leave_region x), r'. split; [by apply Hrun|]. destruct x as [b'|b']; [exact Ht|].
  destruct Ht as (l' & ls' & got' & H1 & (p & H2 & H2' & Hpr) & H3 & H4 & H5 & H6).
  exists l', ls', got'. split; [|done]. constructor; [done| |done|rewrite H5, Hsg; lia].
  exists p. split_and!; [done|done|]. by rewrite Hpr.
Qed.

(** The whole scan. *)
Lemma scan_loop_run r0 w l0 ls0 max n r b l ls got :
  calm w -> between r0 w l0 ls0 max r b l ls got -> (route_turns l ls < n)%nat ->
  exists b' r', runs (loop_with n (batch_segment max) b) r w (Ok b') r' /\ scan_ended r0 w l0 ls0 max b' r'.
Proof.
  intros Hc. revert r b l ls got. induction n as [|n IH]; intros r b l ls got Hbt Hn; [lia|].
  destruct (batch_segment_run _ _ _ _ _ _ _ _ _ _ Hc Hbt) as (x & r' & Hrun & Hx). destruct x as [b'|b'].
  - destruct Hx as (l' & ls' & got' & Hbt' & Hlt). destruct (IH r' b' l' ls' got' Hbt' ltac:(lia)) as (b'' & r'' & Hrun' & He).
    exists b'', r''. split; [by eapply runs_loop_with_go|done].
  - exists b', r'. split; [by eapply runs_loop_with_end|done].
Qed.

(** ** What a batch shows *)

Lemma message_at_run w r pos m :
  shown_at w r pos m ->
  exists v mp, (forall S (s : S), reads (message_at (MkBatch (batch_segs r) (batch_pos r) (maps r)) pos) s w (Ok v)) /\
    shows w v m /\ (exists seg, batch_segs r !! Z.to_nat (mp_seg pos) = Some seg /\ maps r !! bs_map_idx seg = Some mp) /\
    mr_mapping v = m_mapping mp.
Proof.
  intros (seg & mp & n & H1 & H2 & H3 & H4 & H5 & H6). exists (MkRef (m_mapping mp) (mp_off pos) n), mp.
  split_and!; [|exact H6|by exists seg|done]. intros S s. unfold message_at. cbn [mb_segs mb_maps]. rewrite H1, H2. cbv zeta.
  rewrite Z.gtb_ltb. replace (_ <? _) with false by (symmetry; apply Z.ltb_ge; lia).
  eapply reads_seq; [apply H4|]. rewrite Z.gtb_ltb. replace (_ <? _) with false by (symmetry; apply Z.ltb_ge; lia). apply reads_ret.
Qed.

(** The batch gives the messages [ms], all of them in order or one by one, borrowed or owned. *)
Record batch_shows w (mb : MessageBatch) (ms : list Message) : Prop := {
  bs_iter : exists refs, (forall S (s : S), reads (MessageBatch_iter mb) s w (Ok refs)) /\ Forall2 (shows w) refs ms;
  bs_get i m : ms !! i = Some m ->
    exists v, (forall S (s : S), reads (MessageBatch_get mb i) s w (Ok (Some v))) /\ shows w v m;
  bs_get_owned i m : ms !! i = Some m ->
    exists o, (forall S (s : S), reads (MessageBatch_get_owned mb i) s w (Ok (Some o))) /\ owned_shows w o m;
  bs_past i : ms !! i = None -> forall S (s : S), reads (MessageBatch_get mb i) s w (Ok None)
}.

Lemma collect_run w r ps ms :
  Forall2 (shown_at w r) ps ms ->
  exists refs, (forall S (s : S), reads (collect_refs (MkBatch (batch_segs r) (batch_pos r) (maps r)) ps) s w (Ok refs)) /\
    Forall2 (shows w) refs ms.
Proof.
  induction 1 as [|pos m ps ms Hp _ (refs & Hrun & Hsh)]; [by exists []|].
  destruct (message_at_run w r pos m Hp) as (v & _ & Hv & Hs & _). exists (v :: refs). split; [|by constructor].
  intros S s. cbn [collect_refs]. eapply reads_seq; [apply Hv|]. eapply reads_seq; [apply Hrun|]. apply reads_ret.
Qed.

Lemma batch_shown w r ms :
  Forall2 (shown_at w r) (batch_pos r) ms -> batch_shows w (MkBatch (batch_segs r) (batch_pos r) (maps r)) ms.
Proof.
  intros Hall. constructor.
  - by apply collect_run.
  - intros i m Hm. destruct (Forall2_lookup_r _ _ _ _ _ Hall Hm) as (pos & Hi & Hp).
    destruct (message_at_run w r pos m Hp) as (v & _ & Hv & Hs & _). exists v. split; [|done]. intros S s.
    unfold MessageBatch_get. cbn [mb_pos]. rewrite Hi. eapply reads_seq; [apply Hv|]. apply reads_ret.
  - intros i m Hm. destruct (Forall2_lookup_r _ _ _ _ _ Hall Hm) as (pos & Hi & Hp).
    destruct (message_at_run w r pos m Hp) as (v & mp & Hv & Hs & (seg & H1 & H2) & Hmp).
    exists (MkOwned mp (mr_header_offset v) (mr_payload_len v)). split.
    + intros S s. unfold MessageBatch_get_owned. cbn [mb_pos]. rewrite Hi. eapply reads_seq; [apply Hv|].
      cbn [mb_segs mb_maps]. rewrite H1, H2. apply reads_ret.
    + unfold owned_shows, OwnedMessage_as_ref. cbn. rewrite <- Hmp. by destruct v.
  - intros i Hm S s. unfold MessageBatch_get. cbn [mb_pos].
    assert (batch_pos r !! i = None) as ->; [|apply reads_ret].
    apply lookup_ge_None. apply lookup_ge_None in Hm. by rewrite (Forall2_length _ _ _ Hall).
Qed.

(** ** The whole call *)

(** Committing the end of a scan moves the reader to its cursor. *)
Lemma commit_batch_run r b w :
  r_map_ahead r = None -> current_map r = Some (mapped_at (scan_reader r b) (be_cursor b)) ->
  exists r', runs (commit_batch b) r w (Ok tt) r' /\ same_spot (scan_place r b) r' /\
    batch_segs r' = batch_segs r /\ batch_pos r' = batch_pos r /\ maps r' = maps r.
Proof.
  intros Ha Hm. unfold commit_batch, scan_place, scan_reader in *. destruct (be_rolled b) as [n|].
  - set (r1 := enter_segment _ _ _ _ _ _ _ _) in *. exists (set_r_held [] r1). split; [|split; [|done]].
    + eapply runs_seq; [apply runs_self|]. eapply runs_seq; [apply runs_modify|]. eapply runs_seq; [apply runs_modify|]. fold r1.
      unfold Reader_rolled. eapply runs_seq; [apply runs_self|]. eapply runs_seq; [apply (runs_on_ahead _ r1), Ha|]. apply runs_modify.
    + by constructor.
  - exists (set_cursor (be_cursor b) (be_position b) (be_file_sequence b) r). split; [|split; [|done]].
    + eapply runs_seq; [apply runs_self|]. eapply runs_seq; [apply runs_modify|]. apply runs_ret.
    + by constructor.
Qed.

Definition cleared r : Reader := set_batch_pos [] (set_batch_segs [] r).

Lemma run_clear_batch r w : runs clear_batch r w (Ok tt) (cleared r).
Proof. done. Qed.

Lemma cleared_spot r : same_spot r (cleared r).
Proof. by constructor. Qed.

Lemma same_spot_trans r1 r2 r3 : same_spot r1 r2 -> same_spot r2 r3 -> same_spot r1 r3.
Proof. intros [A1 ? ? ? ? ? ? ?] [B1 ? ? ? ? ? ? ?]. constructor; [by etrans|congruence..]. Qed.

(** The start of a scan. *)
Definition first_end r : BatchEnd := MkEnd (r_read_position r) (r_position r) (r_file_sequence r) None false.

Lemma scan_start r w l ls max :
  on_route r w l ls -> batch_segs r = [] -> batch_pos r = [] -> 0 < max ->
  Forall (inside (region_size_cached r)) (l :: ls) ->
  regions_ahead (region_size_cached r) l ls (r_read_position r) <= U16_MAX + 1 ->
  between r w l ls max r (first_end r) l ls [].
Proof.
  intros Hr Hs Hp Hmax Hin Hreg. pose proof (ro_map _ _ _ _ (st_reader _ _ _ (proj1 Hr))) as Hmap. constructor.
  - constructor; [|apply edited_refl|done|done|rewrite Hp; by constructor|done|done].
    eapply on_route_spot; [exact Hr|]. by constructor.
  - exists (r_read_position r). split_and!; [exact Hmap|done|done].
  - cbn. lia.
  - rewrite Hs. cbn. lia.
Qed.

(** What a call of [try_read_batch] with the limit [limit] gives. *)
Definition batch_borrows r w l ls (max_batch : option Z) (limit : nat) : Prop :=
  let ms := route_messages w l ls in
  exists v r', runs (try_read_batch max_batch) r w (Ok v) r' /\ goes_on r w l ls (skipn limit ms) r' /\
    match firstn limit ms with
    | [] => v = None
    | got => exists mb, v = Some mb /\ batch_shows w mb got
    end.

Definition batch_max r (max_batch : option Z) : Z :=
  default U16_MAX (match max_batch with Some m => Some m | None => batch_limit r end).

(** From the end of a scan to the end of the call. *)
Lemma after_scan r0 w l ls max b r1 :
  on_route r0 w l ls -> 0 < max -> scan_ended r0 w l ls max b r1 ->
  let ms := route_messages w l ls in
  let limit := Z.to_nat max in
  exists v r', runs (if be_progressed b then
      commit_batch b ;;
      r <- self ;;
      match batch_pos r with
      | [] => clear_batch ;; prune_to_current ;; ret None
      | _ => ret (Some (MkBatch (batch_segs r) (batch_pos r) (maps r)))
      end
    else clear_batch ;; ret None) r1 w (Ok v) r' /\ goes_on r0 w l ls (skipn limit ms) r' /\
    match firstn limit ms with
    | [] => v = None
    | got => exists mb, v = Some mb /\ batch_shows w mb got
    end.
Proof.
  intros Hr Hmax (l' & ls' & got & Hsc & Hmap & Hend) ms limit. destruct Hsc as [S1 S2 S3 S4 S5 S6 S7]. fold ms in S3.
  assert (Hgot : firstn limit ms = got /\ skipn limit ms = route_messages w l' ls').
  { rewrite S3. destruct Hend as [Hend|[Hend Hnil]].
    - replace limit with (List.length got) by (unfold limit; lia). by rewrite take_app_length, drop_app_length.
    - rewrite Hnil, app_nil_r. split; [apply firstn_all2|apply skipn_all2]; unfold limit; lia. }
  destruct Hgot as [-> ->]. pose proof (ro_ahead _ _ _ _ (st_reader _ _ _ (proj1 S1))) as Ha.
  assert (Ha1 : r_map_ahead r1 = None).
  { rewrite <- Ha. unfold scan_place, scan_reader. by destruct (be_rolled b). }
  assert (Hgo : forall r', same_spot (scan_place r1 b) r' -> on_route r' w l' ls' /\ goes_on r0 w l ls (route_messages w l' ls') r').
  { intros r' Hspot. pose proof (on_route_spot _ _ _ _ _ S1 Hspot) as Hr'. split; [done|].
    apply goes_on_route; [done|done|]. etrans; [|apply Hspot]. destruct S2 as (x & y & z & ->).
    unfold scan_place, scan_reader. by destruct (be_rolled b). }
  destruct (be_progressed b) eqn:Hb.
  - destruct (commit_batch_run r1 b w Ha1 Hmap) as (r2 & Hrun & Hspot & Esegs & Epos & Emaps). destruct (Hgo r2 Hspot) as [Hr2 Hgo2].
    destruct (batch_pos r1) as [|pos ps] eqn:Eps.
    + inversion S5; subst got. pose proof (on_route_spot _ _ _ _ _ Hr2 (cleared_spot r2)) as Hr3.
      destruct (prune_route _ _ _ _ Hr3) as (r3 & Hprune & Hr3' & Hf & _). exists None, r3. split_and!; [| |done].
      * eapply runs_seq; [exact Hrun|]. eapply runs_seq; [apply runs_self|]. rewrite Epos.
        eapply runs_seq; [apply run_clear_batch|]. eapply runs_seq; [exact Hprune|apply runs_ret].
      * apply goes_on_route; [done|done|]. etrans; [exact (go_same _ _ _ _ _ _ Hgo2)|].
        etrans; [exact (ss_reader _ _ (cleared_spot r2))|exact (further_same_reader _ _ _ _ Hf)].
    + exists (Some (MkBatch (batch_segs r2) (pos :: ps) (maps r2))), r2. split_and!; [|done|].
      * eapply runs_seq; [exact Hrun|]. eapply runs_seq; [apply runs_self|]. rewrite Epos. apply runs_ret.
      * pose proof S5 as S5'. inversion S5 as [|? m ? ms' _ _]; subst got. eexists. split; [done|].
        rewrite Esegs, Emaps, <- Eps. apply batch_shown. by rewrite Eps.
  - destruct (S7 eq_refl) as (-> & Hm & ->). exists None, (cleared r1). split_and!; [| |done].
    + eapply runs_seq; [apply run_clear_batch|apply runs_ret].
    + apply Hgo. destruct S2 as (x & y & z & ->). by constructor.
Qed.

Lemma try_read_batch_run r w l ls max_batch :
  calm w -> on_route r w l ls -> 0 <= batch_max r max_batch ->
  Forall (inside (region_size_cached r)) (l :: ls) ->
  regions_ahead (region_size_cached r) l ls (r_read_position r) <= U16_MAX + 1 ->
  batch_borrows r w l ls max_batch (Z.to_nat (batch_max r max_batch)).
Proof.
  intros Hc Hr Hmax Hin Hreg. unfold batch_borrows. cbv zeta. set (max := batch_max r max_batch) in *.
  destruct (Z.eqb_spec max 0) as [Hz|Hz].
  { exists None, r. rewrite Hz. split_and!; [|by apply goes_on_refl|done].
    unfold try_read_batch. eapply runs_seq; [apply runs_self|]. cbv zeta. fold (batch_max r max_batch). fold max. rewrite Hz. apply runs_ret. }
  pose proof (on_route_spot _ _ _ _ _ Hr (cleared_spot r)) as Hr1.
  destruct (prune_route _ _ _ _ Hr1) as (r0 & Hprune & Hr0 & Hf & _).
  pose proof (further_same_reader _ _ _ _ Hf) as Hsame. pose proof Hf as (ms & h & E0).
  assert (Hrs : region_size_cached r0 = region_size_cached r) by (by rewrite E0).
  assert (Hpos : r_read_position r0 = r_read_position r) by (by rewrite E0).
  assert (Hbt : between r0 w l ls max r0 (first_end r0) l ls []).
  { apply scan_start; [done|by rewrite E0|by rewrite E0|lia|by rewrite Hrs|by rewrite Hrs, Hpos]. }
  destruct (scan_loop_run r0 w l ls max (scan_fuel w) r0 (first_end r0) l ls [] Hc Hbt (route_fuel _ _ _ _ Hr0)) as (b & r2 & Hloop & Hend).
  destruct (after_scan r0 w l ls max b r2 Hr0 ltac:(lia) Hend) as (v & r' & Hafter & [Hgo1 Hgo2 Hgo3] & Hv).
  assert (Hsame' : same_reader r r') by (etrans; [exact (ss_reader _ _ (cleared_spot r))|etrans; [exact Hsame|exact Hgo2]]).
  exists v, r'. split_and!; [|by constructor|exact Hv].
  unfold try_read_batch. eapply runs_seq; [apply runs_self|]. cbv zeta. fold (batch_max r max_batch). fold max.
  replace (max =? 0) with false by (symmetry; by apply Z.eqb_neq).
  eapply runs_seq; [apply run_clear_batch|]. eapply runs_seq; [exact Hprune|].
  eapply runs_seq.
  { apply runs_attempt. unfold scan_batch. eapply runs_seq; [apply runs_self|]. eapply runs_seq; [apply runs_reads, reads_ask|].
    eapply runs_seq; [exact Hloop|apply runs_ret]. }
  by destruct (be_progressed b).
Qed.

End batch.
