(* ===== verification/BatchTheorems.v ===== *)
(** * What a borrowed batch gives

    [try_read_batch] collects messages over regions and files and moves the reader past exactly
    those it hands out. *)

From S2P Require Import Prelude Bytes Effects Region Channel V4 Names Segment Helper MapAhead Reader Chain RegionFacts SegmentFacts Prefault Writer WriterInv CommitFacts ReaderFacts Route RouteFacts Carry BatchFacts Demo.

#[local] Open Scope list_scope.
#[local] Open Scope Z_scope.

Section theorems.
Context `{EnvOk}.

(** C18: [try_read_batch] gives the messages ahead of the reader in order, whatever service records,
    regions and files lie between them, up to the limit of the call, of the reader or of 65535; each
    can be had by its number or by iterating, borrowed or owned, with its header and payload; the
    reader moves past these and no others; without a message ahead it gives no batch.  The records
    leave room for a [Roll] in their regions, and the regions ahead are at most 65536. *)
Theorem try_read_batch_delivers_in_order r w l ls max_batch :
  calm w -> on_route r w l ls -> 0 <= batch_max r max_batch ->
  Forall (inside (region_size_cached r)) (l :: ls) ->
  regions_ahead (region_size_cached r) l ls (r_read_position r) <= U16_MAX + 1 ->
  let ms := route_messages w l ls in
  let limit := Z.to_nat (batch_max r max_batch) in
  exists v r', runs (try_read_batch max_batch) r w (Ok v) r' /\ goes_on r w l ls (skipn limit ms) r' /\
    match firstn limit ms with
    | [] => v = None
    | got => exists mb, v = Some mb /\ batch_shows w mb got
    end.
Proof. intros Hc Hr Hmax Hin Hreg. exact (try_read_batch_run r w l ls max_batch Hc Hr Hmax Hin Hreg). Qed.

End theorems.

(** ** Witness *)

Lemma inside0 : Forall (inside (region_size_cached rd1)) [leg0 [channel_entry; entry1] 288].
Proof.
  constructor; [|constructor]. constructor; [by vm_compute|]. constructor; [|constructor]. intros _. by vm_compute.
Qed.

Lemma try_read_batch_delivers_in_order_witness :
  exists mb r', runs (try_read_batch None) rd1 wd2 (Ok (Some mb)) r' /\
    batch_shows wd2 mb [message_of (data_of wd2 1) entry1].
Proof.
  assert (Hmax : 0 <= batch_max rd1 None) by (by vm_compute).
  assert (Hreg : regions_ahead (region_size_cached rd1) (leg0 [channel_entry; entry1] 288) [] (r_read_position rd1) <= U16_MAX + 1)
    by (by vm_compute).
  destruct (try_read_batch_delivers_in_order rd1 wd2 _ _ None wd2_calm rd1_ahead Hmax inside0 Hreg) as (v & r' & Hrun & _ & Hv).
  assert (Hlimit : Z.to_nat (batch_max rd1 None) = Datatypes.S (Z.to_nat 65534)).
  { by rewrite <- Z2Nat.inj_succ. }
  rewrite Hlimit in Hv. destruct Hv as (mb & -> & Hb). exists mb, r'. split; [exact Hrun|exact Hb].
Defined.
