(* ===== verification/Assisted.v ===== *)
(** * Writers with a helper (src/prefault.rs, src/lib.rs)

    What the shared state promises the writer about the file it is in, and that within that file a
    writer that holds the promise does what one without a helper does: the same result, the same
    files, and the same states on the way. *)

From S2P Require Import Prelude Bytes Effects Region Channel V4 Names Segment Helper Prefault Writer Chain RegionFacts SegmentFacts WriterInv OpenFacts CommitFacts ReserveFacts WriterFacts.

#[local] Open Scope list_scope.
#[local] Open Scope Z_scope.

(** ** The promise *)

(** The writer without its helper: it knows the length of its file itself. *)
Definition bare (wd : world) (w : Writer) : Writer :=
  set_held [] (set_w_file_len (len_of wd (w_file w)) (set_prefault None w)).

(** What the shared state says of the file the writer is in. *)
Record window (p : Shared) (w : Writer) (wd : world) : Prop := {
  wn_size : p_region_size p = w_region_size w;
  wn_sequence : p_current_sequence p = w_file_sequence w;
  wn_index : p_current_index p = w_current_region_index w;
  wn_current : p_current_ptr p = Some (w_current_region w);
  wn_segment : p_segment p = HSegment (w_file_sequence w) (w_instance w) (w_file w) (len_of wd (w_file w));
  wn_unlocked : p_segment_busy p = false;
  wn_followed : p_handoff p = None;
  wn_next : forall n, p_next p = Some n ->
    n_sequence n = w_file_sequence w /\ n_index n = w_current_region_index w + 1 /\
    n_region n = Mapping (w_file w) (n_index n * w_region_size w) (w_region_size w) /\
    (n_index n + 1) * w_region_size w <= len_of wd (w_file w)
}.

(** What the calls within a file leave as it was. *)
Record same_rest (p0 p : Shared) : Prop := {
  sr_failure : p_failure p = p_failure p0;
  sr_regions : p_regions_per_file p = p_regions_per_file p0;
  sr_spec : p_spec p = p_spec p0;
  sr_ready : p_ready p = p_ready p0;
  sr_ready_sequence : p_ready_sequence p = p_ready_sequence p0;
  sr_next_busy : p_next_segment_busy p = p_next_segment_busy p0;
  sr_claimed : p_claimed p = p_claimed p0;
  sr_in_flight : p_in_flight p = p_in_flight p0;
  sr_base_path : p_base_path p = p_base_path p0;
  sr_doomed : items (p_doomed p) = items (p_doomed p0);
  sr_stop : p_stop p = p_stop p0
}.

#[export] Instance same_rest_preorder : PreOrder same_rest.
Proof.
  split; [by constructor|]. intros p1 p2 p3 [] []. constructor; by etransitivity.
Qed.

(** A thread that has stopped has nothing left to delete: the writer deletes for itself. *)
Definition settled_queue (p : Shared) : Prop := Failure_stopped (p_failure p) = true -> items (p_doomed p) = [].

(** The writer [s] with a helper and [b] without one, in the same world; [p0] is the shared state
    that they began with. *)
Record paired `{Env} (p0 : Shared) (s b : Writer) (wd : world) : Prop := {
  pd_bare : exists held, b = set_held held (bare wd s);
  pd_len : w_file_len s <= len_of wd (w_file s) <= I64_MAX;
  pd_rs : rs_ok (w_region_size s);
  pd_calm : calm wd;
  pd_shared : exists p, w_prefault s = Some p /\ window p s wd /\ same_rest p0 p /\ settled_queue p
}.

(** [m] run by the one does what [m'] does run by the other. *)
Definition in_step `{Env} {A} (p0 : Shared) (s b : Writer) (wd : world) (m m' : M Writer A) : Prop :=
  let o := m s wd in
  let o' := m' b wd in
  o_res o = o_res o' /\ o_world o = o_world o' /\ o_trace o = o_trace o' /\
  paired p0 (o_self o) (o_self o') (o_world o).

(** An operation that does not look at the writer, and changes no file's length. *)
Definition apart {A} (m : M Writer A) : Prop :=
  forall wd, calm wd -> exists x wd' tr, calm wd' /\ (forall i, len_of wd' i = len_of wd i) /\
    forall s, m s wd = Outcome x s wd' tr.

(** ** Operations that do not look at the writer *)

Section apart.
Context `{Env}.

Lemma apart_lift {A} (x : res A) : apart (lift x).
Proof. intros wd Hc. by exists x, wd, []. Qed.
Lemma apart_ret {A} (a : A) : apart (ret a).
Proof. apply (apart_lift (Ok a)). Qed.
Lemma apart_throw {A} e : apart (throw (A := A) e).
Proof. apply apart_lift. Qed.
Lemma apart_die {A} y : apart (die (A := A) y).
Proof. apply apart_lift. Qed.

Lemma apart_bind {A B} (m : M Writer A) (k : A -> M Writer B) :
  apart m -> (forall a, apart (k a)) -> apart (bind m k).
Proof.
  intros Hm Hk wd Hc. destruct (Hm wd Hc) as (x & wd1 & t1 & Hc1 & Hl1 & E1). destruct x as [a|e|y].
  - destruct (Hk a wd1 Hc1) as (x & wd2 & t2 & Hc2 & Hl2 & E2). exists x, wd2, (t1 ++ t2).
    split; [done|]. split; [intros i; by rewrite Hl2|]. intros s. unfold bind. rewrite E1. cbn. by rewrite E2.
  - exists (Err e), wd1, t1. split_and!; [done..|]. intros s. unfold bind. by rewrite E1.
  - exists (Die y), wd1, t1. split_and!; [done..|]. intros s. unfold bind. by rewrite E1.
Qed.

Lemma apart_interfere : apart interfere.
Proof. intros wd Hc. exists (Ok tt), wd, []. split_and!; [done..|]. intros s. by apply reads_interfere, Hc. Qed.

Lemma apart_ask {A} (f : world -> A) : apart (ask f).
Proof. intros wd Hc. by exists (Ok (f wd)), wd, []. Qed.

Lemma apart_write ino off f : apart (emit (fun w => write_inode ino off (f w) w)).
Proof.
  intros wd Hc. eexists (Ok tt), _, _. split; [|split; [|reflexivity]]; [done|]. intros i. apply len_of_write.
Qed.

#[local] Transparent update store.
Lemma apart_update m off n f : apart (update m off n f).
Proof.
  apply apart_bind; [apply apart_interfere|intros _]. apply apart_bind; [apply apart_ask|intros b].
  destruct (negb _); [apply apart_die|]. destruct b; [|apply apart_die].
  apply apart_bind; [apply apart_ask|intros old]. apply apart_bind; [apply (apart_write _ _ (fun _ => f old))|intros _]. apply apart_ret.
Qed.

Lemma apart_store m off bs : apart (store m off bs).
Proof. apply apart_bind; [apply apart_update|intros _; apply apart_ret]. Qed.
#[local] Opaque update store.

Lemma apart_call c : apart (emit (add_call c)).
Proof. intros wd Hc. eexists (Ok tt), _, _. split; [|split; [|reflexivity]]; done. Qed.

Lemma apart_wake_all m : apart (wake_all m).
Proof.
  apply apart_bind; [apply apart_update|intros _]. unfold when. destruct SUPPORTED; [|apply apart_ret].
  apply apart_bind; [apply apart_interfere|intros _; apply apart_call].
Qed.

Lemma apart_div_guard y : apart (div_guard y).
Proof. unfold div_guard. destruct (y =? 0); [apply apart_die|apply apart_ret]. Qed.

End apart.

Create HintDb apart discriminated.
#[export] Hint Constants Opaque : apart.
#[export] Hint Resolve apart_lift apart_ret apart_throw apart_die apart_update apart_store apart_wake_all apart_div_guard : apart.

Lemma wp_outcome {S A} (m : M S A) s w x s1 w1 tr (Q : res A -> S -> world -> Prop) C :
  m s w = Outcome x s1 w1 tr -> Q x s1 w1 -> Forall C tr -> wp m s w Q C.
Proof. unfold wp. intros ->. by split. Qed.

Lemma wp_outcome_bind {S A B} (m : M S A) (k : A -> M S B) s w a s1 w1 (Q : res B -> S -> world -> Prop) C :
  m s w = Outcome (Ok a) s1 w1 [] -> wp (k a) s1 w1 Q C -> wp (bind m k) s w Q C.
Proof. intros E. unfold wp. by rewrite (bind_outcome _ _ _ _ _ _ _ E). Qed.

(** ** Runs in step *)

Section steps.
Context `{EnvOk}.
Implicit Types (p : Shared) (s b : Writer) (wd : world).

(** What is shown of the one run holds of the other. *)
Lemma in_step_wp {A} p0 s b wd (m m' : M Writer A) (Q' : res A -> Writer -> world -> Prop) (Q : res A -> Writer -> world -> Prop) C :
  in_step p0 s b wd m m' -> wp m' b wd Q' C ->
  (forall r s1 b1 wd1, paired p0 s1 b1 wd1 -> Q' r b1 wd1 -> Q r s1 wd1) -> wp m s wd Q C.
Proof.
  intros (Er & Ew & Et & Hp) [HQ HC] HQQ. unfold wp. rewrite Er, Et. split; [|exact HC].
  eapply HQQ; [exact Hp|]. by rewrite Ew.
Qed.

Lemma in_step_outcome {A} p0 s b s1 b1 wd wd1 (m m' : M Writer A) x tr :
  m s wd = Outcome x s1 wd1 tr -> m' b wd = Outcome x b1 wd1 tr -> paired p0 s1 b1 wd1 -> in_step p0 s b wd m m'.
Proof. unfold in_step. intros -> ->. done. Qed.

Lemma in_step_bind {A B} p0 s b wd (m m' : M Writer A) (k k' : A -> M Writer B) :
  in_step p0 s b wd m m' ->
  (forall a s1 b1 wd1 tr, m s wd = Outcome (Ok a) s1 wd1 tr -> m' b wd = Outcome (Ok a) b1 wd1 tr ->
     paired p0 s1 b1 wd1 -> in_step p0 s1 b1 wd1 (k a) (k' a)) ->
  in_step p0 s b wd (bind m k) (bind m' k').
Proof.
  unfold in_step, bind. destruct (m s wd) as [r s1 wd1 tr], (m' b wd) as [r' b1 wd1' tr']. cbn.
  intros (-> & -> & -> & Hp) Hk. destruct r' as [a|e|y]; cbn; [|by split_and!..].
  destruct (Hk a s1 b1 wd1' tr' eq_refl eq_refl Hp) as (Er2 & Ew2 & Et2 & Hp2). cbn. rewrite Er2, Et2. by split_and!.
Qed.

Lemma paired_world p0 s b wd wd' :
  paired p0 s b wd -> calm wd' -> (forall i, len_of wd' i = len_of wd i) -> paired p0 s b wd'.
Proof.
  intros [[held Eb] Hl Hr Hc (p & Ep & [W1 W2 W3 W4 W5 W6 W7 W8] & Hrest & Hq)] Hc' Hl'. constructor; [|by rewrite Hl'|done|done|].
  - exists held. unfold bare. by rewrite Hl'.
  - exists p. split; [done|]. split; [constructor; rewrite ?Hl'; done|done].
Qed.

Lemma in_step_apart {A} p0 s b wd (m : M Writer A) : paired p0 s b wd -> apart m -> in_step p0 s b wd m m.
Proof.
  intros Hp Hm. destruct (Hm wd (pd_calm _ _ _ _ Hp)) as (x & wd' & tr & Hc & Hl & E).
  eapply in_step_outcome; [apply E|apply E|by eapply paired_world].
Qed.

(** Nothing more is read of the writer. *)
Ltac apart := apply in_step_apart; [done|solve [auto with apart]].

Lemma in_step_self {B} p0 s b wd (k : Writer -> M Writer B) :
  in_step p0 s b wd (k s) (k b) -> in_step p0 s b wd (bind self k) (bind self k).
Proof.
  intros (Er & Ew & Et & Hp). unfold in_step. rewrite !(reads_bind _ k _ _ _ (reads_self _ _)). done.
Qed.

Lemma in_step_modify p0 s b wd f :
  paired p0 (f s) (f b) wd -> in_step p0 s b wd (modify f) (modify f).
Proof. intros Hp. by eapply in_step_outcome. Qed.

(** Fields the two writers agree on. *)
Lemma paired_pending p0 s b wd v : paired p0 s b wd -> paired p0 (set_pending v s) (set_pending v b) wd.
Proof.
  intros [[held ->] Hl Hr Hc (p & Ep & [] & Hrest & Hq)]. constructor; [by exists held|done..|].
  exists p. split; [done|]. split; [by constructor|done].
Qed.

Lemma paired_next_hdr_pos p0 s b wd v : paired p0 s b wd -> paired p0 (set_next_hdr_pos v s) (set_next_hdr_pos v b) wd.
Proof.
  intros [[held ->] Hl Hr Hc (p & Ep & [] & Hrest & Hq)]. constructor; [by exists held|done..|].
  exists p. split; [done|]. split; [by constructor|done].
Qed.

Lemma window_prefault p v s wd : window p s wd -> window p (set_prefault v s) wd.
Proof. intros []. by constructor. Qed.

(** *** The hand-over when a region is left *)

Lemma retire_items_rest ls full p wd :
  exists p' v, retire_items ls full p wd = Outcome (Ok v) p' wd [] /\ same_rest p p' /\
    forall w wd', window p w wd' -> window p' w wd'.
Proof.
  revert full p. induction ls as [|l ls IH]; intros full p; cbn [retire_items]; [by exists p, full|].
  rewrite (reads_bind _ _ _ _ _ (reads_self p wd)). destruct (_ && _); [apply IH|].
  destruct (Bounded_push (p_retired p) l) as [q [r|]]; [apply IH|]. rewrite bind_modify.
  destruct (IH full (with_retired q (if match l with LRegion _ _ => false | _ => true end then p_queued_files p + 1 else p_queued_files p) p))
    as (p' & v & E & Hr & Hw).
  exists p', v. split; [exact E|]. split.
  - etransitivity; [|exact Hr]. by constructor.
  - intros w wd' Hwin. apply Hw. destruct Hwin. by constructor.
Qed.

Lemma retire_rest ls p wd :
  exists p', retire ls p wd = Outcome (Ok tt) p' wd [] /\ same_rest p p' /\ forall w wd', window p w wd' -> window p' w wd'.
Proof.
  destruct (retire_items_rest ls false p wd) as (p' & v & E & Hr & Hw). unfold retire, bind. rewrite E. destruct v.
  - eexists. split; [reflexivity|]. split; [etransitivity; [exact Hr|by constructor]|].
    intros w wd' Hwin. destruct (Hw w wd' Hwin). by constructor.
  - eexists. split; [reflexivity|]. by split.
Qed.

Lemma release_rest p wd :
  settled_queue p ->
  exists p', release_if_stopped p wd = Outcome (Ok tt) p' wd [] /\ same_rest p p' /\ forall w wd', window p w wd' -> window p' w wd'.
Proof.
  intros Hq. unfold release_if_stopped. rewrite (reads_bind _ _ _ _ _ (reads_self p wd)).
  destruct (Failure_stopped (p_failure p)) eqn:E; cbn [negb]; [|by exists p].
  rewrite !bind_modify. specialize (Hq E). rewrite Hq. eexists. split; [reflexivity|]. split.
  - by constructor.
  - intros w wd' Hwin. destruct Hwin. by constructor.
Qed.

Lemma same_rest_settled p p' : same_rest p p' -> settled_queue p -> settled_queue p'.
Proof. unfold settled_queue. intros [-> _ _ _ _ _ _ _ _ -> _]. done. Qed.

Lemma moved_rest region index l p wd :
  settled_queue p -> p_handoff p = None -> p_next p = None ->
  exists p', moved region index l p wd = Outcome (Ok tt) p' wd [] /\ same_rest p p' /\
    forall w wd', window p w wd' -> window p' (set_current region index w) wd'.
Proof.
  intros Hq Hh Hnx. unfold moved. rewrite (reads_bind _ _ _ _ _ (reads_self p wd)), bind_modify.
  set (p1 := with_current (Some region) index (p_current_sequence p) p).
  assert (E1 : hand_off p1 wd = Outcome (Ok None) p1 wd []).
  { unfold hand_off. rewrite (reads_bind _ _ _ _ _ (reads_self p1 wd)). cbn. by rewrite Hh. }
  rewrite (bind_outcome _ _ _ _ _ _ _ E1).
  destruct (retire_rest (LRegion (p_current_sequence p) l :: option_list None) p1 wd) as (p2 & E2 & R2 & W2).
  rewrite (bind_outcome _ _ _ _ _ _ _ E2). assert (R1 : same_rest p p1) by by constructor.
  destruct (release_rest p2 wd) as (p3 & E3 & R3 & W3); [eapply same_rest_settled; [exact R2|done]|].
  exists p3. split; [exact E3|]. split; [by etransitivity; [|etransitivity; [exact R2|]]|].
  intros w wd' [V1 V2 V3 V4 V5 V6 V7 V8]. apply W3, W2. constructor; try done. intros n. cbn. by rewrite Hnx.
Qed.

Lemma in_step_switch_region p0 s b wd region index :
  paired p0 s b wd -> (forall p, w_prefault s = Some p -> p_next p = None) ->
  in_step p0 s b wd (switch_region region index) (switch_region region index).
Proof.
  intros [[held ->] Hl Hr Hc (p & Ep & Hwin & Hrest & Hq)] Hnx. set (b := set_held held (bare wd s)).
  destruct (moved_rest region index (w_current_region s) p wd Hq (wn_followed _ _ _ Hwin) (Hnx p Ep)) as (p' & E & Hrest' & Hwin').
  set (s1 := set_prefault (Some p') (set_current region index s)).
  assert (E1 : switch_region region index s wd = Outcome (Ok tt) s1 wd []).
  { unfold switch_region. rewrite (reads_bind _ _ _ _ _ (reads_self s wd)). cbv zeta. rewrite bind_modify, Ep.
    assert (Eo : on_prefault (moved region index (w_current_region s)) (set_current region index s) wd
      = Outcome (Ok (Some tt)) s1 wd []).
    { unfold on_prefault. cbn [w_prefault set_current]. rewrite Ep, E. done. }
    by rewrite (bind_outcome _ _ _ _ _ _ _ Eo). }
  assert (E2 : exists held', switch_region region index b wd = Outcome (Ok tt) (set_held held' (bare wd s1)) wd []).
  { unfold switch_region. rewrite (reads_bind _ _ _ _ _ (reads_self b wd)). cbv zeta. rewrite bind_modify. cbn.
    case_bool_decide; eexists; reflexivity. }
  destruct E2 as [held' E2]. eapply in_step_outcome; [exact E1|exact E2|].
  constructor; [by exists held'|done|done|done|]. exists p'. split; [done|]. split; [|split].
  - by apply window_prefault, Hwin'.
  - by etransitivity.
  - by eapply same_rest_settled.
Qed.

(** *** The mapping of a region *)

Lemma bare_prefault v s wd : bare wd (set_prefault v s) = bare wd s.
Proof. done. Qed.

(** The file [f] grown to [want] bytes if it is shorter, and the state that leaves on the way. *)
Definition grown_to (f want : Z) (wd : world) : world := if want >? len_of wd f then resize_inode f want wd else wd.
Definition growth (f want : Z) (wd : world) : list world := if want >? len_of wd f then [resize_inode f want wd] else [].

Lemma grown_to_len f want wd : len_of (grown_to f want wd) f = Z.max (len_of wd f) want.
Proof. unfold grown_to. destruct (Z.gtb_spec want (len_of wd f)); [rewrite len_of_resize_eq|]; lia. Qed.

Lemma grown_to_calm f want wd : calm wd -> calm (grown_to f want wd).
Proof. unfold grown_to. by destruct (_ >? _). Qed.

Lemma grow_run {S} f want (s : S) wd :
  calm wd -> want <= I64_MAX -> want > len_of wd f ->
  set_len f want s wd = Outcome (Ok tt) s (grown_to f want wd) (growth f want wd).
Proof.
  intros Hc Hw Hgt. unfold set_len, grown_to, growth. rewrite (reads_bind _ _ _ _ _ (reads_syscall s wd Hc)).
  replace (want >? len_of wd f) with true by (symmetry; rewrite Z.gtb_ltb; apply Z.ltb_lt; lia).
  replace (want >? I64_MAX) with false by (symmetry; rewrite Z.gtb_ltb; apply Z.ltb_ge; lia). done.
Qed.

Lemma bare_ensure_len s held wd want :
  calm wd -> want <= I64_MAX ->
  ensure_len want (set_held held (bare wd s)) wd
    = Outcome (Ok tt) (set_held held (bare (grown_to (w_file s) want wd) s)) (grown_to (w_file s) want wd) (growth (w_file s) want wd).
Proof.
  intros Hc Hw. unfold ensure_len. rewrite (reads_bind _ _ _ _ _ (reads_self _ wd)).
  cbn [w_prefault w_file_len w_file set_held bare set_w_file_len set_prefault].
  destruct (Z.gtb_spec want (len_of wd (w_file s))) as [Hgt|Hle].
  - rewrite (bind_outcome_trace _ _ _ _ _ _ _ _ _ _ _ _ (grow_run (w_file s) want _ wd Hc Hw ltac:(lia)) eq_refl).
    rewrite app_nil_r. unfold bare at 2. rewrite grown_to_len, Z.max_r by lia. done.
  - unfold grown_to, growth. by replace (want >? len_of wd (w_file s)) with false by (symmetry; rewrite Z.gtb_ltb; apply Z.ltb_ge; lia).
Qed.

(** The shared state once the file is [len] bytes long. *)
Definition with_len (len : Z) (p : Shared) : Shared :=
  with_segment (HSegment (hs_sequence (p_segment p)) (hs_instance (p_segment p)) (hs_file (p_segment p)) len) p.

Lemma helped_ensure_len s p wd want :
  calm wd -> want <= I64_MAX -> w_prefault s = Some p -> window p s wd -> w_file_len s <= len_of wd (w_file s) ->
  let len := Z.max (len_of wd (w_file s)) want in
  ensure_len want s wd = Outcome (Ok tt) (set_w_file_len len (set_prefault (Some (with_len len p)) s))
    (grown_to (w_file s) want wd) (growth (w_file s) want wd).
Proof.
  intros Hc Hw Ep Hwin Hl len. pose proof (wn_segment _ _ _ Hwin) as Es.
  unfold ensure_len. rewrite (reads_bind _ _ _ _ _ (reads_self _ wd)). cbv zeta. rewrite Ep, Es.
  cbn [hs_sequence hs_instance hs_file hs_len]. rewrite Z.eqb_refl.
  destruct (Z.gtb_spec want (len_of wd (w_file s))) as [Hgt|Hle].
  - erewrite (bind_outcome_trace _ _ s wd tt (set_prefault (Some (with_len want p)) s));
      [|eapply bind_outcome_trace; [apply grow_run; [done|done|lia]|unfold with_len; by rewrite Es]|reflexivity].
    rewrite !app_nil_r. cbn. unfold len. replace (Z.max (w_file_len s) (Z.max want (len_of wd (w_file s)))) with want by lia.
    by replace (Z.max (len_of wd (w_file s)) want) with want by lia.
  - rewrite (bind_outcome _ _ s wd tt s wd) by done.
    unfold grown_to, growth. replace (want >? len_of wd (w_file s)) with false by (symmetry; rewrite Z.gtb_ltb; apply Z.ltb_ge; lia).
    unfold modify, len. replace (Z.max (w_file_len s) (Z.max want (len_of wd (w_file s)))) with (len_of wd (w_file s)) by lia.
    replace (Z.max (len_of wd (w_file s)) want) with (len_of wd (w_file s)) by lia. do 2 f_equal.
    unfold with_len. rewrite Es. cbn. destruct s; cbn in *; subst; f_equal.
    destruct p; cbn in *; by subst.
Qed.

(** The mapping both writers get. *)
Definition at_region (s : Writer) (idx : Z) : RegionMapping :=
  Mapping (w_file s) (idx * w_region_size s) (w_region_size s).

Lemma set_prefault_same p s : w_prefault s = Some p -> set_prefault (Some p) s = s.
Proof. intros <-. by destruct s. Qed.

(** The writer takes what the helper holds ready, if it holds a region: it is the next one. *)
Lemma take_region_run p s wd idx :
  window p s wd -> idx = w_current_region_index s + 1 ->
  (Prefaulter_take (w_file_sequence s) idx p wd = Outcome (Ok None) p wd [] /\ p_next p = None) \/
  (Prefaulter_take (w_file_sequence s) idx p wd = Outcome (Ok (Some (at_region s idx))) (with_next None p) wd [] /\
   (idx + 1) * w_region_size s <= len_of wd (w_file s)).
Proof.
  intros Hwin ->. unfold Prefaulter_take. rewrite (reads_bind _ _ _ _ _ (reads_self p wd)).
  destruct (p_next p) as [n|] eqn:E; [|by left]. destruct (wn_next _ _ _ Hwin n E) as (Hs & Hi & Hm & Hl).
  rewrite Hs, Hi, !Z.eqb_refl. cbn [andb]. right. rewrite bind_modify, Hm, Hi. by rewrite Hi in Hl.
Qed.

Lemma window_grown p s wd want l :
  window p s wd -> window (with_len (Z.max (len_of wd (w_file s)) want) p) (set_w_file_len l s) (grown_to (w_file s) want wd).
Proof.
  intros [W1 W2 W3 W4 W5 W6 W7 W8]. constructor; try done.
  - unfold with_len. rewrite W5, grown_to_len. done.
  - intros n Hn. destruct (W8 n Hn) as (? & ? & ? & ?). split_and!; try done.
    change (w_file (set_w_file_len l s)) with (w_file s). rewrite grown_to_len. cbn. lia.
Qed.

(** A region of the file, once that is long enough. *)
Section mapping.
Context (s : Writer) (wd : world) (idx : Z).
Hypothesis Hc : calm wd.
Hypothesis Hrs : rs_ok (w_region_size s).
Hypothesis Hidx : 0 <= idx.
Hypothesis Hmax : (idx + 1) * w_region_size s <= I64_MAX.
#[local] Notation want := ((idx + 1) * w_region_size s).
#[local] Notation wd' := (grown_to (w_file s) want wd).

Lemma map_grown {S} (s0 : S) :
  create_writable (w_file s) (u64 (idx * w_region_size s)) (w_region_size s) s0 wd' = Outcome (Ok (at_region s idx)) s0 wd' [].
Proof.
  pose proof (rs_pos _ Hrs). unfold I64_MAX in Hmax. rewrite wrap_small by lia.
  apply reads_create_writable; [by apply grown_to_calm| |lia|rewrite grown_to_len; lia].
  pose proof (rs_aligned (w_region_size s) (idx * w_region_size s) Hrs) as Ha. by rewrite Z.div_mul in Ha by lia.
Qed.

Lemma want_small : u64 want = want.
Proof. pose proof (rs_pos _ Hrs). unfold I64_MAX in Hmax. apply wrap_small. lia. Qed.

Lemma bare_region_at held :
  region_at idx (set_held held (bare wd s)) wd
    = Outcome (Ok (at_region s idx)) (set_held held (bare wd' s)) wd' (growth (w_file s) want wd).
Proof.
  unfold region_at. rewrite (reads_bind _ _ _ _ _ (reads_self _ wd)). cbv zeta.
  rewrite (reads_bind _ _ _ _ None) by done.
  change (w_region_size (set_held held (bare wd s))) with (w_region_size s).
  change (w_file (set_held held (bare wd s))) with (w_file s). rewrite want_small.
  rewrite (bind_outcome_trace _ _ _ _ _ _ _ _ _ _ _ _ (bare_ensure_len s held wd want Hc Hmax) (map_grown _)).
  by rewrite app_nil_r.
Qed.

(** The writer with a helper: the region prepared ahead, or one it maps itself. *)
Lemma helped_region_at p :
  w_prefault s = Some p -> window p s wd -> w_file_len s <= len_of wd (w_file s) -> idx = w_current_region_index s + 1 ->
  exists p' l, region_at idx s wd
      = Outcome (Ok (at_region s idx)) (set_w_file_len l (set_prefault (Some p') s)) wd' (growth (w_file s) want wd) /\
    l <= len_of wd' (w_file s) /\ same_rest p p' /\ window p' (set_w_file_len l s) wd' /\ p_next p' = None.
Proof.
  intros Ep Hwin Hl Hcur. unfold region_at. rewrite (reads_bind _ _ _ _ _ (reads_self _ wd)). cbv zeta. rewrite want_small.
  destruct (take_region_run p s wd idx Hwin Hcur) as [[E Hnx]|[E Hle]].
  - assert (Eo : on_prefault (Prefaulter_take (w_file_sequence s) idx) s wd = Outcome (Ok (Some None)) s wd []).
    { unfold on_prefault. by rewrite Ep, E; cbn; rewrite set_prefault_same. }
    rewrite (bind_outcome _ _ _ _ _ _ _ Eo).
    rewrite (bind_outcome_trace _ _ _ _ _ _ _ _ _ _ _ _ (helped_ensure_len s p wd want Hc Hmax Ep Hwin Hl) (map_grown _)).
    rewrite app_nil_r. eexists _, _. split; [reflexivity|]. split; [rewrite grown_to_len; lia|].
    split; [by constructor|]. split; [by apply window_grown|done].
  - assert (Eo : on_prefault (Prefaulter_take (w_file_sequence s) idx) s wd
      = Outcome (Ok (Some (Some (at_region s idx)))) (set_prefault (Some (with_next None p)) s) wd []).
    { unfold on_prefault. by rewrite Ep, E. }
    rewrite (bind_outcome _ _ _ _ _ _ _ Eo), bind_modify.
    assert (Ew : wd' = wd /\ growth (w_file s) want wd = []).
    { unfold grown_to, growth. by replace (want >? len_of wd (w_file s)) with false by (symmetry; rewrite Z.gtb_ltb; apply Z.ltb_ge; lia). }
    destruct Ew as [Ew ->]. rewrite Ew. eexists _, _. split; [reflexivity|]. split; [cbn; lia|].
    split; [by constructor|]. split; [|done]. destruct Hwin. by constructor.
Qed.

End mapping.

Lemma in_step_region_at p0 s b wd idx :
  paired p0 s b wd -> 0 <= idx -> (idx + 1) * w_region_size s <= I64_MAX -> idx = w_current_region_index s + 1 ->
  in_step p0 s b wd (region_at idx) (region_at idx) /\
  forall p, w_prefault (o_self (region_at idx s wd)) = Some p -> p_next p = None.
Proof.
  intros [[held ->] Hl Hrs Hc (p & Ep & Hwin & Hrest & Hq)] Hidx Hmax Hcur.
  destruct (helped_region_at s wd idx Hc Hrs Hidx Hmax p Ep Hwin (proj1 Hl) Hcur) as (p' & l & Es & Hl' & Hrest' & Hwin' & Hnx).
  split; [|rewrite Es; cbn; by intros q [= <-]].
  eapply in_step_outcome; [exact Es|by apply bare_region_at|]. constructor.
  - by exists held.
  - cbn. rewrite grown_to_len. rewrite grown_to_len in Hl'. lia.
  - done.
  - by apply grown_to_calm.
  - exists p'. split; [done|]. split; [|split].
    + destruct Hwin'. by constructor.
    + by etransitivity.
    + by eapply same_rest_settled.
Qed.

(** *** Reserving within the file, and committing *)

Lemma in_step_bind_modify {B} p0 s b wd f (k k' : unit -> M Writer B) :
  in_step p0 (f s) (f b) wd (k tt) (k' tt) -> in_step p0 s b wd (bind (modify f) k) (bind (modify f) k').
Proof. unfold in_step. rewrite !bind_modify. done. Qed.

Lemma in_step_bind_apart {A B} p0 s b wd (m : M Writer A) (k k' : A -> M Writer B) :
  paired p0 s b wd -> apart m -> (forall a wd1, paired p0 s b wd1 -> in_step p0 s b wd1 (k a) (k' a)) ->
  in_step p0 s b wd (bind m k) (bind m k').
Proof.
  intros Hp Hm Hk. destruct (Hm wd (pd_calm _ _ _ _ Hp)) as (x & wd' & tr & Hc & Hl & E).
  apply in_step_bind; [by apply in_step_apart|]. intros a s1 b1 wd1 t Es Eb _. rewrite E in Es. rewrite E in Eb.
  injection Es as -> <- <- <-. injection Eb as <-. apply Hk. by eapply paired_world.
Qed.

(** What the two writers agree on. *)
Record agree (s b : Writer) : Prop := {
  ag_pos : w_next_hdr_pos b = w_next_hdr_pos s;
  ag_rs : w_region_size b = w_region_size s;
  ag_current : w_current_region b = w_current_region s;
  ag_channel : w_channel_region b = w_channel_region s;
  ag_file : w_file b = w_file s;
  ag_pending : w_pending_msg_size b = w_pending_msg_size s;
  ag_wake : w_wake b = w_wake s;
  ag_roll : w_file_roll_size b = w_file_roll_size s;
  ag_mtu : w_mtu b = w_mtu s;
  ag_index : w_current_region_index b = w_current_region_index s
}.

Lemma paired_agree p0 s b wd : paired p0 s b wd -> agree s b.
Proof. intros [[held ->] _ _ _ _]. by constructor. Qed.

Lemma in_step_store_wp p0 s b wd v : paired p0 s b wd -> in_step p0 s b wd (store_wp_local v) (store_wp_local v).
Proof.
  intros Hp. apply in_step_self. rewrite (ag_channel _ _ (paired_agree _ _ _ _ Hp)). apply in_step_apart; [done|apply apart_store].
Qed.

Lemma in_step_publish_wp p0 s b wd v : paired p0 s b wd -> in_step p0 s b wd (publish_wp v) (publish_wp v).
Proof.
  intros Hp. apply in_step_self. destruct (paired_agree _ _ _ _ Hp) as [_ _ _ Ec _ _ Ew _ _ _]. rewrite Ec, Ew. cbv zeta.
  apply in_step_apart; [done|]. apply apart_bind; [apply apart_update|intros _].
  apply apart_bind; [apply apart_store|intros _]. destruct (w_wake s); cbn [when]; auto with apart.
Qed.

Lemma in_step_roll_over p0 s b wd es :
  paired p0 s b wd -> writer_ok b wd es -> (w_next_hdr_pos s / w_region_size s + 2) * w_region_size s <= I64_MAX ->
  in_step p0 s b wd roll_over_region roll_over_region.
Proof.
  intros Hp Hok Hmax. destruct (paired_agree _ _ _ _ Hp) as [Eq Er Ec _ _ _ _ _ _ Ei].
  destruct (skip_place b wd es Hok) as ((Hpos & Hqm & Hroom & Hqd & Hqe & Hrs) & (Hn1 & Hn2 & Hn3 & Hn8) & Hqd' & _).
  rewrite Eq, Er in *. set (q := w_next_hdr_pos s) in *. set (rs := w_region_size s) in *. unfold I64_MAX in Hmax.
  unfold roll_over_region. apply in_step_bind_modify, in_step_self. apply (paired_pending _ _ _ _ None) in Hp. cbv zeta.
  change (w_next_hdr_pos (set_pending None ?x)) with (w_next_hdr_pos x). change (w_region_size (set_pending None ?x)) with (w_region_size x).
  change (w_current_region (set_pending None ?x)) with (w_current_region x). rewrite Eq, Er, Ec. fold q rs.
  change HEADER_SLOT with 16. replace (rs - q mod rs >=? 16) with true by (symmetry; rewrite Z.geb_leb; apply Z.leb_le; lia).
  rewrite (wrap_small 64 (q + 16 + _)) by lia. replace (q + 16 + (rs - q mod rs - 16)) with (en_next (skip_entry b)) by lia.
  rewrite Hqd'. destruct (in_step_region_at p0 (set_pending None s) (set_pending None b) wd (q / rs + 1)) as [Hstep Hnx];
    [done|lia|change (w_region_size (set_pending None s)) with rs; unfold I64_MAX; lia|
     change (q / rs + 1 = w_current_region_index s + 1); rewrite <- Ei, (wk_index _ _ _ Hok), Eq, Er; done|].
  apply in_step_bind; [exact Hstep|].
  clear Hp. intros region s1 b1 wd1 tr Es1 _ Hp. rewrite Es1 in Hnx. cbn [o_self] in Hnx. clear Es1 tr. destruct (get_bytes_mut region 0 _); [|apart].
  apply in_step_bind_apart; [done|apply apart_store|]. clear wd1 Hp. intros _ wd1 Hp.
  destruct (get_bytes_mut _ (q mod rs) _); [|apart].
  apply in_step_bind_apart; [done|apply apart_store|]. clear wd1 Hp. intros _ wd1 Hp.
  apply in_step_bind_apart; [done|apply apart_store|]. clear wd1 Hp. intros _ wd1 Hp.
  apply in_step_bind; [by apply in_step_switch_region|]. intros _ s9 b9 wd9 _ _ _ Hp9.
  apply in_step_bind_modify, in_step_store_wp. by apply paired_next_hdr_pos.
Qed.

(** A turn of the reservation's loop that does not roll. *)
Lemma in_step_reserve p0 s b wd es n :
  paired p0 s b wd -> writer_ok b wd es ->
  (w_region_size s < w_next_hdr_pos s mod w_region_size s + needed n -> (w_next_hdr_pos s / w_region_size s + 2) * w_region_size s <= I64_MAX) ->
  0 <= n < 2 ^ 32 -> w_file_roll_size s = 0 \/ w_next_hdr_pos s + needed n <= w_file_roll_size s ->
  in_step p0 s b wd (reserve_step n (align_up (HEADER_SLOT + n)) (needed n)) (reserve_step n (align_up (HEADER_SLOT + n)) (needed n)).
Proof.
  intros Hp Hok Hmax Hn Hfile. destruct (paired_agree _ _ _ _ Hp) as [Eq Er Ec _ _ _ _ Ef _ _].
  pose proof (needed_bounds n Hn) as [Hnb _]. pose proof (writer_ok_next _ _ _ Hok) as Hpos.
  unfold reserve_step. apply in_step_self. cbv zeta. rewrite Eq, Er, Ec, Ef.
  assert (Hf : (w_file_roll_size s >? 0) && (u64 (w_next_hdr_pos s + needed n) >? w_file_roll_size s) = false).
  { rewrite wrap_small by lia. apply andb_false_iff. destruct Hfile as [->|]; [by left|right]. rewrite Z.gtb_ltb. apply Z.ltb_ge. lia. }
  rewrite Hf. pose proof (rs_pos _ (pd_rs _ _ _ _ Hp)) as Hrs. pose proof (Z.mod_pos_bound (w_next_hdr_pos s) (w_region_size s)).
  rewrite (wrap_small 64 (w_next_hdr_pos s mod w_region_size s + needed n)) by lia.
  destruct (Z.gtb_spec (w_next_hdr_pos s mod w_region_size s + needed n) (w_region_size s)) as [Hgt|_]; [specialize (Hmax ltac:(lia))|].
  - apply in_step_bind; [by eapply in_step_roll_over|]. intros _ s1 b1 wd1 _ _ _ Hp1. apart.
  - destruct (get_bytes_mut _ (u64 _) _); [|apart].
    apply in_step_bind_apart; [done|apply apart_store|]. intros _ wd1 Hp1.
    apply in_step_bind_modify. apply in_step_apart; [by apply paired_pending|].
    apply apart_bind; [apply apart_lift|intros; apply apart_ret].
Qed.

Lemma in_step_commit p0 s b wd mt len meta :
  paired p0 s b wd -> in_step p0 s b wd (Writer_commit mt len meta) (Writer_commit mt len meta).
Proof.
  intros Hp. destruct (paired_agree _ _ _ _ Hp) as [Eq Er Ec _ _ Epm _ _ _ _].
  unfold Writer_commit. apply in_step_self, in_step_bind_modify. rewrite Eq, Er, Ec, Epm. apply (paired_pending _ _ _ _ None) in Hp.
  apply in_step_bind_apart; [done|apply apart_lift|]. intros reserved wd1 Hp1. clear Hp.
  destruct (len >? reserved); [apart|].
  apply in_step_bind_apart; [done|apply apart_div_guard|]. intros _ wd2 Hp2. clear wd1 Hp1. cbv zeta.
  destruct (get_bytes_mut _ _ _); [|apart].
  do 5 (apply in_step_bind_apart; [done|apply apart_store|clear wd2 Hp2; intros _ wd2 Hp2]).
  apply in_step_bind_apart; [done| |].
  { destruct (len <? reserved); [|auto with apart]. destruct (get_bytes_mut _ _ _); [apply apart_store|auto with apart]. }
  intros _ wd3 Hp3. apply in_step_bind_apart; [done|apply apart_store|]. intros _ wd4 Hp4.
  apply in_step_bind_modify, in_step_publish_wp. by apply paired_next_hdr_pos.
Qed.

End steps.
