(* ===== verification/AssistedRolls.v ===== *)
(** * Rolls of a writer with a helper (src/lib.rs: roll_file; src/prefault.rs)

    What the shared state promises about the next file, and that a roll into a file the helper
    prepared, or into one prepared by the writer for want of it, continues the channel. *)

From Stdlib Require Import String.
From S2P Require Import Prelude Bytes Effects Region Channel V4 V4Facts Names NamesFacts Segment Helper Prefault Writer Chain RegionFacts SegmentFacts WriterInv OpenFacts CommitFacts ReserveFacts PrepareFacts RollFacts WriterFacts Assisted.

#[local] Open Scope string_scope.
#[local] Open Scope list_scope.
#[local] Open Scope Z_scope.

(** ** The promise about the next file *)

(** The name of the channel's segment [k]. *)
#[local] Notation named w k := (channel_file_name (w_base_path w) k).
#[local] Notation next_seq w := (w_file_sequence w + 1).

(** An instance ID the random source may give, its attempt's name free. *)
Definition id_free (w : Writer) (wd : world) (id : InstanceId) : Prop :=
  id_ok id /\ id <> InstanceId_NONE /\ forall k, w_dir wd !! attempt_name (w_base_path w) k id = None.

(** What a writer is told when it is built, and what it needs of the world to roll. *)
Record grounds (w : Writer) (wd : world) : Prop := {
  gd_sequence : 0 <= w_file_sequence w <= U64_MAX;
  gd_instance : id_ok (w_instance w) /\ w_instance w <> InstanceId_NONE;
  gd_name : name_ok (w_channel_name w);
  gd_fresh : w_file w < w_next wd;
  gd_base : w_dir wd !! w_base_path w <> Some DDir;
  gd_roll : 0 <= w_file_roll_size w <= U64_MAX /\ (w_file_roll_size w = 0 \/ 2 * w_region_size w <= w_file_roll_size w);
  gd_len : w_file_roll_size w = 0 \/ exists len, preallocation_len (w_region_size w) (w_file_roll_size w) = Ok len;
  gd_keep : keep_ok w;
  gd_random : Forall (id_free w wd) (o_random (w_oracle wd));
  gd_beyond : forall k, next_seq w < k <= U64_MAX -> w_dir wd !! named w k = None
}.

(** The file [ino] is the successor of the writer's, prepared and under its name. *)
Record installed `{Env} (w : Writer) (wd : world) (ino len : Z) (id : InstanceId) : Prop := {
  in_id : id_ok id /\ id <> InstanceId_NONE;
  in_name : w_dir wd !! named w (next_seq w) = Some (DFile ino);
  in_new : w_file w < ino < w_next wd;
  in_len : preallocation_len (w_region_size w) (w_file_roll_size w) = Ok len;
  in_bytes : prepared wd ino len (next_seq w) (w_region_size w) (w_mtu w) (w_channel_name w) 0
               (generation_of w wd) (successor_identity w id)
}.

Definition prepared_segment (w : Writer) (ino len : Z) : PreparedSegment :=
  PSegment ino (Mapping ino 0 (w_region_size w)) (Mapping ino 0 (w_region_size w)) 0 len FIRST_RECORD.

(** What the shared state says of the next file. *)
Record pledge `{Env} (p : Shared) (w : Writer) (wd : world) : Prop := {
  pl_base_path : p_base_path p = w_base_path w;
  pl_claimed : p_claimed p = w_file_sequence w;
  pl_in_flight : p_in_flight p = NONE;
  pl_unlocked : p_next_segment_busy p = false;
  pl_doomed : Forall (fun k => 0 <= k < w_file_sequence w) (items (p_doomed p));
  pl_stopped : settled_queue p;
  pl_spec : match p_spec p with
            | Some spec => 0 < w_file_roll_size w /\
                spec = MkSpec (w_base_path w) (w_file_roll_size w) (w_mtu w) (w_channel_name w) (generation_of w wd)
            | None => True
            end;
  pl_ready : match p_ready p with
             | Some n => p_ready_sequence p = next_seq w /\ exists ino len id,
                 n = MkNextSegment (next_seq w) (successor_identity w id) (prepared_segment w ino len) ino /\
                 installed w wd ino len id
             | None => p_ready_sequence p = NONE /\ (next_seq w <= U64_MAX -> w_dir wd !! named w (next_seq w) = None)
             end
}.

(** A writer with a helper between two calls, its segment holding the records [es]. *)
Record assisted `{Env} (w : Writer) (wd : world) (es : list Entry) : Prop := {
  as_ok : writer_ok (bare wd w) wd es;
  as_len : w_file_len w <= len_of wd (w_file w);
  as_calm : calm wd;
  as_grounds : grounds w wd;
  as_shared : exists p, w_prefault w = Some p /\ window p w wd /\ pledge p w wd
}.

Section assisted.
Context `{EnvOk}.

Lemma assisted_paired p w wd es :
  assisted w wd es -> w_prefault w = Some p -> paired p w (bare wd w) wd.
Proof.
  intros [Hok Hl Hc Hg (p' & Ep & Hw & Hp)] E. rewrite Ep in E. injection E as ->. constructor; [by exists []| |apply Hok|done|].
  - split; [done|apply Hok].
  - exists p. split_and!; [done|done|done|apply Hp].
Qed.

Lemma writer_ok_held held w wd es : writer_ok (set_held held w) wd es -> writer_ok w wd es.
Proof. intros []. by constructor. Qed.

(** What the file's bytes say does not change while the file is written. *)
Lemma generation_kept w w' wd wd' :
  w_file w' = w_file w -> kept_head (data_of wd (w_file w)) (data_of wd' (w_file w)) -> generation_of w' wd' = generation_of w wd.
Proof.
  intros Ef (_ & _ & Hs). unfold generation_of. rewrite Ef. symmetry. apply get_same. eapply same_sub; [exact Hs|done|done].
Qed.

Lemma prepared_same wd wd' ino len seq rs mtu name base gen i :
  inode_of wd' ino = inode_of wd ino -> prepared wd ino len seq rs mtu name base gen i -> prepared wd' ino len seq rs mtu name base gen i.
Proof. intros E [Hl Hb]. constructor; unfold len_of, data_of in *; by rewrite E. Qed.

Lemma grounds_kept w w' wd wd' :
  grounds w wd -> same_channel w w' -> grows (w_file w) wd wd' -> grounds w' wd'.
Proof.
  intros [] [E1 E2 E3 E4 E5 E6 E7 E8 E9 E10] [G1 G2 G3 _ _].
  constructor; unfold keep_ok, id_free in *; rewrite ?E1, ?E2, ?E3, ?E4, ?E5, ?E6, ?E7, ?E8, ?E9, ?G1, ?G2, ?G3; done.
Qed.

Lemma pledge_kept p p' w w' wd wd' :
  pledge p w wd -> same_rest p p' -> same_channel w w' -> grows (w_file w) wd wd' ->
  kept_head (data_of wd (w_file w)) (data_of wd' (w_file w)) -> pledge p' w' wd'.
Proof.
  intros [P1 P2 P3 P4 P5 P6 P7 P8] [R1 R2 R3 R4 R5 R6 R7 R8 R9 R10 R11] Hsc Hg Hk.
  pose proof (generation_kept w w' wd wd' (sc_file _ _ Hsc) Hk) as Egen. destruct Hsc as [E1 E2 E3 E4 E5 E6 E7 E8 E9 E10].
  constructor; unfold settled_queue in *; rewrite ?R1, ?R3, ?R4, ?R5, ?R6, ?R7, ?R8, ?R9, ?R10, ?E1, ?E2, ?E6, ?E7, ?E9, ?Egen; try done.
  destruct (p_ready p) as [n|]; [|by rewrite (gr_dir _ _ _ Hg)].
  destruct P8 as (Es & ino & len & id & En & [I1 I2 I3 I4 I5]). split; [done|]. exists ino, len, id. split.
  - unfold prepared_segment, successor_identity in *. by rewrite E2, E3, E5.
  - constructor; unfold successor_identity in *; rewrite ?E1, ?E2, ?E3, ?E4, ?E5, ?E6, ?E7, ?E9, ?Egen, ?(gr_dir _ _ _ Hg), ?(gr_next _ _ _ Hg); try done.
    eapply prepared_same; [|exact I5]. apply Hg. lia.
Qed.

(** A call within the file keeps the invariant. *)
Lemma assisted_kept p w wd es w' b' wd' es' :
  assisted w wd es -> w_prefault w = Some p -> paired p w' b' wd' -> writer_ok b' wd' es' ->
  same_channel w w' -> grows (w_file w) wd wd' ->
  kept_head (data_of wd (w_file w)) (data_of wd' (w_file w)) -> assisted w' wd' es'.
Proof.
  intros [Hok Hl Hc Hg (p0 & Ep & Hw & Hp)] E [[held ->] Hl' _ Hc' (p' & Ep' & Hw' & Hr' & _)] Hok' Hsc Hgr Hk.
  rewrite Ep in E. injection E as ->. constructor; [by eapply writer_ok_held|apply Hl'|done|by eapply grounds_kept|].
  exists p'. split; [done|]. split; [done|]. by eapply pledge_kept.
Qed.

(** ** Segments retention drops *)

(** [wd'] is [wd] without some of the names of the segments [ks]. *)
Record trimmed (base : string) (ks : list Z) (wd wd' : world) : Prop := {
  tm_inodes : w_inodes wd' = w_inodes wd;
  tm_next : w_next wd' = w_next wd;
  tm_oracle : w_oracle wd' = w_oracle wd;
  tm_dir : forall name, w_dir wd' !! name = w_dir wd !! name \/
    (w_dir wd' !! name = None /\ exists k, k ∈ ks /\ name = channel_file_name base k)
}.

Lemma trimmed_refl base ks wd : trimmed base ks wd wd.
Proof. constructor; auto. Qed.

Lemma trimmed_trans base ks wd1 wd2 wd3 : trimmed base ks wd1 wd2 -> trimmed base ks wd2 wd3 -> trimmed base ks wd1 wd3.
Proof.
  intros [A1 A2 A3 A4] [B1 B2 B3 B4]. constructor; try by etransitivity.
  intros name. destruct (B4 name) as [->|]; [apply A4|by right].
Qed.

Lemma trimmed_more base ks ks' wd wd' : trimmed base ks wd wd' -> ks ⊆ ks' -> trimmed base ks' wd wd'.
Proof.
  intros [? ? ? Hd] Hk. constructor; try done. intros name. destruct (Hd name) as [|(? & k & ? & ?)]; [by left|right].
  split; [done|]. exists k. split; [by apply Hk|done].
Qed.

Lemma trimmed_calm base ks wd wd' : trimmed base ks wd wd' -> calm wd -> calm wd'.
Proof. unfold calm, quiet, healthy. intros [_ _ -> _]. done. Qed.

Lemma trimmed_not_dir base ks wd wd' name : trimmed base ks wd wd' -> w_dir wd !! name <> Some DDir -> w_dir wd' !! name <> Some DDir.
Proof. intros [_ _ _ Hd] Hn. destruct (Hd name) as [->|[-> _]]; done. Qed.

(** A name of none of the segments [ks] stays. *)
Lemma trimmed_named base ks wd wd' k :
  trimmed base ks wd wd' -> Forall (fun j => 0 <= j <= U64_MAX) ks -> 0 <= k <= U64_MAX -> k ∉ ks ->
  w_dir wd' !! channel_file_name base k = w_dir wd !! channel_file_name base k.
Proof.
  intros [_ _ _ Hd] Hks Hk Hn. destruct (Hd (channel_file_name base k)) as [|(_ & j & Hj & E)]; [done|].
  rewrite Forall_forall in Hks. apply channel_file_name_inj in E; [by subst|done|by apply Hks].
Qed.

Lemma prefault_delete_from {S} base ks js (s : S) wd w0 :
  calm wd -> w_dir wd !! base <> Some DDir -> js ⊆ ks -> trimmed base ks wd w0 ->
  wp (prefault_delete base js) s w0 (fun r s' wd' => r = Ok tt /\ s' = s /\ trimmed base ks wd wd') (trimmed base ks wd).
Proof.
  intros Hc Hb. unfold prefault_delete. revert w0. induction js as [|k js IH]; intros w0 Hsub Ht; [by apply wp_ret|].
  cbn [for_each]. apply wp_bind. pose proof (trimmed_calm _ _ _ _ Ht Hc) as Hc0. pose proof (trimmed_not_dir _ _ _ _ base Ht Hb) as Hb0.
  assert (Hjs : js ⊆ ks) by (intros x Hx; apply Hsub; by right).
  eapply (wp_reads_bind _ _ _ _ (Some (channel_file_name base k))).
  { unfold ok. eapply reads_seq; [apply reads_attempt_ok; by apply reads_channel_path|]. done. }
  cbv beta iota. unfold ignore. apply wp_bind, wp_attempt. unfold remove_file.
  eapply wp_reads_bind; [by apply reads_syscall|]. apply wp_bind, wp_ask.
  destruct (w_dir w0 !! channel_file_name base k) as [[j|]|] eqn:E; [|apply wp_lift, wp_ret; by apply IH..].
  assert (Hd : trimmed base ks wd (set_dir (base.delete (channel_file_name base k) (w_dir w0)) w0)).
  { eapply trimmed_trans; [exact Ht|]. constructor; try done. intros name. cbn.
    destruct (decide (name = channel_file_name base k)) as [->|Hne]; [right|left; by rewrite lookup_delete_ne].
    rewrite lookup_delete_eq. split; [done|]. exists k. split; [apply Hsub; by left|done]. }
  apply wp_emit; [done|]. apply wp_ret. by apply IH.
Qed.

Lemma prefault_delete_run {S} base ks (s : S) wd :
  calm wd -> w_dir wd !! base <> Some DDir ->
  wp (prefault_delete base ks) s wd (fun r s' wd' => r = Ok tt /\ s' = s /\ trimmed base ks wd wd') (trimmed base ks wd).
Proof. intros Hc Hb. apply prefault_delete_from; [done|done|done|apply trimmed_refl]. Qed.

(** The shared state but for the queue of segments to delete. *)
Record same_but_doomed (p p' : Shared) : Prop := {
  sd_rest : same_rest (with_doomed (p_doomed p) p) (with_doomed (p_doomed p) p');
  sd_window : forall w wd, window p w wd -> window p' w wd
}.

Lemma same_but_doomed_trans p1 p2 p3 : same_but_doomed p1 p2 -> same_but_doomed p2 p3 -> same_but_doomed p1 p3.
Proof. intros [[] ?] [[] ?]. constructor; [constructor; by etransitivity|auto]. Qed.

(** [unlink]: the segment is queued, or deleted here. *)
Lemma unlink_run k p wd :
  calm wd -> w_dir wd !! p_base_path p <> Some DDir -> settled_queue p ->
  let ks := items (p_doomed p) ++ [k] in
  wp (unlink k) p wd (fun r p' wd' => r = Ok tt /\ same_but_doomed p p' /\ settled_queue p' /\
      items (p_doomed p') ⊆ ks /\ trimmed (p_base_path p) ks wd wd') (trimmed (p_base_path p) ks wd).
Proof.
  intros Hc Hb Hq ks. unfold unlink. apply wp_bind, wp_self.
  destruct (Bounded_push (p_doomed p) k) as [q r] eqn:Eq. pose proof (Bounded_push_keeps _ _ _ _ Eq) as Hkeep.
  apply wp_bind, wp_modify, wp_bind. set (p1 := with_doomed q p).
  assert (S1 : same_but_doomed p p1) by (constructor; [by constructor|intros w wd' []; by constructor]).
  assert (Hsub : items q ⊆ ks) by (unfold ks; rewrite <- Hkeep; intros x Hx; apply elem_of_app; by left).
  assert (Hrel : forall p2 wd2, same_but_doomed p p2 -> p_doomed p2 = q -> trimmed (p_base_path p) ks wd wd2 ->
    wp release_if_stopped p2 wd2 (fun r p' wd' => r = Ok tt /\ same_but_doomed p p' /\ settled_queue p' /\
      items (p_doomed p') ⊆ ks /\ trimmed (p_base_path p) ks wd wd') (trimmed (p_base_path p) ks wd)).
  { intros p2 wd2 S2 E2 T2. pose proof S2 as [[R1 _ _ _ _ _ _ _ R9 _ _] _]. cbn in R1, R9. unfold release_if_stopped. apply wp_bind, wp_self.
    destruct (Failure_stopped (p_failure p2)) eqn:Es; cbn [negb].
    - apply wp_bind, wp_modify, wp_bind, wp_modify. rewrite R9, E2.
      eapply wp_mono; [apply (prefault_delete_from _ ks (items q) _ wd wd2); done| |done].
      intros r' p' wd' (-> & -> & T). split; [done|]. split; [|split; [by intros _|split; [apply list_subseteq_nil|done]]].
      eapply same_but_doomed_trans; [exact S2|]. constructor; [by constructor|intros w wd3 []; by constructor].
    - apply wp_ret. split; [done|]. split; [done|]. split; [intros E; congruence|]. rewrite E2. by split. }
  destruct r as [k'|]; [|apply wp_ret; apply Hrel; [done|done|apply trimmed_refl]].
  apply wp_bind, wp_modify.
  eapply wp_mono; [apply (prefault_delete_from _ ks [k'] _ wd wd); [done|done| |apply trimmed_refl]| |done].
  { unfold ks. rewrite <- Hkeep. intros x Hx%list_elem_of_singleton. subst x. apply elem_of_app. right. by left. }
  intros r' p' wd' (-> & -> & T). apply Hrel; [|done|done].
  eapply same_but_doomed_trans; [exact S1|]. constructor; [by constructor|intros w wd3 []; by constructor].
Qed.

(** [rolled]: the helper is handed the new file, and what the writer left. *)
Lemma hand_over_run seq inst file len region idx ls lf worker p wd :
  calm wd -> settled_queue p -> p_segment_busy p = false -> worker = None \/ worker = Some file ->
  exists p', rolled seq inst file len region idx ls lf worker p wd = Outcome (Ok tt) p' wd [] /\
    same_rest p p' /\ forall w wd', p_region_size p = w_region_size w -> w_file_sequence w = seq -> w_instance w = inst ->
      w_file w = file -> w_current_region w = region -> w_current_region_index w = idx -> len_of wd' file = len ->
      window p' w wd'.
Proof.
  intros Hc Hq Hb Hwk. unfold rolled. rewrite (reads_bind _ _ _ _ _ (reads_self p wd)). cbv zeta.
  assert (E1 : (match worker with Some worker => ret (Some worker) | None => ok (try_clone file) end : M Shared (option Z)) p wd
    = Outcome (Ok (Some file)) p wd []).
  { destruct Hwk as [->| ->]; [|done]. unfold ok, try_clone.
    assert (Er : reads (bind (S := Shared) syscall (fun _ => ret file)) p wd (Ok file)) by (eapply reads_seq; [by apply reads_syscall|done]).
    by rewrite (reads_bind _ _ _ _ _ (reads_attempt_ok _ _ _ _ Er)). }
  rewrite (bind_outcome _ _ _ _ _ _ _ E1). set (h := HSegment seq inst file len).
  set (p2 := with_handoff None (with_segment h (with_handoff (Some h) p))).
  assert (E2 : (modify (with_handoff (Some h)) ;; hand_off) p wd = Outcome (Ok (Some (LWorker (hs_file (p_segment p))))) p2 wd []).
  { rewrite bind_modify. unfold hand_off. rewrite (reads_bind _ _ _ _ _ (reads_self _ wd)).
    change (p_segment_busy (with_handoff (Some h) p)) with (p_segment_busy p). rewrite Hb. cbn [p_handoff with_handoff].
    by rewrite !bind_modify. }
  rewrite (bind_outcome _ _ _ _ _ _ _ E2), bind_modify, (reads_bind _ _ _ _ _ (reads_self _ wd)), bind_modify.
  set (p3 := with_next None _). set (gone := _ ++ _).
  destruct (retire_rest gone p3 wd) as (p4 & E4 & R4 & W4). rewrite (bind_outcome _ _ _ _ _ _ _ E4).
  assert (R3 : same_rest p p3) by by constructor.
  destruct (release_rest p4 wd) as (p5 & E5 & R5 & W5).
  { eapply same_rest_settled; [exact R4|]. by eapply same_rest_settled. }
  exists p5. split; [exact E5|]. split; [by etransitivity; [|etransitivity]|].
  intros w wd' F1 F2 F3 F4 F5 F6 F7. apply W5, W4. constructor; cbn; try done; try by f_equal.
  unfold h. by rewrite F2, F3, F4, F7.
Qed.

End assisted.

(** ** The successor *)

(** The instance IDs that are left, one of them perhaps in the segment the helper holds ready. *)
Definition supply (p : Shared) (wd : world) : nat :=
  (length (o_random (w_oracle wd)) + match p_ready p with Some _ => 1 | None => 0 end)%nat.

Section roll.
Context `{EnvOk}.
Context (p : Shared) (w : Writer) (wd : world) (es : list Entry).
Hypothesis Ha : assisted w wd es.
Hypothesis Hshared : w_prefault w = Some p.
Hypothesis Hrolls : 0 < w_file_roll_size w.
Hypothesis Hlast : next_seq w <= U64_MAX.
Hypothesis Hindices : get 8 (data_of wd (w_file w)) OFF_base_record_index + get 8 (data_of wd (w_file w)) OFF_message_count <= U64_MAX.
Hypothesis Hsupply : (1 <= supply p wd)%nat.

#[local] Notation f := (w_file w).
#[local] Notation q := (w_next_hdr_pos w).
#[local] Notation rs := (w_region_size w).
#[local] Notation gen := (generation_of w wd).
#[local] Notation next := (next_seq w).
#[local] Notation final := (named w next).
#[local] Notation w0 := (set_pending None w).

(** The states of the roll: a committed [Roll] leads to the segment it names. *)
Definition roll_lands (W : world) : Prop := exists edge, roll_safe (bare wd w) es gen edge W.

Lemma roll_promises : window p w wd /\ pledge p w wd.
Proof. destruct (as_shared _ _ _ Ha) as (p' & E & ? & ?). rewrite Hshared in E. by injection E as <-. Qed.

Lemma roll_length : exists len, preallocation_len rs (w_file_roll_size w) = Ok len /\ rs <= len <= I64_MAX /\ w_file_roll_size w <= len.
Proof.
  destruct (as_grounds _ _ _ Ha) as [_ _ _ _ _ [Hfrs Hfl] Hlen _ _ _]. destruct Hlen as [|[len Hlen]]; [lia|].
  exists len. split; [done|]. pose proof (wk_rs _ _ _ (as_ok _ _ _ Ha)) as [Hrs _]. change (w_region_size (bare wd w)) with rs in Hrs.
  eapply preallocation_len_Ok; [lia|exact Hfrs|exact Hfl|done].
Qed.

(** Where the old file is as it was. *)
Lemma old_file_lands W : inode_of W f = inode_of wd f -> roll_lands W.
Proof.
  intros E. exists (Edge 0 [] 0). pose proof (wk_segment _ _ _ (as_ok _ _ _ Ha)) as Hseg. unfold roll_safe, data_of in *.
  change (w_file (bare wd w)) with f. rewrite E. destruct Hseg. split_and!; [done|done|]. left. by split.
Qed.

(** A successor that is under its name, its instance ID taken from the supply. *)
Record succeeding (ino len : Z) (id : InstanceId) (p1 : Shared) (W : world) : Prop := {
  su_installed : installed w W ino len id;
  su_dir : w_dir W = <[final := DFile ino]> (w_dir wd);
  su_others : forall i, i <> ino -> inode_of W i = inode_of wd i;
  su_next : w_next wd <= w_next W;
  su_calm : calm W;
  su_random : exists used, o_random (w_oracle wd) = used ++ o_random (w_oracle W);
  su_supply : supply p wd = Datatypes.S (length (o_random (w_oracle W)));
  su_rest : same_rest (with_ready None NONE (with_claimed next p)) p1;
  su_window : window p1 w W
}.

Lemma window_len p1 W : window p1 w wd -> inode_of W f = inode_of wd f -> window p1 w W.
Proof. intros [] E. assert (El : len_of W f = len_of wd f) by (unfold len_of; by rewrite E). constructor; rewrite ?El; done. Qed.

Definition taken_run (p1 : Shared) (v : option (Identity * PreparedSegment * Z)) : Prop :=
  on_prefault (claim next ;; try_take_segment next) w0 wd = Outcome (Ok (Some v)) (set_prefault (Some p1) w0) wd [].

(** The helper has it ready, or it does not. *)
Lemma take_ready :
  (exists ino len id p1, taken_run p1 (Some (successor_identity w id, prepared_segment w ino len, ino)) /\ succeeding ino len id p1 wd) \/
  (exists p1, taken_run p1 None /\ p_ready p = None /\ same_rest (with_claimed next p) p1 /\ window p1 w wd).
Proof.
  destruct roll_promises as [Hwin [P1 P2 P3 P4 P5 P6 P7 P8]]. set (p1 := with_claimed next p).
  assert (Hwin1 : window p1 w wd) by (destruct Hwin; by constructor).
  assert (Htake : forall v p2, try_take_segment next p1 wd = Outcome (Ok v) p2 wd [] -> taken_run p2 v).
  { intros v p2 E. unfold taken_run, on_prefault. change (w_prefault w0) with (w_prefault w). rewrite Hshared. unfold claim.
    rewrite bind_modify. fold p1. by rewrite E. }
  destruct (p_ready p) as [n|] eqn:Er.
  - destruct P8 as (Es & ino & len & id & En & Hi). left. exists ino, len, id, (with_ready None NONE p1). split.
    + apply Htake. unfold try_take_segment. rewrite (reads_bind _ _ _ _ _ (reads_self p1 wd)).
      change (p_ready_sequence p1) with (p_ready_sequence p). change (p_next_segment_busy p1) with (p_next_segment_busy p).
      change (p_ready p1) with (p_ready p). rewrite Es, P4, Er, En, Z.eqb_refl. cbn [negb ns_sequence]. rewrite Z.eqb_refl.
      by rewrite bind_modify.
    + constructor; try done.
      * rewrite insert_id; [done|]. apply Hi.
      * apply Ha.
      * by exists [].
      * unfold supply. rewrite Er. lia.
      * destruct Hwin1. by constructor.
  - right. exists p1. split; [|by split_and!]. apply Htake. unfold try_take_segment.
    rewrite (reads_bind _ _ _ _ _ (reads_self p1 wd)). change (p_next_segment_busy p1) with (p_next_segment_busy p).
    change (p_ready p1) with (p_ready p). rewrite P4, Er. by destruct (negb _).
Qed.

Lemma grounds_can_roll p1 :
  p_ready p = None -> exists id rest len, can_roll (set_prefault (Some p1) w0) wd id rest len /\
    o_random (w_oracle wd) = id :: rest /\ id_free w wd id.
Proof.
  intros Er. destruct roll_promises as [_ [_ _ _ _ _ _ _ P8]]. rewrite Er in P8. destruct P8 as [_ Hfree].
  destruct (as_grounds _ _ _ Ha) as [G1 G2 G3 G4 G5 [G6 G6'] G7 G8 G9 G10]. destruct roll_length as (len & Hlen & Hl & _).
  unfold supply in Hsupply. rewrite Er in Hsupply. destruct (o_random (w_oracle wd)) as [|id rest] eqn:Eo; [cbn in Hsupply; lia|].
  apply Forall_cons in G9 as [Hid _]. exists id, rest, len. split; [|done]. destruct Hid as (I1 & I2 & I3).
  constructor; try done; cbn.
  - unfold U64_MAX in *. lia.
  - by apply Hfree.
Qed.

Lemma successor_run :
  wp (take_successor next gen) w0 wd (fun r s1 W => exists ino len id worker p1,
      r = Ok (successor_identity w id, prepared_segment w ino len, worker) /\ (worker = None \/ worker = Some ino) /\
      s1 = set_prefault (Some p1) w0 /\ succeeding ino len id p1 W) roll_lands.
Proof.
  unfold take_successor. apply wp_bind, wp_self. destruct take_ready as [(ino & len & id & p1 & Et & Hs)|(p1 & Et & Er & Hr1 & Hw1)];
    (eapply wp_outcome_bind; [exact Et|]).
  - cbv zeta. cbn beta iota. change (predecessor (successor_identity w id)) with (w_instance w0).
    change (predecessor_sequence (successor_identity w id)) with (w_file_sequence w0).
    rewrite bool_decide_eq_true_2, Z.eqb_refl by done. cbn [andb]. apply wp_ret.
    exists ino, len, id, (Some ino), p1. split_and!; [done|by right|done|exact Hs].
  - cbv zeta. set (p2 := with_missed (p_missed p1 + 1) p1).
    assert (Em : on_prefault (modify (fun p => with_missed (p_missed p + 1) p)) (set_prefault (Some p1) w0) wd
      = Outcome (Ok (Some tt)) (set_prefault (Some p2) w0) wd []) by done.
    eapply wp_outcome_bind; [exact Em|]. destruct (grounds_can_roll p2 Er) as (id & rest & len & Hcan & Eo & Hid).
    destruct (as_grounds _ _ _ Ha) as [_ _ _ Hfresh _ [_ Hfl] _ _ _ _].
    apply wp_bind. apply (prepare_successor_run (set_prefault (Some p2) w0) wd id rest len gen); [apply Ha|apply (as_ok _ _ _ Ha)|exact Hfl|exact Hcan|apply (get_range 8)|..].
    + intros path W _ Hp. apply old_file_lands. rewrite (pv_others _ _ _ _ Hp); [done|]. cbn. lia.
    + intros W Hp Hpr. apply wp_ret. exists (w_next wd), len, id, None, p2. split_and!; [done|by left|done|].
      assert (Ef : inode_of W f = inode_of wd f) by (rewrite (pv_others _ _ _ _ Hp); [done|cbn; lia]).
      constructor.
      * constructor; [by split; apply Hid|rewrite (pv_dir _ _ _ _ Hp); by rewrite lookup_insert_eq|
          rewrite (pv_next _ _ _ _ Hp); cbn; lia|apply Hcan|].
        unfold generation_of, data_of at 1. rewrite Ef. exact Hpr.
      * apply Hp.
      * intros i Hi. apply (pv_others _ _ _ _ Hp). done.
      * rewrite (pv_next _ _ _ _ Hp). cbn. lia.
      * eapply private_calm; [exact Hp|]. apply drawn_calm, Ha.
      * exists [id]. rewrite (pv_oracle _ _ _ _ Hp). exact Eo.
      * unfold supply. rewrite (pv_oracle _ _ _ _ Hp), Er, Eo. cbn. lia.
      * destruct roll_promises as [_ [_ _ _ _ _ _ _ P8]]. rewrite Er in P8. destruct P8 as [Es _].
        destruct Hr1. constructor; cbn in *; try done; congruence.
      * eapply window_len; [|exact Ef]. destruct Hw1. by constructor.
Qed.

(** ** The rest of the roll *)

(** Where a roll leaves the writer. *)
Record rolled_over (w' : Writer) (W : world) : Prop := {
  rv_assisted : assisted w' W [];
  rv_sequence : w_file_sequence w' = next;
  rv_file : f < w_file w';
  rv_pos : w_next_hdr_pos w' = FIRST_RECORD;
  rv_config : w_region_size w' = rs /\ w_file_roll_size w' = w_file_roll_size w /\ w_mtu w' = w_mtu w;
  rv_index : next_index w' W [] = next_index w wd es;
  rv_others : forall j, j < f -> data_of W j = data_of wd j;
  rv_records : same FIRST_RECORD q (data_of wd f) (data_of W f);
  rv_roll : let edge := Edge next (w_instance w') (next_index w wd es) in
    roll_at (data_of W f) q edge /\ leads_to (bare wd w) gen edge W;
  rv_supply : exists p', w_prefault w' = Some p' /\ supply p wd = Datatypes.S (supply p' W)
}.

Section successor.
Context (ino len : Z) (id : InstanceId) (p1 : Shared) (W1 : world).
Hypothesis Hs : succeeding ino len id p1 W1.

#[local] Notation i := (successor_identity w id).
#[local] Notation edge := (edge_of w wd id).
#[local] Notation b := (bare wd w).

Lemma successor_numbers :
  0 < rs < 2 ^ 32 /\ 0 <= w_file_sequence w < U64_MAX /\ ino <> f /\ f < ino < w_next W1 /\ q mod rs + ROLL_TOTAL <= rs /\ rs <= len <= I64_MAX /\ w_file_roll_size w <= len.
Proof.
  pose proof (rs_pos _ (wk_rs _ _ _ (as_ok _ _ _ Ha))) as Hrs. destruct (as_grounds _ _ _ Ha) as [G1 _ _ _ _ _ _ _ _ _].
  destruct (su_installed _ _ _ _ _ Hs) as [_ _ I3 I4 _]. destruct roll_length as (len' & E & Hl). rewrite E in I4. injection I4 as ->.
  pose proof (sg_room _ _ _ _ (wk_segment _ _ _ (as_ok _ _ _ Ha))) as Hroom. pose proof Hlast. unfold U64_MAX in *.
  split_and!; try exact Hroom; try apply Hrs; try apply Hl; try apply I3; try done; lia.
Qed.

Lemma successor_wf : identity_wf i /\ edge_ok edge /\ RollEdge_names edge (w_file_sequence w) (w_instance w) i = true.
Proof.
  destruct successor_numbers as (_ & Hseq & _). destruct (su_installed _ _ _ _ _ Hs) as [[I1 I1'] _ _ _ _].
  destruct (as_grounds _ _ _ Ha) as [_ [G2 G2'] _ _ _ _ _ _ _ _].
  pose proof (get_range 8 (data_of wd f) OFF_base_record_index) as Hb. pose proof (get_range 8 (data_of wd f) OFF_message_count) as Hm.
  change (256 ^ Z.of_nat 8) with (2 ^ 64) in *. unfold U64_MAX in *.
  assert (Hi : identity_ok i) by (split_and!; cbn; [done..|lia|lia]). split; [|split].
  - split; [done|]. split; [done|]. cbn. unfold U64_MAX. split; [done|lia].
  - split_and!; cbn; [lia|lia|exact I1|lia|lia].
  - unfold RollEdge_names. cbn. rewrite !bool_decide_eq_true_2, Z.eqb_refl by done. rewrite bool_decide_eq_true_2; [done|].
    symmetry. apply checked_add_Some. unfold U64_MAX. lia.
Qed.

Lemma old_file_ok : writer_ok b W1 es.
Proof.
  eapply writer_ok_same; [apply Ha|]. change (w_file b) with f. apply (su_others _ _ _ _ _ Hs).
  apply not_eq_sym, successor_numbers.
Qed.

(** The [Roll] is laid, the successor published, and the [Roll] committed. *)
Lemma helped_publish_run (s : Writer) (k : unit -> M Writer unit) (Q : res unit -> Writer -> world -> Prop) :
  w_region_size s = rs -> w_current_region s = w_current_region w -> w_channel_region s = w_channel_region w ->
  (forall W flags, frame2 f ino W1 W ->
     data_of W ino = stamped (data_of W1 ino) (next_base_record_index edge) flags ->
     roll_safe b es gen edge W -> roll_at (data_of W f) q edge ->
     same FIRST_RECORD q (data_of W1 f) (data_of W f) -> wp (k tt) s W Q roll_lands) ->
  wp (stage_roll (q mod rs) edge ;; (publish_roll q (Mapping ino 0 rs) edge ;; k tt)) s W1 Q roll_lands.
Proof.
  intros F1 F2 F3 HQ. destruct successor_numbers as (_ & _ & Hne & Hino & _ & Hl & _). destruct successor_wf as (Hwf & Hedge & Hnames).
  destruct (su_installed _ _ _ _ _ Hs) as [_ I2 _ I4 [Ilen Ibytes]]. pose proof old_file_ok as Hok. pose proof (su_calm _ _ _ _ _ Hs) as Hc.
  assert (Egen : generation_of w W1 = gen).
  { unfold generation_of, data_of. by rewrite (su_others _ _ _ _ _ Hs) by (by apply not_eq_sym). }
  rewrite Egen in Ibytes.
  assert (Hlands : forall W, rolling b es gen edge ino W1 W -> roll_lands W) by (intros W [HW _]; by exists edge).
  assert (HL : rs <= len_of W1 ino <= I64_MAX) by (by rewrite Ilen).
  apply wp_bind. eapply wp_mono; [eapply (stage_roll_run b es gen edge ino W1) with
    (Q := fun r s' W2 => r = Ok tt /\ s' = s /\ frame2 f ino W1 W2 /\ data_of W2 f = staged (data_of W1 f) q edge /\
       data_of W2 ino = data_of W1 ino); try done|cbv beta|exact Hlands].
  intros r s' W2 (-> & -> & Hf2 & H2f & H2i). apply wp_bind.
  eapply wp_mono; [eapply (publish_roll_run b es gen edge i ino W1) with
    (Q := fun r s' W3 => r = Ok tt /\ s' = s /\ wp (k tt) s W3 Q roll_lands); try done; [apply Hino|]|cbv beta|exact Hlands].
  { intros W flags H31 H32 H33 H34 H35 H36 H37. split; [done|]. split; [done|]. by eapply HQ. }
  intros r s' W3 (-> & -> & HW). exact HW.
Qed.

(** The world once the [Roll] is committed. *)
Record committed_roll (W : world) : Prop := {
  cm_frame : frame2 f ino W1 W;
  cm_stamped : exists flags, data_of W ino = stamped (data_of W1 ino) (next_base_record_index edge) flags;
  cm_safe : roll_safe b es gen edge W;
  cm_roll : roll_at (data_of W f) q edge;
  cm_records : same FIRST_RECORD q (data_of W1 f) (data_of W f)
}.

Section entered.
Context (W3 : world).
Hypothesis Hw3 : committed_roll W3.

Lemma successor_made : successor_bytes (data_of W3 ino) rs next gen (next_base_record_index edge) i.
Proof.
  destruct Hw3 as [_ [flags ->] _ _ _]. destruct (su_installed _ _ _ _ _ Hs) as [_ _ _ _ [_ Hb]]. destruct successor_wf as (Hwf & Hedge & _).
  assert (Egen : generation_of w W1 = gen).
  { destruct successor_numbers as (_ & _ & Hne & _). unfold generation_of, data_of.
    by rewrite (su_others _ _ _ _ _ Hs) by (by apply not_eq_sym). }
  rewrite Egen in Hb. eapply stamped_ok; [apply (as_ok _ _ _ Ha)|exact Hb|done|]. apply Hedge.
Qed.

Lemma roll_landed : leads_to b gen edge W3.
Proof.
  destruct Hw3 as [[F1 F2 F3 F4 F5] _ _ _ _]. destruct successor_numbers as (_ & _ & _ & Hino & _ & Hl & _).
  destruct successor_wf as (_ & _ & Hn). exists ino, i. split_and!.
  - rewrite F1, (su_dir _ _ _ _ _ Hs). apply lookup_insert_eq.
  - apply successor_made.
  - done.
  - rewrite F5. rewrite (pp_len _ _ _ _ _ _ _ _ _ _ (in_bytes _ _ _ _ _ (su_installed _ _ _ _ _ Hs))). apply Hl.
  - rewrite F5. rewrite (pp_len _ _ _ _ _ _ _ _ _ _ (in_bytes _ _ _ _ _ (su_installed _ _ _ _ _ Hs))). apply Hl.
  - rewrite F2. apply Hino.
Qed.

(** Retention leaves the successor. *)
Lemma trimmed_leads ks W : trimmed (w_base_path w) ks W3 W -> Forall (fun k => 0 <= k < next) ks -> leads_to b gen edge W.
Proof.
  intros Ht Hks. destruct roll_landed as (j & i' & L1 & L2 & L3 & L4 & L5). destruct successor_numbers as (_ & Hseq & _).
  exists j, i'. unfold len_of, data_of, inode_of in *. rewrite (tm_inodes _ _ _ _ Ht), (tm_next _ _ _ _ Ht).
  split; [|exact (conj L2 (conj L3 (conj L4 L5)))]. rewrite <- L1. eapply trimmed_named; [exact Ht| |change (0 <= next <= U64_MAX); unfold U64_MAX in *; lia|].
  - eapply Forall_impl; [exact Hks|]. intros k Hk. cbn in Hk. unfold U64_MAX in *. lia.
  - intros Hin. rewrite Forall_forall in Hks. apply Hks in Hin. change (w_file_sequence b + 1) with next in Hin. lia.
Qed.

Lemma trimmed_lands ks W : trimmed (w_base_path w) ks W3 W -> Forall (fun k => 0 <= k < next) ks -> roll_lands W.
Proof.
  intros Ht Hks. exists edge. pose proof (trimmed_leads ks W Ht Hks) as Hl. destruct Hw3 as [_ _ Hsafe Hroll _].
  unfold roll_safe, data_of, inode_of in *. change (w_file b) with f in *. rewrite (tm_inodes _ _ _ _ Ht).
  destruct Hsafe as (? & ? & Hsafe). split_and!; [done|done|]. destruct Hsafe as [|(? & _ & ?)]; [by left|right]. split_and!; [done|exact Hl|done].
Qed.

Lemma entered_len : len_of W3 ino = len.
Proof. rewrite (f2_len _ _ _ _ (cm_frame _ Hw3)). apply (in_bytes _ _ _ _ _ (su_installed _ _ _ _ _ Hs)). Qed.

(** The writer in its new file; [p'] is what it shares with the helper. *)
Definition entered (p' : Shared) : Writer :=
  set_prefault (Some p') (switch_file next id ino (Mapping ino 0 rs) (Mapping ino 0 rs) 0 len FIRST_RECORD w0).

Lemma entered_ok p' W : w_inodes W = w_inodes W3 -> writer_ok (bare W (entered p')) W [].
Proof.
  intros Ei. destruct successor_numbers as (Hrs & _ & _ & _ & _ & Hl & Hfl). pose proof (wk_rs _ _ _ (as_ok _ _ _ Ha)) as Hrs4.
  assert (Hd : FIRST_RECORD / rs = 0) by (unfold FIRST_RECORD, FIRST_RECORD_V4; apply Z.div_small; pose proof (proj1 Hrs4) as Hr; change (w_region_size b) with rs in Hr; lia).
  assert (HL : len_of W ino = len) by (rewrite <- entered_len; unfold len_of, inode_of; by rewrite Ei).
  assert (Hroll : w_file_roll_size w = 0 \/ 2 * rs <= w_file_roll_size w) by apply (as_grounds _ _ _ Ha).
  constructor; unfold bare, entered; cbn; try done.
  - apply (wk_deferred _ _ _ (as_ok _ _ _ Ha)).
  - unfold region_of. by rewrite Hd.
  - unfold in_file. rewrite Hd, HL. lia.
  - rewrite HL. lia.
  - rewrite HL. destruct Hroll as [|Hroll]; [by left|right]. lia.
  - assert (Ed : data_of W ino = data_of W3 ino) by (unfold data_of, inode_of; by rewrite Ei). rewrite Ed. apply successor_made.
Qed.

Lemma entered_dir ks W name :
  trimmed (w_base_path w) ks W3 W -> w_dir W !! name = None \/ w_dir W !! name = <[final := DFile ino]> (w_dir wd) !! name.
Proof.
  intros Ht. rewrite <- (su_dir _ _ _ _ _ Hs), <- (f2_dir _ _ _ _ (cm_frame _ Hw3)).
  destruct (tm_dir _ _ _ _ Ht name) as [->|[-> _]]; [by right|by left].
Qed.

Lemma entered_free ks W name :
  trimmed (w_base_path w) ks W3 W -> name <> final -> w_dir wd !! name = None -> w_dir W !! name = None.
Proof. intros Ht Hne Hn. destruct (entered_dir ks W name Ht) as [|E]; [done|]. by rewrite E, lookup_insert_ne. Qed.

Lemma entered_beyond ks W k : trimmed (w_base_path w) ks W3 W -> next < k <= U64_MAX -> w_dir W !! named w k = None.
Proof.
  intros Ht Hk. destruct successor_numbers as (_ & Hseq & _). unfold U64_MAX in *. eapply entered_free; [exact Ht| |apply (as_grounds _ _ _ Ha); done].
  intros E%channel_file_name_inj; unfold U64_MAX; lia.
Qed.

Lemma entered_grounds p' ks W : trimmed (w_base_path w) ks W3 W -> grounds (entered p') W.
Proof.
  intros Ht. destruct successor_numbers as (_ & Hseq & _ & Hino & _). destruct (as_grounds _ _ _ Ha) as [G1 G2 G3 G4 G5 G6 G7 G8 G9 G10].
  destruct Hw3 as [[F1 F2 F3 F4 F5] _ _ _ _]. destruct (su_random _ _ _ _ _ Hs) as [used Eu].
  constructor; cbn; try done.
  - unfold U64_MAX in *. lia.
  - apply (su_installed _ _ _ _ _ Hs).
  - rewrite (tm_next _ _ _ _ Ht), F2. lia.
  - destruct (entered_dir ks W (w_base_path w) Ht) as [->| ->]; [done|].
    destruct (decide (final = w_base_path w)) as [->|]; [by rewrite lookup_insert_eq|by rewrite lookup_insert_ne].
  - rewrite (tm_oracle _ _ _ _ Ht), F3. rewrite Eu in G9. apply Forall_app in G9 as [_ G9].
    eapply Forall_impl; [exact G9|]. intros x (X1 & X2 & X3). split_and!; [done|done|]. intros k.
    eapply entered_free; [exact Ht| |apply X3]. apply attempt_name_not_file. unfold U64_MAX in *. lia.
  - intros k Hk. eapply entered_beyond; [exact Ht|lia].
Qed.

Lemma entered_pledge p' ks W :
  trimmed (w_base_path w) ks W3 W -> same_rest (with_doomed (p_doomed p') p1) p' -> settled_queue p' ->
  Forall (fun k => 0 <= k < next) (items (p_doomed p')) -> pledge p' (entered p') W.
Proof.
  intros Ht Hr Hq Hd. pose proof (su_rest _ _ _ _ _ Hs) as Hr1. destruct roll_promises as [_ [P1 P2 P3 P4 P5 P6 P7 P8]].
  destruct Hr as [R1 R2 R3 R4 R5 R6 R7 R8 R9 R10 R11], Hr1 as [T1 T2 T3 T4 T5 T6 T7 T8 T9 T10 T11]. cbn in *.
  assert (Egen : generation_of (entered p') W = gen).
  { unfold generation_of at 1. change (w_file (entered p')) with ino. unfold data_of, inode_of. rewrite (tm_inodes _ _ _ _ Ht).
    apply (sb_generation _ _ _ _ _ _ successor_made). }
  constructor; rewrite ?R3, ?R4, ?R5, ?R6, ?R7, ?R8, ?R9, ?T3, ?T4, ?T5, ?T6, ?T7, ?T8, ?T9, ?Egen; try done.
  - split; [done|]. intros Hn. eapply entered_beyond; [exact Ht|].
    change (next < next + 1 <= U64_MAX). change (next + 1 <= U64_MAX) in Hn. lia.
Qed.

Lemma entered_rolled p' ks W :
  trimmed (w_base_path w) ks W3 W -> Forall (fun k => 0 <= k < next) ks ->
  window p' (entered p') W -> same_rest (with_doomed (p_doomed p') p1) p' -> settled_queue p' ->
  Forall (fun k => 0 <= k < next) (items (p_doomed p')) -> rolled_over (entered p') W.
Proof.
  intros Ht Hks Hwin Hr Hq Hd. destruct successor_numbers as (_ & _ & Hne & Hino & _).
  assert (Hf1 : inode_of W1 f = inode_of wd f) by (apply (su_others _ _ _ _ _ Hs); by apply not_eq_sym).
  assert (Ed : forall j, data_of W j = data_of W3 j) by (intros j; unfold data_of, inode_of; by rewrite (tm_inodes _ _ _ _ Ht)).
  constructor; try done.
  - constructor.
    + apply entered_ok. apply (tm_inodes _ _ _ _ Ht).
    + change (w_file_len (entered p')) with len. change (w_file (entered p')) with ino. rewrite <- entered_len.
      unfold len_of, inode_of. by rewrite (tm_inodes _ _ _ _ Ht).
    + eapply trimmed_calm; [exact Ht|]. eapply frame2_calm; [apply Hw3|apply Hs].
    + by eapply entered_grounds.
    + exists p'. split; [done|]. split; [done|]. by eapply entered_pledge.
  - apply Hino.
  - unfold next_index. change (w_file (entered p')) with ino. change (users []) with 0.
    rewrite Ed, (sb_base _ _ _ _ _ _ successor_made). cbn [next_base_record_index edge_of].
    pose proof (sg_count _ _ _ _ (wk_segment _ _ _ (as_ok _ _ _ Ha))) as Hn. change (w_file b) with f in Hn. rewrite Hn. lia.
  - intros j Hj. rewrite Ed. unfold data_of. rewrite (f2_others _ _ _ _ (cm_frame _ Hw3)) by lia. by rewrite (su_others _ _ _ _ _ Hs) by lia.
  - rewrite Ed. unfold data_of at 1. rewrite <- Hf1. apply (cm_records _ Hw3).
  - assert (Ee : Edge next (w_instance (entered p')) (next_index w wd es) = edge).
    { unfold edge_of, next_index. cbn. f_equal.
      pose proof (sg_count _ _ _ _ (wk_segment _ _ _ (as_ok _ _ _ Ha))) as Hn. change (w_file b) with f in Hn. by rewrite Hn. }
    cbv zeta. rewrite Ee. split; [rewrite Ed; apply Hw3|]. by eapply trimmed_leads.
  - exists p'. split; [done|]. rewrite (su_supply _ _ _ _ _ Hs). unfold supply.
    destruct Hr as [_ _ _ R4 _ _ _ _ _ _ _], (su_rest _ _ _ _ _ Hs) as [_ _ _ T4 _ _ _ _ _ _ _]. cbn in *. rewrite R4, T4.
    rewrite (tm_oracle _ _ _ _ Ht), (f2_oracle _ _ _ _ (cm_frame _ Hw3)). lia.
Qed.

Lemma wp_on_prefault {A} (m : M Shared A) p' s W (Q : res (option A) -> Writer -> world -> Prop) C :
  w_prefault s = Some p' ->
  wp m p' W (fun r p2 W' => Q (match r with Ok a => Ok (Some a) | Err e => Err e | Die y => Die y end) (set_prefault (Some p2) s) W') C ->
  wp (on_prefault m) s W Q C.
Proof. intros E [HQ HC]. unfold wp, on_prefault. rewrite E. by split. Qed.

(** The shared state once it was told of the new file. *)
Record told (p2 : Shared) : Prop := {
  to_rest : same_rest p1 p2;
  to_window : forall W p', w_inodes W = w_inodes W3 -> window p2 (entered p') W
}.

Lemma told_settled p2 : told p2 -> settled_queue p2.
Proof.
  intros [R2 _]. eapply same_rest_settled; [exact R2|]. eapply same_rest_settled; [apply (su_rest _ _ _ _ _ Hs)|].
  apply roll_promises.
Qed.

Lemma told_doomed p2 : told p2 -> Forall (fun k => 0 <= k < next) (items (p_doomed p2)).
Proof.
  intros [R2 _]. rewrite (sr_doomed _ _ R2), (sr_doomed _ _ (su_rest _ _ _ _ _ Hs)).
  eapply Forall_impl; [apply (pl_doomed _ _ _ (proj2 roll_promises))|]. intros k Hk. cbn in Hk. lia.
Qed.

Lemma told_base_path p2 : told p2 -> p_base_path p2 = w_base_path w.
Proof.
  intros [R2 _]. rewrite (sr_base_path _ _ R2), (sr_base_path _ _ (su_rest _ _ _ _ _ Hs)). apply (proj2 roll_promises).
Qed.

Lemma told_in_flight p2 : told p2 -> p_in_flight p2 = NONE.
Proof.
  intros [R2 _]. rewrite (sr_in_flight _ _ R2), (sr_in_flight _ _ (su_rest _ _ _ _ _ Hs)). apply (proj2 roll_promises).
Qed.

Lemma entered_base : w_dir W3 !! w_base_path w <> Some DDir.
Proof.
  pose proof (gd_base _ _ (as_grounds _ _ _ Ha)) as Gb.
  destruct (entered_dir [] W3 (w_base_path w) (trimmed_refl _ _ _)) as [->| ->]; [done|].
  destruct (decide (final = w_base_path w)) as [->|]; [by rewrite lookup_insert_eq|by rewrite lookup_insert_ne].
Qed.

Lemma entered_calm : calm W3.
Proof. eapply frame2_calm; [apply Hw3|apply Hs]. Qed.

(** Retention: the oldest segment is queued for the helper, or deleted. *)
Lemma retain_run p2 n :
  told p2 -> 1 <= n <= next ->
  wp (prune (next - n)) (entered p2) W3 (fun r w' W => r = Ok tt /\ rolled_over w' W) roll_lands.
Proof.
  intros H2 Hn. pose proof H2 as [R2 Hwin2]. destruct successor_numbers as (_ & Hseq & _).
  unfold prune. apply wp_bind, wp_self. change (w_prefault (entered p2)) with (Some p2). unfold installing.
  rewrite (told_in_flight p2 H2). replace (NONE =? next - n) with false
    by (symmetry; apply Z.eqb_neq; change NONE with U64_MAX; lia). rewrite andb_false_r.
  apply wp_bind, (wp_on_prefault _ p2); [done|].
  assert (Hks : Forall (fun k => 0 <= k < next) (items (p_doomed p2) ++ [next - n])).
  { apply Forall_app. split; [by apply told_doomed|]. constructor; [lia|constructor]. }
  eapply wp_mono; [apply (unlink_run (next - n) p2 W3 entered_calm)|cbv beta|cbv beta].
  - rewrite (told_base_path p2 H2). exact entered_base.
  - by apply told_settled.
  - intros r p3 W (-> & [R3 V3] & Hq3 & Hd3 & Ht). rewrite (told_base_path p2 H2) in Ht. apply wp_ret. split; [done|].
    apply (entered_rolled p3 _ W Ht Hks); [apply V3, Hwin2, (tm_inodes _ _ _ _ Ht)| |done|].
    + destruct R2, R3. cbn in *. constructor; cbn; congruence.
    + apply Forall_forall. rewrite Forall_forall in Hks. intros k Hk. by apply Hks, Hd3.
  - intros W Ht. rewrite (told_base_path p2 H2) in Ht. by eapply trimmed_lands.
Qed.

(** The helper is told of the new file. *)
Lemma told_run worker :
  worker = None \/ worker = Some ino ->
  exists p2, told p2 /\
    on_prefault (rolled next id ino len (Mapping ino 0 rs) 0 [w_channel_region w; w_current_region w] f worker) (entered p1) W3
      = Outcome (Ok (Some tt)) (entered p2) W3 [].
Proof.
  intros Hwk. pose proof (su_window _ _ _ _ _ Hs) as Hwin1.
  assert (Hq1 : settled_queue p1) by (eapply same_rest_settled; [apply (su_rest _ _ _ _ _ Hs)|]; apply roll_promises).
  destruct (hand_over_run next id ino len (Mapping ino 0 rs) 0 [w_channel_region w; w_current_region w] f worker p1 W3 entered_calm Hq1
    (wn_unlocked _ _ _ Hwin1) Hwk) as (p2 & E2 & R2 & V2).
  exists p2. split.
  - constructor; [exact R2|]. intros W p' Ei. apply V2; try done; [by rewrite (wn_size _ _ _ Hwin1)|].
    rewrite <- entered_len. unfold len_of, inode_of. by rewrite Ei.
  - unfold on_prefault. change (w_prefault (entered p1)) with (Some p1). cbv beta iota. by rewrite E2.
Qed.

Lemma enter_run worker :
  worker = None \/ worker = Some ino ->
  wp (enter_successor next i (prepared_segment w ino len) worker) (set_prefault (Some p1) w0) W3
    (fun r w' W => r = Ok tt /\ rolled_over w' W) roll_lands.
Proof.
  intros Hwk. destruct (told_run worker Hwk) as (p2 & H2 & E2). destruct successor_numbers as (_ & Hseq & _).
  unfold enter_successor. apply wp_bind, wp_self. apply wp_bind, wp_modify.
  cbn [w_prefault set_prefault ps_file ps_channel_region ps_current_region ps_region_index ps_file_len ps_next_hdr prepared_segment].
  change (instance i) with id.
  change (switch_file next id ino (Mapping ino 0 rs) (Mapping ino 0 rs) 0 len FIRST_RECORD (set_prefault (Some p1) w0)) with (entered p1).
  apply wp_bind. eapply wp_outcome_bind; [exact E2|]. apply wp_ret. apply wp_bind, wp_self.
  change (w_deferred_prune (entered p2)) with (w_deferred_prune (bare wd w)). rewrite (wk_deferred _ _ _ (as_ok _ _ _ Ha)). apply wp_bind, wp_ret.
  assert (Hdone : rolled_over (entered p2) W3).
  { apply (entered_rolled p2 [] W3); [apply trimmed_refl|constructor|by apply H2| |by apply told_settled|by apply told_doomed].
    destruct (to_rest _ H2). constructor; try done. }
  pose proof (gd_keep _ _ (as_grounds _ _ _ Ha)) as Gk. unfold keep_ok in Gk.
  change (w_keep_files (entered p2)) with (w_keep_files w). destruct (w_keep_files w) as [n|]; [|by apply wp_ret].
  destruct (Z.geb_spec next n) as [Hn|_]; [apply retain_run; [done|lia]|by apply wp_ret].
Qed.

End entered.

End successor.

(** ** The whole roll *)

Lemma helped_roll_run : wp roll_file w wd (fun r w' W => r = Ok tt /\ rolled_over w' W) roll_lands.
Proof.
  pose proof (as_ok _ _ _ Ha) as Hok. pose proof (wk_rs _ _ _ Hok) as Hrs. pose proof (rs_pos _ Hrs) as Hrs'. pose proof (as_calm _ _ _ Ha) as Hc.
  pose proof (writer_ok_rs_len _ _ _ Hok) as Hrl. pose proof (sg_room _ _ _ _ (wk_segment _ _ _ Hok)) as Hroom.
  change (w_region_size (bare wd w)) with rs in *. change (w_file (bare wd w)) with f in *. change (w_next_hdr_pos (bare wd w)) with q in *.
  unfold roll_file. apply wp_bind, wp_modify. apply wp_bind, wp_self.
  cbn [w_file_sequence w_next_hdr_pos w_region_size w_channel_region set_pending].
  unfold div_guard. replace (rs =? 0) with false by (symmetry; apply Z.eqb_neq; lia). apply wp_bind, wp_ret.
  replace (rs - q mod rs <? ROLL_TOTAL) with false by (symmetry; apply Z.ltb_ge; lia).
  pose proof (wk_channel _ _ _ Hok) as Hch. change (w_channel_region (bare wd w)) with (w_channel_region w) in Hch.
  change (w_file (bare wd w)) with f in Hch. change (w_region_size (bare wd w)) with rs in Hch. rewrite Hch.
  unfold load_base_record_index, load_message_count, load_generation, load_u64.
  do 3 (eapply wp_reads_bind; [apply reads_head; [done|apply Hc|done|done|done]|]). fold gen.
  apply wp_bind, wp_lift. rewrite (proj2 (checked_add_Some (w_file_sequence w) 1 next)) by lia. cbn [ok_or].
  apply wp_bind. eapply wp_mono; [exact successor_run| |done]. intros r s1 W1 (ino & len & id & worker & p1 & -> & Hwk & -> & Hs).
  apply wp_bind, wp_lift. unfold RollEdge_after. cbn [fst snd].
  rewrite (proj2 (checked_add_Some (w_file_sequence w) 1 next)) by (split; [reflexivity|lia]).
  rewrite (proj2 (checked_add_Some _ _ _)) by (split; [reflexivity|exact Hindices]).
  change (Edge next (instance (successor_identity w id)) _) with (edge_of w wd id).
  apply (helped_publish_run ino len id p1 W1 Hs (set_prefault (Some p1) w0)
    (fun _ => enter_successor next (successor_identity w id) (prepared_segment w ino len) worker)); [done..|].
  intros W flags HW1 HW2 HW3 HW4 HW5. apply (enter_run ino len id p1 W1 Hs W); [|done]. constructor; try done. by exists flags.
Qed.

End roll.
