(* ===== verification/AssistedTurns.v ===== *)
(** * Turns of the writer's helper (src/prefault.rs: run)

    A turn of the helper, however it ends, changes no byte of the files there are and leaves the
    shared state true to its promise: the region it maps ahead is the writer's next, and the segment
    it prepares is the one the writer rolls into.  The thread keeps ahead of the writer with what it
    asks the kernel to populate. *)

From Stdlib Require Import String.
From S2P Require Import Prelude Bytes Effects Region Channel V4 V4Facts Names NamesFacts Segment Helper Prefault PrefaultFacts PopulateFacts Writer Chain RegionFacts SegmentFacts WriterInv OpenFacts CommitFacts ReserveFacts PrepareFacts RollFacts Handshake WriterFacts Joining Assisted AssistedRolls.

#[local] Open Scope string_scope.
#[local] Open Scope list_scope.
#[local] Open Scope Z_scope.

(** ** The thread *)

(** A turn of the thread; [None] once it has ended, and [Failure_guard] records how. *)
Definition take_turn `{Env} (th : option Turn) (w : Writer) (wd : world) : option Turn * Writer * world :=
  match th, w_prefault w with
  | Some t, Some p =>
      let o := run_turn t p wd in
      let p' := o_self o in
      let ended r := (None, set_prefault (Some (with_failure (Failure_guard (p_failure p') r) p')) w, o_world o) in
      match o_res o with
      | Ok (inl t') => (Some t', set_prefault (Some p') w, o_world o)
      | Ok (inr _) => ended (Ok tt)
      | Err e => ended (Err e)
      | Die y => ended (Die y)
      end
  | _, _ => (th, w, wd)
  end.

(** The thread's variables are in range, and the header page it keeps is of the writer's file or of
    one the writer has left. *)
Record thread_ok `{Env} (w : Writer) (t : Turn) : Prop := {
  th_turn : turn_ok (w_region_size w) t;
  th_header : forall s m, u_header t = Some (s, m) ->
    s <= w_file_sequence w /\ (s = w_file_sequence w -> m = Mapping (w_file w) 0 page_size)
}.

(** ** What is populated ahead *)

(** Where the file's header says the writer is, and how far into its region. *)
Definition header_pos (w : Writer) (wd : world) : Z := get 8 (data_of wd (w_file w)) OFF_write_position.

Definition header_off (w : Writer) (wd : world) : Z :=
  let pos := header_pos w wd in
  if pos / w_region_size w =? w_current_region_index w then pos mod w_region_size w else 0.

Definition next_region (w : Writer) : RegionMapping := at_region w (w_current_region_index w + 1).

(** Places of the writer, a segment and a region of it, in the order it goes through them. *)
Definition place_le (a b : Z * Z) : Prop := a.1 < b.1 \/ a.1 = b.1 /\ a.2 <= b.2.
Definition place_lt (a b : Z * Z) : Prop := a.1 < b.1 \/ a.1 = b.1 /\ a.2 < b.2.

(** There is a region after the writer's in its file, which can be that long. *)
Definition region_to_come (w : Writer) (p : Shared) : Prop :=
  (match p_regions_per_file p with Some n => w_current_region_index w + 1 < n | None => True end) /\
  (w_current_region_index w + 1 + 1) * w_region_size w <= I64_MAX.

(** In the second half of its region the writer finds the next one ready, if the file has one, and half a
    region before its file is full, the next segment, unless making it was refused. *)
Record readied (w : Writer) (p : Shared) (wd : world) : Prop := {
  rd_region : w_region_size w / 2 <= header_off w wd -> region_to_come w p -> p_next p <> None;
  rd_segment spec : p_spec p = Some spec ->
    sp_file_roll_size spec <= u64 (header_pos w wd + w_region_size w / 2) ->
    p_refused p <> Some (w_file_sequence w + 1) -> w_file_sequence w + 1 < U64_MAX -> p_ready p <> None
}.

(** The thread's notes are true: what they say is done of the writer's region, from the page the writer
    is at, and of the next region's head has been asked for; none is of a place still to come. *)
Record kept_up `{Env} (w : Writer) (t : Turn) (wd : world) : Prop := {
  ku_place : u_done_at t = (U64_MAX, U64_MAX) \/ place_le (u_done_at t) (w_file_sequence w, w_current_region_index w);
  ku_head_place : u_next_head_done t = (U64_MAX, U64_MAX) \/
    place_le (u_next_head_done t) (w_file_sequence w, w_current_region_index w + 1);
  ku_current : u_done_at t = (w_file_sequence w, w_current_region_index w) ->
    covered wd (w_current_region w) (page_of (header_off w wd)) (u_done_to t);
  ku_head : u_next_head_done t = (w_file_sequence w, w_current_region_index w + 1) ->
    covered wd (next_region w) 0 (Z.min AHEAD_MIN (w_region_size w))
}.

(** The writer's region has been asked for from the page the writer is at as far ahead as the thread
    estimates, or to the region's end, and once that is reached so has the head of the next region. *)
Definition populated `{Env} (w : Writer) (t : Turn) (p : Shared) (wd : world) : Prop :=
  let off := header_off w wd in
  let size := w_region_size w in
  covered wd (w_current_region w) (page_of off) (Z.min (off + u_ahead t) size) /\
  (size - off < u_ahead t -> p_next p <> None -> covered wd (next_region w) 0 (Z.min AHEAD_MIN size)).

(** The writer has moved on, within its region or to another. *)
Definition further (w : Writer) (wd : world) (w2 : Writer) (wd2 : world) : Prop :=
  (w_file_sequence w2 = w_file_sequence w /\ w_current_region_index w2 = w_current_region_index w /\ w_file w2 = w_file w /\
   w_region_size w2 = w_region_size w /\ w_current_region w2 = w_current_region w /\ header_off w wd <= header_off w2 wd2) \/
  place_lt (w_file_sequence w, w_current_region_index w) (w_file_sequence w2, w_current_region_index w2).

Lemma kept_up_first `{Env} w time wd : w_file_sequence w < U64_MAX -> kept_up w (first_turn time) wd.
Proof. intros Hs. constructor; cbn; [by left|by left|intros [= E _]; lia|intros [= E _]; lia]. Qed.

Lemma kept_up_later `{EnvOk} w t wd w2 wd2 calls :
  kept_up w t wd -> w_calls wd2 = calls ++ w_calls wd -> w_file_sequence w2 < U64_MAX -> further w wd w2 wd2 -> kept_up w2 t wd2.
Proof.
  intros [K1 K2 K3 K4] Ec Hs [(E1 & E2 & E3 & E4 & E5 & Hoff)|Hlt]; unfold place_le, place_lt in *; cbn [fst snd] in *.
  - assert (En : next_region w2 = next_region w) by (unfold next_region, at_region; by rewrite E2, E3, E4).
    constructor; unfold place_le; rewrite ?En, ?E1, ?E2, ?E4, ?E5; [done|done| |].
    + intros E. eapply covered_more; [exact Ec|]. eapply covered_sub; [|reflexivity|by apply K3].
      unfold page_of. apply Z.mul_le_mono_nonneg_r; [pose proof page_size_pos; lia|]. apply Z.div_le_mono; [pose proof page_size_pos; lia|done].
    + intros E. eapply covered_more; [exact Ec|]. by apply K4.
  - constructor; unfold place_le; cbn [fst snd].
    + destruct K1; [by left|right; lia].
    + destruct K2; [by left|right; lia].
    + intros E. rewrite E in K1. cbn in K1. destruct K1 as [[= E1 _]|]; lia.
    + intros E. rewrite E in K2. cbn in K2. destruct K2 as [[= E1 _]|]; lia.
Qed.

(** What a writer makes of its helper's state does not matter here. *)
Lemma kept_up_prefault `{Env} v w t wd : kept_up w t wd -> kept_up (set_prefault v w) t wd.
Proof. intros [K1 K2 K3 K4]. constructor; [exact K1|exact K2|exact K3|exact K4]. Qed.

Lemma readied_prefault v w p wd : readied w p wd -> readied (set_prefault v w) p wd.
Proof. intros [R1 R2]. constructor; [exact R1|exact R2]. Qed.

Lemma populated_prefault `{Env} v w t p wd : populated w t p wd -> populated (set_prefault v w) t p wd.
Proof. intros Hp. exact Hp. Qed.

Section turn.
Context `{EnvOk}.
Context (w : Writer) (es : list Entry) (p0 : Shared) (wd0 : world).
Hypothesis Ha : assisted w wd0 es.
Hypothesis Hshared : w_prefault w = Some p0.
Hypothesis Hlast : w_file_sequence w + 1 <= U64_MAX.
Implicit Types (p : Shared) (wd : world).

#[local] Notation f := (w_file w).
#[local] Notation rs := (w_region_size w).
#[local] Notation next := (w_file_sequence w + 1).
#[local] Notation named w k := (channel_file_name (w_base_path w) k).

(** What every step of the turn keeps. *)
Record on_turn (p : Shared) (wd : world) : Prop := {
  tn_calm : calm wd;
  tn_data : forall j, j < w_next wd0 -> data_of wd j = data_of wd0 j;
  tn_len : len_of wd0 f <= len_of wd f <= I64_MAX;
  tn_next : w_next wd0 <= w_next wd;
  tn_grounds : grounds w wd;
  tn_window : window p w wd;
  tn_pledge : pledge p w wd;
  tn_supply : supply p wd = supply p0 wd0
}.

Lemma turned_start : on_turn p0 wd0.
Proof.
  destruct (as_shared _ _ _ Ha) as (p & E & Hw & Hp). rewrite Hshared in E. injection E as <-.
  constructor; try done; [apply Ha|split; [done|apply (as_ok _ _ _ Ha)]|apply Ha].
Qed.

(** The writer at the end of the turn. *)
Lemma turned_assisted p wd : on_turn p wd -> assisted (set_prefault (Some p) w) wd es.
Proof.
  intros [T1 T2 T3 T4 T5 T6 T7 T8]. pose proof (gd_fresh _ _ (as_grounds _ _ _ Ha)) as Hf.
  destruct (as_ok _ _ _ Ha) as [K1 K2 K3 K4 K5 K6 K7 K8 K9 K10 K11].
  change (w_file (bare wd0 w)) with f in *. change (w_region_size (bare wd0 w)) with rs in *.
  constructor; [|change (w_file_len w <= len_of wd f); pose proof (as_len _ _ _ Ha); lia|done|destruct T5; by constructor|].
  - constructor; try done; change (w_file (bare wd (set_prefault (Some p) w))) with f;
      change (w_region_size (bare wd (set_prefault (Some p) w))) with rs.
    + unfold in_file in *. change (w_next_hdr_pos (bare wd (set_prefault (Some p) w))) with (w_next_hdr_pos w).
      change (w_next_hdr_pos (bare wd0 w)) with (w_next_hdr_pos w) in K8. lia.
    + apply T3.
    + change (w_file_roll_size (bare wd (set_prefault (Some p) w))) with (w_file_roll_size w).
      change (w_file_roll_size (bare wd0 w)) with (w_file_roll_size w) in K10. destruct K10; [by left|right; lia].
    + by rewrite T2.
  - exists p. split; [done|]. split; [by apply window_prefault|].
    eapply pledge_kept; [exact T7|reflexivity|by constructor|apply frame_grows, frame_refl|apply kept_head_refl].
Qed.

(** Steps that change no file, or the shared state only where it promises nothing. *)
Lemma turned_same_files p wd wd' :
  same_files wd wd' -> calm wd' -> o_random (w_oracle wd') = o_random (w_oracle wd) -> on_turn p wd -> on_turn p wd'.
Proof.
  intros [Ed Ei En] Hc Er [T1 T2 T3 T4 T5 T6 T7 T8].
  assert (El : forall j, len_of wd' j = len_of wd j) by (intros; unfold len_of, inode_of; by rewrite Ei).
  assert (Eda : forall j, data_of wd' j = data_of wd j) by (intros; unfold data_of, inode_of; by rewrite Ei).
  constructor; [done|intros j Hj; rewrite Eda; auto|by rewrite El|by rewrite En| | | |].
  - destruct T5. constructor; unfold id_free in *; rewrite ?Ed, ?En, ?Er; done.
  - destruct T6. constructor; rewrite ?El; done.
  - destruct T7 as [P1 P2 P3 P4 P5 P6 P7 P8]. assert (Eg : generation_of w wd' = generation_of w wd) by (unfold generation_of; by rewrite Eda).
    constructor; rewrite ?Eg, ?Ed; try done. destruct (p_ready p); [|done].
    destruct P8 as (Es & ino & len & id & En' & [I1 I2 I3 I4 [I5 I6]]). split; [done|]. exists ino, len, id. split; [done|].
    constructor; rewrite ?Eg, ?Ed, ?En; try done. constructor; rewrite ?El, ?Eda; done.
  - unfold supply in *. by rewrite Er.
Qed.

Lemma turned_rest p p' wd : same_rest p p' -> (window p w wd -> window p' w wd) -> on_turn p wd -> on_turn p' wd.
Proof.
  intros Hr Hw [T1 T2 T3 T4 T5 T6 T7 T8]. constructor; try done; [by apply Hw| |].
  - eapply pledge_kept; [exact T7|exact Hr|by constructor|by apply frame_grows, frame_refl|apply kept_head_refl].
  - unfold supply in *. by rewrite (sr_ready _ _ Hr).
Qed.

(** The segments retention dropped are deleted. *)
Lemma turned_trimmed p p' wd wd' :
  trimmed (w_base_path w) (items (p_doomed p)) wd wd' -> same_but_doomed p p' -> items (p_doomed p') = [] ->
  on_turn p wd -> on_turn p' wd'.
Proof.
  intros Ht [Hr Hw] Hd [T1 T2 T3 T4 T5 T6 T7 T8]. pose proof (trimmed_calm _ _ _ _ Ht T1) as Hc.
  pose proof (pl_doomed _ _ _ T7) as Hks.
  assert (Hks' : Forall (fun k => 0 <= k <= U64_MAX) (items (p_doomed p))).
  { eapply Forall_impl; [exact Hks|]. intros k Hk. cbn in Hk. lia. }
  assert (Hkept : forall k, w_file_sequence w <= k <= U64_MAX ->
    w_dir wd' !! channel_file_name (w_base_path w) k = w_dir wd !! channel_file_name (w_base_path w) k).
  { intros k Hk. pose proof (gd_sequence _ _ T5). eapply trimmed_named; [exact Ht|done|lia|].
    intros Hin. rewrite Forall_forall in Hks. apply Hks in Hin. lia. }
  assert (Hnone : forall name, w_dir wd !! name = None -> w_dir wd' !! name = None).
  { intros name Hn. destruct (tm_dir _ _ _ _ Ht name) as [->|[? _]]; done. }
  pose proof (trimmed_not_dir _ _ _ _ (w_base_path w) Ht (gd_base _ _ T5)) as Hb. destruct Ht as [Ei En Eo _].
  assert (El : forall j, len_of wd' j = len_of wd j) by (intros; unfold len_of, inode_of; by rewrite Ei).
  assert (Eda : forall j, data_of wd' j = data_of wd j) by (intros; unfold data_of, inode_of; by rewrite Ei).
  constructor; [done|intros j Hj; rewrite Eda; auto|by rewrite El|by rewrite En| | | |].
  - destruct T5 as [G1 G2 G3 G4 G5 G6 G7 G8 G9 G10]. constructor; rewrite ?En, ?Eo; try done.
    + eapply Forall_impl; [exact G9|]. intros id (? & ? & Hf). split_and!; [done|done|]. intros k. by apply Hnone.
    + intros k Hk. apply Hnone. auto.
  - apply Hw. destruct T6. constructor; rewrite ?El; done.
  - destruct T7 as [P1 P2 P3 P4 P5 P6 P7 P8], Hr as [R1 R2 R3 R4 R5 R6 R7 R8 R9 R10 R11]. cbn in *.
    assert (Eg : generation_of w wd' = generation_of w wd) by (unfold generation_of; by rewrite Eda).
    constructor; rewrite ?R3, ?R4, ?R5, ?R6, ?R7, ?R8, ?R9, ?Hd, ?Eg; try done; try (by constructor); try (by intros _).
    destruct (p_ready p).
    + destruct P8 as (Es & ino & len & id & En' & [I1 I2 I3 I4 [I5 I6]]). split; [done|]. exists ino, len, id. split; [done|].
      constructor; rewrite ?Eg, ?En; try done; [rewrite Hkept; [done|lia]|]. constructor; rewrite ?El, ?Eda; done.
    + destruct P8 as [Es Hf]. split; [done|]. intros Hn. apply Hnone. auto.
  - unfold supply in *. rewrite Eo. pose proof (sr_ready _ _ Hr) as Er. cbn in Er. by rewrite Er.
Qed.

(** *** The steps *)

(** What is to be deleted, and what the files to come are like. *)
Definition same_plan (p p' : Shared) : Prop :=
  p_doomed p' = p_doomed p /\ p_spec p' = p_spec p /\ p_regions_per_file p' = p_regions_per_file p /\ p_refused p' = p_refused p.

(** The next region is held ready, where the file has one, and the next segment is, unless it was
    refused. *)
Definition has_region (p : Shared) : Prop := region_to_come w p -> p_next p <> None.
Definition has_segment (p : Shared) : Prop := p_refused p <> Some next -> next < U64_MAX -> p_ready p <> None.

(** A step that returns, with nothing queued for deletion that was not before. *)
#[local] Notation keeps m := (fun p wd => wp m p wd (fun r p' wd' =>
  r = Ok tt /\ on_turn p' wd' /\ same_plan p p') (fun _ => True)).

(** A step of the thread alone: it keeps the header page it has. *)
#[local] Notation steps m t := (fun p wd => wp m p wd (fun r p' wd' =>
  p' = p /\ on_turn p wd' /\ (forall e, r <> Err e) /\ forall t', r = Ok t' -> u_header t' = u_header t) (fun _ => True)).

Lemma release_run p wd :
  on_turn p wd ->
  wp release_left p wd (fun r p' wd' => r = Ok tt /\ on_turn p' wd' /\ items (p_doomed p') = [] /\ p_stop p' = p_stop p) (fun _ => True).
Proof.
  intros HT. pose proof (tn_calm _ _ HT) as Hc. unfold release_left. apply wp_bind, wp_self. cbv zeta.
  set (out := match p_unmap p with Immediate => items _ | AtFileRoll => List.filter (fun l => negb _) _ end).
  apply wp_bind, wp_modify. match goal with |- wp _ ?x _ _ _ => set (p1 := x) end. apply wp_bind.
  assert (Hp1 : same_but_doomed p p1) by (constructor; [by constructor|intros ? ? []; by constructor]).
  assert (Hout : wp (for_each out (fun l => match l with LRegion _ _ => ignore (S := Shared) syscall | _ => ret tt end)) p1 wd
    (fun r p' wd' => r = Ok tt /\ p' = p1 /\ wd' = wd) (fun _ => True)).
  { clearbody out. induction out as [|l out IH]; [by apply wp_ret|]. cbn [for_each]. apply wp_bind. destruct l; try by apply wp_ret.
    unfold ignore. apply wp_bind, wp_attempt. eapply wp_reads; [by apply reads_syscall|]. by apply wp_ret. }
  eapply wp_mono; [exact Hout| |done]. intros r p' wd' (-> & -> & ->). clear Hout.
  apply wp_bind, wp_self, wp_bind, wp_modify. match goal with |- wp _ ?x _ _ _ => set (p2 := x) end.
  apply wp_bind, wp_self, wp_bind, wp_modify. match goal with |- wp _ ?x _ _ _ => set (p3 := x) end.
  assert (Hp3 : same_but_doomed p p3).
  { eapply same_but_doomed_trans; [exact Hp1|]. constructor; [by constructor|intros ? ? []; by constructor]. }
  assert (Eb : p_base_path p2 = w_base_path w) by apply (pl_base_path _ _ _ (tn_pledge _ _ HT)).
  change (p_doomed p2) with (p_doomed p). rewrite Eb.
  eapply wp_mono; [apply prefault_delete_run; [done|apply (gd_base _ _ (tn_grounds _ _ HT))]| |done].
  intros r p' wd' (-> & -> & Ht). split; [done|]. split; [|done]. by eapply turned_trimmed.
Qed.

(** The clock moves, and nothing else. *)
Lemma tick_run p wd (k : Z -> M Shared Turn) (Q : res Turn -> Shared -> world -> Prop) :
  on_turn p wd -> (forall time wd', on_turn p wd' -> wp (k time) p wd' Q (fun _ => True)) -> wp (bind now k) p wd Q (fun _ => True).
Proof.
  intros HT HQ. apply wp_bind.
  assert (Hn : wp now p wd (fun r p' wd' => exists time, r = Ok time /\ p' = p /\ on_turn p wd') (fun _ => True)).
  { unfold wp, now, consume. destruct (o_ticks (w_oracle wd)) as [|d l]; cbn; split; [|by constructor| |by constructor].
    - eexists. split; [reflexivity|]. split; [reflexivity|]. apply (turned_same_files p wd); [by constructor|exact (tn_calm _ _ HT)|done|exact HT].
    - eexists. split; [reflexivity|]. split; [reflexivity|]. apply (turned_same_files p wd); [by constructor|exact (tn_calm _ _ HT)|done|exact HT]. }
  eapply wp_mono; [exact Hn| |done]. intros r p' wd' (time & -> & -> & HT'). by apply HQ.
Qed.

Lemma estimate_run t sequence pos p wd :
  on_turn p wd ->
  wp (estimate_ahead t sequence pos) p wd (fun r p' wd' => p' = p /\ on_turn p wd' /\ exists t', r = Ok t') (fun _ => True).
Proof.
  intros HT. assert (Hret : forall (t' : Turn) wd', on_turn p wd' ->
    wp (ret t') p wd' (fun r p' wd' => p' = p /\ on_turn p wd' /\ exists t', r = Ok t') (fun _ => True)).
  { intros t' wd' HT'. apply wp_ret. split; [done|]. split; [done|]. by eexists. }
  unfold estimate_ahead. apply tick_run; [done|]. intros time wd1 HT1. cbv zeta.
  destruct (negb _); [apply tick_run; [done|]; intros; by apply Hret|].
  destruct (_ >=? _); [apply tick_run; [done|]; intros; by apply Hret|by apply Hret].
Qed.

(** Populating pages changes no byte. *)
Lemma asked_same_files m off len wd : same_files wd (asked m off len wd).
Proof. unfold asked. by destruct SUPPORTED; constructor. Qed.

Lemma asked_inode m off len wd i : inode_of (asked m off len wd) i = inode_of wd i.
Proof. unfold asked. by destruct SUPPORTED. Qed.

Lemma turned_asked m off len p wd : on_turn p wd -> on_turn p (asked m off len wd).
Proof.
  intros HT. eapply turned_same_files; [apply asked_same_files|apply asked_calm, HT| |exact HT]. unfold asked. by destruct SUPPORTED.
Qed.

(** The file grown for the region after the writer's, and that region mapped. *)
Lemma turned_grown p wd want :
  on_turn p wd -> want <= I64_MAX -> on_turn (with_len (Z.max (len_of wd f) want) p) (grown_to f want wd).
Proof.
  intros [T1 T2 T3 T4 T5 T6 T7 T8] Hmax.
  assert (Hg : grows f wd (grown_to f want wd)).
  { unfold grown_to. destruct (Z.gtb_spec want (len_of wd f)); [apply grows_resize; lia|apply frame_grows, frame_refl]. }
  assert (Hd : forall j, data_of (grown_to f want wd) j = data_of wd j).
  { intros j. unfold grown_to. destruct (Z.gtb_spec want (len_of wd f)); [apply data_of_grow; lia|done]. }
  constructor.
  - by apply grown_to_calm.
  - intros j Hj. rewrite Hd. auto.
  - rewrite grown_to_len. lia.
  - rewrite (gr_next _ _ _ Hg). done.
  - eapply grounds_kept; [exact T5|by constructor|done].
  - pose proof (window_grown p w wd want (w_file_len w) T6) as Hw. destruct Hw. by constructor.
  - eapply pledge_kept; [exact T7|by constructor|by constructor|done|]. rewrite Hd. apply kept_head_refl.
  - unfold supply. rewrite (gr_oracle _ _ _ Hg). exact T8.
Qed.

Lemma prepare_region_run p wd :
  on_turn p wd -> wp (prepare (w_file_sequence w) (w_current_region_index w + 1)) p wd (fun r p' wd' =>
    r = Ok tt /\ on_turn p' wd' /\ same_plan p p' /\ has_region p') (fun _ => True).
Proof.
  intros HT. pose proof HT as [T1 T2 T3 T4 T5 T6 T7 T8]. set (index := w_current_region_index w + 1).
  pose proof (as_ok _ _ _ Ha) as Hok. pose proof (wk_rs _ _ _ Hok) as Hrs. pose proof (rs_pos _ Hrs) as Hrs'.
  assert (Hidx : 0 <= index).
  { pose proof (wk_index _ _ _ Hok) as Hi. change (w_current_region_index (bare wd0 w)) with (w_current_region_index w) in Hi.
    unfold index. rewrite Hi. pose proof (writer_ok_next _ _ _ Hok). pose proof (Z.div_pos (w_next_hdr_pos (bare wd0 w)) (w_region_size (bare wd0 w))). lia. }
  change (w_region_size (bare wd0 w)) with rs in *.
  unfold prepare. apply wp_bind, wp_self.
  destruct (match p_regions_per_file p with Some n => _ | None => false end) eqn:Efull.
  { apply wp_ret. split; [done|]. split; [done|]. split; [done|]. intros [Hroom _]. destruct (p_regions_per_file p) as [n|]; [|done].
    rewrite Z.geb_leb in Efull. apply Z.leb_le in Efull. unfold index in *. lia. }
  destruct (match p_next p with Some n => _ | None => false end) eqn:Ehas.
  { apply wp_ret. split; [done|]. split; [done|]. split; [done|]. intros _. by destruct (p_next p). }
  clear Efull Ehas. cbv zeta.
  rewrite (wn_segment _ _ _ T6), (wn_size _ _ _ T6). cbn [hs_sequence hs_instance hs_file hs_len]. rewrite Z.eqb_refl. cbn [negb].
  set (want := (index + 1) * rs).
  assert (Hmapped : forall p2 wd2, on_turn p2 wd2 -> want <= len_of wd2 f -> same_plan p p2 ->
      wp (region <- ok (create_writable f (index * rs) rs) ;;
      match region with None => ret tt | Some region => modify (with_next (Some (MkNext (w_file_sequence w) index region))) end) p2 wd2
      (fun r p' wd' => r = Ok tt /\ on_turn p' wd' /\ same_plan p p' /\ has_region p') (fun _ => True)).
  { intros p2 wd2 HT2 Hw2 Ed2. assert (Hr : reads (create_writable f (index * rs) rs) p2 wd2 (Ok (Mapping f (index * rs) rs))).
    { apply reads_create_writable; [apply HT2| |lia|unfold want in Hw2; lia].
      pose proof (rs_aligned rs (index * rs) Hrs) as Hal. by rewrite Z.div_mul in Hal by lia. }
    eapply (wp_reads_bind _ _ _ _ (Some (Mapping f (index * rs) rs))).
    { unfold ok. eapply reads_seq; [by apply reads_attempt_ok|done]. }
    apply wp_modify. split; [done|]. split; [|by split]. eapply turned_rest; [|..|exact HT2]; [by constructor|].
    intros [W1 W2 W3 W4 W5 W6 W7 W8]. constructor; try done. intros n [= <-]. cbn. by split_and!. }
  assert (Hgo : forall m, wp m p wd (fun r p' wd' => (exists b : bool, r = Ok b /\ if b then want <= len_of wd' f else I64_MAX < want) /\ on_turn p' wd' /\ same_plan p p') (fun _ => True) ->
    wp (grown <- m ;; if negb grown then ret tt else region <- ok (create_writable f (index * rs) rs) ;;
      match region with None => ret tt | Some region => modify (with_next (Some (MkNext (w_file_sequence w) index region))) end) p wd
      (fun r p' wd' => r = Ok tt /\ on_turn p' wd' /\ same_plan p p' /\ has_region p') (fun _ => True)).
  { intros m Hm. apply wp_bind. eapply wp_mono; [exact Hm| |done]. intros r p' wd' ((b & -> & Hb) & HT' & Ed').
    destruct b; cbn [negb]; [by apply Hmapped|]. apply wp_ret. split; [done|]. split; [done|]. split; [done|].
    intros [_ Hfit]. unfold want, index in *. lia. }
  apply Hgo. clear Hgo Hmapped. destruct (Z.ltb_spec (len_of wd f) want) as [Hlt|Hge]; [|apply wp_ret; split; [by exists true|by split]].
  destruct (Z.le_gt_cases want I64_MAX) as [Hle|Hgt].
  - pose proof (turned_grown p wd want HT Hle) as HT'. apply wp_bind, wp_attempt.
    eapply wp_outcome; [apply grow_run; [done|done|lia]| |by apply Forall_forall].
    apply wp_bind, wp_modify, wp_ret. split; [exists true; split; [done|rewrite grown_to_len; lia]|split; [|done]].
    rewrite Z.max_r in HT' by lia. unfold with_len in HT'. by rewrite (wn_segment _ _ _ T6) in HT'.
  - apply wp_bind, wp_attempt. unfold set_len. eapply wp_reads_bind; [by apply reads_syscall|].
    replace (want >? I64_MAX) with true by (symmetry; rewrite Z.gtb_ltb; apply Z.ltb_lt; lia).
    apply wp_lift. cbn. apply wp_ret. split; [by exists false|by split].
Qed.

(** *** Preparing the next segment *)

Lemma fresh_exhausted {S} (s : S) wd : calm wd -> o_random (w_oracle wd) = [] -> exists e, InstanceId_fresh s wd = Outcome (Err e) s wd [].
Proof.
  intros Hc Er. unfold InstanceId_fresh.
  assert (Hg : reads (getrandom (S := S) 16) s wd (Err (err_other "getrandom"))).
  { unfold getrandom. eapply reads_seq; [by apply reads_syscall|]. unfold reads, bind, consume. by rewrite Er. }
  assert (Hf : (fill_random 16 : M S _) s wd = Outcome (Err (err_other "getrandom")) s wd []).
  { unfold fill_random. rewrite (reads_bind _ _ _ _ _ (reads_ask _ _ _)), Er. cbn [loop_with length Nat.add].
    apply reads_bind_err. unfold fill_step. cbn [length Nat.ltb Nat.leb Nat.sub]. eapply reads_seq; [by apply reads_attempt_err|]. done. }
  eexists. unfold bind at 1, ask. cbn [o_res o_self o_world o_trace]. cbn [loop]. unfold bind. rewrite Hf. cbn. reflexivity.
Qed.

(** The world with the next segment installed. *)
Lemma turned_installed p wd id rest len w2 :
  on_turn p wd -> p_spec p <> None -> p_ready p = None -> o_random (w_oracle wd) = id :: rest ->
  preallocation_len rs (w_file_roll_size w) = Ok len ->
  private (channel_file_name (w_base_path w) next) (w_next wd) (drawn rest wd) w2 ->
  prepared w2 (w_next wd) len next rs (w_mtu w) (w_channel_name w) 0 (generation_of w wd) (successor_identity w id) ->
  on_turn (with_ready (Some (MkNextSegment next (successor_identity w id) (prepared_segment w (w_next wd) len) (w_next wd))) next p) w2.
Proof.
  intros [T1 T2 T3 T4 [G1 G2 G3 G4 G5 G6 G7 G8 G9 G10] T6 [P1 P2 P3 P4 P5 P6 P7 P8] T8] Espec Er Eo Hlen Hpv Hpr.
  rewrite Er in P8. destruct P8 as [Es Hfree]. rewrite Eo in G9. apply Forall_cons in G9 as [(I1 & I2 & I3) Hrest].
  pose proof (private_calm _ _ _ _ Hpv T1) as Hc2. destruct Hpv as [Dd Dn Do Di].
  change (w_dir (drawn rest wd)) with (w_dir wd) in Dd. change (forall j, j <> w_next wd -> inode_of w2 j = inode_of wd j) in Di.
  assert (Ef : inode_of w2 f = inode_of wd f) by (apply Di; lia).
  assert (El : len_of w2 f = len_of wd f) by (unfold len_of; by rewrite Ef).
  assert (Eg : generation_of w w2 = generation_of w wd) by (unfold generation_of, data_of; by rewrite Ef).
  assert (Hother : forall name, name <> named w next -> w_dir w2 !! name = w_dir wd !! name).
  { intros name Hn. rewrite Dd. rewrite lookup_insert_ne; [done|]. intros E. apply Hn. by rewrite E. }
  assert (Hn1 : 0 <= next <= U64_MAX) by lia.
  constructor; [done| | | | | | |].
  - intros j Hj. rewrite <- T2 by done. unfold data_of. by rewrite Di by lia.
  - by rewrite El.
  - rewrite Dn. lia.
  - constructor; try done.
    + rewrite Dn. lia.
    + destruct (decide (w_base_path w = named w next)) as [E|E]; [|by rewrite Hother]. rewrite Dd.
      rewrite <- E. by rewrite lookup_insert_eq.
    + rewrite Do. cbn. eapply Forall_impl; [exact Hrest|]. intros x (X1 & X2 & X3). split; [done|]. split; [done|].
      intros k. rewrite Hother; [done|]. by apply attempt_name_not_file.
    + intros k Hk. rewrite Hother; [by apply G10|]. intros E%channel_file_name_inj; lia.
  - destruct T6. constructor; rewrite ?El; done.
  - constructor; rewrite ?Eg; try done. split; [done|]. exists (w_next wd), len, id. split; [done|]. constructor; [done| | |done|by rewrite Eg].
    + rewrite Dd. apply lookup_insert_eq.
    + rewrite Dn. lia.
  - unfold supply in *. rewrite <- T8, Do, Eo, Er. cbn. lia.
Qed.

(** What the helper installs is what [roll_file] would have prepared. *)
Lemma install_run spec p wd ahead :
  on_turn p wd -> p_spec p = Some spec -> p_ready p = None -> 0 <= ahead ->
  let p1 := with_in_flight next p in
  wp (install_ahead spec next (w_instance w) ahead) p1 wd (fun r p' wd' =>
      p' = p1 /\ match r with
      | Ok (Some (identity, segment, worker)) =>
          on_turn (with_ready (Some (MkNextSegment next identity segment worker)) next p) wd'
      | Ok None | Die _ => False
      | Err e => on_turn p wd' /\ supply p0 wd0 = 0%nat
      end) (fun _ => True).
Proof.
  intros HT Espec Er Hah p1. pose proof HT as [T1 T2 T3 T4 [G1 G2 G3 G4 G5 G6 G7 G8 G9 G10] T6 [P1 P2 P3 P4 P5 P6 P7 P8] T8].
  rewrite Espec in P7. destruct P7 as [Hrolls ->]. rewrite Er in P8. destruct P8 as [Es Hfree].
  pose proof (wk_rs _ _ _ (as_ok _ _ _ Ha)) as Hrs. change (w_region_size (bare wd0 w)) with rs in Hrs. pose proof (rs_pos _ Hrs) as Hrs'.
  unfold install_ahead. apply wp_bind, wp_self. apply wp_bind. destruct (o_random (w_oracle wd)) as [|id rest] eqn:Eo.
  { destruct (fresh_exhausted p1 wd T1 Eo) as [e Ef]. eapply wp_outcome; [exact Ef| |constructor]. split; [done|]. split; [done|]. rewrite <- T8. unfold supply. by rewrite Eo, Er. }
  apply Forall_cons in G9 as Hid. destruct Hid as [(I1 & I2 & I3) Hrest]. eapply (wp_fresh id rest); [done|done|done|done|].
  cbn [sp_base_path sp_file_roll_size sp_mtu sp_channel_name sp_generation instance Identity_successor].
  change (p_region_size p1) with (p_region_size p). rewrite (wn_size _ _ _ T6). replace (next - 1) with (w_file_sequence w) by lia.
  fold (successor_identity w id).
  eapply wp_reads_bind; [by apply reads_attempt_path|]. eapply wp_reads_bind; [by apply reads_channel_path|].
  destruct G7 as [|[len Hlen]]; [lia|].
  destruct (preallocation_len_Ok rs (w_file_roll_size w) len) as [Hl _]; [pose proof (proj1 Hrs); lia|apply G6|apply G6|done|].
  assert (Hiok : identity_ok (successor_identity w id)) by (unfold U64_MAX in *; split_and!; cbn; [done|apply G2|lia|lia]).
  apply wp_bind, wp_attempt. eapply (prepare_run _ _ _ _ len); [done|done|done|done|done|unfold U64_MAX in *; lia|done|
    apply (get_range 8)|done|apply I3|done|].
  intros w1 Hp1 Hpr. pose proof (private_calm _ _ _ _ Hp1 T1) as Hc1. change (w_next (drawn rest wd)) with (w_next wd) in *.
  apply wp_bind, wp_attempt. cbn [ps_current_region]. apply wp_populate; [done|done|].
  apply (private_asked _ _ _ _ (Mapping (w_next wd) 0 rs) 0 (Z.min ahead rs)) in Hp1. set (w1' := asked _ _ _ w1) in *.
  clear Hc1. pose proof (private_calm _ _ _ _ Hp1 T1) as Hc1.
  apply wp_bind, wp_attempt. eapply wp_install; [done|exact Hp1|apply attempt_not_final|apply I3|by apply Hfree|].
  intros w2 Hp2 Hi2. split; [done|]. cbn beta iota. pose proof (private_calm _ _ _ _ Hp2 T1) as Hc2.
  apply wp_bind, wp_bind. eapply wp_reads; [by apply reads_syscall|]. cbn beta iota. apply wp_ret, wp_ret.
  split; [done|]. eapply turned_installed; try done; [by rewrite Espec|].
  eapply prepared_same; [rewrite Hi2; apply asked_inode|exact Hpr].
Qed.

(** The segment is prepared, is already, or cannot be for want of an instance ID. *)
#[local] Notation ends m := (fun p wd => wp m p wd (fun r p' wd' =>
  (r = Ok tt \/ (exists e, r = Err e) /\ supply p0 wd0 = 0%nat) /\ on_turn p' wd' /\ same_plan p p' /\ p_next p' = p_next p /\
  (r = Ok tt -> has_segment p')) (fun _ => True)).

Lemma turned_in_flight p wd v : on_turn p wd -> on_turn (with_in_flight NONE (with_in_flight v p)) wd.
Proof.
  intros HT. eapply turned_rest; [|..|exact HT]; [|intros []; by constructor].
  constructor; try done. cbn. symmetry. apply (pl_in_flight _ _ _ (tn_pledge _ _ HT)).
Qed.

Lemma segment_ahead_run spec ahead p wd :
  on_turn p wd -> p_spec p = Some spec -> 0 <= ahead -> ends (prepare_segment spec next ahead) p wd.
Proof.
  intros HT Espec Hah. pose proof HT as [_ _ _ _ [G1 _ _ _ _ _ _ _ _ _] T6 [_ P2 P3 _ _ _ _ P8] _].
  assert (Hret : forall (m : M Shared unit), m p wd = Outcome (Ok tt) p wd [] -> has_segment p -> ends m p wd).
  { intros m E Hs. eapply wp_outcome; [exact E| |constructor]. by split; [left|]. }
  unfold prepare_segment. apply wp_bind, wp_self.
  destruct (Z.eqb_spec (p_ready_sequence p) next) as [Eq|Hne].
  { apply Hret; [done|]. intros _ Hmax. destruct (p_ready p); [done|]. destruct P8 as [Es _]. unfold NONE in Es. lia. }
  destruct (p_ready p) as [n|] eqn:Er; [destruct P8 as [Es _]; lia|]. apply wp_bind, wp_ret.
  apply wp_bind, wp_self. rewrite Er, orb_false_r. case_bool_decide; [apply Hret; [done|by intros Hn]|].
  rewrite (wn_segment _ _ _ T6). cbn [hs_sequence hs_instance]. rewrite Z.eqb_refl. cbn [negb]. cbv zeta.
  apply wp_bind, wp_modify, wp_bind, wp_self. apply wp_bind, wp_attempt.
  change (p_claimed (with_in_flight next p)) with (p_claimed p). rewrite P2.
  replace (w_file_sequence w >=? next) with false by (symmetry; rewrite Z.geb_leb; apply Z.leb_gt; lia).
  eapply wp_mono; [by apply (install_run spec p wd ahead)|cbv beta|done]. intros r p1 wd1 [-> Hr].
  destruct r as [[[[identity segment] worker]|]|e|y]; [| |..]; try done; apply wp_bind, wp_modify.
  - apply wp_bind, wp_self. change (p_claimed (with_in_flight NONE (with_in_flight next p))) with (p_claimed p).
    rewrite P2, (proj2 (Z.ltb_lt _ _)) by lia. apply wp_modify. split; [by left|]. split; [|by split].
    eapply turned_rest; [|..|apply (turned_in_flight _ _ next Hr)]; [by constructor|]. intros []. by constructor.
  - apply wp_lift. split; [right; split; [by exists e|apply Hr]|]. split; [|done]. apply turned_in_flight, Hr.
Qed.

(** *** The turn *)

(** The shared state's own copy of the header page. *)
Lemma header_run t p wd :
  on_turn p wd -> thread_ok w t ->
  let Q h p' wd' := p' = p /\ wd' = wd /\ h = Some (w_file_sequence w, Mapping f 0 page_size) in
  wp (if match u_header t with Some (s, _) => negb (s =? w_file_sequence w) | None => true end then
        h <- map_header (w_file_sequence w) ;; ret ((fun m => (w_file_sequence w, m)) <$> h)
      else ret (u_header t)) p wd (fun r p' wd' => exists h, r = Ok h /\ Q h p' wd') (fun _ => True).
Proof.
  intros HT [_ Hh] Q.
  assert (Hmap : wp (h <- map_header (w_file_sequence w) ;; ret ((fun m => (w_file_sequence w, m)) <$> h)) p wd
    (fun r p' wd' => exists h, r = Ok h /\ Q h p' wd') (fun _ => True)).
  { unfold map_header. eapply (wp_reads_bind _ _ _ _ (Some (Mapping f 0 page_size))); [|apply wp_ret; by eexists].
    eapply reads_seq; [apply reads_self|]. rewrite (wn_segment _ _ _ (tn_window _ _ HT)). cbn [hs_sequence hs_file].
    rewrite Z.eqb_refl. cbn [negb]. eapply reads_seq; [|done]. pose proof page_size_pos.
    apply reads_create_read_only; [apply HT|]. split_and!; [lia|by apply Z.mod_same; lia|by apply Z.mod_0_l; lia]. }
  destruct (u_header t) as [[s m]|] eqn:E; [|exact Hmap]. destruct (Hh s m eq_refl) as [Hs Em].
  destruct (Z.eqb_spec s (w_file_sequence w)) as [->|Hne]; cbn [negb]; [|exact Hmap].
  apply wp_ret. eexists. split; [reflexivity|]. by rewrite Em.
Qed.

(** What a turn leaves: no segment to delete, and another turn to take unless it ended. *)
Definition turn_left (t : Turn) (r : res (Turn + unit)) (p' : Shared) (wd' : world) : Prop :=
  on_turn p' wd' /\ items (p_doomed p') = [] /\
  match r with
  | Ok (inl t') => thread_ok w t' /\ readied w p' wd' /\ (SUPPORTED = true -> kept_up w t wd0 -> kept_up w t' wd' /\ populated w t' p' wd')
  | Ok (inr _) => p_stop p0 = true
  | Err _ => supply p0 wd0 = 0%nat
  | Die _ => False
  end.

Lemma thread_ok_header t : turn_ok rs t -> u_header t = Some (w_file_sequence w, Mapping f 0 page_size) -> thread_ok w t.
Proof. intros Ht E. constructor; [done|]. rewrite E. intros s m' [= <- <-]. split; [lia|done]. Qed.

Lemma region_fits : 0 < rs <= U32_MAX /\ rs mod page_size = 0.
Proof.
  pose proof (wk_rs _ _ _ (as_ok _ _ _ Ha)) as Hrs. change (w_region_size (bare wd0 w)) with rs in Hrs.
  destruct Hrs. split; [lia|done].
Qed.

Lemma current_size : region_size (w_current_region w) = rs.
Proof. pose proof (wk_current _ _ _ (as_ok _ _ _ Ha)) as E. change (w_current_region w = region_of f rs (w_next_hdr_pos w)) in E. by rewrite E. Qed.

Lemma next_is p wd n : on_turn p wd -> p_next p = Some n ->
  n_sequence n = w_file_sequence w /\ n_index n = w_current_region_index w + 1 /\ n_region n = next_region w.
Proof.
  intros HT E. destruct (wn_next _ _ _ (tn_window _ _ HT) n E) as (? & Ei & Er & _). split_and!; [done|done|]. by rewrite Er, Ei.
Qed.

Lemma turned_sizes p wd : on_turn p wd -> sizes rs p.
Proof.
  intros HT. pose proof (tn_window _ _ HT) as Hw. constructor; [apply Hw| |].
  - rewrite (wn_current _ _ _ Hw). intros m [= <-]. apply current_size.
  - intros n E. by destruct (next_is p wd n HT E) as (_ & _ & ->).
Qed.

Lemma turned_pos p wd : on_turn p wd -> header_pos w wd = header_pos w wd0.
Proof. intros HT. unfold header_pos. rewrite (tn_data _ _ HT); [done|]. apply (gd_fresh _ _ (as_grounds _ _ _ Ha)). Qed.

Lemma turned_off p wd : on_turn p wd -> header_off w wd = header_off w wd0.
Proof. intros HT. unfold header_off. by rewrite (turned_pos p wd HT). Qed.

(** The turn has populated what it should, and its notes say so. *)
Lemma turned_populated t t2 t5 p4 p6 wd2 wd5 wd6 v :
  on_turn p4 wd5 -> on_turn p6 wd6 -> p_next p6 = p_next p4 -> asks rs wd0 wd2 -> asks rs wd2 wd5 -> asks rs wd5 wd6 ->
  let off := header_off w wd0 in
  let place := (w_file_sequence w, w_current_region_index w) in
  let ahead := (w_file_sequence w, w_current_region_index w + 1) in
  kept_up w t wd0 -> u_next_head_done t2 = u_next_head_done t -> AHEAD_MIN <= u_ahead t2 ->
  covered wd5 (w_current_region w) (page_of off) v -> Z.min (off + u_ahead t2) rs <= v ->
  u_done_at t5 = place -> u_done_to t5 = v -> u_ahead t5 = u_ahead t2 ->
  (u_next_head_done t5 = u_next_head_done t2 \/ u_next_head_done t5 = ahead /\
     exists n, p_next p4 = Some n /\ covered wd5 (n_region n) 0 (Z.min (u_ahead t2) rs)) ->
  (rs - off < u_ahead t2 -> forall n, p_next p4 = Some n -> n_sequence n = w_file_sequence w ->
     n_index n = w_current_region_index w + 1 -> u_next_head_done t5 = ahead) ->
  kept_up w t5 wd6 /\ populated w t5 p6 wd6.
Proof.
  intros HT5 HT6 En A2 A5 A6 off place ahead [K1 K2 K3 K4] Eh Hmin Hcov Hv Eat Eto Eah Hhead Hnew.
  assert (Hoff : header_off w wd6 = off) by by apply (turned_off p6).
  assert (Hhead6 : u_next_head_done t5 = ahead -> covered wd6 (next_region w) 0 (Z.min AHEAD_MIN rs)).
  { intros E. destruct Hhead as [E2|(_ & n & En4 & Hc)].
    - eapply covered_asks; [etransitivity; [exact A2|etransitivity; [exact A5|exact A6]]|]. apply K4. rewrite <- Eh, <- E2. exact E.
    - eapply covered_asks; [exact A6|]. destruct (next_is p4 wd5 n HT5 En4) as (_ & _ & <-).
      eapply covered_sub; [reflexivity| |exact Hc]. lia. }
  apply (covered_asks rs _ wd6) in Hcov; [|exact A6]. split; [constructor|split]; rewrite ?Hoff, ?Eat, ?Eto, ?Eah.
  - right. right. cbn. lia.
  - destruct Hhead as [E|[E _]]; rewrite E; [by rewrite Eh|]. right. right. cbn. lia.
  - done.
  - exact Hhead6.
  - eapply covered_sub; [reflexivity|exact Hv|done].
  - intros Hnear Hsome. apply Hhead6. rewrite En in Hsome. destruct (p_next p4) as [n|] eqn:E4; [|done].
    destruct (next_is p4 wd5 n HT5 E4) as (? & ? & _). by apply (Hnew Hnear n).
Qed.

Lemma run_turn_run t : thread_ok w t -> wp (run_turn t) p0 wd0 (turn_left t) (fun _ => True).
Proof.
  intros Ht. pose proof region_fits as Hrs. unfold run_turn. apply wp_bind.
  eapply wp_mono; [eapply (careful_wp rs (sizes rs) _ (fun _ => True)); [by apply careful_release|by eapply turned_sizes, turned_start|
    apply (release_run p0 wd0), turned_start]| |done].
  intros r p wd ((-> & HT & Hd & Es) & A1 & _).
  apply wp_bind, wp_self. destruct (p_stop p) eqn:Estop; [by apply wp_ret|]. cbv zeta.
  pose proof (tn_window _ _ HT) as Hw. rewrite (wn_sequence _ _ _ Hw), (wn_index _ _ _ Hw), (wn_current _ _ _ Hw), (wn_size _ _ _ Hw).
  apply wp_bind. eapply wp_mono; [by apply header_run| |done]. intros r p1 wd1 (h & -> & -> & -> & ->).
  cbn beta iota. destruct (th_turn _ _ Ht) as [U1 U2 U3].
  set (t1 := MkTurn (u_done_at t) _ _ _ _ _ _). assert (Ht1 : turn_ok rs t1) by by constructor.
  assert (Hh1 : u_header t1 = Some (w_file_sequence w, Mapping f 0 page_size)) by done.
  assert (E1 : u_done_at t1 = u_done_at t /\ u_done_to t1 = u_done_to t /\ u_next_head_done t1 = u_next_head_done t) by done.
  clearbody t1. clear U1 U2 U3 Ht.
  eapply wp_reads_bind.
  { unfold load_write_position, load_u64. pose proof page_size_pos. pose proof (tn_len _ _ HT) as Hl.
    pose proof (writer_ok_rs_len _ _ _ (as_ok _ _ _ Ha)) as Hrl. change (rs <= len_of wd0 f) in Hrl.
    pose proof (proj1 (wk_rs _ _ _ (as_ok _ _ _ Ha))) as Hr. change (4096 <= rs <= U32_MAX) in Hr. apply reads_view; [apply HT|]. unfold backed. change OFF_write_position with 16. cbn. lia. }
  pose proof (get_range 8 (data_of wd f) (0 + OFF_write_position)) as Hpos. set (pos := get 8 _ _) in *.
  apply wp_bind. eapply wp_mono; [eapply (careful_wp rs (sizes rs)); [by apply careful_estimate|by eapply turned_sizes|by apply estimate_run]| |done].
  intros r p' wd2 ((-> & HT2 & t2 & ->) & A2 & Hok). destruct (Hok t2 eq_refl) as (Ht2 & E2a & E2b & E2c & E2d). clear Hok.
  unfold div_guard. replace (rs =? 0) with false by (symmetry; apply Z.eqb_neq; lia). apply wp_bind, wp_ret.
  change (if pos / rs =? w_current_region_index w then pos mod rs else 0) with (header_off w wd).
  rewrite (turned_off p wd HT). set (off := header_off w wd0).
  assert (Hoff : 0 <= off < rs). { unfold off, header_off. destruct (_ =? _); [apply Z.mod_pos_bound|]; lia. }
  destruct (current_covers rs Hrs t2 (w_file_sequence w) (w_current_region_index w) off (w_current_region w) p wd2)
    as (v & wd3 & tr3 & E3 & Hwd3 & Hcov); [apply HT2|apply (turned_sizes p wd2 HT2)|done|done|].
  pose proof (careful_current rs Hrs t2 (w_file_sequence w) (w_current_region_index w) off (Some (w_current_region w)) Ht2 Hoff) as Hcur.
  destruct (Hcur ltac:(intros m [= <-]; apply current_size) p wd2 (turned_sizes p wd2 HT2)) as (_ & A3 & Hok). clear Hcur.
  rewrite E3 in A3, Hok. cbn [o_world o_res] in A3, Hok. destruct (Hok _ eq_refl) as (Ht3 & _ & _). clear Hok.
  assert (HT3 : on_turn p wd3) by (destruct Hwd3 as [->|(from & len & ->)]; [done|by apply turned_asked]).
  apply wp_bind. eapply wp_outcome; [exact E3| |by apply Forall_forall]. cbn beta iota. set (t3 := at_place t2 _ _ v) in *.
  apply wp_bind. eapply wp_mono; [eapply (careful_wp rs (sizes rs) _ (fun _ => True) (fun r p' wd' =>
      r = Ok tt /\ on_turn p' wd' /\ same_plan p p' /\ (rs / 2 <= off -> has_region p')))| |done];
    [destruct (off >=? rs / 2); [by apply careful_prepare|by apply careful_ret]|by eapply turned_sizes| |].
  { rewrite Z.geb_leb. destruct (Z.leb_spec (rs / 2) off); [|apply wp_ret; split_and!; [done..|lia]].
    eapply wp_mono; [by apply prepare_region_run| |done]. by intros r p' wd' (? & ? & ? & ?). }
  intros r p4 wd4 ((-> & HT4 & (Ed4 & Es4 & En4 & Ef4) & Hregion) & A4 & _).
  destruct (next_head_covers rs t3 (w_file_sequence w) (w_current_region_index w) off p4 wd4)
    as (t5 & wd5 & tr5 & E5 & Hwd5 & E5a & E5b & E5c & E5d & Hhead & Hnew); [apply HT4|apply (turned_sizes p4 wd4 HT4)|].
  destruct (careful_next_head rs Hrs t3 (w_file_sequence w) (w_current_region_index w) off Ht3 p4 wd4 (turned_sizes p4 wd4 HT4)) as (_ & A5 & Hok).
  rewrite E5 in A5, Hok. cbn [o_world o_res] in A5, Hok. destruct (Hok _ eq_refl) as (Ht5 & _ & _). clear Hok.
  assert (HT5 : on_turn p4 wd5) by (destruct Hwd5 as [->|(m & from & len & ->)]; [done|by apply turned_asked]).
  apply wp_bind. eapply wp_outcome; [exact E5| |by apply Forall_forall]. cbn beta iota.
  pose proof (tu_ahead _ _ Ht5) as Hah. change AHEAD_MIN with 65536 in Hah.
  apply wp_bind. eapply wp_mono; [eapply (careful_wp rs (sizes rs) _ (fun _ => True) (fun r p' wd' =>
      (r = Ok tt \/ (exists e, r = Err e) /\ supply p0 wd0 = 0%nat) /\ on_turn p' wd' /\ same_plan p4 p' /\ p_next p' = p_next p4 /\
      forall spec, p_spec p = Some spec -> sp_file_roll_size spec <= u64 (pos + rs / 2) -> r = Ok tt -> has_segment p'))| |done];
    [|by eapply turned_sizes| |].
  { destruct (p_spec p); [|by apply careful_ret]. destruct (_ >=? _); [apply careful_prepare_segment; [done|lia]|by apply careful_ret]. }
  { destruct (p_spec p) as [spec|] eqn:Espec; [|apply wp_ret; by split; [left|]].
    rewrite Z.geb_leb. destruct (Z.leb_spec (sp_file_roll_size spec) (u64 (pos + rs / 2))).
    2: { apply wp_ret. split; [by left|]. split; [done|]. split; [done|]. split; [done|]. intros s [= <-]. lia. }
    eapply wp_mono; [apply (segment_ahead_run spec (u_ahead t5) p4 wd5); [done|by rewrite Es4|lia]| |done].
    intros r p' wd' (? & ? & ? & ? & ?). by split_and!. }
  intros r p6 wd6 ((Hr & HT6 & (Ed6 & Es6 & En6' & Ef6) & En6 & Hsegment) & A6 & _). assert (Hd6 : items (p_doomed p6) = []) by congruence.
  destruct Hr as [->|[[e ->] Hs]]; [apply wp_ret|by split_and!]. split; [done|]. split; [done|].
  split; [apply thread_ok_header; [done|rewrite E5c; change (u_header t3) with (u_header t2); congruence]|]. split.
  { constructor.
    - rewrite (turned_off p6 wd6 HT6), En6. intros Hhalf [Hroom Hfit]. apply (Hregion Hhalf). split; [by rewrite <- En6'|done].
    - rewrite (turned_pos p6 wd6 HT6), <- (turned_pos p wd HT). change (header_pos w wd) with pos. intros spec Espec Hfull.
      apply (Hsegment spec); [congruence|done|done]. }
  intros Hsup Hk. destruct E1 as (E1a & E1b & E1c). destruct (Hcov Hsup) as [Hc3 Hv].
  { intros E. eapply covered_asks; [etransitivity; [exact A1|exact A2]|]. rewrite E2b, E1b.
    apply (ku_current _ _ _ Hk). by rewrite <- E1a, <- E2a. }
  apply (turned_populated t t2 t5 p4 p6 wd2 wd5 wd6 v); [exact HT5|exact HT6|exact En6|by etransitivity|
    etransitivity; [exact A3|by etransitivity]|exact A6|exact Hk|congruence|apply Ht2| |exact Hv|exact E5a|exact E5b|exact E5d| |exact Hnew].
  - eapply covered_asks; [etransitivity; [exact A4|exact A5]|exact Hc3].
  - destruct Hhead as [E|(E & n & En & Hc)]; [by left|right]. split; [exact E|]. exists n. split; [exact En|]. by apply Hc.
Qed.

End turn.

(** ** The writer and the thread *)

(** Whether the thread lives, it is where it should be. *)
Definition thread_fine `{Env} (w : Writer) (th : option Turn) : Prop :=
  match th with Some t => thread_ok w t | None => True end.

(** The IDs left to the writer and its helper together. *)
Definition ids_left (w : Writer) (wd : world) : nat :=
  match w_prefault w with Some p => supply p wd | None => length (o_random (w_oracle wd)) end.

Section take.
Context `{EnvOk}.

Lemma turned_stopped w p0 wd0 p wd f :
  on_turn w p0 wd0 p wd -> items (p_doomed p) = [] -> on_turn w p0 wd0 (with_failure f p) wd.
Proof.
  intros [T1 T2 T3 T4 T5 T6 T7 T8] Hd. constructor; try done; [destruct T6; by constructor|].
  destruct T7. constructor; try done. by intros _.
Qed.

(** What turns of the helper between two calls of the writer leave. *)
Record idled (w : Writer) (wd : world) (es : list Entry) (th' : option Turn) (w' : Writer) (wd' : world) : Prop := {
  id_assisted : assisted w' wd' es;
  id_thread : thread_fine w' th';
  id_writer : w' = set_prefault (w_prefault w') w;
  id_ids : ids_left w' wd' = ids_left w wd;
  id_data : forall j, j < w_next wd -> data_of wd' j = data_of wd j;
  id_next : w_next wd <= w_next wd'
}.

Lemma idled_refl w wd es th : assisted w wd es -> thread_fine w th -> idled w wd es th w wd.
Proof. intros Ha Ht. constructor; try done. by destruct w. Qed.

Lemma idled_trans w1 wd1 es th2 w2 wd2 th3 w3 wd3 :
  idled w1 wd1 es th2 w2 wd2 -> idled w2 wd2 es th3 w3 wd3 -> idled w1 wd1 es th3 w3 wd3.
Proof.
  intros [A1 A2 A3 A4 A5 A6] [B1 B2 B3 B4 B5 B6]. constructor; try done; [rewrite B3, A3; done|congruence| |lia].
  intros j Hj. rewrite B5 by lia. by apply A5.
Qed.

(** The thread ends because it was asked to, or for want of an instance ID. *)
Definition ends_well (w : Writer) (wd : world) (th th' : option Turn) : Prop :=
  th <> None -> th' = None -> ids_left w wd = 0%nat \/ exists p, w_prefault w = Some p /\ p_stop p = true.

Lemma turned_taken w wd es t p0 p' wd' th' :
  assisted w wd es -> w_prefault w = Some p0 -> on_turn w p0 wd p' wd' -> thread_fine w th' ->
  (th' = None -> supply p0 wd = 0%nat \/ p_stop p0 = true) -> idled w wd es th' (set_prefault (Some p') w) wd' /\ ends_well w wd (Some t) th'.
Proof.
  intros Ha Ep HT Ht Hwhy. split; [|intros _ E; destruct (Hwhy E); [left; unfold ids_left; by rewrite Ep|right; by exists p0]].
  constructor; try apply HT; unfold ids_left; rewrite ?Ep; try done.
  - by eapply turned_assisted.
  - destruct th'; [|done]. destruct Ht. by constructor.
  - apply HT.
Qed.

(** What is populated ahead by a turn that another one follows. *)
Definition keeps_ahead (w : Writer) (wd : world) (th th' : option Turn) (w' : Writer) (wd' : world) : Prop :=
  SUPPORTED = true -> forall t t' p', th = Some t -> th' = Some t' -> w_prefault w' = Some p' -> kept_up w t wd ->
  kept_up w' t' wd' /\ populated w' t' p' wd'.

Lemma take_turn_run w wd es th :
  assisted w wd es -> thread_fine w th -> w_file_sequence w + 1 <= U64_MAX ->
  let '(th', w', wd') := take_turn th w wd in
  (idled w wd es th' w' wd' /\ ends_well w wd th th') /\
  (th <> None -> th' <> None -> forall p', w_prefault w' = Some p' -> readied w' p' wd') /\ (th <> None -> keeps_ahead w wd th th' w' wd').
Proof.
  intros Ha Ht Hlast. destruct (as_shared _ _ _ Ha) as (p0 & Ep & _). unfold take_turn.
  destruct th as [t|]; [|split; [split; [by apply idled_refl|by intros Hn]|done]]. rewrite Ep.
  destruct (wp_elim _ _ _ _ _ (run_turn_run w es p0 wd Ha Ep Hlast t Ht)) as [(HT & Hd & Hr) _]. cbv zeta.
  destruct (o_res (run_turn t p0 wd)) as [[t'|[]]|e|y]; cbv beta iota; [| |..|done].
  - destruct Hr as (Ht' & Hready & Hahead). split; [by eapply turned_taken|].
    split; [intros _ _ p1 [= <-]; by apply readied_prefault|]. intros _ Hsup t1 t1' p1 [= <-] [= <-] [= <-] Hk.
    destruct (Hahead Hsup Hk) as [Hk' Hp]. split; [by apply kept_up_prefault|by apply populated_prefault].
  - split; [eapply turned_taken; [done|done|by eapply turned_stopped|done|by right]|by split; [|intros _ ???]].
  - split; [eapply turned_taken; [done|done|by eapply turned_stopped|done|by left]|by split; [|intros _ ???]].
Qed.

(** Some turns one after another. *)
Definition take_turns (k : nat) (th : option Turn) (w : Writer) (wd : world) : option Turn * Writer * world :=
  Nat.iter k (fun '(th, w, wd) => take_turn th w wd) (th, w, wd).

Lemma turns_run k th w wd es :
  assisted w wd es -> thread_fine w th -> w_file_sequence w + 1 <= U64_MAX ->
  let '(th', w', wd') := take_turns k th w wd in idled w wd es th' w' wd'.
Proof.
  intros Ha Ht Hlast. unfold take_turns. induction k as [|k IH]; cbn [Nat.iter nat_rect]; [by apply idled_refl|].
  change (nat_rect _ _ _ k) with (Nat.iter k (fun '(th, w, wd) => take_turn th w wd) (th, w, wd)).
  destruct (Nat.iter k _ (th, w, wd)) as [[th1 w1] wd1].
  pose proof (take_turn_run w1 wd1 es th1 (id_assisted _ _ _ _ _ _ IH) (id_thread _ _ _ _ _ _ IH)) as Hturn.
  destruct (take_turn th1 w1 wd1) as [[th2 w2] wd2]. eapply idled_trans; [exact IH|]. eapply proj1, proj1, Hturn.
  rewrite (id_writer _ _ _ _ _ _ IH). exact Hlast.
Qed.

End take.
