(* ===== verification/AssistedSends.v ===== *)
(** * Sends of a writer with a helper (src/lib.rs: try_reserve, commit; src/prefault.rs)

    A message sent is the next of the channel's, whatever the helper did before: the writer stays in
    its file, leaves a region, or leaves the file for the one the helper prepared. *)

From S2P Require Import Prelude Bytes Effects Region Channel V4 V4Facts Names NamesFacts Segment Helper Prefault PrefaultFacts Writer Chain RegionFacts SegmentFacts WriterInv OpenFacts CommitFacts ReserveFacts PrepareFacts RollFacts RecoverFacts WriterFacts Joining Assisted AssistedRolls AssistedTurns.

#[local] Open Scope list_scope.
#[local] Open Scope Z_scope.

(** ** What has been written *)

(** What the writer wrote in a segment while it was there. *)
Record Stay := MkStay {
  sy_file : Z;
  sy_sequence : Z;
  sy_instance : InstanceId;
  sy_index : Z;
  sy_entries : list Entry
}.

(** The segment the writer is in. *)
Definition stay_of (w : Writer) (wd : world) (es : list Entry) : Stay :=
  MkStay (w_file w) (w_file_sequence w) (w_instance w) (get 8 (data_of wd (w_file w)) OFF_base_record_index) es.

(** The segment alone. *)
Definition place_of (s : Stay) : Z * Z * InstanceId * Z := (sy_file s, sy_sequence s, sy_instance s, sy_index s).

(** The writer has left [s] for [s']: after its records stands the [Roll] that names [s']. *)
Definition left_for `{Env} (rs : Z) (wd : world) (s s' : Stay) : Prop :=
  sy_sequence s' = sy_sequence s + 1 /\ sy_index s' = sy_index s + users (sy_entries s) /\
  exists q, chain rs (data_of wd (sy_file s)) FIRST_RECORD (sy_entries s) q /\
    roll_at (data_of wd (sy_file s)) q (Edge (sy_sequence s') (sy_instance s') (sy_index s')).

(** Each of [tr] was left for the next, and the last for [last]. *)
Fixpoint linked `{Env} (rs : Z) (wd : world) (tr : list Stay) (last : Stay) : Prop :=
  match tr with
  | [] => True
  | s :: tr => left_for rs wd s (hd last tr) /\ linked rs wd tr last
  end.

(** The messages of the segments, oldest first. *)
Definition written (wd : world) (tr : list Stay) : list Message :=
  concat (map (fun s => messages (data_of wd (sy_file s)) (sy_entries s)) tr).

(** The writer has come from [w] to [w'], over at most [kr] regions and [kf] files, and has appended
    the messages [new]. *)
Record advanced `{Env} (kr kf : Z) (w : Writer) (wd : world) (es : list Entry)
    (w' : Writer) (wd' : world) (es' : list Entry) (new : list Message) : Prop := {
  av_assisted : assisted w' wd' es';
  av_config : w_region_size w' = w_region_size w /\ w_file_roll_size w' = w_file_roll_size w /\ w_mtu w' = w_mtu w;
  av_region : w_next_hdr_pos w' / w_region_size w <= w_next_hdr_pos w / w_region_size w + kr;
  av_sequence : w_file_sequence w <= w_file_sequence w' <= w_file_sequence w + kf;
  av_index : next_index w' wd' es' = next_index w wd es + Z.of_nat (length new);
  av_ids : Z.of_nat (ids_left w wd) = Z.of_nat (ids_left w' wd') + (w_file_sequence w' - w_file_sequence w);
  av_file : w_file w <= w_file w' /\ (w_file_sequence w' = w_file_sequence w -> w_file w' = w_file w);
  av_older : forall j, j < w_file w -> data_of wd' j = data_of wd j;
  av_written : exists tr,
    Forall (fun s => w_file w <= sy_file s < w_file w') tr /\
    place_of (hd (stay_of w' wd' es') tr) = place_of (stay_of w wd es) /\
    linked (w_region_size w) wd' tr (stay_of w' wd' es') /\
    written wd' (tr ++ [stay_of w' wd' es']) = messages (data_of wd (w_file w)) es ++ new
}.

Section advanced.
Context `{EnvOk}.

Lemma left_for_place rs wd s s1 s2 : place_of s1 = place_of s2 -> left_for rs wd s s1 -> left_for rs wd s s2.
Proof. unfold place_of, left_for. intros [= E1 E2 E3 E4]. by rewrite E2, E3, E4. Qed.

Lemma linked_app rs wd tr tr' last last' :
  place_of (hd last' tr') = place_of last -> linked rs wd tr last -> linked rs wd tr' last' -> linked rs wd (tr ++ tr') last'.
Proof.
  intros Hp Hl Hl'. induction tr as [|s tr IH]; [done|]. destruct Hl as [Hs Hl]. cbn [app linked].
  split; [|by apply IH]. eapply left_for_place; [|exact Hs]. destruct tr; [|done]. by symmetry.
Qed.

Lemma linked_same rs wd wd' tr last :
  Forall (fun s => data_of wd' (sy_file s) = data_of wd (sy_file s)) tr -> linked rs wd tr last -> linked rs wd' tr last.
Proof.
  induction 1 as [|s tr E _ IH]; [done|]. intros [Hs Hl]. split; [|by apply IH]. unfold left_for in *. by rewrite E.
Qed.

Lemma written_app wd tr tr' : written wd (tr ++ tr') = written wd tr ++ written wd tr'.
Proof. unfold written. by rewrite map_app, concat_app. Qed.

Lemma written_one wd s : written wd [s] = messages (data_of wd (sy_file s)) (sy_entries s).
Proof. unfold written. cbn. apply app_nil_r. Qed.

Lemma written_same wd wd' tr :
  Forall (fun s => data_of wd' (sy_file s) = data_of wd (sy_file s)) tr -> written wd' tr = written wd tr.
Proof. unfold written. induction 1 as [|s tr E _ IH]; [done|]. cbn. by rewrite E, IH. Qed.

(** A run that stays in the segment. *)
Lemma stayed w wd es w' wd' es' rs new :
  place_of (stay_of w' wd' es') = place_of (stay_of w wd es) ->
  messages (data_of wd' (w_file w)) es' = messages (data_of wd (w_file w)) es ++ new ->
  exists tr, Forall (fun s => w_file w <= sy_file s < w_file w') tr /\
    place_of (hd (stay_of w' wd' es') tr) = place_of (stay_of w wd es) /\ linked rs wd' tr (stay_of w' wd' es') /\
    written wd' (tr ++ [stay_of w' wd' es']) = messages (data_of wd (w_file w)) es ++ new.
Proof.
  intros Hp Hm. exists []. split; [constructor|]. split; [exact Hp|]. split; [done|]. cbn [app]. rewrite written_one.
  cbn [sy_file sy_entries stay_of]. assert (Ef : w_file w' = w_file w) by (by injection Hp). by rewrite Ef.
Qed.

Lemma advanced_refl w wd es : assisted w wd es -> advanced 0 0 w wd es w wd es [].
Proof.
  intros Ha. constructor; try done; try lia; [cbn; lia|]. apply stayed; [done|]. by rewrite app_nil_r.
Qed.

Lemma advanced_trans kr kf kr' kf' w1 wd1 es1 w2 wd2 es2 w3 wd3 es3 new new' :
  advanced kr kf w1 wd1 es1 w2 wd2 es2 new -> advanced kr' kf' w2 wd2 es2 w3 wd3 es3 new' ->
  advanced (kr + kr') (kf + kf') w1 wd1 es1 w3 wd3 es3 (new ++ new').
Proof.
  intros [A1 (A2 & A2' & A2'') A3 A4 A5 A6 A7 A8 (tr & A9 & A10 & A11 & A12)] [B1 (B2 & B2' & B2'') B3 B4 B5 B6 B7 B8 (tr' & B9 & B10 & B11 & B12)].
  rewrite A2 in *. assert (Hsame : Forall (fun s => data_of wd3 (sy_file s) = data_of wd2 (sy_file s)) tr).
  { eapply Forall_impl; [exact A9|]. intros s Hs. cbn in Hs. apply B8. lia. }
  constructor; try lia; [done|rewrite length_app; lia|intros j Hj; rewrite B8 by lia; by apply A8|].
  exists (tr ++ tr'). split_and!.
  - apply Forall_app. split; [eapply Forall_impl; [exact A9|]|eapply Forall_impl; [exact B9|]]; intros s Hs; cbn in Hs |- *; lia.
  - rewrite <- A10. destruct tr; [exact B10|done].
  - eapply linked_app; [exact B10| |exact B11]. by eapply linked_same.
  - rewrite <- app_assoc, written_app, B12, (written_same _ _ _ Hsame), app_assoc.
    rewrite written_app, written_one in A12. cbn [sy_file sy_entries stay_of] in A12. by rewrite A12, <- app_assoc.
Qed.

(** The writer may leave its file: there is a number for the next, a record index and an ID. *)
Definition can_leave (w : Writer) (wd : world) (es : list Entry) : Prop :=
  w_file_sequence w + 1 <= U64_MAX /\ next_index w wd es <= U64_MAX /\ (1 <= ids_left w wd)%nat.

(** The room a message of [n] bytes may need. *)
Record may_send (w : Writer) (wd : world) (es : list Entry) (n : Z) : Prop := {
  ms_size : admissible w n;
  ms_region : (w_next_hdr_pos w / w_region_size w + 2) * w_region_size w <= I64_MAX;
  ms_file : w_file_roll_size w = 0 \/ (0 < w_file_roll_size w /\ can_leave w wd es)
}.

Lemma can_leave_here kr w wd es w1 wd1 es1 :
  advanced kr 0 w wd es w1 wd1 es1 [] -> can_leave w wd es -> can_leave w1 wd1 es1.
Proof.
  intros [_ _ _ Hs Hi Hn _ _ _] (L1 & L2 & L3). unfold can_leave. cbn in Hi. split; [lia|]. split; [lia|]. lia.
Qed.

(** *** Within the file *)

Lemma same_channel_paired p0 w wd w1 b1 wd1 :
  paired p0 w1 b1 wd1 -> same_channel (bare wd w) b1 -> same_channel w w1.
Proof. intros [[held ->] _ _ _ _] []. by constructor. Qed.

(** What the writer without a helper does in its file, the writer with one has done. *)
Lemma advanced_here kr new p w wd es w1 b1 wd1 es1 :
  assisted w wd es -> w_prefault w = Some p -> paired p w1 b1 wd1 -> writer_ok b1 wd1 es1 ->
  same_channel (bare wd w) b1 -> grows (w_file w) wd wd1 -> kept_head (data_of wd (w_file w)) (data_of wd1 (w_file w)) ->
  w_next_hdr_pos b1 / w_region_size w <= w_next_hdr_pos w / w_region_size w + kr ->
  users es1 = users es + Z.of_nat (length new) ->
  messages (data_of wd1 (w_file w)) es1 = messages (data_of wd (w_file w)) es ++ new ->
  advanced kr 0 w wd es w1 wd1 es1 new.
Proof.
  intros Ha Ep Hp Hok Hsc Hg Hk Hq Hu Hm. pose proof (same_channel_paired _ _ _ _ _ _ Hp Hsc) as Hsc'.
  pose proof Hsc' as [S1 S2 S3 S4 S5 S6 S7 S8 S9 S10]. pose proof (paired_agree _ _ _ _ Hp) as [Eq _ _ _ _ _ _ _ _].
  constructor; rewrite ?S2, ?S4; try lia.
  - by eapply assisted_kept.
  - rewrite <- Eq. exact Hq.
  - unfold next_index. rewrite S4, Hu. destruct Hk as (_ & Hk & _). rewrite (get_same_at _ _ _ _ _ _ Hk) by done. lia.
  - destruct Hp as [_ _ _ _ (p' & Ep' & _ & Hr & _)]. unfold ids_left, supply. rewrite Ep, Ep', (sr_ready _ _ Hr), (gr_oracle _ _ _ Hg). lia.
  - intros j Hj. unfold data_of. by rewrite (gr_others _ _ _ Hg) by lia.
  - pose proof (stayed w wd es w1 wd1 es1 (w_region_size w) new) as Hst. rewrite S4 in Hst. apply Hst; [|exact Hm].
    unfold place_of, stay_of. cbn. rewrite S2, S3, S4. destruct Hk as (_ & Hk & _). by rewrite (get_same_at _ _ _ _ _ _ Hk).
Qed.

(** Turns of the helper. *)
Lemma advanced_idle w wd es th' w' wd' :
  assisted w wd es -> idled w wd es th' w' wd' -> advanced 0 0 w wd es w' wd' es [].
Proof.
  intros Ha [T1 T2 T3 T4 T5 T6]. pose proof (gd_fresh _ _ (as_grounds _ _ _ Ha)) as Hf.
  assert (Ef : data_of wd' (w_file w) = data_of wd (w_file w)) by by apply T5.
  rewrite T3 in *. clear T2 T3. change (assisted (set_prefault (w_prefault w') w) wd' es) in T1.
  constructor; try done; cbn [w_file w_file_sequence w_next_hdr_pos w_region_size w_file_roll_size w_mtu set_prefault]; try lia.
  - unfold next_index. cbn [w_file set_prefault]. rewrite Ef. cbn. lia.
  - intros j Hj. apply T5. lia.
  - apply (stayed w wd es (set_prefault (w_prefault w') w) wd' es (w_region_size w) []); [unfold place_of, stay_of; cbn; by rewrite Ef|]. by rewrite Ef, app_nil_r.
Qed.

(** *** The turns of the reservation *)

Section turns.
Context (w : Writer) (wd : world) (es : list Entry) (n : Z).
Hypothesis Ha : assisted w wd es.
Hypothesis Hn : 0 <= n < 2 ^ 32.
#[local] Notation q := (w_next_hdr_pos w).
#[local] Notation rs := (w_region_size w).
#[local] Notation f := (w_file w).
#[local] Notation b := (bare wd w).
#[local] Notation turn := (reserve_step n (align_up (HEADER_SLOT + n)) (needed n)).

Lemma helped_numbers : 4096 <= rs < 2 ^ 32 /\ 208 <= q /\ q + rs <= 2 ^ 63 + 2 ^ 33.
Proof.
  pose proof (as_ok _ _ _ Ha) as Hok. pose proof (rs_pos _ (wk_rs _ _ _ Hok)) as Hrs. pose proof (wk_rs _ _ _ Hok) as [Hrs4 _].
  pose proof (writer_ok_next _ _ _ Hok) as Hq. change (w_region_size b) with rs in *. change (w_next_hdr_pos b) with q in *. lia.
Qed.

Lemma helped_skip (Q : res (option slice) -> Writer -> world -> Prop) :
  needed n <= rs -> w_file_roll_size w = 0 \/ q + needed n <= w_file_roll_size w -> rs < q mod rs + needed n ->
  (q / rs + 2) * rs <= I64_MAX ->
  (forall w' wd', advanced 1 0 w wd es w' wd' (es ++ [skip_entry b]) [] -> w_next_hdr_pos w' = (q / rs + 1) * rs -> Q (Ok None) w' wd') ->
  wp turn w wd Q (fun _ => True).
Proof.
  intros Hne Hfile Hreg Hmax HQ. destruct (as_shared _ _ _ Ha) as (p & Ep & _). pose proof (assisted_paired p w wd es Ha Ep) as Hp.
  pose proof (as_ok _ _ _ Ha) as Hok. destruct helped_numbers as (Hrs & _).
  eapply in_step_wp; [eapply (in_step_reserve p w b wd es); try done| |].
  - apply (step_region b wd es n) with (Q := fun r b1 wd1 => r = Ok None /\ writer_ok b1 wd1 (es ++ [skip_entry b]) /\
      same_channel b b1 /\ w_next_hdr_pos b1 = (q / rs + 1) * rs /\ same 24 q (data_of wd f) (data_of wd1 f) /\
      grows f wd wd1 /\ kept_head (data_of wd f) (data_of wd1 f)); try done.
    apply Ha.
  - intros r w1 b1 wd1 Hp1 (-> & Hok1 & Hsc & Hq1 & Hs & Hg & Hk). apply HQ.
    + eapply advanced_here; try done.
      * rewrite Hq1, Z.div_mul by lia. lia.
      * rewrite (messages_users es _ (data_of wd f) (messages_skip _ _ _)). cbn. lia.
      * rewrite messages_skip, app_nil_r. symmetry. eapply messages_same; [|exact (sg_chain _ _ _ _ (wk_segment _ _ _ Hok))].
        eapply same_sub; [exact Hs|done|]. change (w_next_hdr_pos b) with q. lia.
    + rewrite <- Hq1. symmetry. apply (paired_agree _ _ _ _ Hp1).
Qed.

Lemma helped_fits (Q : res (option slice) -> Writer -> world -> Prop) :
  fits w n ->
  (forall w' wd', advanced 0 0 w wd es w' wd' es [] -> reserved w' wd' n ->
     Q (Ok (Some (Slice (w_current_region w') (w_next_hdr_pos w' mod w_region_size w' + HEADER_SLOT) n))) w' wd') ->
  wp turn w wd Q (fun _ => True).
Proof.
  intros Hf HQ. destruct (as_shared _ _ _ Ha) as (p & Ep & _). pose proof (assisted_paired p w wd es Ha Ep) as Hp.
  pose proof (as_ok _ _ _ Ha) as Hok. destruct helped_numbers as (Hrs & Hq & _).
  eapply in_step_wp; [eapply (in_step_reserve p w b wd es); try done; [destruct Hf; lia|apply Hf]| |].
  - eapply wp_mono; [apply (reserve_here b wd es n); [apply Ha|done..]| |done]. exact (fun _ _ _ Hr => Hr).
  - intros r w1 b1 wd1 Hp1 (-> & -> & Hok1 & Hr & Hfr & Hk). destruct (paired_agree _ _ _ _ Hp1) as [E1 E2 E3 _ E5 E6 _ _ _ _].
    cbn in E1, E2, E3, E5, E6.
    change (w_next_hdr_pos b) with q. change (w_region_size b) with rs. change (w_current_region b) with (w_current_region w).
    rewrite E1, E2, E3. apply HQ.
    + eapply advanced_here; try done; [by apply frame_grows|apply (kept_head_below (q + 16 + n)); [exact Hk|lia]|cbn; lia|cbn; lia|].
      rewrite app_nil_r. symmetry. eapply messages_same; [|exact (sg_chain _ _ _ _ (wk_segment _ _ _ Hok))].
      eapply same_sub; [exact Hk|done|]. change (w_next_hdr_pos b) with q. lia.
    + destruct Hr. cbn in *. constructor; cbn; rewrite <- ?E1, <- ?E2, <- ?E5, <- ?E6; done.
Qed.

Lemma helped_rolls (Q : res (option slice) -> Writer -> world -> Prop) :
  needed n <= rs -> can_leave w wd es -> 0 < w_file_roll_size w < q + needed n ->
  (forall w' wd', advanced 0 1 w wd es w' wd' [] [] -> w_next_hdr_pos w' = FIRST_RECORD -> Q (Ok None) w' wd') ->
  wp turn w wd Q (fun _ => True).
Proof.
  intros Hne (Hseq & Hidx & Hids) Hroll HQ. destruct (as_shared _ _ _ Ha) as (p & Ep & _). destruct helped_numbers as (Hrs & Hq & Hqm).
  pose proof (needed_bounds n Hn) as [Hnb _].
  pose proof (as_ok _ _ _ Ha) as Hok. pose proof (wk_segment _ _ _ Hok) as Hseg.
  change (w_region_size b) with rs in Hseg. change (w_file b) with f in Hseg. change (w_next_hdr_pos b) with q in Hseg.
  assert (Hidx' : get 8 (data_of wd f) OFF_base_record_index + get 8 (data_of wd f) OFF_message_count <= U64_MAX)
    by (rewrite (sg_count _ _ _ _ Hseg); exact Hidx).
  unfold ids_left in Hids. rewrite Ep in Hids.
  unfold reserve_step. apply wp_bind, wp_self. rewrite (wrap_small 64 (q + needed n)) by lia.
  replace ((w_file_roll_size w >? 0) && (q + needed n >? w_file_roll_size w)) with true
    by (symmetry; rewrite !Z.gtb_ltb; apply andb_true_iff; split; apply Z.ltb_lt; lia).
  apply wp_bind. eapply wp_mono; [exact (helped_roll_run p w wd es Ha Ep (proj1 Hroll) Hseq Hidx' Hids)| |done].
  intros r w1 wd1 (-> & [R1 R2 R3 R4 R5 R6 R7 R8 R9 R10]). apply wp_ret, HQ; [|done].
  assert (Hz : FIRST_RECORD / rs = 0) by (apply Z.div_small; change FIRST_RECORD with 208; lia).
  destruct R10 as (p1 & Ep1 & Hsup). constructor; try done.
  - rewrite R4, Hz. pose proof (Z.div_pos q rs). lia.
  - rewrite R2. lia.
  - rewrite R6. cbn. lia.
  - unfold ids_left. rewrite Ep, Ep1, R2. lia.
  - lia.
  - destruct R9 as [Hr _]. exists [stay_of w wd es]. split_and!; [constructor; [cbn; lia|constructor]|done| |].
    + split; [|done]. cbn [hd]. unfold left_for. cbn [stay_of sy_file sy_sequence sy_instance sy_index sy_entries].
      unfold next_index in R6 at 1. change (users []) with 0 in R6. rewrite Z.add_0_r in R6. rewrite R6, R2.
      split; [done|]. split; [done|]. exists q. split; [|exact Hr]. eapply chain_same; [exact R8|apply Hseg].
    + rewrite written_app, !written_one. cbn [stay_of sy_file sy_entries]. rewrite app_nil_r. change (messages _ []) with (@nil Message).
      rewrite app_nil_r. symmetry. eapply messages_same; [exact R8|apply Hseg].
Qed.

End turns.

(** *** The reservation *)

Lemma advanced_weaken kr kf kr' kf' w wd es w' wd' es' new :
  advanced kr kf w wd es w' wd' es' new -> kr <= kr' -> kf <= kf' -> advanced kr' kf' w wd es w' wd' es' new.
Proof. intros [] ??. constructor; try done; lia. Qed.

(** The payload's slice, the writer having come from [w]. *)
Definition obtained (kr kf : Z) (w : Writer) (wd : world) (es : list Entry) (n : Z) (r : res slice) (w' : Writer) (wd' : world) : Prop :=
  exists es', r = Ok (Slice (w_current_region w') (w_next_hdr_pos w' mod w_region_size w' + HEADER_SLOT) n) /\
    reserved w' wd' n /\ advanced kr kf w wd es w' wd' es' [].

Lemma obtained_after kr kf kr' kf' w wd es w1 wd1 es1 n r w' wd' :
  advanced kr kf w wd es w1 wd1 es1 [] -> obtained kr' kf' w1 wd1 es1 n r w' wd' -> obtained (kr + kr') (kf + kf') w wd es n r w' wd'.
Proof.
  intros H1 (es' & E & Hr & H2). exists es'. split; [done|]. split; [done|]. exact (advanced_trans _ _ _ _ _ _ _ _ _ _ _ _ _ [] [] H1 H2).
Qed.

Lemma obtained_weaken kr kf kr' kf' w wd es n r w' wd' :
  obtained kr kf w wd es n r w' wd' -> kr <= kr' -> kf <= kf' -> obtained kr' kf' w wd es n r w' wd'.
Proof. intros (es' & E & Hr & Ha) ??. exists es'. split; [done|]. split; [done|]. by eapply advanced_weaken. Qed.

(** Room where the writer is and where its next region starts, if its files have a size. *)
Definition has_file_room (w : Writer) (n : Z) : Prop :=
  w_file_roll_size w = 0 \/ (w_next_hdr_pos w + needed n <= w_file_roll_size w /\
    (w_next_hdr_pos w / w_region_size w + 1) * w_region_size w + needed n <= w_file_roll_size w).

#[local] Notation turn n := (reserve_step n (align_up (HEADER_SLOT + n)) (needed n)).

Lemma helped_fit k w wd es n :
  assisted w wd es -> 0 <= n < 2 ^ 32 -> fits w n ->
  wp (loop (Datatypes.S k) (turn n)) w wd (obtained 0 0 w wd es n) (fun _ => True).
Proof.
  intros Ha Hn Hf. apply wp_loop_S. apply (helped_fits w wd es n Ha Hn); [done|].
  intros w' wd' Hadv Hr. by exists es.
Qed.

Lemma not_fits w n :
  w_file_roll_size w = 0 \/ w_next_hdr_pos w + needed n <= w_file_roll_size w -> ~ fits w n ->
  w_region_size w < w_next_hdr_pos w mod w_region_size w + needed n.
Proof.
  intros Hfile Hf. destruct (Z.lt_ge_cases (w_region_size w) (w_next_hdr_pos w mod w_region_size w + needed n)); [done|].
  exfalso. apply Hf. by split.
Qed.

Lemma helped_two k w wd es n :
  assisted w wd es -> 0 <= n < 2 ^ 32 -> needed n <= w_region_size w -> has_file_room w n ->
  (w_next_hdr_pos w / w_region_size w + 2) * w_region_size w <= I64_MAX ->
  wp (loop (2 + k) (turn n)) w wd (obtained 1 0 w wd es n) (fun _ => True).
Proof.
  intros Ha Hn Hne Hfile Hmax. destruct (fits_dec w n) as [Hf|Hf].
  { eapply wp_mono; [by apply (helped_fit _ w wd es)| |done]. intros r w' wd' Ho. by eapply obtained_weaken. }
  assert (Hhere : w_file_roll_size w = 0 \/ w_next_hdr_pos w + needed n <= w_file_roll_size w) by (unfold has_file_room in Hfile; tauto).
  apply wp_loop_S. apply (helped_skip w wd es n Ha Hn); [done|done|by apply not_fits|done|].
  intros w1 wd1 Hadv Hq1. pose proof Hadv as [Ha1 (E1 & E2 & E3) _ _ _ _ _ _ _]. destruct (helped_numbers _ _ _ Ha) as (Hrs & _).
  eapply wp_mono; [apply (helped_fit _ w1 wd1 _ n Ha1 Hn)| |done].
  - unfold fits. rewrite E1, E2, Hq1, Z.mod_mul by lia. unfold has_file_room in Hfile. split; [tauto|lia].
  - intros r w' wd' Ho. by apply (obtained_after 1 0 0 0 w wd es w1 wd1 _ n r w' wd' Hadv).
Qed.

(** The file is left, and the start of the next one may be too close to its region's end. *)
Lemma helped_three k w wd es n :
  assisted w wd es -> admissible w n -> can_leave w wd es -> 0 < w_file_roll_size w < w_next_hdr_pos w + needed n ->
  wp (loop (3 + k) (turn n)) w wd (obtained 1 1 w wd es n) (fun _ => True).
Proof.
  intros Ha [Hn Hmtu Hne Hfirst] Hms Hroll. destruct (helped_numbers _ _ _ Ha) as (Hrs & Hq & _).
  apply wp_loop_S. apply (helped_rolls w wd es n Ha Hn); [done|done|done|].
  intros w1 wd1 Hadv Hq1. pose proof Hadv as [Ha1 (E1 & E2 & E3) _ _ _ _ _ _ _].
  assert (Hz : FIRST_RECORD / w_region_size w = 0) by (apply Z.div_small; change FIRST_RECORD with 208; lia).
  pose proof (gd_roll _ _ (as_grounds _ _ _ Ha)) as [_ Htwo].
  eapply wp_mono; [apply (helped_two k w1 wd1 [] n Ha1 Hn)| |done]; unfold has_file_room; rewrite ?E1, ?E2, ?Hq1, ?Hz.
  - done.
  - lia.
  - unfold I64_MAX. lia.
  - intros r w' wd' Ho. by apply (obtained_after 0 1 1 0 w wd es w1 wd1 [] n r w' wd' Hadv).
Qed.

(** Every admissible reservation succeeds. *)
Lemma helped_loop w wd es n :
  assisted w wd es -> may_send w wd es n -> wp (loop RESERVE_FUEL (turn n)) w wd (obtained 2 1 w wd es n) (fun _ => True).
Proof.
  intros Ha [Had Hmax Hfile]. pose proof Had as [Hn Hmtu Hne Hfirst]. destruct (helped_numbers _ _ _ Ha) as (Hrs & Hq & _).
  assert (Hweak : forall kr kf, wp (loop RESERVE_FUEL (turn n)) w wd (obtained kr kf w wd es n) (fun _ => True) ->
    kr <= 2 -> kf <= 1 -> wp (loop RESERVE_FUEL (turn n)) w wd (obtained 2 1 w wd es n) (fun _ => True)).
  { intros kr kf Hwp ??. eapply wp_mono; [exact Hwp| |done]. intros r w' wd' Ho. by eapply obtained_weaken. }
  assert (Htwo : has_file_room w n -> wp (loop RESERVE_FUEL (turn n)) w wd (obtained 2 1 w wd es n) (fun _ => True)).
  { intros Hroom. apply (Hweak 1 0); [by apply (helped_two 2 w wd es)|lia|lia]. }
  destruct Hfile as [Hz|[Hpos Hleave]]; [apply Htwo; by left|].
  destruct (Z.lt_ge_cases (w_file_roll_size w) (w_next_hdr_pos w + needed n)) as [Hlt|Hge].
  { apply (Hweak 1 1); [by apply (helped_three 1 w wd es)|lia|lia]. }
  destruct (Z.lt_ge_cases (w_file_roll_size w) ((w_next_hdr_pos w / w_region_size w + 1) * w_region_size w + needed n)) as [Hlt|Hge2];
    [|apply Htwo; right; lia].
  destruct (fits_dec w n) as [Hf|Hf]; [apply (Hweak 0 0); [by apply (helped_fit 3 w wd es)|lia|lia]|].
  assert (Hhere : w_file_roll_size w = 0 \/ w_next_hdr_pos w + needed n <= w_file_roll_size w) by (right; lia).
  apply wp_loop_S. apply (helped_skip w wd es n Ha Hn); [done|done|by apply not_fits|done|].
  intros w1 wd1 Hadv Hq1. pose proof Hadv as [Ha1 (E1 & E2 & E3) _ _ _ _ _ _ _].
  eapply wp_mono; [apply (helped_three 0 w1 wd1 _ n Ha1)| |done].
  - by constructor; rewrite ?E1, ?E2, ?E3.
  - by eapply can_leave_here.
  - rewrite E2, Hq1. lia.
  - intros r w' wd' Ho. by apply (obtained_after 1 0 1 1 w wd es w1 wd1 _ n r w' wd' Hadv).
Qed.

Lemma helped_reserve w wd es n :
  assisted w wd es -> may_send w wd es n -> wp (try_reserve n) w wd (obtained 2 1 w wd es n) (fun _ => True).
Proof.
  intros Ha Hms. destruct (helped_numbers _ _ _ Ha) as (Hrs & _). pose proof (ms_size _ _ _ _ Hms) as Had.
  destruct (admissible_checks w n Had) as (E1 & E2 & E3 & E4 & E5); [lia|].
  unfold try_reserve. apply wp_bind, wp_self. rewrite E1. cbv zeta. rewrite E2, E3, E4, E5.
  unfold div_guard. replace (w_region_size w =? 0) with false by (symmetry; apply Z.eqb_neq; lia).
  apply wp_bind, wp_ret. by apply helped_loop.
Qed.

(** *** The payload and the commit *)

Lemma helped_fill w wd es n bs :
  assisted w wd es -> reserved w wd n -> Z.of_nat (length bs) <= n ->
  wp (store (w_current_region w) (w_next_hdr_pos w mod w_region_size w + HEADER_SLOT) bs) w wd
    (fun r w' wd' => r = Ok tt /\ advanced 0 0 w wd es w' wd' es [] /\ reserved w' wd' n /\
       w_file w' = w_file w /\ w_next_hdr_pos w' = w_next_hdr_pos w /\
       data_of wd' (w_file w) = wr (data_of wd (w_file w)) (w_next_hdr_pos w + 16) bs)
    (fun _ => True).
Proof.
  intros Ha Hr Hlen. destruct (as_shared _ _ _ Ha) as (p & Ep & _). pose proof (assisted_paired p w wd es Ha Ep) as Hp.
  pose proof (as_ok _ _ _ Ha) as Hok. assert (Hr' : reserved (bare wd w) wd n) by (destruct Hr; by constructor).
  destruct (helped_numbers _ _ _ Ha) as (Hrs & Hq & _).
  eapply in_step_wp; [apply (in_step_apart p w (bare wd w) wd _ Hp (apart_store _ _ _))| |].
  - eapply wp_mono; [apply (fill_run (bare wd w) wd es n bs); [apply Ha|done..]| |done]. exact (fun _ _ _ Hr => Hr).
  - intros r w1 b1 wd1 Hp1 (-> & -> & Hok1 & Hr1 & Hfr & Hd). destruct (paired_agree _ _ _ _ Hp1) as [E1 E2 E3 _ E5 E6 _ _ _ _].
    change (w_next_hdr_pos (bare wd w)) with (w_next_hdr_pos w) in *. change (w_file (bare wd w)) with (w_file w) in *.
    assert (Hs : same 0 (w_next_hdr_pos w + 16) (data_of wd (w_file w)) (data_of wd1 (w_file w))) by (rewrite Hd; apply same_wr; lia).
    split; [done|]. split; [|split; [destruct Hr1; cbn in *; constructor; cbn; rewrite <- ?E1, <- ?E2, <- ?E5, <- ?E6; done|done]].
    eapply advanced_here; try done; [by apply frame_grows|apply (kept_head_below (w_next_hdr_pos w + 16)); [exact Hs|lia]|cbn; lia|cbn; lia|].
    rewrite app_nil_r. symmetry. eapply messages_same; [|exact (sg_chain _ _ _ _ (wk_segment _ _ _ Hok))].
    eapply same_sub; [exact Hs|done|]. change (w_next_hdr_pos (bare wd w)) with (w_next_hdr_pos w). lia.
Qed.

Lemma helped_commit w wd es n mt len meta :
  assisted w wd es -> reserved w wd n -> 0 <= mt < 2 ^ 16 -> 0 <= len <= n -> 0 <= meta < 2 ^ 64 ->
  wp (Writer_commit mt len meta) w wd
    (fun r w' wd' => r = Ok tt /\ exists es', advanced 0 0 w wd es w' wd' es'
       [MkMessage mt meta (peek (data_of wd (w_file w)) (w_next_hdr_pos w + 16) (Z.to_nat len))])
    (fun _ => True).
Proof.
  intros Ha Hr Hmt Hl Hmeta. destruct (as_shared _ _ _ Ha) as (p & Ep & _). pose proof (assisted_paired p w wd es Ha Ep) as Hp.
  pose proof (as_ok _ _ _ Ha) as Hok. assert (Hr' : reserved (bare wd w) wd n) by (destruct Hr; by constructor).
  eapply in_step_wp; [apply (in_step_commit p w (bare wd w) wd mt len meta Hp)| |].
  - eapply wp_mono; [apply (commit_run (bare wd w) wd es n mt len meta); try done; apply Ha| |done]. exact (fun _ _ _ Hr => Hr).
  - intros r w1 b1 wd1 Hp1 (-> & Hok1 & -> & Hm & Hs & Hk & Hfr). split; [done|].
    change (w_next_hdr_pos (bare wd w)) with (w_next_hdr_pos w) in *. change (w_file (bare wd w)) with (w_file w) in *.
    set (e := new_entry (bare wd w) mt len meta) in *. exists (es ++ [e]).
    destruct (next_slot (bare wd w) wd es n mt len meta Hok Hr' Hl) as (_ & _ & Hd & _). fold e in Hd.
    eapply advanced_here; try done; [by apply frame_grows|cbn; cbn in Hd; lia|rewrite users_app; cbn; change (users [e]) with 1; lia|].
    rewrite messages_app. f_equal.
    + symmetry. eapply messages_same; [exact Hs|exact (sg_chain _ _ _ _ (wk_segment _ _ _ Hok))].
    + unfold messages. cbn [List.filter map]. change (is_user e) with true. cbn [map]. by rewrite Hm.
Qed.

(** Turns taken while a reservation is pending leave it. *)
Lemma reserved_idle w wd es th' w' wd' n :
  assisted w wd es -> idled w wd es th' w' wd' -> reserved w wd n -> reserved w' wd' n.
Proof.
  intros Ha [_ _ E _ Hd _] []. pose proof (gd_fresh _ _ (as_grounds _ _ _ Ha)) as Hf. rewrite E.
  constructor; cbn; try done. by rewrite Hd.
Qed.

(** ** Sends and turns in any order *)

(** [send], the helper taking [i] turns after the reservation and [j] before the commit. *)
Definition send_among (i j : nat) (m : Message) (th : option Turn) (w : Writer) (wd : world)
  : res unit * (option Turn * Writer * world) :=
  let n := Z.of_nat (length (ms_payload m)) in
  let o := try_reserve n w wd in
  match o_res o with
  | Ok s =>
      let '(th, w, wd) := take_turns i th (o_self o) (o_world o) in
      let o := store (sl_map s) (sl_off s) (ms_payload m) w wd in
      match o_res o with
      | Ok _ =>
          let '(th, w, wd) := take_turns j th (o_self o) (o_world o) in
          let o := Writer_commit (ms_type m) n (ms_meta m) w wd in
          (o_res o, (th, o_self o, o_world o))
      | r => (r, (th, o_self o, o_world o))
      end
  | Err e => (Err e, (th, o_self o, o_world o))
  | Die y => (Die y, (th, o_self o, o_world o))
  end.

(** What happens next: the writer sends a message, its helper taking turns on the way, or the helper
    takes turns. *)
Inductive Act := Sends (i j : nat) (m : Message) | Turns (k : nat).

(** The acts one after another: the results of the sends, and where they lead. *)
Fixpoint together (acts : list Act) (th : option Turn) (w : Writer) (wd : world) : list (res unit) * Writer * world :=
  match acts with
  | [] => ([], w, wd)
  | Sends i j m :: acts =>
      let '(r, (th, w, wd)) := send_among i j m th w wd in
      let '(rs, w, wd) := together acts th w wd in (r :: rs, w, wd)
  | Turns k :: acts => let '(th, w, wd) := take_turns k th w wd in together acts th w wd
  end.

Definition sent_by (acts : list Act) : list Message := omap (fun a => match a with Sends _ _ m => Some m | Turns _ => None end) acts.

(** A message of the wire's widths that fits the writer's limits. *)
Definition may_be_sent (w : Writer) (m : Message) : Prop :=
  admissible w (Z.of_nat (length (ms_payload m))) /\ 0 <= ms_type m < 2 ^ 16 /\ 0 <= ms_meta m < 2 ^ 64 /\ Forall is_byte (ms_payload m).

(** Room for [k] messages, each of which may leave two regions and a file. *)
Definition room_for (k : Z) (w : Writer) (wd : world) (es : list Entry) : Prop :=
  (w_next_hdr_pos w / w_region_size w + 2 * k) * w_region_size w <= I64_MAX /\
  w_file_sequence w + k < U64_MAX /\
  (w_file_roll_size w = 0 \/ (next_index w wd es + k <= U64_MAX /\ k <= Z.of_nat (ids_left w wd))).

Lemma thread_fine_after kr kf w wd es w' wd' es' new th :
  advanced kr kf w wd es w' wd' es' new -> thread_fine w th -> thread_fine w' th.
Proof.
  intros [_ (E & _) _ Hs _ _ Hf _ _]. destruct th as [t|]; [|done]. intros [Ht Hh]. constructor; [by rewrite E|].
  intros s m Em. destruct (Hh s m Em) as [? Hm]. split; [lia|]. intros Es. rewrite Hm by lia. f_equal. symmetry. apply Hf. lia.
Qed.

Lemma sendable_after kr kf w wd es w' wd' es' new m :
  advanced kr kf w wd es w' wd' es' new -> may_be_sent w m -> may_be_sent w' m.
Proof.
  intros [_ (E1 & E2 & E3) _ _ _ _ _ _ _] ([] & ? & ? & ?). split; [|done]. by constructor; rewrite ?E1, ?E2, ?E3.
Qed.

Lemma room_after kf k j w wd es w' wd' es' new :
  advanced (2 * j) kf w wd es w' wd' es' new -> j = Z.of_nat (length new) -> kf <= j -> 0 <= k -> room_for (j + k) w wd es -> room_for k w' wd' es'.
Proof.
  intros [Ha (E1 & E2 & E3) Hq Hs Hi Hids _ _ _] -> Hkf Hk (R1 & R2 & R3). destruct (helped_numbers _ _ _ Ha) as (Hrs & _).
  rewrite E1 in Hrs. unfold room_for. rewrite E1, E2. split; [nia|]. split; [lia|]. destruct R3 as [?|[? ?]]; [by left|right; lia].
Qed.

Lemma room_may_send k w wd es m :
  assisted w wd es -> 1 <= k -> room_for k w wd es -> may_be_sent w m -> may_send w wd es (Z.of_nat (length (ms_payload m))).
Proof.
  intros Ha Hk (R1 & R2 & R3) (Had & _). destruct (helped_numbers _ _ _ Ha) as (Hrs & _).
  pose proof (gd_roll _ _ (as_grounds _ _ _ Ha)) as [[Hr _] _]. constructor; [done|nia|].
  destruct (decide (w_file_roll_size w = 0)) as [|Hne]; [by left|right]. destruct R3 as [|[R3 R4]]; [done|].
  split; [lia|]. unfold can_leave. split; [lia|]. split; lia.
Qed.

Lemma advanced_sequence kr w wd es w' wd' es' new :
  advanced kr 1 w wd es w' wd' es' new -> w_file_sequence w' <= w_file_sequence w + 1.
Proof. intros []. lia. Qed.

Lemma send_among_run i j m th w wd es :
  assisted w wd es -> thread_fine w th -> may_send w wd es (Z.of_nat (length (ms_payload m))) -> w_file_sequence w + 1 < U64_MAX ->
  0 <= ms_type m < 2 ^ 16 -> 0 <= ms_meta m < 2 ^ 64 -> Forall is_byte (ms_payload m) ->
  let '(r, (th', w', wd')) := send_among i j m th w wd in
  r = Ok tt /\ thread_fine w' th' /\ exists es', advanced 2 1 w wd es w' wd' es' [m].
Proof.
  intros Ha Ht Hms Hseq Hmt Hmeta Hpay. unfold send_among. set (n := Z.of_nat (length (ms_payload m))) in *.
  destruct (wp_elim _ _ _ _ _ (helped_reserve w wd es n Ha Hms)) as [(es1 & E1 & Hr1 & H1) _]. cbv zeta.
  destruct (try_reserve n w wd) as [r1 w1 wd1 tr1]. cbn [o_res o_self o_world] in *. subst r1.
  pose proof (turns_run i th w1 wd1 es1 (av_assisted _ _ _ _ _ _ _ _ _ H1) (thread_fine_after _ _ _ _ _ _ _ _ _ _ H1 Ht)) as Hi.
  destruct (take_turns i th w1 wd1) as [[th2 w2] wd2]. cbn [sl_map sl_off].
  pose proof (advanced_sequence _ _ _ _ _ _ _ _ H1) as Hs1. specialize (Hi ltac:(lia)).
  pose proof (advanced_idle _ _ _ _ _ _ (av_assisted _ _ _ _ _ _ _ _ _ H1) Hi) as H2.
  pose proof (reserved_idle _ _ _ _ _ _ _ (av_assisted _ _ _ _ _ _ _ _ _ H1) Hi Hr1) as Hr2.
  pose proof (id_writer _ _ _ _ _ _ Hi) as E2.
  replace (w_current_region w1) with (w_current_region w2) by (by rewrite E2).
  replace (w_next_hdr_pos w1) with (w_next_hdr_pos w2) by (by rewrite E2).
  replace (w_region_size w1) with (w_region_size w2) by (by rewrite E2).
  destruct (wp_elim _ _ _ _ _ (helped_fill w2 wd2 es1 n (ms_payload m) (id_assisted _ _ _ _ _ _ Hi) Hr2 (Z.le_refl _)))
    as [(E3 & H3 & Hr3 & Ef & Eq & Ed) _].
  destruct (store _ _ _ w2 wd2) as [r3 w3 wd3 tr3]. cbn [o_res o_self o_world] in *. subst r3.
  pose proof (av_assisted _ _ _ _ _ _ _ _ _ H3) as Ha3. pose proof (av_sequence _ _ _ _ _ _ _ _ _ H3) as Hs3.
  pose proof (av_sequence _ _ _ _ _ _ _ _ _ H2) as Hs2.
  pose proof (turns_run j th2 w3 wd3 es1 Ha3 (thread_fine_after _ _ _ _ _ _ _ _ _ _ H3 (id_thread _ _ _ _ _ _ Hi))) as Hj.
  destruct (take_turns j th2 w3 wd3) as [[th4 w4] wd4]. specialize (Hj ltac:(lia)). pose proof (advanced_idle _ _ _ _ _ _ Ha3 Hj) as H4.
  pose proof (reserved_idle _ _ _ _ _ _ _ Ha3 Hj Hr3) as Hr4. pose proof (id_writer _ _ _ _ _ _ Hj) as E4.
  destruct (wp_elim _ _ _ _ _ (helped_commit w4 wd4 es1 n (ms_type m) n (ms_meta m) (id_assisted _ _ _ _ _ _ Hj) Hr4 Hmt
    ltac:(pose proof (rv_size _ _ _ Hr4); lia) Hmeta)) as [(E5 & es' & H5) _].
  assert (Em : MkMessage (ms_type m) (ms_meta m) (peek (data_of wd4 (w_file w4)) (w_next_hdr_pos w4 + 16) (Z.to_nat n)) = m).
  { assert (F4 : w_file w4 = w_file w2 /\ w_next_hdr_pos w4 = w_next_hdr_pos w2) by (rewrite E4; by split).
    destruct F4 as [-> ->]. pose proof (gd_fresh _ _ (as_grounds _ _ _ Ha3)) as Hf. rewrite Ef in Hf.
    rewrite (id_data _ _ _ _ _ _ Hj) by done. rewrite Ed. unfold n. rewrite Nat2Z.id, peek_wr_eq by done. by destruct m. }
  rewrite Em in H5. split; [done|]. split.
  - eapply thread_fine_after; [exact H5|apply Hj].
  - exists es'. pose proof (advanced_trans _ _ _ _ _ _ _ _ _ _ _ _ _ _ _ H1 (advanced_trans _ _ _ _ _ _ _ _ _ _ _ _ _ _ _ H2
      (advanced_trans _ _ _ _ _ _ _ _ _ _ _ _ _ _ _ H3 (advanced_trans _ _ _ _ _ _ _ _ _ _ _ _ _ _ _ H4 H5)))) as H6.
    exact H6.
Qed.

Lemma together_run acts th w wd es :
  assisted w wd es -> thread_fine w th -> Forall (may_be_sent w) (sent_by acts) -> room_for (Z.of_nat (length (sent_by acts))) w wd es ->
  let '(rs, w', wd') := together acts th w wd in
  rs = map (fun _ => Ok tt) (sent_by acts) /\ exists es', advanced (2 * Z.of_nat (length (sent_by acts))) (Z.of_nat (length (sent_by acts))) w wd es w' wd' es' (sent_by acts).
Proof.
  revert th w wd es. induction acts as [|[i j m|k] acts IH]; intros th w wd es Ha Ht Hall Hroom; cbn [together].
  - split; [done|]. exists es. by apply advanced_refl.
  - change (sent_by (Sends i j m :: acts)) with (m :: sent_by acts) in *. apply Forall_cons in Hall as [Hm Hall].
    set (k := Z.of_nat (length (sent_by acts))) in *.
    assert (Hlen : Z.of_nat (length (m :: sent_by acts)) = 1 + k) by (cbn [length]; lia). rewrite Hlen in Hroom |- *.
    assert (Hms : may_send w wd es (Z.of_nat (length (ms_payload m)))) by (eapply (room_may_send (1 + k)); try done; lia).
    pose proof Hm as (_ & Hmt & Hmeta & Hpay). pose proof Hroom as (_ & Hseq & _).
    pose proof (send_among_run i j m th w wd es Ha Ht Hms ltac:(lia) Hmt Hmeta Hpay) as Hsend.
    destruct (send_among i j m th w wd) as [r [[th1 w1] wd1]]. destruct Hsend as (-> & Ht1 & es1 & H1).
    specialize (IH th1 w1 wd1 es1 (av_assisted _ _ _ _ _ _ _ _ _ H1) Ht1).
    destruct (together acts th1 w1 wd1) as [[rs w'] wd'].
    destruct IH as (-> & es' & H2).
    + eapply Forall_impl; [exact Hall|]. intros x. by eapply sendable_after.
    + eapply (room_after 1 k 1); [exact H1|done|done|lia|done].
    + split; [done|]. exists es'. pose proof (advanced_trans _ _ _ _ _ _ _ _ _ _ _ _ _ _ _ H1 H2) as H3.
      replace (2 + 2 * k) with (2 * (1 + k)) in H3 by lia. exact H3.
  - change (sent_by (Turns k :: acts)) with (sent_by acts) in *. pose proof Hroom as (_ & Hseq & _).
    pose proof (turns_run k th w wd es Ha Ht ltac:(lia)) as Hturn. destruct (take_turns k th w wd) as [[th' w1] wd1].
    pose proof (advanced_idle _ _ _ _ _ _ Ha Hturn) as H1.
    specialize (IH th' w1 wd1 es (id_assisted _ _ _ _ _ _ Hturn) (id_thread _ _ _ _ _ _ Hturn)).
    destruct (together acts th' w1 wd1) as [[rs w'] wd']. destruct IH as (-> & es' & H2).
    + eapply Forall_impl; [exact Hall|]. intros x. by eapply sendable_after.
    + eapply (room_after 0 _ 0); [exact H1|done|done|lia|done].
    + split; [done|]. exists es'. exact (advanced_trans _ _ _ _ _ _ _ _ _ _ _ _ _ _ _ H1 H2).
Qed.

End advanced.
