(* ===== verification/AssistedTheorems.v ===== *)
(** * What the writer guarantees with its helper

    The properties of appending and rolling while the helper maps, populates and installs ahead, each
    with a run of the model that satisfies its hypotheses. *)

From Stdlib Require Import String.
From S2P Require Import Prelude Bytes Crc32c Effects Region Channel V4 V4Facts Names NamesFacts Segment Chain RegionFacts SegmentFacts Helper Prefault PrefaultFacts PopulateFacts Writer WriterInv CommitFacts ReserveFacts PrepareFacts RollFacts Handshake HelperTheorems WriterFacts Demo Assisted AssistedRolls AssistedTurns AssistedSends.

#[local] Open Scope string_scope.
#[local] Open Scope list_scope.
#[local] Open Scope Z_scope.

(** The helper's thread can be started: it is given no core, or one the system can name. *)
Definition core_ok (h : HelperSpec) : Prop := match h_core h with Some core => core < CPU_SETSIZE | None => True end.

Section theorems.
Context `{EnvOk}.

Lemma reads_spawn {S} h (s : S) wd : calm wd -> core_ok h -> reads (spawn h) s wd (Ok tt).
Proof.
  intros Hc Hh. unfold spawn. eapply reads_seq; [by apply reads_syscall|]. unfold core_ok in Hh. destruct (h_core h) as [core|]; [|done].
  unfold pin. replace (core >=? CPU_SETSIZE) with false by (symmetry; rewrite Z.geb_leb; apply Z.leb_gt; lia).
  eapply reads_seq; [by apply reads_attempt_ok, reads_syscall|]. done.
Qed.

(** A writer without a helper starts one. *)
Lemma start_run w wd es :
  calm wd -> writer_ok w wd es -> grounds w wd -> core_ok (default inherit (w_helper w)) ->
  (w_file_sequence w + 1 <= U64_MAX -> w_dir wd !! channel_file_name (w_base_path w) (w_file_sequence w + 1) = None) ->
  exists p, start_prefault w wd = Outcome (Ok tt) (set_prefault (Some p) w) wd [] /\
    assisted (set_prefault (Some p) w) wd es /\ ids_left (set_prefault (Some p) w) wd = ids_left w wd.
Proof.
  intros Hc Hok Hg Hcore Hfree. pose proof (gd_roll _ _ Hg) as [Hr _]. pose proof (wk_rs _ _ _ Hok) as Hrs.
  pose proof (wk_file_len _ _ _ Hok) as Hl. pose proof (writer_ok_rs_len _ _ _ Hok) as Hrl.
  assert (Hn : exists n, reads (if w_file_roll_size w =? 0 then ret None
    else len <- lift (preallocation_len (w_region_size w) (w_file_roll_size w)) ;; ret (Some (len / w_region_size w))) w wd (Ok n)).
  { destruct (Z.eqb_spec (w_file_roll_size w) 0) as [|Hne]; [by exists None|]. destruct (gd_len _ _ Hg) as [|[len El]]; [done|].
    exists (Some (len / w_region_size w)). eapply reads_seq; [by apply reads_lift_eq|done]. }
  assert (Hs : exists spec, reads (if w_file_roll_size w >? 0 then
      generation <- load_generation (w_channel_region w) ;;
      ret (Some (MkSpec (w_base_path w) (w_file_roll_size w) (w_mtu w) (w_channel_name w) generation))
    else ret None) w wd (Ok spec) /\
    match spec with Some spec => 0 < w_file_roll_size w /\
      spec = MkSpec (w_base_path w) (w_file_roll_size w) (w_mtu w) (w_channel_name w) (generation_of w wd) | None => True end).
  { destruct (Z.gtb_spec (w_file_roll_size w) 0) as [Hgt|]; [|by exists None].
    exists (Some (MkSpec (w_base_path w) (w_file_roll_size w) (w_mtu w) (w_channel_name w) (generation_of w wd))).
    split; [|split; [lia|done]]. eapply reads_seq; [|done]. rewrite (wk_channel _ _ _ Hok). apply reads_head; [done|apply Hc|done|done|done]. }
  destruct Hn as [n Hn], Hs as (spec & Hs & Hspec). eexists. split.
  { unfold start_prefault. rewrite (reads_bind _ _ _ _ _ (reads_self w wd)), (reads_bind _ _ _ _ _ Hn), (reads_bind _ _ _ _ _ Hs).
    unfold Prefaulter_start. erewrite (reads_bind _ _ _ _ _); [reflexivity|].
    eapply reads_seq; [eapply reads_seq; [by apply reads_syscall|done]|]. eapply reads_seq; [by apply reads_spawn|done]. }
  split; [|unfold ids_left, supply; rewrite (wk_prefault _ _ _ Hok); cbn; lia].
  constructor; [destruct Hok; by constructor|cbn; lia|done|destruct Hg; by constructor|].
  eexists. split; [reflexivity|]. split.
  - constructor; try done. cbn. by rewrite Hl.
  - by constructor.
Qed.

(** C12: a helper changes no message. A writer starts one and sends, the helper's turns falling
    anywhere between its calls: every send succeeds, the segments it left and the one it is in hold
    the messages there were and the ones it sent, in order, each segment it left ends with the [Roll]
    that names the next, and the next record keeps its index. *)
Theorem a_helper_changes_no_message w wd es time acts :
  calm wd -> writer_ok w wd es -> grounds w wd -> core_ok (default inherit (w_helper w)) ->
  w_dir wd !! channel_file_name (w_base_path w) (w_file_sequence w + 1) = None ->
  Forall (may_be_sent w) (sent_by acts) -> room_for (Z.of_nat (length (sent_by acts))) w wd es ->
  let o := start_prefault w wd in
  let '(rs, w', wd') := together acts (Some (first_turn time)) (o_self o) (o_world o) in
  o_res o = Ok tt /\ rs = map (fun _ => Ok tt) (sent_by acts) /\
  exists es' left, writer_ok (bare wd' w') wd' es' /\
    next_index w' wd' es' = next_index w wd es + Z.of_nat (length (sent_by acts)) /\
    place_of (hd (stay_of w' wd' es') left) = place_of (stay_of w wd es) /\
    linked (w_region_size w) wd' left (stay_of w' wd' es') /\
    written wd' (left ++ [stay_of w' wd' es']) = messages (data_of wd (w_file w)) es ++ sent_by acts.
Proof.
  intros Hc Hok Hg Hcore Hfree Hall Hroom o. destruct (start_run w wd es Hc Hok Hg Hcore (fun _ => Hfree)) as (p & E & Ha & Hids).
  unfold o. rewrite E. cbn [o_res o_self o_world].
  assert (Ht : thread_fine (set_prefault (Some p) w) (Some (first_turn time))).
  { pose proof (rs_pos _ (wk_rs _ _ _ Hok)) as Hrs. pose proof page_size_pos. constructor; [|done].
    constructor; cbn; [lia|apply Z.mod_0_l; lia|done]. }
  pose proof (together_run acts _ _ wd es Ha Ht) as Hrun.
  destruct (together acts (Some (first_turn time)) (set_prefault (Some p) w) wd) as [[rs w'] wd'].
  destruct Hrun as (Er & es' & [A1 A2 A3 A4 A5 A6 A7 A8 (left & A9 & A10 & A11 & A12)]).
  - eapply Forall_impl; [exact Hall|]. intros m ([] & ?). by split; [constructor|].
  - unfold room_for in *. by rewrite Hids.
  - split; [done|]. split; [exact Er|]. exists es', left. split; [apply A1|]. by split_and!.
Qed.

(** C32: a turn of the helper keeps its promise, whatever it does in it: the writer is where it was,
    no byte of a file there was has changed, and no instance ID is lost.  The region held ready is the
    one the writer goes to next, the one after its own in its file; the segment held ready is the
    next one, installed under its final name with an identity that follows the writer's.  They are
    held in time: after a turn that another follows, a writer in the second half of its region finds
    the next one ready, if its file has one, and half a region before its file is full, the next
    segment, unless making it was refused.  The thread ends only because it was asked to, or for want of an instance
    ID, never by a panic. *)
Theorem the_writer_helper_keeps_its_promise w wd es th :
  assisted w wd es -> thread_fine w th -> w_file_sequence w + 1 <= U64_MAX ->
  let '(th', w', wd') := take_turn th w wd in
  let rs := w_region_size w in
  let next := w_current_region_index w + 1 in
  (assisted w' wd' es /\ thread_fine w' th' /\ w' = set_prefault (w_prefault w') w /\
   (forall j, j < w_next wd -> data_of wd' j = data_of wd j) /\ ids_left w' wd' = ids_left w wd /\
   (th <> None -> th' = None -> ids_left w wd = 0%nat \/ exists p, w_prefault w = Some p /\ p_stop p = true)) /\
  forall p', w_prefault w' = Some p' ->
    (forall n, p_next p' = Some n ->
       n_sequence n = w_file_sequence w /\ n_index n = next /\
       n_region n = Mapping (w_file w) (next * rs) rs /\ (next + 1) * rs <= len_of wd' (w_file w)) /\
    (forall n, p_ready p' = Some n ->
       ns_sequence n = w_file_sequence w + 1 /\
       w_dir wd' !! channel_file_name (w_base_path w) (w_file_sequence w + 1) = Some (DFile (ps_file (ns_segment n))) /\
       exists id, ns_identity n = Identity_successor id (w_instance w) (w_file_sequence w)) /\
    (th <> None -> th' <> None -> readied w p' wd').
Proof.
  intros Ha Ht Hlast. pose proof (take_turn_run w wd es th Ha Ht Hlast) as Hturn.
  destruct (take_turn th w wd) as [[th' w'] wd']. destruct Hturn as ([[T1 T2 T3 T4 T5 T6] T7] & T8 & _).
  cbv zeta. split; [by split_and!|]. intros p' Ep. destruct (as_shared _ _ _ T1) as (p & E & Hw & Hp).
  rewrite Ep in E. injection E as <-. rewrite T3 in Hw, Hp. split; [|split].
  - intros n En. destruct (wn_next _ _ _ Hw n En) as (E1 & E2 & E3 & E4). rewrite E2 in E3, E4. by split_and!.
  - intros n En. pose proof (pl_ready _ _ _ Hp) as Hr. rewrite En in Hr. destruct Hr as (_ & ino & len & id & -> & [_ I1 _ _ _]).
    split; [done|]. split; [exact I1|]. by exists id.
  - intros H1 H2. specialize (T8 H1 H2 p' Ep). rewrite T3 in T8. destruct T8 as [R1 R2]. by constructor.
Qed.

(** C34: every range the thread asks the kernel to populate, from its first turn on, whatever the
    system calls return and others do in between, starts at a page and lies inside a region.  After a
    turn of the thread the kernel has been asked for the writer's region from the page the writer is
    at as far ahead as the thread estimates, or to the region's end, and, once that is reached, for
    the head of the next region if that is held ready; the thread's notes of what was asked for are
    true at its start, after each turn, and wherever the writer goes on to. *)
Theorem helper_populates_ahead_of_the_writer :
  (forall size fuel p wd, 0 < size <= U32_MAX /\ size mod page_size = 0 -> sizes size p ->
     exists calls, w_calls (o_world (run fuel p wd)) = calls ++ w_calls wd /\
       Forall (fun c => match c with
                        | KPopulate m off len =>
                            region_size m = size /\ off mod page_size = 0 /\ 0 <= off /\ 0 <= len /\ off + len <= size
                        | KWake _ _ => True
                        end) calls) /\
  (forall w time wd, w_file_sequence w < U64_MAX -> kept_up w (first_turn time) wd) /\
  (forall w wd es t, assisted w wd es -> thread_fine w (Some t) -> w_file_sequence w + 1 <= U64_MAX ->
     SUPPORTED = true -> kept_up w t wd ->
     let '(th', w', wd') := take_turn (Some t) w wd in
     forall t' p', th' = Some t' -> w_prefault w' = Some p' -> kept_up w' t' wd' /\ populated w' t' p' wd') /\
  (forall w t wd w2 wd2 calls, kept_up w t wd -> w_calls wd2 = calls ++ w_calls wd -> w_file_sequence w2 < U64_MAX ->
     further w wd w2 wd2 -> kept_up w2 t wd2).
Proof.
  split_and!.
  - intros size fuel p wd Hs Hp. destruct (careful_run size Hs fuel p wd Hp) as (_ & (calls & E & Hall) & _).
    exists calls. split; [exact E|]. eapply Forall_impl; [exact Hall|]. by intros [].
  - intros. by apply kept_up_first.
  - intros w wd es t Ha Ht Hlast Hsup Hk. pose proof (take_turn_run w wd es (Some t) Ha Ht Hlast) as Hturn.
    destruct (take_turn (Some t) w wd) as [[th' w'] wd']. destruct Hturn as (_ & _ & Hturn).
    intros t' p' -> Ep. by apply (Hturn ltac:(done) Hsup t t' p').
  - intros. by eapply kept_up_later.
Qed.

(** C13: a roll of a writer with a helper, into the segment the helper installed or into one the writer
    prepares for want of it, continues the channel: at every point of it the old segment's records
    are intact and a committed [Roll] leads to a published segment it names; it ends with the writer
    in that segment, numbered on from the last record, and with what the helper holds ready gone or
    an instance ID used. *)
Theorem a_helped_roll_continues_the_channel w wd es p :
  assisted w wd es -> w_prefault w = Some p -> 0 < w_file_roll_size w -> w_file_sequence w + 1 <= U64_MAX ->
  next_index w wd es <= U64_MAX -> (1 <= supply p wd)%nat ->
  let o := roll_file w wd in
  o_res o = Ok tt /\ rolled_over p w wd es (o_self o) (o_world o) /\
  Forall (fun wd' => exists edge, roll_safe (bare wd w) es (generation_of w wd) edge wd') (o_trace o).
Proof.
  intros Ha Ep Hr Hseq Hidx Hsup o. destruct (helped_roll_run p w wd es Ha Ep Hr Hseq) as [[E Hro] Htr]; [|done|by split_and!].
  pose proof (sg_count _ _ _ _ (wk_segment _ _ _ (as_ok _ _ _ Ha))) as Hn. change (w_file (bare wd w)) with (w_file w) in Hn.
  rewrite Hn. exact Hidx.
Qed.

End theorems.

(** ** Witnesses *)

(** The built channel, with more instance IDs to draw. *)
Definition ids_ahead : list InstanceId := map id_of [2; 3; 4; 5; 6; 7].
Definition wd_ids : world := drawn ids_ahead wd0.

Lemma wd_ids_calm : calm wd_ids.
Proof. done. Qed.

Lemma w0_ok_ids : writer_ok w0 wd_ids [].
Proof. destruct w0_ok. by constructor. Qed.

Lemma wd_ids_dir name : name <> channel_file_name "c" 0 -> w_dir wd_ids !! name = None.
Proof.
  intros Hn. change (w_dir wd_ids) with (w_dir wd0).
  assert (E : w_dir wd0 = {[channel_file_name "c" 0 := DFile 1]}) by (vm_compute; reflexivity). rewrite E.
  by apply lookup_singleton_ne, not_eq_sym.
Qed.

Lemma w0_next k : 0 < k <= U64_MAX -> w_dir wd_ids !! channel_file_name "c" k = None.
Proof. intros Hk. apply wd_ids_dir. intros E%channel_file_name_inj; lia. Qed.

Lemma w0_grounds : grounds w0 wd_ids.
Proof.
  constructor.
  - by vm_compute.
  - split; [apply (id_of_ok 1); lia|by vm_compute].
  - apply zeros_name_ok.
  - by vm_compute.
  - by vm_compute.
  - split; [by vm_compute|right; by vm_compute].
  - right. exists 8192. vm_compute. reflexivity.
  - by vm_compute.
  - assert (Hids : Forall (fun id => id_ok id /\ id <> InstanceId_NONE) ids_ahead).
    { repeat constructor; try (apply id_of_ok; lia); by vm_compute. }
    eapply Forall_impl; [exact Hids|]. intros id [Hi Hne]. split; [exact Hi|]. split; [exact Hne|].
    intros k. apply wd_ids_dir. by apply attempt_name_not_file.
  - intros k Hk. apply w0_next. change (1 < k <= U64_MAX) in Hk. lia.
Qed.

(** Four messages, the third of which does not fit the first file. *)
Definition acts0 : list Act :=
  [Turns 1; Sends 0 1 (MkMessage 1 0 (repeat 7 3000)); Turns 2; Sends 1 0 (MkMessage 2 0 (repeat 8 3000));
   Sends 0 0 (MkMessage 3 0 (repeat 9 3000)); Turns 1; Sends 1 1 (MkMessage 4 0 (repeat 10 3000))].

Lemma acts0_sendable : Forall (may_be_sent w0) (sent_by acts0).
Proof.
  assert (Hm : forall t b, 0 <= t < 10 -> 0 <= b < 20 -> may_be_sent w0 (MkMessage t 0 (repeat b 3000))).
  { intros t b Ht Hb. split; [|split; [cbn; lia|split; [cbn; lia|]]].
    - cbn [ms_payload]. rewrite repeat_length. by apply w0_admissible.
    - apply Forall_forall. intros x Hx%list_elem_of_In%repeat_spec. subst x. unfold is_byte. lia. }
  change (Forall (may_be_sent w0) [MkMessage 1 0 (repeat 7 3000); MkMessage 2 0 (repeat 8 3000); MkMessage 3 0 (repeat 9 3000); MkMessage 4 0 (repeat 10 3000)]).
  do 4 (apply Forall_cons; split; [apply Hm; lia|]). apply Forall_nil. done.
Qed.

Lemma a_helper_changes_no_message_witness :
  let o := start_prefault w0 wd_ids in
  let '(rs, w', wd') := together acts0 (Some (first_turn 0)) (o_self o) (o_world o) in
  rs = [Ok tt; Ok tt; Ok tt; Ok tt] /\ exists es' left,
    written wd' (left ++ [stay_of w' wd' es']) = sent_by acts0.
Proof.
  pose proof (a_helper_changes_no_message w0 wd_ids [] 0 acts0 wd_ids_calm w0_ok_ids w0_grounds I (w0_next 1 ltac:(unfold U64_MAX; lia))
    acts0_sendable) as Hrun.
  assert (Hroom : room_for (Z.of_nat (length (sent_by acts0))) w0 wd_ids []).
  { change (Z.of_nat (length (sent_by acts0))) with 4. split; [by vm_compute|]. split; [by vm_compute|right; split; by vm_compute]. }
  specialize (Hrun Hroom). cbv zeta in *.
  destruct (together acts0 (Some (first_turn 0)) (o_self (start_prefault w0 wd_ids)) (o_world (start_prefault w0 wd_ids))) as [[rs w'] wd'].
  destruct Hrun as (_ & Er & es' & left & _ & _ & _ & _ & E). split; [exact Er|]. exists es', left. exact E.
Defined.

(** The writer with its helper, as started. *)
Definition started0 := start_prefault w0 wd_ids.

Lemma started0_assisted : assisted (o_self started0) wd_ids [] /\
  exists p, w_prefault (o_self started0) = Some p /\ (1 <= supply p wd_ids)%nat.
Proof.
  destruct (start_run w0 wd_ids [] wd_ids_calm w0_ok_ids w0_grounds I) as (p & E & Ha & Hids).
  { intros _. apply (w0_next 1). unfold U64_MAX. lia. }
  unfold started0. rewrite E. split; [exact Ha|]. exists p. split; [reflexivity|].
  unfold ids_left in Hids at 1. cbn [w_prefault set_prefault] in Hids. rewrite Hids. apply Nat.leb_le. vm_compute. reflexivity.
Qed.

(** Its thread, before its first turn. *)
Lemma first_turn_fine : thread_fine (o_self started0) (Some (first_turn 0)).
Proof. constructor; [|done]. constructor; by vm_compute. Qed.

Lemma the_writer_helper_keeps_its_promise_witness :
  let '(th', w', wd') := take_turn (Some (first_turn 0)) (o_self started0) wd_ids in
  assisted w' wd' [] /\ thread_fine w' th' /\ data_of wd' 1 = data_of wd_ids 1.
Proof.
  pose proof (the_writer_helper_keeps_its_promise (o_self started0) wd_ids [] (Some (first_turn 0)) (proj1 started0_assisted)
    first_turn_fine ltac:(by vm_compute)) as Hturn.
  destruct (take_turn (Some (first_turn 0)) (o_self started0) wd_ids) as [[th' w'] wd'].
  destruct Hturn as ((Ha & Ht & _ & Hd & _) & _). split; [exact Ha|]. split; [exact Ht|]. apply Hd. by vm_compute.
Defined.

(** The first turn asks for the whole region, of one page. *)
Lemma helper_populates_ahead_of_the_writer_witness :
  let '(th', w', wd') := take_turn (Some (first_turn 0)) (o_self started0) wd_ids in
  (exists t', th' = Some t') /\ covered wd' (Mapping 1 0 4096) 0 4096 /\
  exists calls, w_calls (o_world (run 2 helper0 wd0)) = calls ++ w_calls wd0.
Proof.
  destruct helper_populates_ahead_of_the_writer as (Hrun & Hfirst & Hturn & _).
  assert (Hs : sizes 4096 helper0) by (constructor; [done|by intros m [= <-]|done]).
  assert (Hfit : 0 < 4096 <= U32_MAX /\ 4096 mod page_size = 0) by (split; [split; [lia|by vm_compute]|reflexivity]).
  destruct (Hrun 4096 2%nat helper0 wd0 Hfit Hs) as (calls & E & _).
  specialize (Hturn (o_self started0) wd_ids [] (first_turn 0) (proj1 started0_assisted) first_turn_fine ltac:(by vm_compute) eq_refl
    (Hfirst (o_self started0) 0 wd_ids eq_refl)).
  assert (Hsome : exists t' p', (take_turn (Some (first_turn 0)) (o_self started0) wd_ids).1.1 = Some t' /\
    w_prefault (take_turn (Some (first_turn 0)) (o_self started0) wd_ids).1.2 = Some p' /\
    w_current_region (take_turn (Some (first_turn 0)) (o_self started0) wd_ids).1.2 = Mapping 1 0 4096 /\
    page_of (header_off (take_turn (Some (first_turn 0)) (o_self started0) wd_ids).1.2 (take_turn (Some (first_turn 0)) (o_self started0) wd_ids).2) = 0 /\
    Z.min (header_off (take_turn (Some (first_turn 0)) (o_self started0) wd_ids).1.2 (take_turn (Some (first_turn 0)) (o_self started0) wd_ids).2 + u_ahead t')
      (w_region_size (take_turn (Some (first_turn 0)) (o_self started0) wd_ids).1.2) = 4096).
  { eexists _, _. split_and!; vm_compute; reflexivity. }
  destruct (take_turn (Some (first_turn 0)) (o_self started0) wd_ids) as [[th' w'] wd'].
  destruct Hsome as (t' & p' & E1 & E2 & E3 & E4 & E5). cbn [fst snd] in *. split; [by exists t'|]. split; [|by exists calls].
  destruct (Hturn t' p' E1 E2) as [_ [Hcov _]]. rewrite E3, E4, E5 in Hcov. exact Hcov.
Defined.

Lemma a_helped_roll_continues_the_channel_witness : o_res (roll_file (o_self started0) wd_ids) = Ok tt.
Proof.
  destruct started0_assisted as [Ha (p & Ep & Hsup)].
  assert (H1 : 0 < w_file_roll_size (o_self started0)) by (vm_compute; reflexivity).
  assert (H2 : w_file_sequence (o_self started0) + 1 <= U64_MAX) by (vm_compute; discriminate).
  assert (H3 : next_index (o_self started0) wd_ids [] <= U64_MAX) by (vm_compute; discriminate).
  exact (proj1 (a_helped_roll_continues_the_channel (o_self started0) wd_ids [] p Ha Ep H1 H2 H3 Hsup)).
Defined.
