(* ===== verification/Findings.v ===== *)
(** * What modelling the code showed

    Concrete runs of the model in which the code does not do what it means to, or not what its
    documentation says. *)

From Stdlib Require Import String.
From S2P Require Import Prelude Bytes Effects Region Channel V4 V4Facts Names Segment Helper MapAhead Prefault Writer Reader Wake Chain RegionFacts SegmentFacts Route Demo BatchFacts.

#[local] Open Scope string_scope.
#[local] Open Scope list_scope.
#[local] Open Scope Z_scope.

Definition failed {S A} (o : outcome S A) : option io_error := match o_res o with Err e => Some e | _ => None end.

(** A size near the end of [usize] wraps: the reservation is refused, but only after it was noted, and
    a commit of any length then moves the writer past the end of its file. *)
Definition wrapping : outcome Writer slice := try_reserve (2 ^ 64 - 16) w0 wd0.
Definition overlong : outcome Writer unit := Writer_commit 1 3000000 0 (o_self wrapping) (o_world wrapping).

Lemma reservation_wraps :
  failed wrapping = Some (err_other "message crosses region boundary") /\
  o_res overlong = Ok tt /\ len_of (o_world overlong) 1 = 8192 /\ w_next_hdr_pos (o_self overlong) = 3000224.
Proof. split_and!; vm_compute; reflexivity. Qed.

(** An MTU past 32 bits: the successor the writer has prepared holds it truncated, and the roll that
    finds this successor in place refuses it. *)
Definition large_mtu (mtu : Z) : WriterBuilder := MkWriterBuilder "c" 4096 8192 mtu (Some 2) (zeros 48) 100 7 true None Immediate.
Definition mtu_writer (mtu : Z) : outcome unit Writer := WriterBuilder_build (large_mtu mtu) tt world0.
Definition adopting (mtu : Z) : outcome Writer unit :=
  let w := returned (mtu_writer mtu) no_writer in
  roll_file w (o_world (prepare_successor 1 7 w (o_world (mtu_writer mtu)))).

Lemma large_mtu_is_not_adopted :
  o_res (adopting 10) = Ok tt /\ failed (adopting (2 ^ 32 + 10)) = Some (err_invalid_data "segment is already installed and unusable").
Proof. split; vm_compute; reflexivity. Qed.

(** A header with a region size of zero makes a reader panic. *)
Lemma zero_region_size_panics :
  o_res (open_with "c" LateJoin None tt (write_inode 1 OFF_region_size (zeros 4) wd1)) = Die (Panicked "attempt to divide by zero").
Proof. vm_compute. reflexivity. Qed.

(** Names no writer gives a segment are listed as segments. *)
Definition strange_names : world :=
  World (<["c.+5" := DFile 1]> (<["c.007" := DFile 2]> ∅)) ∅ 3 0 (Oracle [] [] [] []) [].

Lemma strange_names_are_listed :
  o_res (find_all_sequences "c" tt strange_names) = Ok [5; 7] /\
  channel_file_name "c" 5 = "c.5" /\ channel_file_name "c" 7 = "c.7".
Proof. split_and!; vm_compute; reflexivity. Qed.

(** The longest timeout makes a wait panic. *)
Lemma longest_timeout_panics :
  o_res (wait_for_message 1 (Some DURATION_MAX) rd1 wd2) = Die (Panicked "overflow when adding duration to instant").
Proof. vm_compute. reflexivity. Qed.

(** A record that ends with its region, which the format excludes but no reader checks: a batch that
    reaches its limit with it leaves the reader's cursor in a region that is not mapped, and the next
    read panics, where single reads go on. *)
Definition at_region_end : world :=
  write_inode 1 208 (COMMITTED :: HeaderType_u8 User :: le_bytes 2 5 ++ le_bytes 4 3872 ++ le_bytes 8 0) wd1.

Lemma batch_at_region_end_panics :
  let o := try_read_batch (Some 1) rd1 at_region_end in
  (match o_res o with Ok (Some b) => List.length (mb_pos b) = 1%nat | _ => False end) /\
  o_res (try_read (o_self o) at_region_end) = Die (Panicked "current map does not match reader position") /\
  o_res (try_read (o_self (try_read rd1 at_region_end)) at_region_end) = Ok None.
Proof. cbv zeta. split_and!; vm_compute; reflexivity. Qed.

(** A batch without any limit set ends after 65535 messages. *)
Lemma unlimited_batch_is_limited r : batch_limit r = None -> batch_max r None = 65535.
Proof. intros E. unfold batch_max. by rewrite E. Qed.
